(** * tbman: token-based pool memory manager

    A shallow embedding of [tbman.cpp] and the verification of its
    specification.

    Target model: LP64.  [size_t] is a 64-bit unsigned integer, [uint16_t] a
    16-bit one; both are carried in [Z] with their wrap-around written out
    where the code can wrap.  Addresses are integers; the null pointer is 0.
    Vector indices and element counts ([size], [free_index], [parent_index])
    are [nat]: they count live objects and are only moved by one.

    Memory.  The header and token stack of every pool live in the field
    [pools] of the manager state, keyed by the pool address.  A
    [token_manager_s*] is an address, dereferenced through [pools]; a
    dangling or wild pointer dereference is [Undefined].  The vector
    [token_manager_s **data] of a block manager is the list of these
    addresses ([size] is its length).  User bytes are not modelled
    ([memcpy] has no effect on the allocator state). *)

From Stdlib Require Import ZArith QArith Lia Sorted.
From stdpp Require Import gmap list.

Open Scope Z_scope.

(** ** Machine integers *)

Definition uint16 (z : Z) : Z := z mod 65536.
Definition size_t (z : Z) : Z := z mod 2 ^ 64.

(** [sizeof(token_manager_s)] on LP64: two [size_t], two [uint16_t], one
    [bool], three bytes of padding, one pointer, one [size_t]. *)
Definition sizeof_token_manager_s : Z := 40.

(** Minimum alignment of memory blocks *)
Definition TBMAN_ALIGN : Z := 256.

Definition default_pool_size : Z := 65536.
Definition default_min_block_size : Z := 8.
Definition default_max_block_size : Z := 1024 * 16.
Definition default_stepping_method : Z := 1.
Definition default_full_align : bool := true.

(** ** Data model *)

Record token_manager_s := TokenManager {
  tm_pool_size : Z;
  tm_block_size : Z;
  tm_stack_size : Z;          (* uint16_t *)
  tm_stack_index : Z;         (* uint16_t *)
  tm_aligned : bool;
  tm_parent : nat;            (* the owning block manager: its index in the manager's data *)
  tm_parent_index : nat;
  tm_token_stack : list Z     (* the initialised cells of token_stack[] *)
}.

Record block_manager_s := BlockManager {
  bm_pool_size : Z;
  bm_block_size : Z;
  bm_align : bool;
  bm_data : list Z;           (* token_manager_s **data; size = length *)
  bm_space : nat;
  bm_free_index : nat;
  bm_sweep_hysteresis : Q;
  bm_aligned : bool
}.

Definition bm_size (o : block_manager_s) : nat := length (bm_data o).

(** Observable actions, logged in program order. *)
Inductive event :=
| EvLock
| EvUnlock
| EvVdSet (key : Z)
| EvVdRemove (key : Z)
| EvVdQuery (key : Z)
| EvPsSet (key val : Z)
| EvPsRemove (key : Z)
| EvPsQuery (key : Z)
| EvPsRun
| EvPoolScan
| EvFullToFree (parent : nat) (child : Z)
| EvFreeToEmpty (parent : nat) (child : Z)
| EvStackIndex (o : Z) (i : Z)
| EvTokenWrite (o : Z) (i : Z) (token : Z)
| EvDiscard (o : Z)
| EvPlatformFree (p : Z).

Record tbman_s := Tbman {
  data : list block_manager_s;   (* sorted by increasing block size *)
  pool_size : Z;
  min_block_size : Z;
  max_block_size : Z;
  aligned : bool;
  block_size_array : list Z;
  internal_btree : list Z;        (* btree_vd_s: the pool addresses *)
  external_btree : list (Z * Z);  (* btree_ps_s: pointer -> size *)
  mutex : bool;                   (* true while locked *)
  pools : gmap Z token_manager_s; (* memory holding the pool headers *)
  trace : list event
}.

Definition size (o : tbman_s) : nat := length (data o).

(** ** Errors and the state monad of the manager *)

Inductive error :=
| Fatal          (* ERR(...): message and abort() *)
| AssertFailed   (* assert(...) *)
| Undefined      (* undefined behaviour *)
| Nonconforming  (* the platform broke its contract *)
| Deadlock       (* locking a mutex that is held *)
| OutOfFuel.     (* a loop of the model has not finished within its fuel *)

Inductive result (A : Type) :=
| Ok (a : A)
| Err (e : error).
Arguments Ok {A} a.
Arguments Err {A} e.

Definition M (A : Type) : Type := tbman_s -> result (A * tbman_s).

Definition ret {A} (a : A) : M A := fun w => Ok (a, w).
Definition fail {A} (e : error) : M A := fun _ => Err e.
Definition bind {A B} (m : M A) (f : A -> M B) : M B :=
  fun w => match m w with
           | Ok (a, w') => f a w'
           | Err e => Err e
           end.
Definition get : M tbman_s := fun w => Ok (w, w).
Definition modify (f : tbman_s -> tbman_s) : M unit := fun w => Ok (tt, f w).

Notation "'let*' x ':=' m 'in' f" := (bind m (fun x => f))
  (at level 10, x name, m at level 100, f at level 200).
Notation "m ';;' f" := (bind m (fun _ => f))
  (at level 100, f at level 200, right associativity).

Definition when (b : bool) (m : M unit) : M unit := if b then m else ret tt.

(** Field updates. *)
Definition set_data (f : list block_manager_s -> list block_manager_s) (w : tbman_s) : tbman_s :=
  Tbman (f (data w)) (pool_size w) (min_block_size w) (max_block_size w) (aligned w)
        (block_size_array w) (internal_btree w) (external_btree w) (mutex w) (pools w) (trace w).
Definition set_aligned (b : bool) (w : tbman_s) : tbman_s :=
  Tbman (data w) (pool_size w) (min_block_size w) (max_block_size w) b
        (block_size_array w) (internal_btree w) (external_btree w) (mutex w) (pools w) (trace w).
Definition set_internal_btree (f : list Z -> list Z) (w : tbman_s) : tbman_s :=
  Tbman (data w) (pool_size w) (min_block_size w) (max_block_size w) (aligned w)
        (block_size_array w) (f (internal_btree w)) (external_btree w) (mutex w) (pools w) (trace w).
Definition set_external_btree (f : list (Z * Z) -> list (Z * Z)) (w : tbman_s) : tbman_s :=
  Tbman (data w) (pool_size w) (min_block_size w) (max_block_size w) (aligned w)
        (block_size_array w) (internal_btree w) (f (external_btree w)) (mutex w) (pools w) (trace w).
Definition set_mutex (b : bool) (w : tbman_s) : tbman_s :=
  Tbman (data w) (pool_size w) (min_block_size w) (max_block_size w) (aligned w)
        (block_size_array w) (internal_btree w) (external_btree w) b (pools w) (trace w).
Definition set_pools (f : gmap Z token_manager_s -> gmap Z token_manager_s) (w : tbman_s) : tbman_s :=
  Tbman (data w) (pool_size w) (min_block_size w) (max_block_size w) (aligned w)
        (block_size_array w) (internal_btree w) (external_btree w) (mutex w) (f (pools w)) (trace w).
Definition set_trace (f : list event -> list event) (w : tbman_s) : tbman_s :=
  Tbman (data w) (pool_size w) (min_block_size w) (max_block_size w) (aligned w)
        (block_size_array w) (internal_btree w) (external_btree w) (mutex w) (pools w) (f (trace w)).

Definition emit (e : event) : M unit := modify (set_trace (fun t => t ++ [e])).

(** Pointer dereference and store of a pool header. *)
Definition deref (o : Z) : M token_manager_s :=
  fun w => match pools w !! o with
           | Some tm => Ok (tm, w)
           | None => Err Undefined
           end.
Definition store (o : Z) (tm : token_manager_s) : M unit :=
  modify (set_pools (fun h => <[o := tm]> h)).

(** The block manager [o->data[c]] of the manager. *)
Definition get_bm (c : nat) : M block_manager_s :=
  fun w => match data w !! c with
           | Some bm => Ok (bm, w)
           | None => Err Undefined
           end.
Definition put_bm (c : nat) (bm : block_manager_s) : M unit :=
  modify (set_data (fun d => <[c := bm]> d)).

(** ** The ordered maps of btree.h *)

(** Modelled from the spec: [btree_vd_s] is the ordered set of pool
    addresses of btree.h, which is not part of the sources at hand.
    [btree_vd_s_set] returns 1 when the key was new and is now registered,
    [btree_vd_s_remove] returns 1 when the key was present and is now
    removed, [btree_vd_s_largest_below_equal] returns the largest key not
    above the query, or null. *)
Definition btree_vd_s_set (key : Z) : M Z :=
  emit (EvVdSet key);;
  let* w := get in
  if bool_decide (key ∈ internal_btree w) then ret 0
  else modify (set_internal_btree (fun t => key :: t));; ret 1.

Definition btree_vd_s_remove (key : Z) : M Z :=
  emit (EvVdRemove key);;
  let* w := get in
  if bool_decide (key ∈ internal_btree w)
  then modify (set_internal_btree (fun t => filter (fun k => k ≠ key) t));; ret 1
  else ret 0.

Definition largest_below_equal (keys : list Z) (q : Z) : Z :=
  foldr (fun k acc => if (k <=? q) && (acc <? k) then k else acc) 0 keys.

Definition btree_vd_s_largest_below_equal (q : Z) : M Z :=
  emit (EvVdQuery q);;
  let* w := get in
  ret (largest_below_equal (internal_btree w) q).

(** Modelled from the spec: [btree_ps_s] is the ordered map from external
    pointers to their byte sizes, of btree.h.  [btree_ps_s_set] returns 1
    when the key was new and is now registered, [btree_ps_s_remove] returns
    1 when the key was present and is now removed, [btree_ps_s_val] returns
    the recorded size or null, [btree_ps_s_sum] adds up the recorded sizes
    and [btree_ps_s_run] visits every entry. *)
Definition ps_val (t : list (Z * Z)) (key : Z) : option Z :=
  snd <$> (snd <$> list_find (fun kv => fst kv = key) t).

Definition btree_ps_s_set (key val : Z) : M Z :=
  emit (EvPsSet key val);;
  let* w := get in
  match ps_val (external_btree w) key with
  | Some _ => ret 0
  | None => modify (set_external_btree (fun t => (key, val) :: t));; ret 1
  end.

Definition btree_ps_s_remove (key : Z) : M Z :=
  emit (EvPsRemove key);;
  let* w := get in
  match ps_val (external_btree w) key with
  | Some _ => modify (set_external_btree (fun t => filter (fun kv => fst kv ≠ key) t));; ret 1
  | None => ret 0
  end.

Definition btree_ps_s_val (key : Z) : M (option Z) :=
  emit (EvPsQuery key);;
  let* w := get in
  ret (ps_val (external_btree w) key).

Definition btree_ps_s_sum : M Z :=
  emit EvPsRun;;
  let* w := get in
  ret (size_t (foldr (fun kv acc => snd kv + acc) 0 (external_btree w))).

Definition btree_ps_s_run : M (list (Z * Z)) :=
  emit EvPsRun;;
  let* w := get in
  ret (external_btree w).

(** ** The platform allocator *)

(** Modelled from the spec: [_aligned_malloc (alignment, size)] is the
    platform aligned-allocation primitive.  Its answer [sys] is chosen by
    the platform: null, or the address of [size] bytes of the 64-bit
    address space that overlap no live pool and no live external block.
    Alignment is only preferred: the code itself checks the address it
    gets. *)
Definition region_free (w : tbman_s) (p len : Z) : bool :=
  forallb (fun b => (b + pool_size w <=? p) || (p + len <=? b)) (internal_btree w)
  && forallb (fun kv => (fst kv + snd kv <=? p) || (p + len <=? fst kv)) (external_btree w).

Definition _aligned_malloc (sys : Z) (alignment size : Z) : M Z :=
  fun w =>
    if sys =? 0 then Ok (0, w)
    else if (0 <? sys) && (sys + size <=? 2 ^ 64) && region_free w sys size
    then Ok (sys, w)
    else Err Nonconforming.

Definition platform_free (p : Z) : M unit := emit (EvPlatformFree p).

(** ** Token manager *)

Definition reserved_blocks_of (pool_size block_size : Z) : Z :=
  let stack_size := pool_size / block_size in
  let reserved_size := sizeof_token_manager_s + 2 * stack_size in
  reserved_size / block_size + (if 0 <? reserved_size mod block_size then 1 else 0).

(** The loop [for (i = 0; i < o->stack_size; i++) o->token_stack[i] = ...]:
    it runs [o->stack_size] times, the 16-bit field, and compares against
    the local [stack_size]. *)
Definition init_token_stack (field_stack_size stack_size reserved_blocks : Z) : list Z :=
  (fun i => if i + reserved_blocks <? stack_size then uint16 (i + reserved_blocks) else 0)
    <$> seqZ 0 field_stack_size.

Definition token_manager_s_create (sys : Z) (pool_size block_size : Z) (align : bool) : M Z :=
  if negb (Z.land pool_size (size_t (pool_size - 1)) =? 0) then fail Fatal else
  if block_size =? 0 then fail Undefined else
  let stack_size := pool_size / block_size in
  if 65536 <? stack_size then fail Fatal else
  let reserved_size := sizeof_token_manager_s + 2 * stack_size in
  let reserved_blocks :=
    reserved_size / block_size + (if 0 <? reserved_size mod block_size then 1 else 0) in
  if stack_size <? reserved_blocks + 1 then fail Fatal else
  let* o := _aligned_malloc sys (if align then pool_size else TBMAN_ALIGN) pool_size in
  if o =? 0 then fail Fatal else
  store o {| tm_pool_size := pool_size;
             tm_block_size := block_size;
             tm_stack_size := uint16 stack_size;
             tm_stack_index := 0;
             tm_aligned := Z.land o (size_t (pool_size - 1)) =? 0;
             tm_parent := 0%nat;
             tm_parent_index := 0%nat;
             tm_token_stack :=
               init_token_stack (uint16 stack_size) stack_size reserved_blocks |};;
  ret o.

Definition token_manager_s_discard (o : Z) : M unit :=
  if o =? 0 then ret tt else
  emit (EvDiscard o);;
  modify (set_pools (fun h => delete o h)).

(** [o->token_stack[i]]: reading a cell that was never written is
    undefined. *)
Definition read_token (tm : token_manager_s) (i : Z) : M Z :=
  match tm_token_stack tm !! Z.to_nat i with
  | Some t => ret t
  | None => fail Undefined
  end.

Definition token_manager_s_is_full (o : Z) : M bool :=
  let* tm := deref o in
  let* t := read_token tm (tm_stack_index tm) in
  ret (t =? 0).

Definition token_manager_s_is_empty (o : Z) : M bool :=
  let* tm := deref o in
  ret (tm_stack_index tm =? 0).

Definition set_stack_index (i : Z) (tm : token_manager_s) : token_manager_s :=
  TokenManager (tm_pool_size tm) (tm_block_size tm) (tm_stack_size tm) i
               (tm_aligned tm) (tm_parent tm) (tm_parent_index tm) (tm_token_stack tm).
Definition set_token_stack (s : list Z) (tm : token_manager_s) : token_manager_s :=
  TokenManager (tm_pool_size tm) (tm_block_size tm) (tm_stack_size tm) (tm_stack_index tm)
               (tm_aligned tm) (tm_parent tm) (tm_parent_index tm) s.
Definition set_parent (c : nat) (k : nat) (tm : token_manager_s) : token_manager_s :=
  TokenManager (tm_pool_size tm) (tm_block_size tm) (tm_stack_size tm) (tm_stack_index tm)
               (tm_aligned tm) c k (tm_token_stack tm).
Definition set_parent_index (k : nat) (tm : token_manager_s) : token_manager_s :=
  set_parent (tm_parent tm) k tm.

Definition token_manager_s_alloc (o : Z) : M Z :=
  let* full := token_manager_s_is_full o in
  if full then fail AssertFailed else
  let* tm := deref o in
  let* t := read_token tm (tm_stack_index tm) in
  let ret_ptr := o + size_t (t * tm_block_size tm) in
  if ret_ptr <? o + sizeof_token_manager_s then fail AssertFailed else
  emit (EvStackIndex o (uint16 (tm_stack_index tm + 1)));;
  store o (set_stack_index (uint16 (tm_stack_index tm + 1)) tm);;
  ret ret_ptr.

(** ** Block manager *)

Definition set_bm_data (d : list Z) (o : block_manager_s) : block_manager_s :=
  BlockManager (bm_pool_size o) (bm_block_size o) (bm_align o) d (bm_space o)
               (bm_free_index o) (bm_sweep_hysteresis o) (bm_aligned o).
Definition set_bm_space (n : nat) (o : block_manager_s) : block_manager_s :=
  BlockManager (bm_pool_size o) (bm_block_size o) (bm_align o) (bm_data o) n
               (bm_free_index o) (bm_sweep_hysteresis o) (bm_aligned o).
Definition set_bm_free_index (n : nat) (o : block_manager_s) : block_manager_s :=
  BlockManager (bm_pool_size o) (bm_block_size o) (bm_align o) (bm_data o) (bm_space o)
               n (bm_sweep_hysteresis o) (bm_aligned o).
Definition set_bm_aligned (b : bool) (o : block_manager_s) : block_manager_s :=
  BlockManager (bm_pool_size o) (bm_block_size o) (bm_align o) (bm_data o) (bm_space o)
               (bm_free_index o) (bm_sweep_hysteresis o) b.

Definition block_manager_s_create (pool_size block_size : Z) (align : bool) : block_manager_s :=
  {| bm_pool_size := pool_size;
     bm_block_size := block_size;
     bm_align := align;
     bm_data := [];
     bm_space := 0%nat;
     bm_free_index := 0%nat;
     bm_sweep_hysteresis := (1 # 8)%Q;   (* 0.125 *)
     bm_aligned := true |}.

(** [o->data[k]] *)
Definition data_at (o : block_manager_s) (k : nat) : M Z :=
  match bm_data o !! k with
  | Some a => ret a
  | None => fail Undefined
  end.

Definition tbman_s_lost_alignment (child : nat) : M unit :=
  modify (set_aligned false).

Definition block_manager_s_alloc (sys : Z) (c : nat) : M Z :=
  let* o := get_bm c in
  when (bm_free_index o =? bm_size o)%nat (
    let o := if (bm_size o =? bm_space o)%nat
             then set_bm_space (if (0 <? bm_space o)%nat then (bm_space o * 2)%nat else 1%nat) o
             else o in
    let* a := token_manager_s_create sys (bm_pool_size o) (bm_block_size o) (bm_align o) in
    let* tm := deref a in
    store a (set_parent c (bm_size o) tm);;
    let* o :=
      if bm_aligned o && negb (tm_aligned tm)
      then tbman_s_lost_alignment c;; ret (set_bm_aligned false o)
      else ret o in
    let* r := btree_vd_s_set a in
    if negb (r =? 1) then fail Fatal else
    put_bm c (set_bm_data (bm_data o ++ [a]) o));;
  let* o := get_bm c in
  let* child := data_at o (bm_free_index o) in
  let* ret_ptr := token_manager_s_alloc child in
  let* full := token_manager_s_is_full child in
  when full (put_bm c (set_bm_free_index (S (bm_free_index o)) o));;
  ret ret_ptr.

(** A child reports turning full --> free *)
Definition block_manager_s_full_to_free (c : nat) (child : Z) : M unit :=
  emit (EvFullToFree c child);;
  let* o := get_bm c in
  if (bm_free_index o =? 0)%nat then fail AssertFailed else
  let o := set_bm_free_index (pred (bm_free_index o)) o in
  put_bm c o;;
  (* swap child with current free position *)
  let* tm := deref child in
  let child_index := tm_parent_index tm in
  let swapc_index := bm_free_index o in
  let* swapc := data_at o swapc_index in
  if negb (child_index <? bm_size o)%nat then fail Undefined else
  put_bm c (set_bm_data (<[child_index := swapc]> (<[swapc_index := child]> (bm_data o))) o);;
  store child (set_parent_index swapc_index tm);;
  let* stm := deref swapc in
  store swapc (set_parent_index child_index stm).

(** The loop [while (empty_index > 0 && is_empty (data[empty_index - 1]))
    empty_index--]; it yields the final [empty_index]. *)
Fixpoint empty_index_loop (h : gmap Z token_manager_s) (d : list Z) (empty_index : nat)
  : result nat :=
  match empty_index with
  | O => Ok O
  | S k =>
      match d !! k with
      | None => Err Undefined
      | Some a =>
          match h !! a with
          | None => Err Undefined
          | Some tm => if tm_stack_index tm =? 0 then empty_index_loop h d k else Ok (S k)
          end
      end
  end.

Definition block_manager_s_empty_tail (c : nat) : M nat :=
  let* o := get_bm c in
  let* w := get in
  if (bm_size o =? 0)%nat then ret 0%nat else
  match empty_index_loop (pools w) (bm_data o) (bm_size o) with
  | Ok empty_index => ret (bm_size o - empty_index)%nat
  | Err e => fail e
  end.

(** [empty_tail > (o->size - empty_tail) * o->sweep_hysteresis].  Both
    counts convert to double without rounding (they are below 2^53) and the
    hysteresis 0.125 is a power of two, so the comparison of doubles is the
    comparison of the exact rationals. *)
Definition sweep_fires (empty_tail size : nat) (hysteresis : Q) : bool :=
  negb (Qle_bool (inject_Z (Z.of_nat empty_tail))
                 (inject_Z (Z.of_nat (size - empty_tail)) * hysteresis)).

(** The loop [while (o->size > 0 && is_empty (o->data[o->size - 1]))];
    [n] is [o->size]. *)
Fixpoint sweep_loop (c : nat) (n : nat) : M unit :=
  match n with
  | O => ret tt
  | S k =>
      let* o := get_bm c in
      let* a := data_at o k in
      let* empty := token_manager_s_is_empty a in
      if empty then
        put_bm c (set_bm_data (take k (bm_data o)) o);;
        let* r := btree_vd_s_remove a in
        if negb (r =? 1) then fail Fatal else
        token_manager_s_discard a;;
        sweep_loop c k
      else ret tt
  end.

(** A child reports turning free --> empty *)
Definition block_manager_s_free_to_empty (c : nat) (child : Z) : M unit :=
  emit (EvFreeToEmpty c child);;
  (* move empty manager to tail (if not already there) *)
  let* tm := deref child in
  let child_index := tm_parent_index tm in
  let* empty_tail := block_manager_s_empty_tail c in
  let* o := get_bm c in
  let* empty_tail :=
    if (empty_tail <? bm_size o)%nat then
      let swapc_index := (bm_size o - empty_tail - 1)%nat in
      if (child_index <? swapc_index)%nat then
        let* swapc := data_at o swapc_index in
        put_bm c (set_bm_data (<[swapc_index := child]> (<[child_index := swapc]> (bm_data o))) o);;
        store child (set_parent_index swapc_index tm);;
        let* stm := deref swapc in
        store swapc (set_parent_index child_index stm);;
        ret (S empty_tail)
      else ret empty_tail
    else ret empty_tail in
  let* o := get_bm c in
  (* discard empty managers when enough accumulated *)
  if sweep_fires empty_tail (bm_size o) (bm_sweep_hysteresis o)
  then sweep_loop c (bm_size o)
  else ret tt.

Definition token_manager_s_free (o ptr : Z) : M unit :=
  let* tm := deref o in
  if tm_block_size tm =? 0 then fail Undefined else
  let token := uint16 (size_t (ptr - o) / tm_block_size tm) in
  let* t := read_token tm (tm_stack_index tm) in
  when (t =? 0) (block_manager_s_full_to_free (tm_parent tm) o);;
  let* tm := deref o in
  let i := uint16 (tm_stack_index tm - 1) in
  emit (EvStackIndex o i);;
  store o (set_stack_index i tm);;
  if negb (Z.to_nat i <? length (tm_token_stack tm))%nat then fail Undefined else
  emit (EvTokenWrite o i token);;
  store o (set_token_stack (<[Z.to_nat i := token]> (tm_token_stack tm)) (set_stack_index i tm));;
  when (i =? 0) (block_manager_s_free_to_empty (tm_parent tm) o).

(** ** Memory manager *)

(** The loop [while ((size_mask < min_block_size) ||
    ((size_mask << 1) & min_block_size) != 0) size_mask <<= 1]. *)
Fixpoint size_mask_loop (fuel : nat) (size_mask min_block_size : Z) : option Z :=
  match fuel with
  | O => None
  | S fuel' =>
      if (size_mask <? min_block_size)
         || negb (Z.land (size_t (Z.shiftl size_mask 1)) min_block_size =? 0)
      then size_mask_loop fuel' (size_t (Z.shiftl size_mask 1)) min_block_size
      else Some size_mask
  end.

(** The loop [for (block_size = min_block_size; block_size <=
    max_block_size; block_size += size_inc)]; it yields the block sizes of
    the block managers it creates, in order. *)
Fixpoint ladder_loop (fuel : nat) (block_size size_mask size_inc max_block_size : Z)
  : option (list Z) :=
  match fuel with
  | O => None
  | S fuel' =>
      if block_size <=? max_block_size then
        let size_mask' := if size_mask <? block_size then size_t (Z.shiftl size_mask 1) else size_mask in
        let size_inc' := if size_mask <? block_size then size_t (Z.shiftl size_inc 1) else size_inc in
        match ladder_loop fuel' (size_t (block_size + size_inc')) size_mask' size_inc' max_block_size with
        | Some l => Some (block_size :: l)
        | None => None
        end
      else Some []
  end.

(** [(1 << mask_bxp) - 1] is computed in [int]: shifting by 31 or more
    overflows. *)
Definition tbman_s_init (fuel : nat)
    (pool_size min_block_size max_block_size stepping_method : Z) (full_align : bool)
  : result tbman_s :=
  let mask_bxp := stepping_method in
  if 31 <=? mask_bxp then Err Undefined else
  let size_mask := Z.shiftl 1 mask_bxp - 1 in
  let size_inc := min_block_size in
  match size_mask_loop fuel size_mask min_block_size with
  | None => Err OutOfFuel
  | Some size_mask =>
      match ladder_loop fuel min_block_size size_mask size_inc max_block_size with
      | None => Err OutOfFuel
      | Some sizes =>
          let d := (fun b => block_manager_s_create pool_size b full_align) <$> sizes in
          Ok {| data := d;
                pool_size := pool_size;
                min_block_size := min_block_size;
                max_block_size := max_block_size;
                aligned := foldl (fun acc bm => acc && bm_aligned bm) true d;
                block_size_array := bm_block_size <$> d;
                internal_btree := [];
                external_btree := [];
                mutex := false;
                pools := ∅;
                trace := [] |}
      end
  end.

Definition tbman_s_create := tbman_s_init.

Definition tbman_s_create_default (fuel : nat) : result tbman_s :=
  tbman_s_create fuel default_pool_size default_min_block_size default_max_block_size
                 default_stepping_method default_full_align.

(** The scan [for (i = 0; i < o->size; i++) if (requested_size <=
    o->block_size_array[i]) { block_manager = o->data[i]; break; }]; the
    block manager is named by its index. *)
Definition find_block_manager (o : tbman_s) (requested_size : Z) : option nat :=
  fst <$> list_find (fun b => requested_size ≤ b) (block_size_array o).

Definition tbman_s_mem_alloc (sys : Z) (requested_size : Z) : M (Z * Z) :=
  let* o := get in
  match find_block_manager o requested_size with
  | Some c =>
      let* reserved_ptr := block_manager_s_alloc sys c in
      let* block_manager := get_bm c in
      ret (reserved_ptr, bm_block_size block_manager)
  | None =>
      let* reserved_ptr := _aligned_malloc sys TBMAN_ALIGN requested_size in
      if reserved_ptr =? 0 then fail Fatal else
      let* r := btree_ps_s_set reserved_ptr requested_size in
      if negb (r =? 1) then fail Fatal else
      ret (reserved_ptr, requested_size)
  end.

(** [current_size && *current_size <= o->max_block_size && o->aligned] *)
Definition use_fast_path (o : tbman_s) (current_size : option Z) : bool :=
  match current_size with
  | Some cs => (cs <=? max_block_size o) && aligned o
  | None => false
  end.

(** [(intptr_t) current_ptr & ~(intptr_t) (o->pool_size - 1)] *)
Definition mask_pool (o : tbman_s) (current_ptr : Z) : Z :=
  Z.land current_ptr (Z.lnot (pool_size o - 1)).

(** The pool found through the tree, or null:
    [block_ptr && (current_ptr - block_ptr) < o->pool_size]. *)
Definition tree_pool (current_ptr : Z) : M Z :=
  let* block_ptr := btree_vd_s_largest_below_equal current_ptr in
  let* o := get in
  if negb (block_ptr =? 0) && (size_t (current_ptr - block_ptr) <? pool_size o)
  then ret block_ptr else ret 0.

Definition tbman_s_mem_free (current_ptr : Z) (current_size : option Z) : M unit :=
  let* o := get in
  if use_fast_path o current_size then
    token_manager_s_free (mask_pool o current_ptr) current_ptr
  else
    let* token_manager := tree_pool current_ptr in
    if negb (token_manager =? 0) then token_manager_s_free token_manager current_ptr
    else
      let* r := btree_ps_s_remove current_ptr in
      if negb (r =? 1) then fail Fatal else
      platform_free current_ptr.

Definition tbman_s_mem_realloc (sys : Z) (current_ptr : Z) (current_size : option Z)
    (requested_size : Z) : M (Z * Z) :=
  let* o := get in
  let* token_manager :=
    if use_fast_path o current_size then ret (mask_pool o current_ptr)
    else tree_pool current_ptr in
  if negb (token_manager =? 0) then
    let* tm := deref token_manager in
    if tm_block_size tm <? requested_size then
      let* r := tbman_s_mem_alloc sys requested_size in
      token_manager_s_free token_manager current_ptr;;
      ret r
    else (* size reduction *)
      match find_block_manager o requested_size with
      | None => fail Undefined
      | Some c =>
          let* block_manager := get_bm c in
          if negb (bm_block_size block_manager =? tm_block_size tm) then
            let* reserved_ptr := block_manager_s_alloc sys c in
            token_manager_s_free token_manager current_ptr;;
            ret (reserved_ptr, bm_block_size block_manager)
          else
            (* same block-size: keep current location *)
            ret (current_ptr, tm_block_size tm)
      end
  else
    if requested_size <=? max_block_size o then
      (* new size fits into manager, old size was outside manager *)
      let* r := tbman_s_mem_alloc sys requested_size in
      let* x := btree_ps_s_remove current_ptr in
      if negb (x =? 1) then fail Fatal else
      platform_free current_ptr;;
      ret r
    else (* neither old nor new size handled by this manager *)
      let* p_current_size := btree_ps_s_val current_ptr in
      match p_current_size with
      | None => fail Fatal
      | Some current_ext_bytes =>
          (* is requested bytes is less but not significantly less than
             current bytes, keep current memory *)
          if (requested_size <? current_ext_bytes)
             && (Z.shiftr current_ext_bytes 1 <=? requested_size)
          then ret (current_ptr, current_ext_bytes)
          else
            let* reserved_ptr := _aligned_malloc sys TBMAN_ALIGN requested_size in
            if reserved_ptr =? 0 then fail Fatal else
            let* r := btree_ps_s_set reserved_ptr requested_size in
            if negb (r =? 1) then fail Fatal else
            let* x := btree_ps_s_remove current_ptr in
            if negb (x =? 1) then fail Fatal else
            platform_free current_ptr;;
            ret (reserved_ptr, requested_size)
      end.

(** [lock_guard<mutex> guard(o->mutex)] around a body. *)
Definition lock : M unit :=
  let* o := get in
  if mutex o then fail Deadlock else
  emit EvLock;; modify (set_mutex true).
Definition unlock : M unit := emit EvUnlock;; modify (set_mutex false).
Definition lock_guard {A} (body : M A) : M A :=
  lock;; let* r := body in unlock;; ret r.

(** The result is the pair of the returned pointer and the value stored to
    [*granted_size]. *)
Definition tbman_s_alloc (sys : Z) (current_ptr requested_size : Z) : M (Z * Z) :=
  lock_guard (
    if requested_size =? 0 then
      when (negb (current_ptr =? 0)) (tbman_s_mem_free current_ptr None);;
      ret (0, 0)
    else if negb (current_ptr =? 0) then
      tbman_s_mem_realloc sys current_ptr None requested_size
    else
      tbman_s_mem_alloc sys requested_size).

Definition tbman_s_nalloc (sys : Z) (current_ptr current_size requested_size : Z) : M (Z * Z) :=
  lock_guard (
    if requested_size =? 0 then
      (* 0 means current_ptr may not be used for free or realloc *)
      when (negb (current_size =? 0)) (tbman_s_mem_free current_ptr (Some current_size));;
      ret (0, 0)
    else if negb (current_size =? 0) then
      tbman_s_mem_realloc sys current_ptr (Some current_size) requested_size
    else
      tbman_s_mem_alloc sys requested_size).

(** ** Introspection *)

Definition token_manager_s_total_alloc (o : Z) : M Z :=
  let* tm := deref o in
  ret (size_t (tm_block_size tm * tm_stack_index tm)).

Definition token_manager_s_total_instances (o : Z) : M Z :=
  let* tm := deref o in
  ret (tm_stack_index tm).

(** [for (i = 0; i < n; i++) sum += f (x_i)] *)
Fixpoint sum_over {A} (f : A -> M Z) (l : list A) (sum : Z) : M Z :=
  match l with
  | [] => ret sum
  | x :: l' => let* v := f x in sum_over f l' (size_t (sum + v))
  end.

Fixpoint collect_over {A B} (f : A -> M (list B)) (l : list A) : M (list B) :=
  match l with
  | [] => ret []
  | x :: l' => let* v := f x in let* vs := collect_over f l' in ret (v ++ vs)
  end.

(** The callback invocations [cb (arg, ptr, space)], in order. *)
Definition token_manager_s_for_each_instance (o : Z) : M (list (Z * Z)) :=
  let* tm := deref o in
  collect_over
    (fun i => let* token := read_token tm i in
              ret [(o + size_t (token * tm_block_size tm), tm_block_size tm)])
    (seqZ 0 (tm_stack_index tm)).

Definition block_manager_s_total_alloc (c : nat) : M Z :=
  let* o := get_bm c in
  sum_over token_manager_s_total_alloc (bm_data o) 0.

Definition block_manager_s_total_instances (c : nat) : M Z :=
  let* o := get_bm c in
  sum_over token_manager_s_total_instances (bm_data o) 0.

Definition block_manager_s_for_each_instance (c : nat) : M (list (Z * Z)) :=
  let* o := get_bm c in
  collect_over token_manager_s_for_each_instance (bm_data o).

Definition tbman_s_external_total_alloc : M Z := btree_ps_s_sum.

Definition tbman_s_external_total_instances : M Z :=
  let* entries := btree_ps_s_run in
  ret (Z.of_nat (length entries)).

Definition tbman_s_external_for_each_instance : M (list (Z * Z)) := btree_ps_s_run.

Definition tbman_s_internal_total_alloc : M Z :=
  emit EvPoolScan;;
  let* o := get in
  sum_over block_manager_s_total_alloc (seq 0 (size o)) 0.

Definition tbman_s_internal_total_instances : M Z :=
  emit EvPoolScan;;
  let* o := get in
  sum_over block_manager_s_total_instances (seq 0 (size o)) 0.

Definition tbman_s_internal_for_each_instance : M (list (Z * Z)) :=
  emit EvPoolScan;;
  let* o := get in
  collect_over block_manager_s_for_each_instance (seq 0 (size o)).

Definition tbman_s_total_alloc : M Z :=
  let* e := tbman_s_external_total_alloc in
  let* i := tbman_s_internal_total_alloc in
  ret (size_t (e + i)).

Definition tbman_s_granted_space (current_ptr : Z) : M Z :=
  let* token_manager := tree_pool current_ptr in
  if negb (token_manager =? 0) then
    let* tm := deref token_manager in
    ret (tm_block_size tm)
  else
    let* p_current_size := btree_ps_s_val current_ptr in
    match p_current_size with
    | None => ret 0
    | Some s => ret s
    end.

Definition tbman_s_total_granted_space : M Z :=
  lock_guard tbman_s_total_alloc.

Definition tbman_s_total_instances : M Z :=
  lock_guard (
    let* e := tbman_s_external_total_instances in
    let* i := tbman_s_internal_total_instances in
    ret (size_t (size_t (0 + e) + i))).

(** The snapshot is taken under the lock and handed to the callback after
    the lock is released; the result lists the callback invocations. *)
Definition tbman_s_for_each_instance : M (list (Z * Z)) :=
  let* size := tbman_s_total_instances in
  if size =? 0 then ret [] else
  let* arr :=
    lock_guard (
      let* e := tbman_s_external_for_each_instance in
      let* i := tbman_s_internal_for_each_instance in
      ret (e ++ i)) in
  if negb (Z.of_nat (length arr) =? size) then fail AssertFailed else
  ret arr.

(** ** Well-formed states *)

Definition is_size_t (z : Z) : Prop := 0 ≤ z < 2 ^ 64.

Definition tm_stack_len (tm : token_manager_s) : Z :=
  tm_pool_size tm / tm_block_size tm.

Definition tm_reserved (tm : token_manager_s) : Z :=
  reserved_blocks_of (tm_pool_size tm) (tm_block_size tm).

(** The number of blocks a pool can hand out. *)
Definition tm_capacity (tm : token_manager_s) : Z :=
  tm_stack_len tm - tm_reserved tm.

(** [token_manager_s_is_full] and [token_manager_s_is_empty] on a header. *)
Definition tm_full (tm : token_manager_s) : Prop :=
  tm_token_stack tm !! Z.to_nat (tm_stack_index tm) = Some 0.
Definition tm_empty (tm : token_manager_s) : Prop :=
  tm_stack_index tm = 0.

(** The tokens of the free blocks: the cells from [stack_index] up to the
    sentinel. *)
Definition free_tokens (tm : token_manager_s) : list Z :=
  drop (Z.to_nat (tm_stack_index tm)) (take (Z.to_nat (tm_capacity tm)) (tm_token_stack tm)).

(** [p] is a block of the pool at [a] that is currently allocated. *)
Definition tm_live (a : Z) (tm : token_manager_s) (p : Z) : Prop :=
  0 < tm_stack_index tm
  ∧ ∃ t, p = a + t * tm_block_size tm
         ∧ tm_reserved tm ≤ t < tm_stack_len tm
         ∧ t ∉ free_tokens tm.

Record tm_ok (a : Z) (tm : token_manager_s) : Prop := {
  tm_ok_addr : 0 < a;
  tm_ok_block : 0 < tm_block_size tm;
  tm_ok_pow2 : ∃ k, 0 ≤ k < 64 ∧ tm_pool_size tm = 2 ^ k;
  tm_ok_size : tm_stack_size tm = tm_stack_len tm;
  tm_ok_fits : tm_stack_len tm ≤ 65535;
  tm_ok_cap : 0 < tm_capacity tm;
  tm_ok_index : 0 ≤ tm_stack_index tm ≤ tm_capacity tm;
  tm_ok_tokens : ∀ j, 0 ≤ j < tm_capacity tm →
      ∃ t, tm_token_stack tm !! Z.to_nat j = Some t ∧ tm_reserved tm ≤ t < tm_stack_len tm;
  tm_ok_sentinel : tm_token_stack tm !! Z.to_nat (tm_capacity tm) = Some 0;
  tm_ok_nodup : NoDup (free_tokens tm);
  tm_ok_aligned : tm_aligned tm = (Z.land a (size_t (tm_pool_size tm - 1)) =? 0);
  tm_ok_top : a + tm_pool_size tm ≤ 2 ^ 64
}.

(** The partition of a block manager's vector: slots below [free_index]
    hold full pools, slots from [free_index] on hold pools with room, and
    an empty pool is followed by empty pools only.  [exF] names a pool that
    may be full out of place, [exE] one that may be empty out of place
    (between the steps of [token_manager_s_free]). *)
Definition partition_ex (h : gmap Z token_manager_s) (bm : block_manager_s)
    (exF exE : option Z) : Prop :=
  (bm_free_index bm ≤ bm_size bm)%nat
  ∧ ∀ (k : nat) (a : Z) (tm : token_manager_s),
      bm_data bm !! k = Some a → h !! a = Some tm →
      ((k < bm_free_index bm)%nat → tm_full tm)
      ∧ ((bm_free_index bm ≤ k)%nat → exF ≠ Some a → ¬ tm_full tm)
      ∧ (tm_empty tm → exE ≠ Some a →
         ∀ (k' : nat) (a' : Z) (tm' : token_manager_s),
           (k < k')%nat → bm_data bm !! k' = Some a' → h !! a' = Some tm' → tm_empty tm').

Definition partition (h : gmap Z token_manager_s) (bm : block_manager_s) : Prop :=
  partition_ex h bm None None.

(** Everything but the partition: it holds between any two steps. *)
Record wf_core (w : tbman_s) : Prop := {
  wf_bsa : block_size_array w = bm_block_size <$> data w;
  wf_psize : 0 ≤ pool_size w < 2 ^ 64;
  wf_bm : ∀ c bm, data w !! c = Some bm →
      bm_pool_size bm = pool_size w ∧ 0 ≤ bm_block_size bm;
  wf_slot : ∀ c bm k a, data w !! c = Some bm → bm_data bm !! k = Some a →
      ∃ tm, pools w !! a = Some tm ∧ tm_parent tm = c ∧ tm_parent_index tm = k;
  wf_pool : ∀ a tm, pools w !! a = Some tm →
      tm_ok a tm ∧ tm_pool_size tm = pool_size w
      ∧ ∃ bm, data w !! tm_parent tm = Some bm
              ∧ bm_data bm !! tm_parent_index tm = Some a
              ∧ tm_block_size tm = bm_block_size bm;
  wf_tree : ∀ a, a ∈ internal_btree w ↔ is_Some (pools w !! a);
  wf_apart : ∀ a b, a ∈ internal_btree w → b ∈ internal_btree w → a ≠ b →
      a + pool_size w ≤ b ∨ b + pool_size w ≤ a;
  wf_ext : ∀ q sz, (q, sz) ∈ external_btree w →
      0 < q ∧ 0 < sz
      ∧ ∀ b, b ∈ internal_btree w → q + sz ≤ b ∨ b + pool_size w ≤ q;
  wf_bm_aligned : ∀ c bm a tm, data w !! c = Some bm → bm_aligned bm = true →
      a ∈ bm_data bm → pools w !! a = Some tm → tm_aligned tm = true;
  wf_aligned : aligned w = forallb bm_aligned (data w);
  wf_top : ∀ q sz, (q, sz) ∈ external_btree w → q + sz ≤ 2 ^ 64
}.

Definition wf (w : tbman_s) : Prop :=
  wf_core w ∧ ∀ c bm, data w !! c = Some bm → partition (pools w) bm.

(** ** Runs of the manager *)

(** A pointer the caller may pass back: a live block of a pool, or a
    registered external block. *)
Definition valid_ptr (w : tbman_s) (p : Z) : Prop :=
  (∃ a tm, pools w !! a = Some tm ∧ tm_live a tm p)
  ∨ (∃ sz, (p, sz) ∈ external_btree w).


(** A manager as [tbman_s_create] returns it. *)
Definition initial (w : tbman_s) : Prop :=
  ∃ fuel P minB maxB m full_align,
    is_size_t P ∧ is_size_t minB ∧ is_size_t maxB ∧ is_size_t m
    ∧ tbman_s_init fuel P minB maxB m full_align = Ok w.

(** One operation that returns: a public entry point called on a pointer
    the caller owns, or the block manager's [alloc] and the token manager's
    [free] (with its callbacks [full_to_free] and [free_to_empty]) called
    directly.  [sys] is the platform allocator's answer, should it be
    asked. *)
Inductive step (w : tbman_s) : tbman_s → Prop :=
| step_alloc sys current_ptr requested_size r w' :
    is_size_t requested_size →
    current_ptr = 0 ∨ valid_ptr w current_ptr →
    tbman_s_alloc sys current_ptr requested_size w = Ok (r, w') →
    step w w'
| step_nalloc sys current_ptr current_size requested_size r w' :
    is_size_t requested_size →
    current_size = 0 ∨ valid_ptr w current_ptr →
    tbman_s_nalloc sys current_ptr current_size requested_size w = Ok (r, w') →
    step w w'
| step_granted_space current_ptr r w' :
    tbman_s_granted_space current_ptr w = Ok (r, w') →
    step w w'
| step_total_granted_space r w' :
    tbman_s_total_granted_space w = Ok (r, w') →
    step w w'
| step_total_instances r w' :
    tbman_s_total_instances w = Ok (r, w') →
    step w w'
| step_for_each_instance r w' :
    tbman_s_for_each_instance w = Ok (r, w') →
    step w w'
| step_block_manager_alloc sys c p w' :
    block_manager_s_alloc sys c w = Ok (p, w') →
    step w w'
| step_token_manager_free a tm p w' :
    pools w !! a = Some tm → tm_live a tm p →
    token_manager_s_free a p w = Ok (tt, w') →
    step w w'.

Inductive reachable : tbman_s → Prop :=
| reachable_initial w : initial w → reachable w
| reachable_step w w' : reachable w → step w w' → reachable w'.

(** ** Auxiliary notions of the proofs *)

(** Two states that differ in the log and the mutex only. *)
Definition same_core (w w' : tbman_s) : Prop :=
  data w' = data w ∧ pool_size w' = pool_size w
  ∧ min_block_size w' = min_block_size w ∧ max_block_size w' = max_block_size w
  ∧ aligned w' = aligned w ∧ block_size_array w' = block_size_array w
  ∧ internal_btree w' = internal_btree w ∧ external_btree w' = external_btree w
  ∧ pools w' = pools w.

(** What no operation on the pools of a block manager changes. *)
Definition same_fixed (w w' : tbman_s) : Prop :=
  pool_size w' = pool_size w
  ∧ min_block_size w' = min_block_size w ∧ max_block_size w' = max_block_size w
  ∧ block_size_array w' = block_size_array w
  ∧ external_btree w' = external_btree w ∧ mutex w' = mutex w.

(** The fields of a pool header that are set once. *)
Definition tm_same_static (tm tm' : token_manager_s) : Prop :=
  tm_pool_size tm' = tm_pool_size tm ∧ tm_block_size tm' = tm_block_size tm
  ∧ tm_stack_size tm' = tm_stack_size tm
  ∧ tm_aligned tm' = tm_aligned tm ∧ tm_parent tm' = tm_parent tm.

(** The state of a pool header: what [alloc] and [free] move. *)
Definition tm_same_status (tm tm' : token_manager_s) : Prop :=
  tm_stack_index tm' = tm_stack_index tm ∧ tm_token_stack tm' = tm_token_stack tm.

(** Well-formed up to a pool that is between two steps of [free]. *)
Definition wf_ex (w : tbman_s) (exF exE : option Z) : Prop :=
  wf_core w ∧ ∀ c bm, data w !! c = Some bm → partition_ex (pools w) bm exF exE.

(** Where slot [k] of the swapped vector comes from. *)
Definition swap_idx (i j k : nat) : nat :=
  if decide (k = i) then j else if decide (k = j) then i else k.

(** The states agree but for the pool headers (and the log). *)
Definition same_but_pools (w w' : tbman_s) : Prop :=
  data w' = data w ∧ same_fixed w w'
  ∧ aligned w' = aligned w ∧ internal_btree w' = internal_btree w.

#[global] Instance tm_full_dec (tm : token_manager_s) : Decision (tm_full tm).
Proof. unfold tm_full. apply _. Defined.

#[global] Instance tm_empty_dec (tm : token_manager_s) : Decision (tm_empty tm).
Proof. unfold tm_empty. apply _. Defined.

(** The events of the sweep of [block_manager_s_free_to_empty]. *)
Definition sweep_event (e : event) : Prop :=
  match e with
  | EvVdRemove _ | EvDiscard _ => True
  | _ => False
  end.

(** The pool at [z] exists and is empty. *)
Definition is_empty_pool (h : gmap Z token_manager_s) (z : Z) : Prop :=
  ∃ tz, h !! z = Some tz ∧ tm_empty tz.

#[global] Instance is_empty_pool_dec (h : gmap Z token_manager_s) (z : Z) :
  Decision (is_empty_pool h z).
Proof.
  unfold is_empty_pool. destruct (h !! z) as [tz|].
  - destruct (decide (tm_empty tz)); [left; eauto|right; intros (? & [= <-] & ?); done].
  - right. intros (? & ? & ?). done.
Defined.

(** The empty pools of a block manager. *)
Definition empty_pools (h : gmap Z token_manager_s) (bm : block_manager_s) : list Z :=
  filter (is_empty_pool h) (bm_data bm).

(** What no operation of the manager changes. *)
Definition same_config (w w' : tbman_s) : Prop :=
  pool_size w' = pool_size w
  ∧ min_block_size w' = min_block_size w ∧ max_block_size w' = max_block_size w
  ∧ block_size_array w' = block_size_array w ∧ mutex w' = mutex w.

(** An action that only reads the manager (and logs its accesses). *)
Definition read_only {A} (m : M A) : Prop :=
  ∀ w a w', m w = Ok (a, w') → same_core w w' ∧ mutex w' = mutex w.

(** A log in which every access to the manager's data happens while the
    mutex is held. *)
Fixpoint guarded_from (held : bool) (t : list event) : bool :=
  match t with
  | [] => true
  | EvLock :: t' => guarded_from true t'
  | EvUnlock :: t' => guarded_from false t'
  | _ :: t' => held && guarded_from held t'
  end.

Definition guarded (t : list event) : bool := guarded_from false t.

(** The sums the introspection functions compute, without wrap-around:
    [pools_sum g w] adds up [g] over the headers of the pools of every
    block manager. *)
Definition sum_list_Z (l : list Z) : Z := foldr Z.add 0 l.

Definition pools_sum (g : token_manager_s → Z) (w : tbman_s) : Z :=
  sum_list_Z ((λ bm, sum_list_Z ((λ a, from_option g 0 (pools w !! a)) <$> bm_data bm))
                <$> data w).

(** Block size times allocated blocks, over all pools. *)
Definition allocated_bytes (w : tbman_s) : Z :=
  pools_sum (λ tm, tm_block_size tm * tm_stack_index tm) w.

(** The allocated blocks of all pools. *)
Definition allocated_blocks (w : tbman_s) : Z := pools_sum tm_stack_index w.

(** The registered sizes of the external blocks. *)
Definition external_bytes (w : tbman_s) : Z := sum_list_Z (snd <$> external_btree w).

(** The keys of the external tree are pairwise distinct. *)
Definition ext_keys_ok (w : tbman_s) : Prop := NoDup (fst <$> external_btree w).

(** The allocated blocks of a pool, by its header: the blocks behind the
    reserved ones whose token is not on the free part of the stack. *)
Definition live_blocks (a : Z) (tm : token_manager_s) : list Z :=
  (λ t, a + t * tm_block_size tm)
    <$> filter (λ t, t ∉ free_tokens tm) (seqZ (tm_reserved tm) (tm_capacity tm)).

Definition pool_live_blocks (w : tbman_s) (a : Z) : list Z :=
  from_option (live_blocks a) [] (pools w !! a).

(** The pointers the caller owns: the keys of the external tree and the
    allocated blocks of the pools of every block manager. *)
Definition owned_pointers (w : tbman_s) : list Z :=
  (fst <$> external_btree w) ++ (data w ≫= λ bm, bm_data bm ≫= pool_live_blocks w).

(** Every block manager still has the sweep hysteresis it was created
    with. *)
Definition hyst_ok (w : tbman_s) : Prop :=
  ∀ c bm, data w !! c = Some bm → bm_sweep_hysteresis bm = (1 # 8)%Q.

(** An action that leaves the hysteresis of the block managers alone. *)
Definition keeps_hyst {A} (m : M A) : Prop :=
  ∀ w a w', m w = Ok (a, w') → hyst_ok w → hyst_ok w'.

(** No block manager is due for a sweep: its empty pools are at most an
    eighth of its other pools. *)
Definition sweep_calm (w : tbman_s) : Prop :=
  ∀ c bm, data w !! c = Some bm →
    bm_sweep_hysteresis bm = (1 # 8)%Q
    ∧ sweep_fires (length (empty_pools (pools w) bm)) (bm_size bm) (1 # 8) = false.

(** ** Example runs *)

Definition blank : tbman_s := Tbman [] 0 0 0 true [] [] [] false ∅ [].

Definition state_of {A} (r : result (A * tbman_s)) : tbman_s :=
  match r with
  | Ok (_, w) => w
  | Err _ => blank
  end.

(** A manager with pools of 1024 bytes and the block sizes 64, 128, 256. *)
Definition ex_init : tbman_s :=
  match tbman_s_create 300 1024 64 256 1 true with
  | Ok w => w
  | Err _ => blank
  end.

(** [alloc (null, 200)]: the platform answers 4096, the block is 4352. *)
Definition ex_one : tbman_s := state_of (tbman_s_alloc 4096 0 200 ex_init).

(** A second [alloc (null, 200)]: the block is 4608, in the same pool. *)
Definition ex_two : tbman_s := state_of (tbman_s_alloc 0 0 200 ex_one).

(** The same manager without full alignment; the platform answers 4352 to
    the first [alloc (null, 200)], an address that is aligned to 256 but not
    to 1024; then the block, 4608, is freed. *)
Definition ex_unaligned_init : tbman_s :=
  match tbman_s_create 300 1024 64 256 1 false with
  | Ok w => w
  | Err _ => blank
  end.
Definition ex_unaligned_one : tbman_s :=
  state_of (tbman_s_alloc 4352 0 200 ex_unaligned_init).
Definition ex_unaligned_freed : tbman_s :=
  state_of (tbman_s_alloc 0 4608 0 ex_unaligned_one).

(** A manager whose ladder 8, 16, 32, 64 stops short of [max_block_size]
    = 100. *)
Definition ex_short : tbman_s :=
  match tbman_s_create 200 1024 8 100 1 true with
  | Ok w => w
  | Err _ => blank
  end.

(** A third [alloc (null, 200)]: the block is 4864 and the pool is full. *)
Definition ex_three : tbman_s := state_of (tbman_s_alloc 0 0 200 ex_two).

(** The full pool of [ex_three], and the state in which
    [block_manager_s_full_to_free] leaves [ex_three] when that pool reports:
    [token_manager_s_free] calls it before it decrements [stack_index]. *)
Definition ex_three_tm : token_manager_s :=
  TokenManager 1024 256 4 3 true 2%nat 0%nat [1; 2; 3; 0].
Definition ex_three_reported : tbman_s :=
  state_of (block_manager_s_full_to_free 2 4096 ex_three).

(** The pool header of [ex_one], and the state in which
    [token_manager_s_free (4096, 4352)] calls [block_manager_s_free_to_empty]
    from [ex_one]: the block is back on the token stack. *)
Definition ex_one_tm : token_manager_s :=
  TokenManager 1024 256 4 1 true 2%nat 0%nat [1; 2; 3; 0].
Definition ex_emptied_tm : token_manager_s :=
  TokenManager 1024 256 4 0 true 2%nat 0%nat [1; 2; 3; 0].
Definition ex_emptied : tbman_s :=
  set_pools (fun h => <[4096 := ex_emptied_tm]> h)
    (set_trace (fun l => l ++ [EvStackIndex 4096 0; EvTokenWrite 4096 0 1]) ex_one).

(** The block manager of class 256 in [ex_one] and [ex_emptied]. *)
Definition ex_bm : block_manager_s :=
  BlockManager 1024 256 true [4096] 1 0 (1 # 8) true.

(** The pool header of [ex_two]: the blocks 4352 (token 1) and 4608
    (token 2) are allocated. *)
Definition ex_two_tm : token_manager_s :=
  TokenManager 1024 256 4 2 true 2%nat 0%nat [1; 2; 3; 0].

(** [alloc (null, 100)] in the manager with the short ladder: the request
    goes to the platform, which answers 8192. *)
Definition ex_external : tbman_s := state_of (tbman_s_alloc 8192 0 100 ex_short).

(** The block manager of class 256 of [ex_init] allocates directly: the
    platform answers 4096 and the block is 4352. *)
Definition ex_bm_one : tbman_s := state_of (block_manager_s_alloc 4096 2 ex_init).

(** [alloc (4352, 100)] in [ex_one]: 100 bytes belong to the class of 128
    bytes; the platform answers 8192 for the new pool, the block moves to
    8320 and the old pool is swept. *)
Definition ex_moved : tbman_s := state_of (tbman_s_alloc 8192 4352 100 ex_one).

(** [alloc (8192, 60)] in [ex_external]: the external block moves into a
    pool of the class of 64 bytes, at 16384. *)
Definition ex_external_moved : tbman_s :=
  state_of (tbman_s_alloc 16384 8192 60 ex_external).

(** * Verification *)

(** ** Machine integers *)

Lemma size_t_small (z : Z) : 0 ≤ z < 2 ^ 64 → size_t z = z.
Proof. intros. unfold size_t. apply Z.mod_small. lia. Qed.

Lemma uint16_small (z : Z) : 0 ≤ z < 65536 → uint16 z = z.
Proof. intros. unfold uint16. apply Z.mod_small. lia. Qed.

Lemma testbit_small (y i : Z) : 0 ≤ y < 2 ^ i → 0 ≤ i → Z.testbit y i = false.
Proof.
  intros [Hy Hlt] Hi. destruct (Z.eq_dec y 0) as [->|Hne].
  - apply Z.bits_0.
  - apply Z.bits_above_log2; [lia|]. apply Z.log2_lt_pow2; lia.
Qed.

Lemma land_shifted_small (x y n : Z) :
  0 ≤ n → 0 ≤ y < 2 ^ n → Z.land (x * 2 ^ n) y = 0.
Proof.
  intros Hn Hy. apply Z.bits_inj'. intros i Hi.
  rewrite Z.land_spec, Z.bits_0.
  destruct (Z.lt_ge_cases i n) as [Hlt|Hge].
  - rewrite Z.mul_pow2_bits_low by lia. done.
  - rewrite (testbit_small y i); [apply andb_false_r| |lia].
    split; [lia|]. apply Z.lt_le_trans with (2 ^ n); [lia|].
    apply Z.pow_le_mono_r; lia.
Qed.

(** ** The size-class ladder *)

Lemma size_mask_loop_zero (fuel : nat) (minB : Z) :
  1 ≤ minB → size_mask_loop fuel 0 minB = None.
Proof.
  intros HB. induction fuel as [|fuel IH]; [done|].
  cbn [size_mask_loop]. replace (0 <? minB) with true by (symmetry; apply Z.ltb_lt; lia).
  cbn [orb]. exact IH.
Qed.

Lemma size_mask_loop_ok (m minB : Z) :
  1 ≤ m ≤ 30 → 1 ≤ minB < 2 ^ 32 →
  ∀ (n : nat) (j : Z), j + Z.of_nat n = 32 → 0 ≤ j →
  ∀ fuel : nat, (n < fuel)%nat →
  ∃ k, j ≤ k ≤ 32 ∧
       size_mask_loop fuel ((2 ^ m - 1) * 2 ^ j) minB = Some ((2 ^ m - 1) * 2 ^ k).
Proof.
  intros Hm HB.
  assert (HM : 1 ≤ 2 ^ m - 1 < 2 ^ 30).
  { assert (2 ^ 1 ≤ 2 ^ m) by (apply Z.pow_le_mono_r; lia).
    assert (2 ^ m ≤ 2 ^ 30) by (apply Z.pow_le_mono_r; lia). lia. }
  set (M := 2 ^ m - 1) in *.
  assert (Hshift : ∀ j, 0 ≤ j ≤ 32 →
            size_t (Z.shiftl (M * 2 ^ j) 1) = M * 2 ^ (j + 1)).
  { intros j Hj. rewrite Z.shiftl_mul_pow2 by lia.
    rewrite Z.pow_add_r by lia. rewrite size_t_small; [lia|].
    assert (2 ^ j ≤ 2 ^ 32) by (apply Z.pow_le_mono_r; lia).
    assert (0 < 2 ^ j) by (apply Z.pow_pos_nonneg; lia). nia. }
  induction n as [|n IH]; intros j Hj Hj0 fuel Hfuel.
  - assert (j = 32) as -> by lia.
    destruct fuel as [|fuel]; [lia|]. exists 32. split; [lia|].
    cbn [size_mask_loop]. rewrite Hshift by lia.
    replace (M * 2 ^ 32 <? minB) with false by (symmetry; apply Z.ltb_ge; lia).
    rewrite land_shifted_small by lia. done.
  - destruct fuel as [|fuel]; [lia|].
    cbn [size_mask_loop]. rewrite Hshift by lia.
    destruct ((M * 2 ^ j <? minB)
              || negb (Z.land (M * 2 ^ (j + 1)) minB =? 0)) eqn:Hc.
    + destruct (IH (j + 1)) with (fuel := fuel) as (k & Hk & Hloop); [lia..|].
      exists k. split; [lia|done].
    + exists j. split; [lia|done].
Qed.

Lemma ladder_loop_ok (maxB : Z) :
  maxB < 2 ^ 62 →
  ∀ (fuel : nat) (B mask inc : Z),
  0 < inc ≤ B → (Z.to_nat (maxB + 1 - B) < fuel)%nat →
  ∃ l, ladder_loop fuel B mask inc maxB = Some l
       ∧ Forall (λ b, B ≤ b ≤ maxB) l
       ∧ StronglySorted Z.lt l
       ∧ (B ≤ maxB → head l = Some B).
Proof.
  intros Hmax. induction fuel as [|fuel IH]; intros B mask inc Hinc Hfuel; [lia|].
  cbn [ladder_loop]. destruct (B <=? maxB) eqn:HB.
  - apply Z.leb_le in HB.
    set (inc' := if mask <? B then size_t (Z.shiftl inc 1) else inc).
    set (mask' := if mask <? B then size_t (Z.shiftl mask 1) else mask).
    assert (Hinc' : inc ≤ inc' ≤ 2 * inc).
    { subst inc'. destruct (mask <? B); [|lia].
      rewrite Z.shiftl_mul_pow2 by lia. rewrite size_t_small; lia. }
    rewrite (size_t_small (B + inc')) by lia.
    destruct (IH (B + inc') mask' inc') as (l & -> & Hall & Hsort & Hhd); [lia..|].
    eexists. split; [done|]. split; [|split].
    + constructor; [lia|]. eapply Forall_impl; [exact Hall|]. simpl. lia.
    + constructor; [done|]. eapply Forall_impl; [exact Hall|]. simpl. lia.
    + done.
  - apply Z.leb_gt in HB. exists []. split; [done|].
    split; [constructor|]. split; [constructor|lia].
Qed.

Lemma ladder_loop_unfold (fuel : nat) (B mask inc maxB : Z) :
  ladder_loop (S fuel) B mask inc maxB =
  if B <=? maxB then
    match ladder_loop fuel
            (size_t (B + (if mask <? B then size_t (Z.shiftl inc 1) else inc)))
            (if mask <? B then size_t (Z.shiftl mask 1) else mask)
            (if mask <? B then size_t (Z.shiftl inc 1) else inc) maxB with
    | Some l => Some (B :: l)
    | None => None
    end
  else Some [].
Proof. reflexivity. Qed.

(** With stepping 1 the mask starts at one bit and stops at the smallest
    power of two that reaches [minB]. *)
Lemma size_mask_loop_one (minB : Z) :
  1 ≤ minB < 2 ^ 32 →
  ∀ (n : nat) (j : Z), j + Z.of_nat n = 32 → 0 ≤ j →
  (j = 0 ∨ 2 ^ (j - 1) < minB) →
  ∀ fuel : nat, (n < fuel)%nat →
  ∃ k, 0 ≤ k ≤ 32 ∧ minB ≤ 2 ^ k ∧ 2 ^ k < 2 * minB
       ∧ size_mask_loop fuel (2 ^ j) minB = Some (2 ^ k).
Proof.
  intros HB.
  assert (Hshift : ∀ j, 0 ≤ j ≤ 32 → size_t (Z.shiftl (2 ^ j) 1) = 2 ^ (j + 1)).
  { intros j Hj. rewrite Z.shiftl_mul_pow2 by lia.
    rewrite Z.pow_add_r by lia. rewrite size_t_small; [lia|].
    assert (2 ^ j ≤ 2 ^ 32) by (apply Z.pow_le_mono_r; lia).
    assert (0 < 2 ^ j) by (apply Z.pow_pos_nonneg; lia). lia. }
  assert (Hexit : ∀ j, 0 ≤ j ≤ 32 → minB ≤ 2 ^ j →
            Z.land (2 ^ (j + 1)) minB = 0).
  { intros j Hj Hle. replace (2 ^ (j + 1)) with (1 * 2 ^ (j + 1)) by lia.
    apply land_shifted_small; [lia|]. rewrite Z.pow_add_r by lia. lia. }
  assert (Hlow : ∀ j, 0 ≤ j → j = 0 ∨ 2 ^ (j - 1) < minB → 2 ^ j < 2 * minB).
  { intros j Hj [->|Hlt]; [simpl; lia|].
    destruct (Z.eq_dec j 0) as [->|Hne]; [simpl; lia|].
    replace j with (j - 1 + 1) at 1 by lia. rewrite Z.pow_add_r, Z.pow_1_r by lia. lia. }
  induction n as [|n IH]; intros j Hj Hj0 Hprev fuel Hfuel.
  - assert (j = 32) as -> by lia.
    destruct fuel as [|fuel]; [lia|]. exists 32.
    split; [lia|]. split; [lia|]. split; [apply Hlow; [lia|done]|].
    cbn [size_mask_loop]. rewrite Hshift by lia.
    replace (2 ^ 32 <? minB) with false by (symmetry; apply Z.ltb_ge; lia).
    rewrite Hexit by lia. done.
  - destruct fuel as [|fuel]; [lia|].
    cbn [size_mask_loop]. rewrite Hshift by lia.
    destruct (2 ^ j <? minB) eqn:Hlt.
    + apply Z.ltb_lt in Hlt. cbn [orb].
      apply (IH (j + 1)); [lia|lia| |lia].
      right. replace (j + 1 - 1) with j by lia. done.
    + apply Z.ltb_ge in Hlt. rewrite Hexit by lia. cbn.
      exists j. split; [lia|]. split; [done|]. split; [apply Hlow; [lia|done]|done].
Qed.

Lemma ladder_loop_doubling (minB maxB k : Z) :
  1 ≤ minB → maxB < 2 ^ 62 → 0 ≤ k → minB ≤ 2 ^ k → 2 ^ k < 2 * minB →
  ∀ (fuel : nat) (j : Z) (l : list Z), 1 ≤ j →
  ladder_loop fuel (minB * 2 ^ j) (2 ^ k * 2 ^ (j - 1)) (minB * 2 ^ (j - 1)) maxB = Some l →
  ∀ (i : nat) (b : Z), l !! i = Some b → b = minB * 2 ^ (j + Z.of_nat i).
Proof.
  intros HB Hmax Hk Hle Hlt.
  induction fuel as [|fuel IH]; intros j l Hj Hloop i b Hi; [done|].
  cbn [ladder_loop] in Hloop.
  destruct (minB * 2 ^ j <=? maxB) eqn:Hc; [|by simplify_eq].
  apply Z.leb_le in Hc.
  assert (Hpj : 2 ^ j = 2 * 2 ^ (j - 1)).
  { replace j with (j - 1 + 1) at 1 by lia. rewrite Z.pow_add_r, Z.pow_1_r by lia. lia. }
  assert (Hpos : 0 < 2 ^ (j - 1)) by (apply Z.pow_pos_nonneg; lia).
  replace (2 ^ k * 2 ^ (j - 1) <? minB * 2 ^ j) with true in Hloop
    by (symmetry; apply Z.ltb_lt; nia).
  rewrite !Z.shiftl_mul_pow2, !Z.pow_1_r in Hloop by lia.
  rewrite (size_t_small (minB * 2 ^ (j - 1) * 2)) in Hloop by nia.
  rewrite (size_t_small (2 ^ k * 2 ^ (j - 1) * 2)) in Hloop by nia.
  rewrite size_t_small in Hloop by nia.
  replace (minB * 2 ^ j + minB * 2 ^ (j - 1) * 2) with (minB * 2 ^ (j + 1)) in Hloop
    by (rewrite Z.pow_add_r, Z.pow_1_r by lia; lia).
  replace (2 ^ k * 2 ^ (j - 1) * 2) with (2 ^ k * 2 ^ (j + 1 - 1)) in Hloop
    by (replace (j + 1 - 1) with j by lia; lia).
  replace (minB * 2 ^ (j - 1) * 2) with (minB * 2 ^ (j + 1 - 1)) in Hloop
    by (replace (j + 1 - 1) with j by lia; lia).
  destruct (ladder_loop fuel _ _ _ _) as [l'|] eqn:Hrec; [|done].
  simplify_eq. destruct i as [|i]; simpl in Hi.
  - simplify_eq. f_equal. f_equal. lia.
  - rewrite (IH (j + 1) l' ltac:(lia) Hrec i b Hi). f_equal. f_equal. lia.
Qed.

(** C4, the failing case: with stepping method 0 the mask starts at 0 and
    shifting never changes it, so the first loop of [tbman_s_init] never
    ends; no amount of fuel yields a manager. *)
Lemma C4_stepping_zero_never_returns :
  ¬ ∃ fuel w, tbman_s_init fuel default_pool_size default_min_block_size
                default_max_block_size 0 default_full_align = Ok w.
Proof.
  intros (fuel & w & H). unfold tbman_s_init in H. cbn in H.
  rewrite size_mask_loop_zero in H; [done|]. unfold default_min_block_size. lia.
Qed.

(** C4, amended: for a stepping method between 1 and 30 (the mask is
    computed by an [int] shift) and block sizes within 1 <= min_B < 2^32,
    min_B <= max_B < 2^62 (no [size_t] wrap-around), the ladder generation
    of [tbman_s_init] terminates and emits a strictly increasing sequence of
    block sizes that starts at min_B and does not exceed max_B; the
    stepping method that gives pure doubling is 1. *)
Theorem C4_ladder_terminates_increasing
    (P minB maxB m : Z) (full_align : bool) :
  1 ≤ m ≤ 30 → 1 ≤ minB < 2 ^ 32 → minB ≤ maxB < 2 ^ 62 →
  ∃ fuel w,
    tbman_s_init fuel P minB maxB m full_align = Ok w
    ∧ head (block_size_array w) = Some minB
    ∧ StronglySorted Z.lt (block_size_array w)
    ∧ Forall (λ b, minB ≤ b ≤ maxB) (block_size_array w)
    ∧ (m = 1 → ∀ (i : nat) (b : Z),
         block_size_array w !! i = Some b → b = minB * 2 ^ Z.of_nat i).
Proof.
  intros Hm HB Hmax.
  set (fuel := (Z.to_nat (maxB + 1 - minB) + 34)%nat).
  destruct (size_mask_loop_ok m minB Hm HB 32 0) with (fuel := fuel)
    as (k & Hk & Hmask); [lia..|].
  rewrite Z.mul_1_r in Hmask.
  destruct (ladder_loop_ok maxB ltac:(lia) fuel minB ((2 ^ m - 1) * 2 ^ k) minB)
    as (l & Hl & Hall & Hsort & Hhd); [lia..|].
  assert (Hbsa : bm_block_size <$> ((λ b, block_manager_s_create P b full_align) <$> l) = l).
  { rewrite <- list_fmap_compose. clear. induction l as [|x l IH]; csimpl; [done|].
    by f_equal. }
  eexists fuel, _. unfold tbman_s_init.
  replace (31 <=? m) with false by (symmetry; apply Z.leb_gt; lia).
  rewrite Z.shiftl_1_l, Hmask, Hl. split; [reflexivity|].
  cbn [block_size_array]. rewrite Hbsa.
  split; [apply Hhd; lia|]. split; [done|]. split; [done|].
  intros ->. intros i b Hi.
  destruct (size_mask_loop_one minB HB 32 0) with (fuel := fuel)
    as (k' & Hk' & Hle & Hlt & Hmask'); [lia..|].
  change (2 ^ 0) with 1 in Hmask'. change (2 ^ 1 - 1) with 1 in Hmask.
  rewrite Z.mul_1_l in Hmask. rewrite Hmask in Hmask'.
  injection Hmask' as Hkk. rewrite Z.mul_1_l in Hl. rewrite Hkk in Hl.
  (* the first round emits minB without shifting *)
  unfold fuel in Hl.
  replace (Z.to_nat (maxB + 1 - minB) + 34)%nat
    with (S (Z.to_nat (maxB + 1 - minB) + 33)) in Hl by lia.
  rewrite ladder_loop_unfold in Hl.
  replace (minB <=? maxB) with true in Hl by (symmetry; apply Z.leb_le; lia).
  replace (2 ^ k' <? minB) with false in Hl by (symmetry; apply Z.ltb_ge; lia).
  rewrite size_t_small in Hl by lia.
  destruct (ladder_loop _ (minB + minB) _ _ _) as [l'|] eqn:Hrec; [|done].
  simplify_eq. destruct i as [|i]; simpl in Hi.
  - simplify_eq. simpl. lia.
  - assert (Hrec' : ladder_loop (Z.to_nat (maxB + 1 - minB) + 33) (minB * 2 ^ 1)
                      (2 ^ k' * 2 ^ (1 - 1)) (minB * 2 ^ (1 - 1)) maxB = Some l').
    { rewrite <- Hrec. change (2 ^ (1 - 1)) with 1. rewrite Z.pow_1_r.
      f_equal; lia. }
    rewrite (ladder_loop_doubling minB maxB k' ltac:(lia) ltac:(lia) ltac:(lia)
               Hle Hlt _ 1 l' ltac:(lia) Hrec' i b Hi).
    f_equal. f_equal. lia.
Qed.

(** The default configuration, as a witness of C4. *)
Lemma C4_ladder_default :
  ∃ fuel w,
    tbman_s_init fuel default_pool_size default_min_block_size default_max_block_size
                 default_stepping_method default_full_align = Ok w
    ∧ head (block_size_array w) = Some default_min_block_size
    ∧ StronglySorted Z.lt (block_size_array w)
    ∧ Forall (λ b, default_min_block_size ≤ b ≤ default_max_block_size) (block_size_array w)
    ∧ (default_stepping_method = 1 → ∀ (i : nat) (b : Z),
         block_size_array w !! i = Some b → b = default_min_block_size * 2 ^ Z.of_nat i).
Proof.
  apply C4_ladder_terminates_increasing;
    unfold default_stepping_method, default_min_block_size, default_max_block_size; lia.
Defined.

(** ** Reasoning about the state monad *)

Lemma bind_Ok {A B} (m : M A) (f : A → M B) (w : tbman_s) (r : B * tbman_s) :
  bind m f w = Ok r → ∃ a w1, m w = Ok (a, w1) ∧ f a w1 = Ok r.
Proof.
  unfold bind. destruct (m w) as [[a w1]|e]; [|done]. eauto.
Qed.

Lemma bind_Ok_intro {A B} (m : M A) (f : A → M B) (w w1 : tbman_s) (a : A) :
  m w = Ok (a, w1) → bind m f w = f a w1.
Proof. unfold bind. by intros ->. Qed.

Lemma deref_Ok (o : Z) (w : tbman_s) (tm : token_manager_s) (w' : tbman_s) :
  deref o w = Ok (tm, w') → pools w !! o = Some tm ∧ w' = w.
Proof. unfold deref. destruct (pools w !! o); naive_solver. Qed.

Lemma get_bm_Ok (c : nat) (w : tbman_s) (bm : block_manager_s) (w' : tbman_s) :
  get_bm c w = Ok (bm, w') → data w !! c = Some bm ∧ w' = w.
Proof. unfold get_bm. destruct (data w !! c); naive_solver. Qed.

Lemma data_at_Ok (o : block_manager_s) (k : nat) (w : tbman_s) (a : Z) (w' : tbman_s) :
  data_at o k w = Ok (a, w') → bm_data o !! k = Some a ∧ w' = w.
Proof. unfold data_at, ret, fail. destruct (bm_data o !! k); naive_solver. Qed.

Lemma read_token_Ok (tm : token_manager_s) (i : Z) (w : tbman_s) (t : Z) (w' : tbman_s) :
  read_token tm i w = Ok (t, w') → tm_token_stack tm !! Z.to_nat i = Some t ∧ w' = w.
Proof. unfold read_token, ret, fail. destruct (_ !! _); naive_solver. Qed.

(** Turns the hypotheses [m w = Ok r] about monadic code into facts about
    its steps. *)
Ltac monad_inv :=
  repeat match goal with
  | H : Ok _ = Ok _ |- _ => injection H as ?; subst
  | H : (_, _) = (_, _) |- _ => injection H as ?; subst
  | H : Err _ = Ok _ |- _ => discriminate H
  | H : bind _ _ _ = Ok _ |- _ =>
      apply bind_Ok in H; destruct H as (? & ? & ? & H)
  | H : ret _ _ = Ok _ |- _ => unfold ret in H
  | H : fail _ _ = Ok _ |- _ => unfold fail in H
  | H : get _ = Ok _ |- _ => unfold get in H
  | H : modify _ _ = Ok _ |- _ => unfold modify in H
  | H : emit _ _ = Ok _ |- _ => unfold emit in H
  | H : store _ _ _ = Ok _ |- _ => unfold store in H
  | H : put_bm _ _ _ = Ok _ |- _ => unfold put_bm in H
  | H : when _ _ _ = Ok _ |- _ => unfold when in H
  | H : platform_free _ _ = Ok _ |- _ => unfold platform_free in H
  | H : tbman_s_lost_alignment _ _ = Ok _ |- _ => unfold tbman_s_lost_alignment in H
  | H : deref _ _ = Ok _ |- _ => apply deref_Ok in H; destruct H as [H ?]; subst
  | H : get_bm _ _ = Ok _ |- _ => apply get_bm_Ok in H; destruct H as [H ?]; subst
  | H : data_at _ _ _ = Ok _ |- _ => apply data_at_Ok in H; destruct H as [H ?]; subst
  | H : read_token _ _ _ = Ok _ |- _ => apply read_token_Ok in H; destruct H as [H ?]; subst
  | H : (if ?b then _ else _) _ = Ok _ |- _ => destruct b eqn:?
  | H : (match ?x with _ => _ end) _ = Ok _ |- _ => destruct x eqn:?
  end.

(** The same for one hypothesis and what comes out of it. *)
Ltac minv H :=
  lazymatch type of H with
  | bind _ _ _ = Ok _ =>
      let a := fresh "a" in
      let w := fresh "w" in
      let Hm := fresh "Hm" in
      apply bind_Ok in H; destruct H as (a & w & Hm & H); minv Hm; minv H
  | Ok _ = Ok _ => injection H as ?; subst
  | Err _ = Ok _ => discriminate H
  | ret _ _ = Ok _ => unfold ret in H; minv H
  | fail _ _ = Ok _ => discriminate H
  | get _ = Ok _ => unfold get in H; minv H
  | modify _ _ = Ok _ => unfold modify in H; minv H
  | emit _ _ = Ok _ => unfold emit in H; minv H
  | store _ _ _ = Ok _ => unfold store in H; minv H
  | put_bm _ _ _ = Ok _ => unfold put_bm in H; minv H
  | when _ _ _ = Ok _ => unfold when in H; minv H
  | platform_free _ _ = Ok _ => unfold platform_free in H; minv H
  | tbman_s_lost_alignment _ _ = Ok _ => unfold tbman_s_lost_alignment in H; minv H
  | deref _ _ = Ok _ => apply deref_Ok in H; destruct H as [H ?]; subst
  | get_bm _ _ = Ok _ => apply get_bm_Ok in H; destruct H as [H ?]; subst
  | data_at _ _ _ = Ok _ => apply data_at_Ok in H; destruct H as [H ?]; subst
  | read_token _ _ _ = Ok _ => apply read_token_Ok in H; destruct H as [H ?]; subst
  | (if ?b then _ else _) _ = Ok _ =>
      let E := fresh "E" in destruct b eqn:E; minv H
  | (match ?x with _ => _ end) _ = Ok _ =>
      let E := fresh "E" in destruct x eqn:E; minv H
  | _ => idtac
  end.

(** Running monadic code forward. *)
Lemma bind_intro {A B} (m : M A) (f : A → M B) (w w1 : tbman_s) (a : A)
    (r : result (B * tbman_s)) :
  m w = Ok (a, w1) → f a w1 = r → bind m f w = r.
Proof. unfold bind. by intros -> <-. Qed.

Lemma deref_intro (o : Z) (w : tbman_s) (tm : token_manager_s) :
  pools w !! o = Some tm → deref o w = Ok (tm, w).
Proof. unfold deref. by intros ->. Qed.

Lemma get_bm_intro (c : nat) (w : tbman_s) (bm : block_manager_s) :
  data w !! c = Some bm → get_bm c w = Ok (bm, w).
Proof. unfold get_bm. by intros ->. Qed.

Lemma data_at_intro (o : block_manager_s) (k : nat) (w : tbman_s) (a : Z) :
  bm_data o !! k = Some a → data_at o k w = Ok (a, w).
Proof. unfold data_at. by intros ->. Qed.

Lemma read_token_intro (tm : token_manager_s) (i : Z) (w : tbman_s) (t : Z) :
  tm_token_stack tm !! Z.to_nat i = Some t → read_token tm i w = Ok (t, w).
Proof. unfold read_token. by intros ->. Qed.

Ltac proj_simpl :=
  cbn [pools data trace mutex aligned internal_btree external_btree pool_size
       min_block_size max_block_size block_size_array
       set_data set_pools set_trace set_mutex set_aligned set_internal_btree
       set_external_btree
       bm_data bm_free_index bm_space bm_pool_size bm_block_size bm_align bm_aligned
       bm_sweep_hysteresis bm_size
       set_bm_data set_bm_free_index set_bm_space set_bm_aligned
       tm_pool_size tm_block_size tm_stack_size tm_stack_index tm_aligned tm_parent
       tm_parent_index tm_token_stack
       set_stack_index set_token_stack set_parent set_parent_index].
Tactic Notation "proj_simpl" "in" hyp(H) :=
  cbn [pools data trace mutex aligned internal_btree external_btree pool_size
       min_block_size max_block_size block_size_array
       set_data set_pools set_trace set_mutex set_aligned set_internal_btree
       set_external_btree
       bm_data bm_free_index bm_space bm_pool_size bm_block_size bm_align bm_aligned
       bm_sweep_hysteresis bm_size
       set_bm_data set_bm_free_index set_bm_space set_bm_aligned
       tm_pool_size tm_block_size tm_stack_size tm_stack_index tm_aligned tm_parent
       tm_parent_index tm_token_stack
       set_stack_index set_token_stack set_parent set_parent_index] in H.

(** One step of a [bind]: a total action, or a read justified by [H]. *)
Ltac mstep := eapply bind_intro; [reflexivity|]; cbv beta.
Ltac mderef H := eapply bind_intro; [apply deref_intro; proj_simpl; exact H|]; cbv beta.
Ltac mget_bm H := eapply bind_intro; [apply get_bm_intro; proj_simpl; exact H|]; cbv beta.
Ltac mdata_at H := eapply bind_intro; [apply data_at_intro; proj_simpl; exact H|]; cbv beta.
Ltac mread H := eapply bind_intro; [apply read_token_intro; proj_simpl; exact H|]; cbv beta.

Lemma same_core_refl (w : tbman_s) : same_core w w.
Proof. by repeat split. Qed.

Lemma same_core_trans (w1 w2 w3 : tbman_s) :
  same_core w1 w2 → same_core w2 w3 → same_core w1 w3.
Proof. unfold same_core. intros. destruct_and!. repeat split; congruence. Qed.

Lemma wf_core_same (w w' : tbman_s) :
  same_core w w' → wf_core w → wf_core w'.
Proof.
  intros (Hd & Hp & _ & _ & Ha & Hb & Hi & He & Hh) [].
  split; rewrite ?Hd, ?Hp, ?Ha, ?Hb, ?Hi, ?He, ?Hh; done.
Qed.

Lemma wf_same (w w' : tbman_s) :
  same_core w w' → wf w → wf w'.
Proof.
  intros Hs [Hc Hp]. split; [by eapply wf_core_same|].
  destruct Hs as (Hd & _ & _ & _ & _ & _ & _ & _ & Hh). rewrite Hd, Hh. done.
Qed.

(** ** Token managers *)

Lemma reserved_blocks_of_pos (P B : Z) : 0 < B → 0 ≤ P → 1 ≤ reserved_blocks_of P B.
Proof.
  intros HB HP. unfold reserved_blocks_of, sizeof_token_manager_s.
  assert (0 ≤ P / B) by (apply Z.div_pos; lia).
  set (rs := 40 + 2 * (P / B)).
  assert (0 ≤ rs / B) by (apply Z.div_pos; lia).
  destruct (0 <? rs mod B) eqn:E; [lia|].
  apply Z.ltb_ge in E. assert (rs mod B = 0) by (pose proof (Z.mod_pos_bound rs B); lia).
  assert (rs = B * (rs / B)) by (pose proof (Z.div_mod rs B); lia).
  assert (0 < rs / B) by nia. lia.
Qed.

Lemma tm_full_iff (a : Z) (tm : token_manager_s) :
  tm_ok a tm → tm_full tm ↔ tm_stack_index tm = tm_capacity tm.
Proof.
  intros Hok. unfold tm_full. split.
  - intros Hf. destruct (Z.eq_dec (tm_stack_index tm) (tm_capacity tm)) as [|Hne]; [done|].
    destruct (tm_ok_tokens _ _ Hok (tm_stack_index tm)) as (t & Ht & Hr).
    { pose proof (tm_ok_index _ _ Hok). lia. }
    rewrite Ht in Hf. simplify_eq.
    assert (1 ≤ tm_reserved tm); [|lia].
    apply reserved_blocks_of_pos; [apply Hok|].
    destruct (tm_ok_pow2 _ _ Hok) as (k & Hk & ->). apply Z.pow_nonneg. lia.
  - intros ->. apply Hok.
Qed.

Lemma tm_empty_not_full (a : Z) (tm : token_manager_s) :
  tm_ok a tm → tm_empty tm → ¬ tm_full tm.
Proof.
  intros Hok He Hf. apply (tm_full_iff a) in Hf; [|done].
  unfold tm_empty in He. pose proof (tm_ok_cap _ _ Hok). lia.
Qed.

Lemma pow2_of_land (P : Z) : 0 < P → Z.land P (P - 1) = 0 → P = 2 ^ Z.log2 P.
Proof.
  intros HP Hland. destruct (Z.log2_spec P HP) as [Hlo Hhi].
  destruct (Z.eq_dec P (2 ^ Z.log2 P)) as [|Hne]; [done|exfalso].
  assert (Hk : 0 ≤ Z.log2 P) by apply Z.log2_nonneg.
  assert (Hlog : Z.log2 (P - 1) = Z.log2 P).
  { apply Z.log2_unique; [done|]. rewrite <- Z.add_1_r in Hhi. lia. }
  assert (Hb1 : Z.testbit P (Z.log2 P) = true) by (apply Z.bit_log2; lia).
  assert (Hb2 : Z.testbit (P - 1) (Z.log2 P) = true).
  { rewrite <- Hlog. apply Z.bit_log2.
    assert (0 < 2 ^ Z.log2 P) by (apply Z.pow_pos_nonneg; lia). lia. }
  assert (Hb : Z.testbit (Z.land P (P - 1)) (Z.log2 P) = true)
    by (rewrite Z.land_spec, Hb1, Hb2; done).
  rewrite Hland, Z.bits_0 in Hb. done.
Qed.

Lemma pow2_of_check (P : Z) :
  is_size_t P → 0 < P → Z.land P (size_t (P - 1)) = 0 → ∃ k, 0 ≤ k < 64 ∧ P = 2 ^ k.
Proof.
  intros [H0 H64] HP Hland. rewrite size_t_small in Hland by lia.
  exists (Z.log2 P). split; [|by apply pow2_of_land].
  split; [apply Z.log2_nonneg|]. apply Z.log2_lt_pow2; lia.
Qed.

Lemma forallb_insert_same {A} (f : A → bool) (l : list A) (i : nat) (x y : A) :
  l !! i = Some x → f y = f x → forallb f (<[i := y]> l) = forallb f l.
Proof.
  revert i. induction l as [|z l IH]; intros [|i] Hi Hf; simplify_eq/=; [by rewrite Hf|].
  by rewrite IH.
Qed.

Lemma fmap_insert_same {A B} (f : A → B) (l : list A) (i : nat) (x y : A) :
  l !! i = Some x → f y = f x → f <$> <[i := y]> l = f <$> l.
Proof.
  intros Hi Hf. rewrite list_fmap_insert. apply list_insert_id.
  rewrite list_lookup_fmap, Hi. simpl. by rewrite Hf.
Qed.

(** The token stack that [token_manager_s_create] writes. *)
Lemma init_token_stack_lookup (S rb : Z) (j : nat) :
  0 ≤ S ≤ 65535 → 0 ≤ rb → Z.of_nat j < S →
  init_token_stack (uint16 S) S rb !! j
  = Some (if Z.of_nat j + rb <? S then Z.of_nat j + rb else 0).
Proof.
  intros HS Hrb Hj. unfold init_token_stack.
  rewrite uint16_small by lia. rewrite list_lookup_fmap, lookup_seqZ_lt by lia.
  simpl. rewrite Z.add_0_l. destruct (Z.of_nat j + rb <? S) eqn:E; [|done].
  apply Z.ltb_lt in E. rewrite uint16_small by lia. done.
Qed.

Lemma token_manager_s_create_Ok (sys P B : Z) (align : bool) (w : tbman_s) (a : Z) (w' : tbman_s) :
  is_size_t P → 0 ≤ B →
  token_manager_s_create sys P B align w = Ok (a, w') →
  ∃ tm, w' = set_pools (λ h, <[a := tm]> h) w
    ∧ 0 < a ∧ region_free w a P = true
    ∧ tm_pool_size tm = P ∧ tm_block_size tm = B
    ∧ tm_stack_size tm = uint16 (P / B) ∧ tm_stack_index tm = 0
    ∧ tm_aligned tm = (Z.land a (size_t (P - 1)) =? 0)
    ∧ tm_token_stack tm = init_token_stack (uint16 (P / B)) (P / B) (reserved_blocks_of P B)
    ∧ 0 < B ∧ (∃ k, 0 ≤ k < 64 ∧ P = 2 ^ k)
    ∧ P / B ≤ 65536 ∧ reserved_blocks_of P B + 1 ≤ P / B
    ∧ a + P ≤ 2 ^ 64.
Proof.
  intros HP HB H. unfold token_manager_s_create in H.
  destruct (negb _) eqn:Hpow in H; [done|].
  destruct (B =? 0) eqn:HB0 in H; [done|].
  destruct (65536 <? P / B) eqn:HS in H; [done|].
  fold (reserved_blocks_of P B) in H.
  destruct (P / B <? reserved_blocks_of P B + 1) eqn:Hrb in H; [done|].
  apply bind_Ok in H as (o & w1 & Hm & H).
  unfold _aligned_malloc in Hm.
  destruct (sys =? 0) eqn:Hsys in Hm.
  { by simplify_eq. }
  destruct ((0 <? sys) && (sys + P <=? 2 ^ 64) && region_free w sys P) eqn:Hfree in Hm;
    [|done].
  simplify_eq. rewrite Hsys in H. monad_inv.
  apply andb_true_iff in Hfree as [Hpos Hfree].
  apply andb_true_iff in Hpos as [Hpos Htop].
  apply Z.ltb_lt in Hpos. apply Z.leb_le in Htop. apply Z.eqb_neq in HB0. apply Z.ltb_ge in HS, Hrb.
  apply negb_false_iff, Z.eqb_eq in Hpow.
  assert (0 < B) by lia.
  assert (1 ≤ reserved_blocks_of P B) by (apply reserved_blocks_of_pos; [done|apply HP]).
  assert (0 < P).
  { destruct (Z.eq_dec P 0) as [->|]; [|destruct HP; lia].
    rewrite Z.div_0_l in Hrb by lia. lia. }
  eexists. split; [reflexivity|]. cbn.
  repeat split; try done; try lia. by apply pow2_of_check.
Qed.

Lemma tm_ok_create (a P B : Z) (tm : token_manager_s) :
  0 < a → 0 < B → (∃ k, 0 ≤ k < 64 ∧ P = 2 ^ k) →
  P / B ≤ 65535 → reserved_blocks_of P B + 1 ≤ P / B →
  tm_pool_size tm = P → tm_block_size tm = B →
  tm_stack_size tm = uint16 (P / B) → tm_stack_index tm = 0 →
  tm_aligned tm = (Z.land a (size_t (P - 1)) =? 0) →
  tm_token_stack tm = init_token_stack (uint16 (P / B)) (P / B) (reserved_blocks_of P B) →
  a + P ≤ 2 ^ 64 →
  tm_ok a tm.
Proof.
  intros Ha HB Hpow HS Hrb HP HBs Hsz Hi Hal Hst Htop.
  assert (0 ≤ P) by (destruct Hpow as (k & Hk & ->); apply Z.pow_nonneg; lia).
  assert (1 ≤ reserved_blocks_of P B) by (by apply reserved_blocks_of_pos).
  assert (0 ≤ P / B) by (apply Z.div_pos; lia).
  assert (Hlook : ∀ j : nat, Z.of_nat j < P / B - reserved_blocks_of P B →
            init_token_stack (uint16 (P / B)) (P / B) (reserved_blocks_of P B) !! j
            = Some (Z.of_nat j + reserved_blocks_of P B)).
  { intros j Hj. rewrite init_token_stack_lookup by lia.
    replace (Z.of_nat j + reserved_blocks_of P B <? P / B) with true
      by (symmetry; apply Z.ltb_lt; lia). done. }
  split; unfold free_tokens, tm_capacity, tm_reserved, tm_stack_len;
    rewrite ?HP, ?HBs, ?Hi, ?Hst; try done.
  - rewrite Hsz. apply uint16_small. lia.
  - lia.
  - lia.
  - intros j Hj. rewrite Hlook by lia. rewrite Z2Nat.id by lia.
    eexists. split; [done|lia].
  - rewrite init_token_stack_lookup by lia. rewrite Z2Nat.id by lia.
    replace (P / B - reserved_blocks_of P B + reserved_blocks_of P B <? P / B) with false
      by (symmetry; apply Z.ltb_ge; lia).
    done.
  - change (Z.to_nat 0) with 0%nat. rewrite drop_0. apply NoDup_alt.
    intros j1 j2 t Ht1 Ht2.
    apply lookup_take_Some in Ht1 as [E1 L1]. apply lookup_take_Some in Ht2 as [E2 L2].
    rewrite Hlook in E1, E2 by lia. simplify_eq. lia.
Qed.

(** ** Preservation of the well-formedness of states *)

Lemma same_fixed_refl (w : tbman_s) : same_fixed w w.
Proof. by repeat split. Qed.

Lemma same_fixed_trans (w1 w2 w3 : tbman_s) :
  same_fixed w1 w2 → same_fixed w2 w3 → same_fixed w1 w3.
Proof. unfold same_fixed. intros. destruct_and!. repeat split; congruence. Qed.

Lemma tm_same_static_refl (tm : token_manager_s) : tm_same_static tm tm.
Proof. by repeat split. Qed.

(** A block manager rearranges its vector, or the headers of its pools
    change state: the pools stay the same. *)
Lemma wf_core_rearrange (w w' : tbman_s) (c : nat) (bm bm' : block_manager_s) :
  wf_core w →
  data w !! c = Some bm →
  data w' = <[c := bm']> (data w) →
  bm_pool_size bm' = bm_pool_size bm →
  bm_block_size bm' = bm_block_size bm →
  bm_aligned bm' = bm_aligned bm →
  same_fixed w w' → aligned w' = aligned w → internal_btree w' = internal_btree w →
  (∀ x, x ∈ bm_data bm' → x ∈ bm_data bm) →
  (∀ k x, bm_data bm' !! k = Some x →
     ∃ tm', pools w' !! x = Some tm' ∧ tm_parent_index tm' = k) →
  (∀ x, pools w' !! x = None ↔ pools w !! x = None) →
  (∀ x tm tm', pools w !! x = Some tm → pools w' !! x = Some tm' →
     tm_same_static tm tm' ∧ tm_ok x tm'
     ∧ (tm_parent tm ≠ c → tm' = tm)
     ∧ (tm_parent tm = c → bm_data bm' !! tm_parent_index tm' = Some x)) →
  wf_core w'.
Proof.
  intros Hwf Hc Hd Hbp Hbb Hba (Hps & _ & _ & Hbsa & Hext & Hmu) Hal Htree
    Hperm Hslot Hdom Hpools.
  assert (Hclt : (c < length (data w))%nat) by (by eapply lookup_lt_Some).
  assert (Hold : ∀ x tm', pools w' !! x = Some tm' → ∃ tm, pools w !! x = Some tm).
  { intros x tm' Hx. destruct (pools w !! x) eqn:E; [eauto|].
    apply Hdom in E. congruence. }
  assert (Hnew : ∀ x tm, pools w !! x = Some tm → ∃ tm', pools w' !! x = Some tm').
  { intros x tm Hx. destruct (pools w' !! x) eqn:E; [eauto|].
    apply Hdom in E. congruence. }
  destruct Hwf as [Wbsa Wps Wbm Wslot Wpool Wtree Wapart Wext Wbal Wal Wtop].
  split.
  - rewrite Hbsa, Hd, Wbsa. symmetry. by eapply fmap_insert_same.
  - by rewrite Hps.
  - intros c' bm0 Hc'. rewrite Hd in Hc'. rewrite Hps.
    destruct (decide (c' = c)) as [->|Hne].
    + rewrite list_lookup_insert_eq in Hc' by done. simplify_eq.
      rewrite Hbp, Hbb. by apply (Wbm c).
    + rewrite list_lookup_insert_ne in Hc' by done. by apply (Wbm c').
  - intros c' bm0 k x Hc' Hk. rewrite Hd in Hc'.
    destruct (decide (c' = c)) as [->|Hne].
    + rewrite list_lookup_insert_eq in Hc' by done. simplify_eq.
      destruct (Hslot k x Hk) as (tm' & Hx' & Hpi).
      exists tm'. split; [done|]. split; [|done].
      destruct (Hold x tm' Hx') as (tm & Hx).
      destruct (Hpools x tm tm' Hx Hx') as ((_ & _ & _ & _ & Hpar) & _).
      rewrite Hpar.
      assert (Hin : x ∈ bm_data bm) by (apply Hperm; by eapply list_elem_of_lookup_2).
      apply list_elem_of_lookup_1 in Hin as [k0 Hk0].
      destruct (Wslot c bm k0 x Hc Hk0) as (tm0 & Hx0 & Hp0 & _). by simplify_eq.
    + rewrite list_lookup_insert_ne in Hc' by done.
      destruct (Wslot c' bm0 k x Hc' Hk) as (tm & Hx & Hp & Hi).
      destruct (Hnew x tm Hx) as (tm' & Hx').
      destruct (Hpools x tm tm' Hx Hx') as (_ & _ & Hsame & _).
      rewrite Hx', Hsame by congruence. eauto.
  - intros x tm' Hx'. destruct (Hold x tm' Hx') as (tm & Hx).
    destruct (Hpools x tm tm' Hx Hx') as ((Hsp & Hsb & _ & _ & Hpar) & Hok & Hsame & Hin).
    destruct (Wpool x tm Hx) as (_ & Hpsz & bm0 & Hb0 & Hd0 & Hbs0).
    split; [done|]. split; [congruence|]. rewrite Hd.
    destruct (decide (tm_parent tm = c)) as [Hpc|Hpc].
    + exists bm'. rewrite Hpar, Hpc. rewrite list_lookup_insert_eq by done.
      split; [done|]. split; [by apply Hin|]. rewrite Hpc in Hb0. simplify_eq. congruence.
    + rewrite (Hsame Hpc). exists bm0. rewrite list_lookup_insert_ne by done. done.
  - intros x. rewrite Htree, Wtree. rewrite <- !not_eq_None_Some. by rewrite Hdom.
  - rewrite Htree, Hps. done.
  - rewrite Hext, Htree, Hps. done.
  - intros c' bm0 x tm' Hc' Hal0 Hin Hx'. rewrite Hd in Hc'.
    destruct (Hold x tm' Hx') as (tm & Hx).
    destruct (Hpools x tm tm' Hx Hx') as ((_ & _ & _ & Hsa & _) & _).
    rewrite Hsa. destruct (decide (c' = c)) as [->|Hne].
    + rewrite list_lookup_insert_eq in Hc' by done. simplify_eq.
      apply (Wbal c bm x tm); [done|congruence|by apply Hperm|done].
    + rewrite list_lookup_insert_ne in Hc' by done. by apply (Wbal c' bm0 x tm).
  - rewrite Hal, Hd, Wal. symmetry. by eapply forallb_insert_same.
  - by rewrite Hext.
Qed.

Lemma tm_ok_same (a : Z) (tm tm' : token_manager_s) :
  tm_same_static tm tm' → tm_same_status tm tm' → tm_ok a tm → tm_ok a tm'.
Proof.
  intros (Hp & Hb & Hs & Ha & _) (Hi & Ht) [].
  split; unfold free_tokens, tm_capacity, tm_stack_len, tm_reserved in *;
    rewrite ?Hp, ?Hb, ?Hs, ?Ha, ?Hi, ?Ht; done.
Qed.

Lemma tm_full_same (tm tm' : token_manager_s) :
  tm_same_status tm tm' → tm_full tm' ↔ tm_full tm.
Proof. intros (Hi & Ht). unfold tm_full. by rewrite Hi, Ht. Qed.

Lemma tm_empty_same (tm tm' : token_manager_s) :
  tm_same_status tm tm' → tm_empty tm' ↔ tm_empty tm.
Proof. intros (Hi & Ht). unfold tm_empty. by rewrite Hi. Qed.

Lemma wf_slot_inj (w : tbman_s) (c : nat) (bm : block_manager_s) (k1 k2 : nat) (x : Z) :
  wf_core w → data w !! c = Some bm →
  bm_data bm !! k1 = Some x → bm_data bm !! k2 = Some x → k1 = k2.
Proof.
  intros Hwf Hc H1 H2.
  destruct (wf_slot w Hwf c bm k1 x Hc H1) as (tm1 & Hx1 & _ & <-).
  destruct (wf_slot w Hwf c bm k2 x Hc H2) as (tm2 & Hx2 & _ & <-).
  congruence.
Qed.

Lemma swap_idx_lookup {A} (d : list A) (i j k : nat) (x y : A) :
  d !! i = Some x → d !! j = Some y →
  <[i := y]> (<[j := x]> d) !! k = d !! swap_idx i j k.
Proof.
  intros Hi Hj. unfold swap_idx.
  assert (i < length d)%nat by (by eapply lookup_lt_Some).
  assert (j < length d)%nat by (by eapply lookup_lt_Some).
  destruct (decide (k = i)) as [->|Hki].
  - rewrite list_lookup_insert_eq by (rewrite length_insert; lia). done.
  - rewrite list_lookup_insert_ne by done.
    destruct (decide (k = j)) as [->|Hkj].
    + rewrite list_lookup_insert_eq by lia. done.
    + by rewrite list_lookup_insert_ne.
Qed.

(** The swap of two slots of a block manager, as [full_to_free] and
    [free_to_empty] do it: the two addresses trade places and each header
    learns its new index. *)
Lemma swap_slots_wf (w w' : tbman_s) (c : nat) (bm bm' : block_manager_s)
    (i j : nat) (x y : Z) (tx ty' : token_manager_s) :
  wf_core w →
  data w !! c = Some bm →
  bm_data bm !! i = Some x → bm_data bm !! j = Some y →
  pools w !! x = Some tx →
  <[x := set_parent_index j tx]> (pools w) !! y = Some ty' →
  data w' = <[c := bm']> (data w) →
  bm_data bm' = <[i := y]> (<[j := x]> (bm_data bm)) →
  bm_pool_size bm' = bm_pool_size bm →
  bm_block_size bm' = bm_block_size bm →
  bm_aligned bm' = bm_aligned bm →
  pools w' = <[y := set_parent_index i ty']> (<[x := set_parent_index j tx]> (pools w)) →
  same_fixed w w' → aligned w' = aligned w → internal_btree w' = internal_btree w →
  wf_core w'
  ∧ (∀ z tm', pools w' !! z = Some tm' →
       ∃ tm, pools w !! z = Some tm ∧ tm_same_static tm tm' ∧ tm_same_status tm tm')
  ∧ (∀ k, bm_data bm' !! k = bm_data bm !! swap_idx i j k).
Proof.
  intros Hwf Hc Hi Hj Hx Hy' Hd Hbd Hbp Hbb Hba Hpools Hfix Hal Htree.
  assert (Hilt : (i < length (bm_data bm))%nat) by (by eapply lookup_lt_Some).
  assert (Hjlt : (j < length (bm_data bm))%nat) by (by eapply lookup_lt_Some).
  assert (Hview : ∀ k, bm_data bm' !! k = bm_data bm !! swap_idx i j k).
  { intros k. rewrite Hbd. by apply swap_idx_lookup. }
  destruct (wf_slot w Hwf c bm i x Hc Hi) as (tx0 & Hx0 & Hxp & Hxi).
  destruct (wf_slot w Hwf c bm j y Hc Hj) as (ty & Hy & Hyp & Hyi).
  rewrite Hx in Hx0. injection Hx0 as <-.
  assert (Hxy : x = y ↔ i = j).
  { split; [intros ->; congruence|]. intros E. rewrite E in Hi. congruence. }
  assert (Hstat : ∀ z tm', pools w' !! z = Some tm' →
            ∃ tm, pools w !! z = Some tm ∧ tm_same_static tm tm' ∧ tm_same_status tm tm'
                  ∧ (z ≠ x → z ≠ y → tm' = tm)
                  ∧ (z = y → tm_parent_index tm' = i)
                  ∧ (z = x → z ≠ y → tm_parent_index tm' = j)).
  { intros z tm' Hz. rewrite Hpools in Hz.
    destruct (decide (z = y)) as [->|Hzy].
    - rewrite lookup_insert_eq in Hz. injection Hz as <-.
      destruct (decide (x = y)) as [->|Hne].
      + rewrite lookup_insert_eq in Hy'. injection Hy' as <-.
        exists tx. repeat split; done.
      + rewrite lookup_insert_ne in Hy' by done.
        exists ty. rewrite Hy in Hy'. injection Hy' as <-. repeat split; done.
    - rewrite lookup_insert_ne in Hz by done.
      destruct (decide (z = x)) as [->|Hzx].
      + rewrite lookup_insert_eq in Hz. injection Hz as <-.
        exists tx. repeat split; done.
      + rewrite lookup_insert_ne in Hz by done.
        exists tm'. repeat split; done. }
  split; [|split; [|done]].
  - eapply (wf_core_rearrange w w' c bm bm'); try done.
    + intros z Hz. apply list_elem_of_lookup_1 in Hz as [k Hk].
      rewrite Hview in Hk. by eapply list_elem_of_lookup_2.
    + intros k z Hk. rewrite Hview in Hk.
      destruct (wf_slot w Hwf c bm _ z Hc Hk) as (tz & Hz & Hzp & Hzi).
      assert (Hz' : is_Some (pools w' !! z)).
      { rewrite Hpools. rewrite !lookup_insert_is_Some'. eauto. }
      destruct Hz' as [tm' Hz']. exists tm'. split; [done|].
      destruct (Hstat z tm' Hz') as (tm & Hz0 & _ & _ & Hoth & Hisy & Hisx).
      unfold swap_idx in Hk, Hzi.
      destruct (decide (k = i)) as [->|Hki].
      * assert (z = y) as -> by congruence. by apply Hisy.
      * destruct (decide (k = j)) as [->|Hkj].
        -- assert (z = x) as -> by congruence.
           apply Hisx; [done|]. intros ->. apply Hki. symmetry. by apply Hxy.
        -- rewrite Hoth; [congruence| |]; intros ->; congruence.
    + intros z. rewrite Hpools. rewrite !lookup_insert_None.
      split; [by intros [[? _] _]|]. intros Hz. repeat split; congruence.
    + intros z tm tm' Hz Hz'.
      destruct (Hstat z tm' Hz') as (tm0 & Hz0 & Hst & Hss & Hoth & Hisy & Hisx).
      rewrite Hz in Hz0. injection Hz0 as <-.
      split; [done|]. split.
      { eapply tm_ok_same; [done..|]. by apply (wf_pool w Hwf). }
      split.
      * intros Hpar. apply Hoth; intros ->; congruence.
      * intros Hpar. rewrite Hview.
        destruct (wf_pool w Hwf z tm Hz) as (_ & _ & bm0 & Hb0 & Hd0 & _).
        rewrite Hpar, Hc in Hb0. injection Hb0 as <-.
        destruct (decide (z = y)) as [->|Hzy].
        { rewrite (Hisy eq_refl). unfold swap_idx. rewrite decide_True by done. done. }
        destruct (decide (z = x)) as [->|Hzx].
        { rewrite (Hisx eq_refl Hzy). unfold swap_idx.
          destruct (decide (j = i)) as [E|E].
          - exfalso. apply Hzy. apply Hxy. done.
          - rewrite decide_True by done. done. }
        rewrite (Hoth Hzx Hzy). unfold swap_idx.
        rewrite decide_False, decide_False; [done| |]; intros E; rewrite E in Hd0; congruence.
  - intros z tm' Hz. destruct (Hstat z tm' Hz) as (tm & ? & ? & ? & _). eauto.
Qed.

(** ** Token managers: [alloc] and the push of [free] *)

Lemma tm_reserved_pos (a : Z) (tm : token_manager_s) : tm_ok a tm → 1 ≤ tm_reserved tm.
Proof.
  intros Hok. apply reserved_blocks_of_pos; [apply Hok|].
  destruct (tm_ok_pow2 _ _ Hok) as (k & Hk & ->). apply Z.pow_nonneg. lia.
Qed.

Lemma free_tokens_set_stack_index (i : Z) (tm : token_manager_s) :
  free_tokens (set_stack_index i tm)
  = drop (Z.to_nat i) (take (Z.to_nat (tm_capacity tm)) (tm_token_stack tm)).
Proof. reflexivity. Qed.

Lemma free_tokens_push (i : Z) (s : list Z) (tm : token_manager_s) :
  free_tokens (set_token_stack s (set_stack_index i tm))
  = drop (Z.to_nat i) (take (Z.to_nat (tm_capacity tm)) s).
Proof. reflexivity. Qed.

Lemma tm_ok_alloc (a : Z) (tm : token_manager_s) :
  tm_ok a tm → ¬ tm_full tm →
  uint16 (tm_stack_index tm + 1) = tm_stack_index tm + 1
  ∧ tm_ok a (set_stack_index (tm_stack_index tm + 1) tm)
  ∧ ∃ t, tm_token_stack tm !! Z.to_nat (tm_stack_index tm) = Some t
         ∧ tm_reserved tm ≤ t < tm_stack_len tm
         ∧ t ∉ free_tokens (set_stack_index (tm_stack_index tm + 1) tm).
Proof.
  intros Hok Hnf.
  assert (Hi : tm_stack_index tm < tm_capacity tm).
  { pose proof (tm_ok_index _ _ Hok). rewrite (tm_full_iff a) in Hnf by done. lia. }
  pose proof (tm_ok_index _ _ Hok) as Hi0.
  pose proof (tm_ok_fits _ _ Hok) as Hfit.
  pose proof (tm_reserved_pos _ _ Hok) as Hrb.
  assert (Hcap : tm_capacity tm ≤ 65535) by (unfold tm_capacity; lia).
  destruct (tm_ok_tokens _ _ Hok (tm_stack_index tm)) as (t & Ht & Hr); [lia|].
  assert (Hfree : free_tokens tm = t :: free_tokens (set_stack_index (tm_stack_index tm + 1) tm)).
  { rewrite free_tokens_set_stack_index. unfold free_tokens.
    replace (Z.to_nat (tm_stack_index tm + 1)) with (S (Z.to_nat (tm_stack_index tm))) by lia.
    apply drop_S. rewrite lookup_take_lt by lia. done. }
  pose proof (tm_ok_nodup _ _ Hok) as Hnd. rewrite Hfree in Hnd.
  apply NoDup_cons in Hnd as [Hnin Hnd].
  split; [apply uint16_small; lia|].
  split; [|eauto].
  destruct Hok. split; try done.
  change (0 ≤ tm_stack_index tm + 1 ≤ tm_capacity tm). lia.
Qed.

Lemma tm_ok_push (a : Z) (tm : token_manager_s) (t : Z) :
  tm_ok a tm → 0 < tm_stack_index tm →
  tm_reserved tm ≤ t < tm_stack_len tm → t ∉ free_tokens tm →
  uint16 (tm_stack_index tm - 1) = tm_stack_index tm - 1
  ∧ (Z.to_nat (tm_stack_index tm - 1) < length (tm_token_stack tm))%nat
  ∧ tm_ok a (set_token_stack
               (<[Z.to_nat (tm_stack_index tm - 1) := t]> (tm_token_stack tm))
               (set_stack_index (tm_stack_index tm - 1) tm)).
Proof.
  intros Hok Hi Ht Hnin.
  pose proof (tm_ok_index _ _ Hok) as Hi0.
  pose proof (tm_ok_fits _ _ Hok) as Hfit.
  pose proof (tm_reserved_pos _ _ Hok) as Hrb.
  assert (Hcap : tm_capacity tm ≤ 65535) by (unfold tm_capacity; lia).
  assert (Hlen : (Z.to_nat (tm_stack_index tm - 1) < length (tm_token_stack tm))%nat).
  { destruct (tm_ok_tokens _ _ Hok (tm_stack_index tm - 1)) as (t0 & Ht0 & _); [lia|].
    by eapply lookup_lt_Some. }
  split; [apply uint16_small; lia|].
  split; [done|].
  destruct Hok as [? ? ? ? ? ? ? Htok Hsen Hnd ?]. split; try done.
  - change (0 ≤ tm_stack_index tm - 1 ≤ tm_capacity tm). lia.
  - intros j Hj. change (0 ≤ j < tm_capacity tm) in Hj.
    change (∃ t0, <[Z.to_nat (tm_stack_index tm - 1) := t]> (tm_token_stack tm) !! Z.to_nat j = Some t0
                  ∧ tm_reserved tm ≤ t0 < tm_stack_len tm).
    destruct (decide (j = tm_stack_index tm - 1)) as [->|Hne].
    + rewrite list_lookup_insert_eq by done. eauto.
    + rewrite list_lookup_insert_ne by lia. by apply Htok.
  - change (<[Z.to_nat (tm_stack_index tm - 1) := t]> (tm_token_stack tm)
              !! Z.to_nat (tm_capacity tm) = Some 0).
    rewrite list_lookup_insert_ne by lia. done.
  - rewrite free_tokens_push. unfold free_tokens in Hnd, Hnin.
    rewrite take_insert_lt by lia.
    rewrite drop_insert_ge by lia.
    replace (Z.to_nat (tm_stack_index tm - 1) - Z.to_nat (tm_stack_index tm - 1))%nat
      with 0%nat by lia.
    destruct (Htok (tm_stack_index tm - 1)) as (t0 & Ht0 & _); [lia|].
    rewrite (drop_S _ t0 (Z.to_nat (tm_stack_index tm - 1)))
      by (rewrite lookup_take_lt by lia; done).
    cbn. replace (S (Z.to_nat (tm_stack_index tm - 1))) with (Z.to_nat (tm_stack_index tm)) by lia.
    apply NoDup_cons. done.
Qed.

(** A pool header changes state, and its block manager moves its
    indices. *)
Lemma wf_core_status (w w' : tbman_s) (a : Z) (tm tm' : token_manager_s)
    (bm bm' : block_manager_s) :
  wf_core w → pools w !! a = Some tm → data w !! tm_parent tm = Some bm →
  pools w' = <[a := tm']> (pools w) →
  data w' = <[tm_parent tm := bm']> (data w) →
  bm_data bm' = bm_data bm →
  bm_pool_size bm' = bm_pool_size bm →
  bm_block_size bm' = bm_block_size bm →
  bm_aligned bm' = bm_aligned bm →
  same_fixed w w' → aligned w' = aligned w → internal_btree w' = internal_btree w →
  tm_same_static tm tm' → tm_parent_index tm' = tm_parent_index tm → tm_ok a tm' →
  wf_core w'.
Proof.
  intros Hwf Ha Hc Hpools Hd Hbd Hbp Hbb Hba Hfix Hal Htree Hst Hpi Hok.
  eapply (wf_core_rearrange w w' (tm_parent tm) bm bm'); try done.
  - intros x. by rewrite Hbd.
  - intros k x Hx. rewrite Hbd in Hx.
    destruct (wf_slot w Hwf _ bm k x Hc Hx) as (tx & Hpx & _ & Hkx).
    rewrite Hpools. destruct (decide (x = a)) as [->|Hne].
    + rewrite lookup_insert_eq. eexists. split; [done|]. congruence.
    + rewrite lookup_insert_ne by done. eauto.
  - intros x. rewrite Hpools, lookup_insert_None. split; [by intros [? ?]|].
    intros Hx. split; [done|]. intros ->. congruence.
  - intros x tx tx' Hx Hx'. rewrite Hpools in Hx'.
    destruct (decide (x = a)) as [->|Hne].
    + rewrite lookup_insert_eq in Hx'. injection Hx' as <-.
      assert (tx = tm) as -> by congruence.
      split; [done|]. split; [done|]. split.
      * intros Hp. done.
      * intros _. rewrite Hbd, Hpi.
        destruct (wf_pool w Hwf a tm Hx) as (_ & _ & bm0 & Hc0 & Hk0 & _). congruence.
    + rewrite lookup_insert_ne in Hx' by done.
      assert (tx' = tx) as -> by congruence.
      split; [apply tm_same_static_refl|]. split; [by apply (wf_pool w Hwf)|].
      split; [done|]. intros Hp. rewrite Hbd.
      destruct (wf_pool w Hwf x tx Hx) as (_ & _ & bm0 & Hc0 & Hk0 & _). congruence.
Qed.

Lemma token_manager_s_is_full_Ok (o : Z) (w : tbman_s) (b : bool) (w' : tbman_s) :
  token_manager_s_is_full o w = Ok (b, w') →
  w' = w ∧ ∃ tm, pools w !! o = Some tm ∧ (b = true ↔ tm_full tm).
Proof.
  unfold token_manager_s_is_full. intros H. monad_inv. split; [done|].
  eexists. split; [eassumption|]. unfold tm_full.
  match goal with H : tm_token_stack _ !! _ = Some _ |- _ => rewrite H end.
  split; [intros ->%Z.eqb_eq; done|]. intros [= ->]. done.
Qed.

Lemma token_manager_s_is_empty_Ok (o : Z) (w : tbman_s) (b : bool) (w' : tbman_s) :
  token_manager_s_is_empty o w = Ok (b, w') →
  w' = w ∧ ∃ tm, pools w !! o = Some tm ∧ (b = true ↔ tm_empty tm).
Proof.
  unfold token_manager_s_is_empty. intros H. monad_inv. split; [done|].
  eexists. split; [eassumption|]. unfold tm_empty. apply Z.eqb_eq.
Qed.

Lemma token_manager_s_alloc_Ok (o : Z) (w : tbman_s) (p : Z) (w' : tbman_s) :
  token_manager_s_alloc o w = Ok (p, w') →
  ∃ tm t, pools w !! o = Some tm
    ∧ tm_token_stack tm !! Z.to_nat (tm_stack_index tm) = Some t
    ∧ t ≠ 0
    ∧ p = o + size_t (t * tm_block_size tm)
    ∧ w' = set_pools (λ h, <[o := set_stack_index (uint16 (tm_stack_index tm + 1)) tm]> h)
             (set_trace (λ l, l ++ [EvStackIndex o (uint16 (tm_stack_index tm + 1))]) w).
Proof.
  unfold token_manager_s_alloc. intros H.
  apply bind_Ok in H as (full & w1 & Hfull & H).
  apply token_manager_s_is_full_Ok in Hfull as (-> & tm & Htm & Hf).
  destruct full; [done|]. monad_inv.
  match goal with H : pools _ !! o = Some ?t |- _ => assert (t = tm) as -> by congruence end.
  eexists _, _. split; [done|]. split; [eassumption|]. split; [|done].
  intros ->. assert (false = true); [|done]. apply Hf. unfold tm_full. congruence.
Qed.

(** The partition reads the pools through their state only. *)
Lemma partition_ex_same (h h' : gmap Z token_manager_s) (bm bm' : block_manager_s)
    (exF exE : option Z) :
  bm_data bm' = bm_data bm → bm_free_index bm' = bm_free_index bm →
  (∀ x tm', x ∈ bm_data bm → h' !! x = Some tm' →
     ∃ tm, h !! x = Some tm ∧ tm_same_status tm tm') →
  partition_ex h bm exF exE → partition_ex h' bm' exF exE.
Proof.
  intros Hd Hf Hst [Hle Hpart]. unfold partition_ex, bm_size in *. rewrite Hd, Hf.
  split; [done|]. intros k a tm' Hk Ha'.
  destruct (Hst a tm') as (tm & Ha & Hs); [by eapply list_elem_of_lookup_2|done|].
  destruct (Hpart k a tm Hk Ha) as (H1 & H2 & H3).
  rewrite (tm_full_same tm tm'), (tm_empty_same tm tm') by done.
  split; [done|]. split; [done|].
  intros He Hne k' a' tm2' Hlt Hk' Ha2'.
  destruct (Hst a' tm2') as (tm2 & Ha2 & Hs2); [by eapply list_elem_of_lookup_2|done|].
  rewrite (tm_empty_same tm2 tm2') by done. by eapply H3.
Qed.

Lemma partition_ex_weaken (h : gmap Z token_manager_s) (bm : block_manager_s)
    (exF exE : option Z) :
  partition h bm → partition_ex h bm exF exE.
Proof.
  intros [Hle Hpart]. split; [done|]. intros k a tm Hk Ha.
  destruct (Hpart k a tm Hk Ha) as (H1 & H2 & H3).
  split; [done|]. split; [by intros; apply H2|]. intros He _. by apply H3.
Qed.

(** ** Block managers: a new pool *)

Lemma region_free_spec (w : tbman_s) (a len : Z) :
  region_free w a len = true →
  (∀ b, b ∈ internal_btree w → b + pool_size w ≤ a ∨ a + len ≤ b)
  ∧ (∀ q sz, (q, sz) ∈ external_btree w → q + sz ≤ a ∨ a + len ≤ q).
Proof.
  unfold region_free. intros [H1 H2]%andb_true_iff.
  rewrite forallb_forall in H1. rewrite forallb_forall in H2. split.
  - intros b Hb. apply list_elem_of_In in Hb. specialize (H1 b Hb).
    apply orb_true_iff in H1. lia.
  - intros q sz Hq. apply list_elem_of_In in Hq. specialize (H2 (q, sz) Hq).
    apply orb_true_iff in H2. cbn in H2. lia.
Qed.

Lemma forallb_insert_false {A} (f : A → bool) (l : list A) (i : nat) (y : A) :
  (i < length l)%nat → f y = false → forallb f (<[i := y]> l) = false.
Proof.
  revert i. induction l as [|z l IH]; intros [|i] Hi Hf; simpl in *; try lia.
  - by rewrite Hf.
  - rewrite IH by (done || lia). apply andb_false_r.
Qed.

(** The state after a block manager has registered a new pool at the end
    of its vector. *)
Lemma append_pool_wf (w w' : tbman_s) (c : nat) (bm bm' : block_manager_s)
    (a : Z) (tm : token_manager_s) :
  wf w →
  data w !! c = Some bm → bm_free_index bm = bm_size bm →
  a ∉ internal_btree w → region_free w a (pool_size w) = true →
  tm_ok a tm → tm_pool_size tm = pool_size w → tm_block_size tm = bm_block_size bm →
  tm_parent tm = c → tm_parent_index tm = bm_size bm → tm_stack_index tm = 0 →
  data w' = <[c := bm']> (data w) →
  bm_data bm' = bm_data bm ++ [a] → bm_free_index bm' = bm_free_index bm →
  bm_pool_size bm' = bm_pool_size bm → bm_block_size bm' = bm_block_size bm →
  bm_aligned bm' = bm_aligned bm && tm_aligned tm →
  aligned w' = (if bm_aligned bm && negb (tm_aligned tm) then false else aligned w) →
  pools w' = <[a := tm]> (pools w) →
  internal_btree w' = a :: internal_btree w →
  same_fixed w w' →
  wf w'.
Proof.
  intros [Hwf Hpart] Hc Hf Hnin Hfree Hok Htp Htb Hpar Hpi Hi0 Hd Hbd Hbf Hbp Hbb Hba
    Hal Hpools Htree (Hps & _ & _ & Hbsa & Hext & Hmu).
  assert (Hclt : (c < length (data w))%nat) by (by eapply lookup_lt_Some).
  assert (Hnone : pools w !! a = None).
  { destruct (pools w !! a) eqn:E; [|done]. exfalso. apply Hnin. apply (wf_tree w Hwf). eauto. }
  apply region_free_spec in Hfree as [Hfr1 Hfr2].
  assert (Hother : ∀ x tx, pools w !! x = Some tx → pools w' !! x = Some tx).
  { intros x tx Hx. rewrite Hpools, lookup_insert_ne; [done|]. intros ->. congruence. }
  assert (Hnew : pools w' !! a = Some tm) by (by rewrite Hpools, lookup_insert_eq).
  assert (Hold : ∀ x tx, pools w' !! x = Some tx → x ≠ a → pools w !! x = Some tx).
  { intros x tx Hx Hne. by rewrite Hpools, lookup_insert_ne in Hx. }
  destruct Hwf as [Wbsa Wps Wbm Wslot Wpool Wtree Wapart Wext Wbal Wal Wtop].
  split; [split|].
  - rewrite Hbsa, Hd, Wbsa. symmetry. by eapply fmap_insert_same.
  - by rewrite Hps.
  - intros c' bm0 Hc'. rewrite Hd in Hc'. rewrite Hps.
    destruct (decide (c' = c)) as [->|Hne].
    + rewrite list_lookup_insert_eq in Hc' by done. simplify_eq.
      rewrite Hbp, Hbb. by apply (Wbm (tm_parent tm)).
    + rewrite list_lookup_insert_ne in Hc' by done. by apply (Wbm c').
  - intros c' bm0 k x Hc' Hk. rewrite Hd in Hc'.
    destruct (decide (c' = c)) as [->|Hne].
    + rewrite list_lookup_insert_eq in Hc' by done. injection Hc' as <-.
      rewrite Hbd in Hk. apply lookup_app_Some in Hk as [Hk|[Hlen Hk]].
      * destruct (Wslot c bm k x Hc Hk) as (tx & Hx & ? & ?). eauto.
      * destruct (k - length (bm_data bm))%nat eqn:E; [|done]. simpl in Hk. injection Hk as <-.
        exists tm. split; [done|]. split; [done|]. unfold bm_size in Hpi. lia.
    + rewrite list_lookup_insert_ne in Hc' by done.
      destruct (Wslot c' bm0 k x Hc' Hk) as (tx & Hx & ? & ?). eauto.
  - intros x tx Hx. rewrite Hps, Hd. destruct (decide (x = a)) as [->|Hne].
    + rewrite Hnew in Hx. injection Hx as <-.
      split; [done|]. split; [done|]. exists bm'. rewrite Hpar.
      rewrite list_lookup_insert_eq by done. split; [done|].
      rewrite Hpi, Hbd, Hbb. split; [|done].
      unfold bm_size. rewrite lookup_app_r by done. by rewrite Nat.sub_diag.
    + apply Hold in Hx; [|done].
      destruct (Wpool x tx Hx) as (Hok0 & Hsz & bm0 & Hb0 & Hd0 & Hbs0).
      split; [done|]. split; [done|].
      destruct (decide (tm_parent tx = c)) as [E|E].
      * exists bm'. rewrite E, list_lookup_insert_eq by done. rewrite E, Hc in Hb0.
        injection Hb0 as <-. split; [done|]. rewrite Hbd, Hbb. split; [|done].
        by apply lookup_app_l_Some.
      * exists bm0. by rewrite list_lookup_insert_ne.
  - intros x. rewrite Htree, Hpools, elem_of_cons, lookup_insert_is_Some, Wtree.
    split; [intros [->|Hx]; [by left|]|intros [->|[_ Hx]]; [by left|by right]].
    destruct (decide (a = x)); [by left|by right].
  - intros x y. rewrite Htree, Hps, !elem_of_cons.
    intros [->|Hx] [->|Hy] Hne; [done| | |by apply Wapart].
    + destruct (Hfr1 y Hy); lia.
    + destruct (Hfr1 x Hx); lia.
  - intros q sz. rewrite Hext, Htree, Hps. intros Hq.
    destruct (Wext q sz Hq) as (? & ? & Hb). split; [done|]. split; [done|].
    intros b [->|Hin]%elem_of_cons; [|by apply Hb].
    destruct (Hfr2 q sz Hq); lia.
  - intros c' bm0 x tx Hc' Hal0 Hin Hx. rewrite Hd in Hc'.
    destruct (decide (c' = c)) as [->|Hne].
    + rewrite list_lookup_insert_eq in Hc' by done. injection Hc' as <-.
      rewrite Hba in Hal0. apply andb_true_iff in Hal0 as [Hal1 Hal2].
      rewrite Hbd in Hin. apply elem_of_app in Hin as [Hin|Hin].
      * apply (Wbal c bm x tx); [done..|]. apply Hold; [done|]. intros ->.
        apply list_elem_of_lookup_1 in Hin as [k Hk].
        destruct (Wslot c bm k a Hc Hk) as (? & ? & _). congruence.
      * apply list_elem_of_singleton in Hin as ->. congruence.
    + rewrite list_lookup_insert_ne in Hc' by done.
      apply (Wbal c' bm0 x tx); [done..|]. apply Hold; [done|]. intros ->.
      apply list_elem_of_lookup_1 in Hin as [k Hk].
      destruct (Wslot c' bm0 k a Hc' Hk) as (? & ? & _). congruence.
  - rewrite Hal, Hd, Wal. destruct (bm_aligned bm) eqn:Eb.
    + destruct (tm_aligned tm) eqn:Et; simpl.
      * symmetry. eapply forallb_insert_same; [done|]. by rewrite ?Hba, ?Eb, ?Et.
      * symmetry. apply forallb_insert_false; [done|]. by rewrite ?Hba, ?Eb, ?Et.
    + simpl. symmetry. eapply forallb_insert_same; [done|]. by rewrite ?Hba, ?Eb.
  - by rewrite Hext.
  - intros c' bm0 Hc'. rewrite Hd in Hc'.
    destruct (decide (c' = c)) as [->|Hne].
    + rewrite list_lookup_insert_eq in Hc' by done. injection Hc' as <-.
      destruct (Hpart c bm Hc) as [Hle Hp].
      split; [unfold bm_size in *; rewrite Hbf, Hbd, length_app; simpl; lia|].
      intros k x tx Hk Hx. rewrite Hbd in Hk. rewrite Hbf.
      apply lookup_app_Some in Hk as [Hk|[Hlen Hk]].
      * assert (x ≠ a).
        { intros ->. destruct (Wslot c bm k a Hc Hk) as (? & ? & _). congruence. }
        apply Hold in Hx; [|done].
        destruct (Hp k x tx Hk Hx) as (H1 & H2 & H3).
        assert (Hklt : (k < bm_free_index bm)%nat).
        { rewrite Hf. unfold bm_size. by eapply lookup_lt_Some. }
        split; [done|]. split; [lia|]. intros He _. exfalso.
        destruct (Wpool x tx Hx) as (Hokx & _).
        by apply (tm_empty_not_full x tx Hokx He), H1.
      * destruct (k - length (bm_data bm))%nat eqn:E; [|done]. simpl in Hk. injection Hk as <-.
        rewrite Hnew in Hx. injection Hx as <-.
        split; [unfold bm_size in Hf; lia|]. split.
        { intros _ _. by apply (tm_empty_not_full a tm Hok). }
        intros _ _ k' x' tx' Hlt Hk' _. exfalso.
        apply lookup_lt_Some in Hk'. rewrite Hbd, length_app in Hk'. simpl in Hk'. lia.
    + rewrite list_lookup_insert_ne in Hc' by done.
      eapply partition_ex_same; [done|done| |by apply (Hpart c' bm0)].
      intros x tx' Hin Hx'. exists tx'. split; [|by split].
      apply Hold; [done|]. intros ->.
      apply list_elem_of_lookup_1 in Hin as [k Hk].
      destruct (Wslot c' bm0 k a Hc' Hk) as (? & ? & _). congruence.
Qed.

(** ** Where the blocks of a pool lie *)

Lemma tm_token_in_pool (a : Z) (tm : token_manager_s) (t : Z) :
  tm_ok a tm → tm_reserved tm ≤ t < tm_stack_len tm →
  size_t (t * tm_block_size tm) = t * tm_block_size tm
  ∧ sizeof_token_manager_s ≤ t * tm_block_size tm
  ∧ t * tm_block_size tm + tm_block_size tm ≤ tm_pool_size tm.
Proof.
  intros Hok Ht. pose proof (tm_ok_block _ _ Hok) as HB.
  destruct (tm_ok_pow2 _ _ Hok) as (k & Hk & HP).
  assert (HP64 : tm_pool_size tm < 2 ^ 64).
  { rewrite HP. apply Z.pow_lt_mono_r; lia. }
  assert (HP0 : 0 ≤ tm_pool_size tm) by (rewrite HP; apply Z.pow_nonneg; lia).
  pose proof (tm_reserved_pos _ _ Hok) as Hrb.
  unfold tm_stack_len in *.
  assert (Hdiv : tm_block_size tm * (tm_pool_size tm / tm_block_size tm) ≤ tm_pool_size tm)
    by (apply Z.mul_div_le; lia).
  assert (Hres : sizeof_token_manager_s ≤ tm_reserved tm * tm_block_size tm).
  { unfold tm_reserved, reserved_blocks_of.
    set (rs := sizeof_token_manager_s + 2 * (tm_pool_size tm / tm_block_size tm)).
    assert (0 ≤ tm_pool_size tm / tm_block_size tm) by (apply Z.div_pos; lia).
    assert (sizeof_token_manager_s ≤ rs) by (unfold rs; lia).
    pose proof (Z.div_mod rs (tm_block_size tm) ltac:(lia)) as Hdm.
    pose proof (Z.mod_pos_bound rs (tm_block_size tm) ltac:(lia)) as Hmb.
    destruct (0 <? rs mod tm_block_size tm) eqn:E.
    - nia.
    - apply Z.ltb_ge in E. nia. }
  split; [apply size_t_small; nia|]. split; nia.
Qed.

(** The reserved blocks cover the header and the token stack. *)
Lemma tm_reserved_covers (a : Z) (tm : token_manager_s) :
  tm_ok a tm →
  sizeof_token_manager_s + 2 * tm_stack_len tm ≤ tm_reserved tm * tm_block_size tm.
Proof.
  intros Hok. pose proof (tm_ok_block _ _ Hok) as HB.
  unfold tm_reserved, reserved_blocks_of, tm_stack_len.
  set (rs := sizeof_token_manager_s + 2 * (tm_pool_size tm / tm_block_size tm)).
  pose proof (Z.div_mod rs (tm_block_size tm) ltac:(lia)) as Hdm.
  pose proof (Z.mod_pos_bound rs (tm_block_size tm) ltac:(lia)) as Hmb.
  destruct (0 <? rs mod tm_block_size tm) eqn:E.
  - nia.
  - apply Z.ltb_ge in E. nia.
Qed.

Lemma tm_live_range (a : Z) (tm : token_manager_s) (p : Z) :
  tm_ok a tm → tm_live a tm p →
  a + sizeof_token_manager_s ≤ p ∧ p + tm_block_size tm ≤ a + tm_pool_size tm.
Proof.
  intros Hok (_ & t & -> & Ht & _).
  destruct (tm_token_in_pool a tm t Hok Ht) as (_ & H1 & H2). lia.
Qed.

(** A live block belongs to one pool. *)
Lemma tm_live_unique (w : tbman_s) (a b : Z) (ta tb : token_manager_s) (p : Z) :
  wf_core w → pools w !! a = Some ta → pools w !! b = Some tb →
  tm_live a ta p → a ≤ p < a + pool_size w → b ≤ p < b + pool_size w → a = b.
Proof.
  intros Hwf Ha Hb _ Hra Hrb. destruct (decide (a = b)) as [|Hne]; [done|]. exfalso.
  destruct (wf_apart w Hwf a b) as [H|H]; [apply (wf_tree w Hwf); eauto..|done|lia|lia].
Qed.

Lemma pool_range (w : tbman_s) (a : Z) (tm : token_manager_s) (p : Z) :
  wf_core w → pools w !! a = Some tm → tm_live a tm p →
  a < p < a + pool_size w ∧ 0 < pool_size w.
Proof.
  intros Hwf Ha Hl. destruct (wf_pool w Hwf a tm Ha) as (Hok & HP & _).
  destruct (tm_live_range a tm p Hok Hl) as [H1 H2].
  pose proof (tm_ok_block _ _ Hok). unfold sizeof_token_manager_s in *. lia.
Qed.

Lemma external_not_in_pool (w : tbman_s) (q sz b : Z) (tb : token_manager_s) :
  wf_core w → (q, sz) ∈ external_btree w → pools w !! b = Some tb →
  ¬ (b ≤ q < b + pool_size w).
Proof.
  intros Hwf Hq Hb Hr. destruct (wf_ext w Hwf q sz Hq) as (H1 & H2 & H3).
  destruct (H3 b); [apply (wf_tree w Hwf); eauto|lia|lia].
Qed.


(** *** Counting tokens *)

Lemma free_tokens_length (a : Z) (tm : token_manager_s) :
  tm_ok a tm → length (free_tokens tm) = Z.to_nat (tm_capacity tm - tm_stack_index tm).
Proof.
  intros Hok. unfold free_tokens. rewrite length_drop, length_take.
  pose proof (tm_ok_sentinel _ _ Hok) as Hs. apply lookup_lt_Some in Hs.
  pose proof (tm_ok_index _ _ Hok). lia.
Qed.

Lemma free_tokens_range (a : Z) (tm : token_manager_s) (x : Z) :
  tm_ok a tm → x ∈ free_tokens tm → tm_reserved tm ≤ x < tm_stack_len tm.
Proof.
  intros Hok Hx. unfold free_tokens in Hx.
  apply list_elem_of_lookup in Hx as [i Hx]. rewrite lookup_drop in Hx.
  apply lookup_take_Some in Hx as [Hx Hlt].
  destruct (tm_ok_tokens _ _ Hok (Z.of_nat (Z.to_nat (tm_stack_index tm) + i)))
    as (t & Ht & Hr); [lia|].
  rewrite Nat2Z.id in Ht. by assert (t = x) as -> by congruence.
Qed.

(** The free tokens and the tokens [l] of some live blocks are at most
    [capacity] tokens. *)
Lemma live_tokens_bound (a : Z) (tm : token_manager_s) (l : list Z) :
  tm_ok a tm → NoDup l →
  (∀ t, t ∈ l → tm_reserved tm ≤ t < tm_stack_len tm ∧ t ∉ free_tokens tm) →
  Z.of_nat (length l) ≤ tm_stack_index tm.
Proof.
  intros Hok Hnd Hl. pose proof (tm_ok_index _ _ Hok) as Hi.
  assert (Hsub : l ++ free_tokens tm ⊆+ seqZ (tm_reserved tm) (tm_capacity tm)).
  { apply NoDup_submseteq.
    - apply NoDup_app. split; [done|]. split; [|apply Hok].
      intros x Hx Hf. by destruct (Hl x Hx).
    - intros x [Hx|Hx]%elem_of_app; apply elem_of_seqZ.
      + destruct (Hl x Hx). unfold tm_capacity. lia.
      + pose proof (free_tokens_range a tm x Hok Hx). unfold tm_capacity. lia. }
  apply submseteq_length in Hsub.
  rewrite length_seqZ, length_app, (free_tokens_length a) in Hsub by done. lia.
Qed.

(** In an empty pool every token is free. *)
Lemma free_tokens_all (a : Z) (tm : token_manager_s) (t : Z) :
  tm_ok a tm → tm_stack_index tm = 0 → tm_reserved tm ≤ t < tm_stack_len tm →
  t ∈ free_tokens tm.
Proof.
  intros Hok Hi Ht. destruct (decide (t ∈ free_tokens tm)) as [|Hn]; [done|]. exfalso.
  pose proof (live_tokens_bound a tm [t] Hok) as Hb. cbn in Hb.
  rewrite Hi in Hb. enough (1 ≤ 0) by lia. apply Hb.
  - apply NoDup_singleton.
  - by intros x ->%list_elem_of_singleton.
Qed.

(** ** Block managers: [alloc] *)

Lemma wf_slot_parent (w : tbman_s) (c : nat) (bm : block_manager_s) (k : nat) (a : Z)
    (tm : token_manager_s) :
  wf_core w → data w !! c = Some bm → bm_data bm !! k = Some a → pools w !! a = Some tm →
  tm_parent tm = c ∧ tm_parent_index tm = k.
Proof.
  intros Hwf Hc Hk Ha. destruct (wf_slot w Hwf c bm k a Hc Hk) as (tm0 & Ha0 & ? & ?).
  by assert (tm0 = tm) as -> by congruence.
Qed.

(** Pools of other block managers are other pools. *)
Lemma partition_frame (w w' : tbman_s) (c c' : nat) (bm0 : block_manager_s)
    (exF exE : option Z) :
  wf_core w → c' ≠ c → data w !! c' = Some bm0 →
  (∀ x tx', pools w' !! x = Some tx' →
     ∃ tx, pools w !! x = Some tx ∧ (tm_parent tx ≠ c → tm_same_status tx tx')) →
  partition_ex (pools w) bm0 exF exE → partition_ex (pools w') bm0 exF exE.
Proof.
  intros Hwf Hne Hc' Hst. apply partition_ex_same; [done..|].
  intros x tx' Hin Hx'. destruct (Hst x tx' Hx') as (tx & Hx & Hs).
  exists tx. split; [done|]. apply Hs.
  apply list_elem_of_lookup_1 in Hin as [k Hk].
  destruct (wf_slot_parent w c' bm0 k x tx Hwf Hc' Hk Hx) as [-> _]. done.
Qed.

Lemma tm_live_alloc (a : Z) (tm : token_manager_s) (q : Z) :
  tm_ok a tm → ¬ tm_full tm → tm_live a tm q →
  tm_live a (set_stack_index (tm_stack_index tm + 1) tm) q.
Proof.
  intros Hok Hnf (Hi & t & Hq & Ht & Hnin).
  split; [cbn; lia|]. exists t. split; [done|]. split; [done|].
  rewrite free_tokens_set_stack_index. intros Hin. apply Hnin. unfold free_tokens.
  pose proof (tm_ok_index _ _ Hok).
  replace (Z.to_nat (tm_stack_index tm + 1)) with (Z.to_nat (tm_stack_index tm) + 1)%nat
    in Hin by lia.
  rewrite <- drop_drop in Hin. by eapply subseteq_drop.
Qed.

(** The state after a block manager has allocated from the pool at
    [free_index]. *)
Lemma alloc_slot_wf (w w' : tbman_s) (c : nat) (bm bm' : block_manager_s) (a : Z)
    (tm : token_manager_s) :
  wf w → data w !! c = Some bm →
  bm_data bm !! bm_free_index bm = Some a → pools w !! a = Some tm →
  pools w' = <[a := set_stack_index (tm_stack_index tm + 1) tm]> (pools w) →
  data w' = <[c := bm']> (data w) →
  bm_data bm' = bm_data bm →
  bm_pool_size bm' = bm_pool_size bm →
  bm_block_size bm' = bm_block_size bm →
  bm_aligned bm' = bm_aligned bm →
  (tm_full (set_stack_index (tm_stack_index tm + 1) tm) →
     bm_free_index bm' = S (bm_free_index bm)) →
  (¬ tm_full (set_stack_index (tm_stack_index tm + 1) tm) →
     bm_free_index bm' = bm_free_index bm) →
  same_fixed w w' → aligned w' = aligned w → internal_btree w' = internal_btree w →
  wf w'.
Proof.
  intros [Hwf Hpart] Hc Hk Ha Hpools Hd Hbd Hbp Hbb Hba Hf1 Hf2 Hfix Hal Htree.
  destruct (wf_slot_parent w c bm _ a tm Hwf Hc Hk Ha) as [Hpar Hpi].
  destruct (wf_pool w Hwf a tm Ha) as (Hok & _).
  destruct (Hpart c bm Hc) as [Hle Hp].
  assert (Hnf : ¬ tm_full tm).
  { destruct (Hp _ a tm Hk Ha) as (_ & H2 & _). by apply H2. }
  destruct (tm_ok_alloc a tm Hok Hnf) as (_ & Hok' & _).
  set (tm' := set_stack_index (tm_stack_index tm + 1) tm) in *.
  assert (Hclt : (c < length (data w))%nat) by (by eapply lookup_lt_Some).
  assert (Hwf' : wf_core w').
  { eapply (wf_core_status w w' a tm tm' bm bm'); rewrite ?Hpar; try done. }
  split; [done|].
  intros c' bm0 Hc'. rewrite Hd in Hc'.
  destruct (decide (c' = c)) as [->|Hne].
  - rewrite list_lookup_insert_eq in Hc' by done. injection Hc' as <-.
    assert (Hfle : (bm_free_index bm ≤ bm_free_index bm' ≤ S (bm_free_index bm))%nat).
    { destruct (decide (tm_full tm')) as [F|F]; [rewrite Hf1|rewrite Hf2]; done || lia. }
    assert (Hflt : (bm_free_index bm < length (bm_data bm))%nat)
      by (by eapply lookup_lt_Some).
    split; [unfold bm_size in *; rewrite Hbd; lia|].
    intros k x tx' Hkx Hx'. rewrite Hbd in Hkx. rewrite Hpools in Hx'.
    destruct (decide (x = a)) as [->|Hxa].
    + rewrite lookup_insert_eq in Hx'. injection Hx' as <-.
      assert (k = bm_free_index bm) as -> by (by eapply (wf_slot_inj w c bm)).
      split; [|split].
      * intros Hlt. destruct (decide (tm_full tm')) as [F|F]; [done|].
        rewrite Hf2 in Hlt by done. lia.
      * intros Hge _ F. rewrite Hf1 in Hge by done. lia.
      * intros He. unfold tm_empty in He. cbn in He.
        pose proof (tm_ok_index _ _ Hok). lia.
    + rewrite lookup_insert_ne in Hx' by done.
      assert (k ≠ bm_free_index bm).
      { intros ->. congruence. }
      destruct (Hp k x tx' Hkx Hx') as (H1 & H2 & H3).
      split; [intros; apply H1; lia|]. split; [intros; apply H2; [lia|done]|].
      intros He _ k' x' tx2 Hlt Hk' Hx2. rewrite Hbd in Hk'. rewrite Hpools in Hx2.
      destruct (decide (x' = a)) as [->|Hx'a].
      * exfalso. assert (k' = bm_free_index bm) as -> by (by eapply (wf_slot_inj w c bm)).
        destruct (wf_pool w Hwf x tx' Hx') as (Hokx & _).
        apply (tm_empty_not_full x tx' Hokx He). apply H1. lia.
      * rewrite lookup_insert_ne in Hx2 by done. by eapply (H3 He).
  - rewrite list_lookup_insert_ne in Hc' by done.
    eapply (partition_frame w w' c c'); [done..| |exact (Hpart c' bm0 Hc')].
    intros x tx' Hx'. rewrite Hpools in Hx'.
    destruct (decide (x = a)) as [->|Hxa].
    + exists tm. split; [done|]. intros E. done.
    + rewrite lookup_insert_ne in Hx' by done. exists tx'. by repeat split.
Qed.

Lemma init_token_stack_wrapped (rb : Z) : init_token_stack (uint16 65536) 65536 rb = [].
Proof. reflexivity. Qed.

Lemma btree_vd_s_set_Ok (key : Z) (w : tbman_s) (r : Z) (w' : tbman_s) :
  btree_vd_s_set key w = Ok (r, w') → r = 1 →
  (key ∉ internal_btree w)
  ∧ w' = set_internal_btree (λ t, key :: t) (set_trace (λ l, l ++ [EvVdSet key]) w).
Proof.
  unfold btree_vd_s_set. intros H ->. monad_inv; try done.
  match goal with H : bool_decide _ = false |- _ => apply bool_decide_eq_false in H end.
  done.
Qed.

Lemma block_manager_s_alloc_shape (sys : Z) (c : nat) (w : tbman_s) (p : Z) (w' : tbman_s) :
  wf w → block_manager_s_alloc sys c w = Ok (p, w') →
  wf w' ∧ same_fixed w w'
  ∧ (∃ a tm', pools w' !! a = Some tm' ∧ tm_parent tm' = c ∧ tm_live a tm' p)
  ∧ (∀ q, valid_ptr w q → valid_ptr w' q)
  ∧ (aligned w' = true → aligned w = true)
  ∧ (∀ a1 tm1, pools w !! a1 = Some tm1 →
       ∃ tm1', pools w' !! a1 = Some tm1' ∧ tm_same_static tm1 tm1'
               ∧ ∀ q, tm_live a1 tm1 q → tm_live a1 tm1' q)
  ∧ ¬ valid_ptr w p
  ∧ (∀ q, valid_ptr w' q → q = p ∨ valid_ptr w q)
  ∧ (∀ a2 tm2, pools w' !! a2 = Some tm2 → tm_empty tm2 → pools w !! a2 = Some tm2)
  ∧ (∀ a1 tm1, pools w !! a1 = Some tm1 →
       ∃ tm1', pools w' !! a1 = Some tm1' ∧ tm_parent tm1' = tm_parent tm1
               ∧ tm_stack_index tm1 ≤ tm_stack_index tm1').
Proof.
  intros Hwf H. unfold block_manager_s_alloc in H.
  apply bind_Ok in H as (o & w0 & Hget & H).
  apply get_bm_Ok in Hget as [Hc ->].
  apply bind_Ok in H as ([] & w1 & Hgrow & H).
  assert (Hw1 : ∃ o1, data w1 !! c = Some o1 ∧ same_fixed w w1
            ∧ (∀ q, valid_ptr w q → valid_ptr w1 q)
            ∧ (aligned w1 = true → aligned w = true)
            ∧ (∀ a1 tm1, pools w !! a1 = Some tm1 → pools w1 !! a1 = Some tm1)
            ∧ (∀ q, valid_ptr w1 q → valid_ptr w q)
            ∧ (∀ a2 tm2, pools w1 !! a2 = Some tm2 →
                 pools w !! a2 = Some tm2 ∨ bm_data o1 !! bm_free_index o1 = Some a2)
            ∧ (∀ a1 tm1 t, bm_data o1 !! bm_free_index o1 = Some a1 →
                 pools w1 !! a1 = Some tm1 →
                 tm_token_stack tm1 !! Z.to_nat (tm_stack_index tm1) = Some t → wf w1)).
  { unfold when in Hgrow. destruct (bm_free_index o =? bm_size o)%nat eqn:Hfull.
    2:{ unfold ret in Hgrow. injection Hgrow as <-. exists o.
        split; [done|]. split; [apply same_fixed_refl|].
        split; [done|]. split; [done|]. split; [done|]. split; [done|].
        split; [intros; by left|done]. }
    apply Nat.eqb_eq in Hfull.
    set (o' := if (bm_size o =? bm_space o)%nat
               then set_bm_space (if (0 <? bm_space o)%nat then (bm_space o * 2)%nat else 1%nat) o
               else o) in Hgrow.
    assert (Ho' : bm_data o' = bm_data o ∧ bm_free_index o' = bm_free_index o
                  ∧ bm_pool_size o' = bm_pool_size o ∧ bm_block_size o' = bm_block_size o
                  ∧ bm_aligned o' = bm_aligned o ∧ bm_align o' = bm_align o).
    { unfold o'. destruct (bm_size o =? bm_space o)%nat; done. }
    destruct Ho' as (Hod & Hof & Hop & Hob & Hoa & Hoal).
    apply bind_Ok in Hgrow as (a & wa & Hcreate & Hgrow).
    destruct Hwf as [Hcore Hpart].
    destruct (wf_bm w Hcore c o Hc) as [HbmP HbmB].
    apply token_manager_s_create_Ok in Hcreate
      as (tm0 & -> & Ha0 & Hfree & HtP & HtB & Hts & Hti & Hta & Htk & HB & Hpow & HS & Hrb
          & Htop);
      [|rewrite Hop, HbmP; apply (wf_psize w Hcore)|rewrite Hob; done].
    apply bind_Ok in Hgrow as (tm0' & ? & Hderef & Hgrow).
    apply deref_Ok in Hderef as [Hderef ->]. cbn in Hderef.
    rewrite lookup_insert_eq in Hderef. injection Hderef as <-.
    apply bind_Ok in Hgrow as ([] & w2 & Hstore & Hgrow).
    unfold store, modify in Hstore. injection Hstore as <-.
    apply bind_Ok in Hgrow as (o2 & w3 & Hal & Hgrow).
    apply bind_Ok in Hgrow as (r & w4 & Hset & Hgrow).
    destruct (negb (r =? 1)) eqn:Hr; [done|].
    apply negb_false_iff, Z.eqb_eq in Hr.
    apply btree_vd_s_set_Ok in Hset as [Hnin ->]; [|done].
    unfold put_bm, modify in Hgrow. injection Hgrow as <-.
    assert (Hal' : bm_data o2 = bm_data o ∧ bm_free_index o2 = bm_free_index o
              ∧ bm_pool_size o2 = bm_pool_size o ∧ bm_block_size o2 = bm_block_size o
              ∧ bm_aligned o2 = bm_aligned o && tm_aligned tm0
              ∧ data w3 = data w ∧ internal_btree w3 = internal_btree w
              ∧ pools w3 = <[a := set_parent c (bm_size o') tm0]> (<[a := tm0]> (pools w))
              ∧ aligned w3 = (if bm_aligned o && negb (tm_aligned tm0) then false else aligned w)
              ∧ same_fixed w w3).
    { rewrite <- Hoa. destruct (bm_aligned o' && negb (tm_aligned tm0)) eqn:E.
      - apply andb_true_iff in E as [E1 E2]. apply negb_true_iff in E2.
        minv Hal. cbn. rewrite E1, E2. by repeat split.
      - unfold ret in Hal. injection Hal as <- <-. cbn.
        repeat split; try done. destruct (bm_aligned o'); [|done].
        simpl in *. apply negb_false_iff in E. by rewrite E. }
    destruct Hal' as (H2d & H2f & H2p & H2b & H2a & H3d & H3t & H3p & H3a & H3fix).
    rewrite insert_insert_eq in H3p.
    eexists. split.
    { cbn. rewrite H3d. apply list_lookup_insert_eq. by eapply lookup_lt_Some. }
    split; [cbn; exact H3fix|]. split.
    { intros q [(a1 & tm1 & Ha1 & Hl)|(sz & Hq)].
      - left. exists a1, tm1. split; [|done]. cbn. rewrite H3p.
        rewrite lookup_insert_ne; [done|]. intros <-. apply Hnin.
        cbn. rewrite H3t. apply (wf_tree w Hcore). eauto.
      - right. exists sz. cbn. destruct H3fix as (_ & _ & _ & _ & -> & _). done. }
    split.
    { cbn. rewrite H3a. by destruct (bm_aligned o && negb (tm_aligned tm0)). }
    split.
    { intros a1 tm1 Ha1. cbn. rewrite H3p.
      rewrite lookup_insert_ne; [done|]. intros <-. apply Hnin.
      cbn. rewrite H3t. apply (wf_tree w Hcore). eauto. }
    split.
    { intros q [(a1 & tm1 & Ha1 & Hl)|(sz & Hq)].
      - left. cbn in Ha1. rewrite H3p in Ha1.
        destruct (decide (a1 = a)) as [->|Hne].
        + rewrite lookup_insert_eq in Ha1. injection Ha1 as <-.
          destruct Hl as [Hl _]. cbn in Hl. lia.
        + rewrite lookup_insert_ne in Ha1 by done. eauto.
      - right. exists sz. cbn in Hq. destruct H3fix as (_ & _ & _ & _ & Hext & _).
        by rewrite <- Hext. }
    split.
    { intros a2 tm2 Ha2. cbn in Ha2. rewrite H3p in Ha2.
      destruct (decide (a2 = a)) as [->|Hne]; [right|left].
      - cbn. rewrite H2d, H2f, Hfull. unfold bm_size.
        by rewrite lookup_app_r, Nat.sub_diag.
      - by rewrite lookup_insert_ne in Ha2. }
    intros a1 tm1 t Hslot Hpool Htok. cbn in Hslot, Hpool.
    rewrite H2d, H2f, Hfull in Hslot. unfold bm_size in Hslot.
    rewrite lookup_app_r, Nat.sub_diag in Hslot by done. injection Hslot as <-.
    rewrite H3p, lookup_insert_eq in Hpool. injection Hpool as <-. cbn in Htok.
    assert (HS' : bm_pool_size o' / bm_block_size o' ≤ 65535).
    { destruct (Z.eq_dec (bm_pool_size o' / bm_block_size o') 65536) as [E|E]; [|lia].
      rewrite Htk, E, init_token_stack_wrapped in Htok. done. }
    cbn in Hnin. rewrite H3t in Hnin.
    assert (HPw : bm_pool_size o' = pool_size w) by congruence.
    assert (Hfree' : region_free w a (pool_size w) = true) by (by rewrite <- HPw).
    eapply (append_pool_wf w _ c o (set_bm_data (bm_data o2 ++ [a]) o2) a
              (set_parent c (bm_size o') tm0)); cbn; try done.
    - eapply tm_ok_create; cbn; try done.
    - congruence.
    - congruence.
    - unfold bm_size. by rewrite Hod.
    - by rewrite H3d.
    - by rewrite H2d.
    - by rewrite H3t. }
  destruct Hw1 as (o1 & Hc1 & Hfix1 & Hval1 & Hlatch1 & Hkeep1 & Hback1 & Hnew1 & Hwf1).
  apply bind_Ok in H as (o1' & ? & Hget & H).
  apply get_bm_Ok in Hget as [Hget ->]. assert (o1' = o1) as -> by congruence.
  apply bind_Ok in H as (child & ? & Hchild & H).
  apply data_at_Ok in Hchild as [Hchild ->].
  apply bind_Ok in H as (ret_ptr & w2 & Halloc & H).
  apply token_manager_s_alloc_Ok in Halloc as (tm & t & Htm & Ht & Ht0 & Hret & ->).
  specialize (Hwf1 child tm t Hchild Htm Ht).
  apply bind_Ok in H as (full & ? & Hfull & H).
  apply token_manager_s_is_full_Ok in Hfull as (-> & tm' & Htm' & Hfull).
  cbn in Htm'. rewrite lookup_insert_eq in Htm'. injection Htm' as <-.
  destruct Hwf1 as [Hcore1 Hpart1].
  destruct (wf_pool w1 Hcore1 child tm Htm) as (Hok & _).
  destruct (Hpart1 c o1 Hc1) as [_ Hp1].
  assert (Hnf : ¬ tm_full tm).
  { destruct (Hp1 _ child tm Hchild Htm) as (_ & H2 & _). by apply H2. }
  destruct (tm_ok_alloc child tm Hok Hnf) as (Hu & Hok' & t' & Ht' & Hrange & Hnin).
  assert (t' = t) as -> by congruence.
  rewrite Hu in *.
  destruct (tm_token_in_pool child tm t Hok Hrange) as (Hsz & _).
  assert (Hc1lt : (c < length (data w1))%nat) by (by eapply lookup_lt_Some).
  assert (Hfinal : ∃ bm', data w' = <[c := bm']> (data w1)
             ∧ bm_data bm' = bm_data o1 ∧ bm_pool_size bm' = bm_pool_size o1
             ∧ bm_block_size bm' = bm_block_size o1 ∧ bm_aligned bm' = bm_aligned o1
             ∧ bm_free_index bm' = (if full then S (bm_free_index o1) else bm_free_index o1)
             ∧ pools w' = <[child := set_stack_index (tm_stack_index tm + 1) tm]> (pools w1)
             ∧ same_fixed w1 w' ∧ aligned w' = aligned w1
             ∧ internal_btree w' = internal_btree w1 ∧ p = ret_ptr)
    by (destruct full; minv H; eexists; cbn;
        rewrite ?list_insert_id by done; by repeat split).
  destruct Hfinal as (bm' & Hd' & Hbd & Hbp & Hbb & Hba & Hbf & Hpools' & Hfix' & Hal' & Htree' & ->).
  assert (Hfresh : ¬ valid_ptr w (child + size_t (t * tm_block_size tm))).
  { rewrite Hsz. destruct (tm_token_in_pool child tm t Hok Hrange) as (_ & Hlo & Hhi).
    destruct (wf_pool w1 Hcore1 child tm Htm) as (_ & HP & _).
    pose proof (tm_ok_block _ _ Hok) as HB.
    assert (Hin : child ≤ child + t * tm_block_size tm < child + pool_size w1)
      by (unfold sizeof_token_manager_s in *; lia).
    intros [(a1 & tm1 & Ha1 & Hl)|(sz & Hq)].
    - apply Hkeep1 in Ha1.
      destruct (pool_range w1 a1 tm1 _ Hcore1 Ha1 Hl) as [Hr1 _].
      assert (a1 = child) as -> by (eapply (tm_live_unique w1); [done..|lia|done]).
      assert (tm1 = tm) as -> by congruence.
      destruct Hl as (_ & t1 & Hpt1 & _ & Hnin1).
      assert (t1 = t) as -> by nia.
      apply Hnin1. unfold free_tokens. apply list_elem_of_lookup. exists 0%nat.
      rewrite lookup_drop, Nat.add_0_r, lookup_take_lt; [done|].
      pose proof (tm_ok_index _ _ Hok). rewrite (tm_full_iff child) in Hnf by done. lia.
    - destruct Hfix1 as (_ & _ & _ & _ & Hext & _). rewrite <- Hext in Hq.
      by apply (external_not_in_pool w1 _ sz child tm Hcore1 Hq Htm). }
  split; [|split; [by eapply same_fixed_trans
                  |split; [|split; [|split; [|split; [|split; [|split; [|split]]]]]]]].
  - eapply (alloc_slot_wf w1 w' c o1 bm' child tm); try done.
    + intros F. apply Hfull in F. by rewrite Hbf, F.
    + intros F. rewrite Hbf. destruct full; [|done]. exfalso. by apply F, Hfull.
  - exists child, (set_stack_index (tm_stack_index tm + 1) tm).
    split; [by rewrite Hpools', lookup_insert_eq|].
    split; [by destruct (wf_slot_parent w1 c o1 _ child tm Hcore1 Hc1 Hchild Htm)|].
    split; [cbn; pose proof (tm_ok_index _ _ Hok); lia|].
    exists t. split; [by rewrite Hret, Hsz|]. done.
  - intros q Hq. apply Hval1 in Hq as [(a1 & tm1 & Ha1 & Hl)|(sz & Hq)].
    + left. destruct (decide (a1 = child)) as [->|Hne].
      * assert (tm1 = tm) as -> by congruence.
        eexists _, _. split; [by rewrite Hpools', lookup_insert_eq|].
        by apply tm_live_alloc.
      * exists a1, tm1. split; [|done]. by rewrite Hpools', lookup_insert_ne.
    + right. exists sz. destruct Hfix' as (_ & _ & _ & _ & -> & _). done.
  - rewrite Hal'. done.
  - intros a1 tm1 Ha1. apply Hkeep1 in Ha1.
    destruct (decide (a1 = child)) as [->|Hne].
    + assert (tm1 = tm) as -> by congruence.
      eexists. split; [by rewrite Hpools', lookup_insert_eq|].
      split; [done|]. intros q. by apply tm_live_alloc.
    + exists tm1. split; [by rewrite Hpools', lookup_insert_ne|].
      split; [apply tm_same_static_refl|done].
  - by rewrite Hret.
  - intros q [(b & tb & Hb & Hlq)|(sz & Hq)].
    2:{ right. apply Hback1. right. exists sz.
        destruct Hfix' as (_ & _ & _ & _ & Hext & _). by rewrite <- Hext. }
    rewrite Hpools' in Hb. destruct (decide (b = child)) as [->|Hne].
    2:{ rewrite lookup_insert_ne in Hb by done. right. apply Hback1. left. eauto. }
    rewrite lookup_insert_eq in Hb. injection Hb as <-.
    destruct Hlq as (_ & tq & Hq & Hrtq & Hntq). cbn in Hq, Hrtq.
    rewrite free_tokens_set_stack_index in Hntq.
    destruct (decide (tq = t)) as [->|Htq]; [left; by rewrite Hret, Hsz|].
    right. apply Hback1. left. exists child, tm. split; [done|].
    pose proof (tm_ok_index _ _ Hok) as Hidx.
    assert (Hcap : tm_stack_index tm < tm_capacity tm)
      by (rewrite (tm_full_iff child) in Hnf by done; lia).
    assert (Hfree : tq ∉ free_tokens tm).
    { intros Hin. unfold free_tokens in Hin.
      apply list_elem_of_lookup in Hin as [i Hi]. rewrite lookup_drop in Hi.
      apply lookup_take_Some in Hi as [Hi Hlt].
      destruct i as [|i]; [rewrite Nat.add_0_r in Hi; congruence|].
      apply Hntq, list_elem_of_lookup. exists i.
      rewrite lookup_drop, lookup_take_lt by lia. rewrite <- Hi. f_equal. lia. }
    split; [|by exists tq].
    destruct (decide (tm_stack_index tm = 0)) as [E|E]; [|lia].
    exfalso. by apply Hfree, (free_tokens_all child).
  - intros a2 tm2 Ha2 He. rewrite Hpools' in Ha2.
    destruct (decide (a2 = child)) as [->|Hne].
    + rewrite lookup_insert_eq in Ha2. injection Ha2 as <-.
      unfold tm_empty in He. cbn in He. pose proof (tm_ok_index _ _ Hok). lia.
    + rewrite lookup_insert_ne in Ha2 by done.
      destruct (Hnew1 a2 tm2 Ha2) as [?|Hs]; [done|]. congruence.
  - intros a1 tm1 Ha1. apply Hkeep1 in Ha1.
    destruct (decide (a1 = child)) as [->|Hne].
    + assert (tm1 = tm) as -> by congruence.
      eexists. split; [by rewrite Hpools', lookup_insert_eq|]. cbn. split; [done|lia].
    + exists tm1. split; [by rewrite Hpools', lookup_insert_ne|]. split; [done|lia].
Qed.

Lemma block_manager_s_alloc_wf (sys : Z) (c : nat) (w : tbman_s) (p : Z) (w' : tbman_s) :
  wf w → block_manager_s_alloc sys c w = Ok (p, w') →
  wf w' ∧ same_fixed w w'
  ∧ (∃ a tm', pools w' !! a = Some tm' ∧ tm_parent tm' = c ∧ tm_live a tm' p)
  ∧ (∀ q, valid_ptr w q → valid_ptr w' q)
  ∧ (aligned w' = true → aligned w = true)
  ∧ (∀ a1 tm1, pools w !! a1 = Some tm1 →
       ∃ tm1', pools w' !! a1 = Some tm1' ∧ tm_same_static tm1 tm1'
               ∧ ∀ q, tm_live a1 tm1 q → tm_live a1 tm1' q)
  ∧ ¬ valid_ptr w p
  ∧ (∀ q, valid_ptr w' q → q = p ∨ valid_ptr w q).
Proof.
  intros Hwf H.
  destruct (block_manager_s_alloc_shape sys c w p w' Hwf H)
    as (R1 & R2 & R3 & R4 & R5 & R6 & R7 & R8 & _).
  do 7 (split; [assumption|]). assumption.
Qed.

(** ** Block managers: the callbacks of [free] *)

Lemma partition_full_below (w : tbman_s) (c : nat) (bm : block_manager_s) (a : Z)
    (tm : token_manager_s) (exE : option Z) :
  wf_core w → partition_ex (pools w) bm None exE →
  data w !! c = Some bm → pools w !! a = Some tm → tm_parent tm = c →
  (tm_full tm ↔ (tm_parent_index tm < bm_free_index bm)%nat)
  ∧ bm_data bm !! tm_parent_index tm = Some a.
Proof.
  intros Hwf [Hle Hp] Hc Ha Hpar.
  destruct (wf_pool w Hwf a tm Ha) as (_ & _ & bm0 & Hc0 & Hk0 & _).
  rewrite Hpar in Hc0. assert (bm0 = bm) as -> by congruence.
  split; [|done]. destruct (Hp _ a tm Hk0 Ha) as (H1 & H2 & _).
  split; [|done]. intros F.
  destruct (decide (tm_parent_index tm < bm_free_index bm)%nat); [done|].
  exfalso. apply H2; [lia|done|done].
Qed.

Lemma block_manager_s_full_to_free_wf (c : nat) (a : Z) (w : tbman_s) (tm : token_manager_s) :
  wf w → pools w !! a = Some tm → tm_parent tm = c → tm_full tm →
  ∃ w', block_manager_s_full_to_free c a w = Ok (tt, w')
    ∧ wf_ex w' (Some a) None
    ∧ same_fixed w w' ∧ aligned w' = aligned w ∧ internal_btree w' = internal_btree w
    ∧ trace w' = trace w ++ [EvFullToFree c a]
    ∧ (∀ z tz', pools w' !! z = Some tz' →
         ∃ tz, pools w !! z = Some tz ∧ tm_same_static tz tz' ∧ tm_same_status tz tz')
    ∧ (∃ bm', data w' !! c = Some bm' ∧ bm_data bm' !! bm_free_index bm' = Some a).
Proof.
  intros [Hwf Hpart] Ha Hpar Hfull.
  destruct (wf_pool w Hwf a tm Ha) as (Hok & _ & bm & Hc & Hk & _).
  rewrite Hpar in Hc.
  destruct (partition_full_below w c bm a tm None Hwf (Hpart c bm Hc) Hc Ha Hpar) as [Hlt _].
  apply Hlt in Hfull as Hidx.
  destruct (Hpart c bm Hc) as [Hle Hp]. unfold bm_size in Hle.
  set (f := pred (bm_free_index bm)).
  assert (Hf : (f < length (bm_data bm))%nat) by (unfold f; lia).
  destruct (lookup_lt_is_Some_2 _ _ Hf) as [s Hs].
  destruct (wf_slot w Hwf c bm f s Hc Hs) as (ts & Hts & Hsp & Hsi).
  set (bm1 := set_bm_free_index f bm).
  set (bm2 := set_bm_data (<[tm_parent_index tm := s]> (<[f := a]> (bm_data bm))) bm1).
  assert (Hs' : ∃ ts', <[a := set_parent_index f tm]> (pools w) !! s = Some ts').
  { destruct (decide (s = a)) as [->|Hne].
    - rewrite lookup_insert_eq. eauto.
    - rewrite lookup_insert_ne by done. eauto. }
  destruct Hs' as [ts' Hs'].
  eexists. split.
  { unfold block_manager_s_full_to_free. mstep. mget_bm Hc.
    replace (bm_free_index bm =? 0)%nat with false by (symmetry; apply Nat.eqb_neq; lia).
    mstep. eapply bind_intro; [apply deref_intro; proj_simpl; exact Ha|]. cbv beta.
    proj_simpl. fold f. mdata_at Hs. unfold bm_size. proj_simpl.
    replace (tm_parent_index tm <? length (bm_data bm))%nat with true
      by (symmetry; apply Nat.ltb_lt; lia).
    cbn [negb]. mstep. mstep. mderef Hs'. reflexivity. }
  assert (Hclt : (c < length (data w))%nat) by (by eapply lookup_lt_Some).
  match goal with |- wf_ex ?W _ _ ∧ _ => set (w' := W) end.
  assert (Hd' : data w' = <[c := bm2]> (data w)).
  { subst w'. proj_simpl. by rewrite list_insert_insert_eq. }
  destruct (swap_slots_wf w w' c bm bm2 (tm_parent_index tm) f a s tm ts'
              Hwf Hc Hk Hs Ha Hs' Hd') as (Hwf' & Hold & Hswap); try done.
  split.
  2: { split; [by subst w'|]. split; [by subst w'|]. split; [by subst w'|].
       split; [by subst w'|]. split; [done|]. exists bm2.
       split; [by rewrite Hd', list_lookup_insert_eq|].
       rewrite Hswap. change (bm_free_index bm2) with f.
       replace (swap_idx (tm_parent_index tm) f f) with (tm_parent_index tm); [done|].
       unfold swap_idx. repeat case_decide; congruence. }
  split; [done|]. intros c' bm' Hc'.
  destruct (decide (c' = c)) as [->|Hne].
  - rewrite Hd', list_lookup_insert_eq in Hc' by done. injection Hc' as <-.
    split; [subst bm2 bm1; unfold bm_size; proj_simpl; rewrite !length_insert; lia|].
    intros k z tz' Hkz Hz'.
    destruct (Hold z tz' Hz') as (tz & Hz & _ & Hst).
    rewrite Hswap in Hkz.
    destruct (Hp _ z tz Hkz Hz) as (P1 & P2 & P3).
    assert (Hfi : bm_free_index bm2 = f) by done. rewrite Hfi.
    assert (Hkk : swap_idx (tm_parent_index tm) f k = k
                  ∨ (k = tm_parent_index tm ∧ swap_idx (tm_parent_index tm) f k = f)
                  ∨ (k = f ∧ swap_idx (tm_parent_index tm) f k = tm_parent_index tm)).
    { unfold swap_idx. repeat case_decide; auto. }
    split; [|split].
    + intros Hkf. apply (tm_full_same tz tz' Hst). apply P1.
      destruct Hkk as [->|[[_ ->]|[-> _]]]; unfold f in *; lia.
    + intros Hkf Hex Hfz. apply (tm_full_same tz tz' Hst) in Hfz.
      destruct Hkk as [E|[[-> E]|[-> E]]].
      * rewrite E in *. destruct (decide (k = f)) as [->|].
        -- rewrite Hkz in Hs. injection Hs as <-.
           destruct (wf_slot_parent w c bm f z tz Hwf Hc Hkz Hz) as [_ Hzi].
           apply Hex. f_equal.
           assert (tm_parent_index tm = f); [|congruence].
           unfold swap_idx in E. repeat case_decide; lia.
        -- apply P2; [unfold f in *; lia|done|done].
      * rewrite E in Hkz.
        assert (tm_parent_index tm = f) as Hif by (unfold f in *; lia).
        rewrite Hif in Hk. congruence.
      * rewrite E in Hkz. rewrite Hk in Hkz. congruence.
    + intros Hez _ k' z' tz2' Hkk' Hk' Hz2'.
      apply (tm_empty_same tz tz' Hst) in Hez.
      destruct (wf_pool w Hwf z tz Hz) as (Hokz & _).
      pose proof (tm_empty_not_full z tz Hokz Hez) as Hnf.
      assert (Hge : (bm_free_index bm ≤ swap_idx (tm_parent_index tm) f k)%nat).
      { destruct (decide (bm_free_index bm ≤ swap_idx (tm_parent_index tm) f k)%nat);
          [done|]. exfalso. apply Hnf, P1. lia. }
      assert (Hkeq : swap_idx (tm_parent_index tm) f k = k).
      { destruct Hkk as [E|[[_ E]|[_ E]]]; [done|rewrite E in Hge; unfold f in *; lia..]. }
      rewrite Hkeq in *.
      destruct (Hold z' tz2' Hz2') as (tz2 & Hz2 & _ & Hst2).
      apply (tm_empty_same tz2 tz2' Hst2).
      rewrite Hswap in Hk'.
      assert (Hk'eq : swap_idx (tm_parent_index tm) f k' = k').
      { unfold swap_idx. unfold f in *. repeat case_decide; lia. }
      rewrite Hk'eq in Hk'.
      by eapply (P3 Hez ltac:(done) k' z' tz2).
  - rewrite Hd', list_lookup_insert_ne in Hc' by done.
    eapply (partition_frame w w' c c' bm'); [done..| |].
    + intros x tx' Hx'. destruct (Hold x tx' Hx') as (tx & Hx & _ & Hst). eauto.
    + apply partition_ex_weaken. exact (Hpart c' bm' Hc').
Qed.

(** ** Token managers: the push of [free] *)

Lemma partition_ex_mono (h : gmap Z token_manager_s) (bm : block_manager_s)
    (exF exE exF' exE' : option Z) :
  (∀ z, z ∈ bm_data bm → exF = Some z → exF' = Some z) →
  (∀ z, z ∈ bm_data bm → exE = Some z → exE' = Some z) →
  partition_ex h bm exF exE → partition_ex h bm exF' exE'.
Proof.
  intros HF HE [Hle Hp]. split; [done|]. intros k z tz Hk Hz.
  destruct (Hp k z tz Hk Hz) as (P1 & P2 & P3).
  assert (z ∈ bm_data bm) by (by eapply list_elem_of_lookup_2).
  split; [done|]. split.
  - intros Hge Hex. apply P2; [done|]. intros E. apply Hex. auto.
  - intros He Hex. apply P3; [done|]. intros E. apply Hex; auto.
Qed.

(** The token [free] derives from a block's address is the block's token. *)
Lemma token_of_ptr (a : Z) (tm : token_manager_s) (t : Z) :
  tm_ok a tm → tm_reserved tm ≤ t < tm_stack_len tm →
  uint16 (size_t (a + t * tm_block_size tm - a) / tm_block_size tm) = t.
Proof.
  intros Hok Ht.
  destruct (tm_token_in_pool a tm t Hok Ht) as (Hs & _ & _).
  replace (a + t * tm_block_size tm - a) with (t * tm_block_size tm) by lia.
  rewrite Hs, Z.div_mul by (pose proof (tm_ok_block _ _ Hok); lia).
  pose proof (tm_ok_fits _ _ Hok). pose proof (tm_reserved_pos _ _ Hok).
  apply uint16_small. lia.
Qed.

Lemma push_wf (w w' : tbman_s) (a : Z) (tm tm' : token_manager_s) (bm : block_manager_s)
    (exF : option Z) (t : Z) :
  wf_ex w exF None → (∀ z, exF = Some z → z = a) →
  pools w !! a = Some tm → data w !! tm_parent tm = Some bm →
  (bm_free_index bm ≤ tm_parent_index tm)%nat →
  0 < tm_stack_index tm → tm_reserved tm ≤ t < tm_stack_len tm → t ∉ free_tokens tm →
  tm' = set_token_stack (<[Z.to_nat (tm_stack_index tm - 1) := t]> (tm_token_stack tm))
          (set_stack_index (tm_stack_index tm - 1) tm) →
  pools w' = <[a := tm']> (pools w) → data w' = data w →
  same_fixed w w' → aligned w' = aligned w → internal_btree w' = internal_btree w →
  wf_ex w' None (Some a) ∧ (tm_stack_index tm ≠ 1 → wf w').
Proof.
  intros [Hwf Hpart] HexF Ha Hbm Hslot Hi Ht Hnin Htm' Hpools Hd Hfix Hal Htree.
  destruct (wf_pool w Hwf a tm Ha) as (Hok & _ & bm0 & Hc0 & Hk & _).
  assert (bm0 = bm) as -> by congruence.
  destruct (tm_ok_push a tm t Hok Hi Ht Hnin) as (Hu & Hlen & Hok'). rewrite <- Htm' in Hok'.
  assert (Hidx' : tm_stack_index tm' = tm_stack_index tm - 1) by (by subst tm').
  assert (Hnf' : ¬ tm_full tm').
  { rewrite (tm_full_iff a) by done. rewrite Hidx'.
    replace (tm_capacity tm') with (tm_capacity tm) by (by subst tm').
    pose proof (tm_ok_index _ _ Hok). lia. }
  assert (Hwf' : wf_core w').
  { apply (wf_core_status w w' a tm tm' bm bm); try done.
    - rewrite Hd. symmetry. by apply list_insert_id.
    - by subst tm'.
    - by subst tm'. }
  assert (Hne : ¬ tm_empty tm) by (unfold tm_empty; lia).
  assert (Hp1 : ∀ c bm1, data w' !! c = Some bm1 → partition_ex (pools w') bm1 None (Some a)).
  { intros c bm1 Hc. rewrite Hd in Hc. destruct (Hpart c bm1 Hc) as [Hle Hp].
    split; [done|]. intros k z tz' Hkz Hz'. rewrite Hpools in Hz'.
    destruct (decide (z = a)) as [->|Hza].
    - rewrite lookup_insert_eq in Hz'. injection Hz' as <-.
      destruct (wf_slot_parent w c bm1 k a tm Hwf Hc Hkz Ha) as [Hpc Hpk].
      rewrite <- Hpc in Hc. assert (bm1 = bm) as -> by congruence.
      split; [intros; lia|]. split; [done|]. intros _ Hex. done.
    - rewrite lookup_insert_ne in Hz' by done.
      destruct (Hp k z tz' Hkz Hz') as (P1 & P2 & P3).
      split; [done|]. split.
      + intros Hge _. apply P2; [done|]. intros E. apply HexF in E. done.
      + intros He _ k' z' tz2' Hkk' Hk' Hz2'. rewrite Hpools in Hz2'.
        destruct (decide (z' = a)) as [->|Hz'a].
        * exfalso. apply Hne. by eapply (P3 He ltac:(done) k' a tm).
        * rewrite lookup_insert_ne in Hz2' by done.
          by eapply (P3 He ltac:(done) k' z' tz2'). }
  split; [done|]. intros Hi1. split; [done|].
  intros c bm1 Hc. destruct (Hp1 c bm1 Hc) as [Hle Hp]. split; [done|].
  intros k z tz' Hkz Hz'. destruct (Hp k z tz' Hkz Hz') as (P1 & P2 & P3).
  split; [done|]. split; [done|]. intros He _. apply P3; [done|].
  intros E. injection E as <-. rewrite Hpools, lookup_insert_eq in Hz'. injection Hz' as <-.
  unfold tm_empty in He. lia.
Qed.

(** ** Block managers: the empty tail and the sweep *)

Lemma empty_index_loop_spec (h : gmap Z token_manager_s) (d : list Z) (n : nat) :
  (∀ k, (k < n)%nat → ∃ z tz, d !! k = Some z ∧ h !! z = Some tz) →
  ∃ e, empty_index_loop h d n = Ok e ∧ (e ≤ n)%nat
    ∧ (∀ k z tz, (e ≤ k < n)%nat → d !! k = Some z → h !! z = Some tz → tm_empty tz)
    ∧ (e = 0%nat ∨ ∃ z tz, d !! pred e = Some z ∧ h !! z = Some tz ∧ ¬ tm_empty tz).
Proof.
  induction n as [|n IH]; intros Hall.
  - exists 0%nat. cbn. split; [done|]. split; [lia|]. split; [intros; lia|by left].
  - destruct (Hall n) as (z & tz & Hz & Htz); [lia|].
    cbn [empty_index_loop]. rewrite Hz, Htz.
    destruct (tm_stack_index tz =? 0) eqn:E.
    + destruct IH as (e & He & Hle & Hemp & Hlast); [intros; apply Hall; lia|].
      exists e. split; [done|]. split; [lia|]. split; [|done].
      intros k z' tz' Hk Hz' Htz'. destruct (decide (k = n)) as [->|].
      * assert (z' = z) as -> by congruence. assert (tz' = tz) as -> by congruence.
        unfold tm_empty. lia.
      * eapply Hemp; [|done..]. lia.
    + exists (S n). split; [done|]. split; [lia|]. split; [intros; lia|].
      right. exists z, tz. cbn. split; [done|]. split; [done|]. unfold tm_empty. lia.
Qed.

(** The sweep drops the last pool of a block manager, an empty one. *)
Lemma drop_last_wf (w w' : tbman_s) (c : nat) (bm bm' : block_manager_s) (k : nat) (z : Z)
    (tz : token_manager_s) :
  wf w → data w !! c = Some bm → bm_size bm = S k → bm_data bm !! k = Some z →
  pools w !! z = Some tz → tm_empty tz →
  data w' = <[c := bm']> (data w) → bm_data bm' = take k (bm_data bm) →
  bm_free_index bm' = bm_free_index bm →
  bm_pool_size bm' = bm_pool_size bm → bm_block_size bm' = bm_block_size bm →
  bm_aligned bm' = bm_aligned bm →
  pools w' = delete z (pools w) →
  internal_btree w' = filter (λ x, x ≠ z) (internal_btree w) →
  same_fixed w w' → aligned w' = aligned w →
  wf w'.
Proof.
  intros [Hwf Hpart] Hc Hsz Hk Hz He Hd Hbd Hfi Hbp Hbb Hba Hpools Htree
    (Hps & _ & _ & Hbsa & Hext & _) Hal.
  assert (Hclt : (c < length (data w))%nat) by (by eapply lookup_lt_Some).
  destruct (wf_slot_parent w c bm k z tz Hwf Hc Hk Hz) as [Hzp Hzi].
  destruct (wf_pool w Hwf z tz Hz) as (Hokz & _).
  assert (Hfk : (bm_free_index bm ≤ k)%nat).
  { destruct (decide (bm_free_index bm ≤ k)%nat); [done|]. exfalso.
    destruct (Hpart c bm Hc) as [_ Hp]. destruct (Hp k z tz Hk Hz) as (P1 & _).
    apply (tm_empty_not_full z tz Hokz He), P1. lia. }
  assert (Hother : ∀ k' x, bm_data bm !! k' = Some x → k' ≠ k → x ≠ z).
  { intros k' x Hx Hne ->. apply Hne. by eapply (wf_slot_inj w c bm). }
  destruct Hwf as [Wbsa Wps Wbm Wslot Wpool Wtree Wapart Wext Wbal Wal Wtop].
  split; [split|].
  - rewrite Hbsa, Hd, Wbsa. symmetry. by eapply fmap_insert_same.
  - by rewrite Hps.
  - intros c' bm1 Hc'. rewrite Hd in Hc'. rewrite Hps.
    destruct (decide (c' = c)) as [->|Hne].
    + rewrite list_lookup_insert_eq in Hc' by done. injection Hc' as <-.
      rewrite Hbp, Hbb. by apply (Wbm c).
    + rewrite list_lookup_insert_ne in Hc' by done. by apply (Wbm c').
  - intros c' bm1 k' x Hc' Hx. rewrite Hd in Hc'. rewrite Hpools.
    destruct (decide (c' = c)) as [->|Hne].
    + rewrite list_lookup_insert_eq in Hc' by done. injection Hc' as <-.
      rewrite Hbd in Hx. apply lookup_take_Some in Hx as [Hx Hlt].
      destruct (Wslot c bm k' x Hc Hx) as (tx & Hpx & Hq).
      exists tx. split; [|done]. rewrite lookup_delete_ne; [done|].
      intros E. apply (Hother k' x Hx); [lia|done].
    + rewrite list_lookup_insert_ne in Hc' by done.
      destruct (Wslot c' bm1 k' x Hc' Hx) as (tx & Hpx & Hq & Hq').
      exists tx. split; [|done]. rewrite lookup_delete_ne; [done|].
      intros <-. assert (tx = tz) as -> by congruence. congruence.
  - intros x tx Hx. rewrite Hpools in Hx. apply lookup_delete_Some in Hx as [Hne Hx].
    destruct (Wpool x tx Hx) as (Hokx & Hpx & bm0 & Hc0 & Hk0 & Hb0).
    split; [done|]. split; [congruence|]. rewrite Hd.
    destruct (decide (tm_parent tx = c)) as [Hpc|Hpc].
    + exists bm'. rewrite Hpc, list_lookup_insert_eq by done.
      rewrite Hpc in Hc0. assert (bm0 = bm) as -> by congruence.
      split; [done|]. split; [|congruence]. rewrite Hbd. apply lookup_take_Some.
      split; [done|].
      assert (tm_parent_index tx < length (bm_data bm))%nat by (by eapply lookup_lt_Some).
      unfold bm_size in Hsz.
      assert (tm_parent_index tx ≠ k); [|lia].
      intros E. rewrite E in Hk0. congruence.
    + exists bm0. rewrite list_lookup_insert_ne by done. done.
  - intros x. rewrite Htree, Hpools, list_elem_of_filter, lookup_delete_is_Some, Wtree.
    split; intros [? ?]; (split; [congruence|done]).
  - intros x y Hx Hy. rewrite Htree in Hx, Hy.
    apply list_elem_of_filter in Hx as [_ Hx]. apply list_elem_of_filter in Hy as [_ Hy].
    rewrite Hps. by apply Wapart.
  - intros q sz Hq. rewrite Hext in Hq. destruct (Wext q sz Hq) as (H1 & H2 & H3).
    split; [done|]. split; [done|]. intros b Hb. rewrite Htree in Hb.
    apply list_elem_of_filter in Hb as [_ Hb]. rewrite Hps. by apply H3.
  - intros c' bm1 x tx Hc' Hbal Hin Hx. rewrite Hd in Hc'.
    rewrite Hpools in Hx. apply lookup_delete_Some in Hx as [_ Hx].
    destruct (decide (c' = c)) as [->|Hne].
    + rewrite list_lookup_insert_eq in Hc' by done. injection Hc' as <-.
      apply (Wbal c bm x tx); [done|congruence| |done].
      rewrite Hbd in Hin. by eapply subseteq_take.
    + rewrite list_lookup_insert_ne in Hc' by done. by apply (Wbal c' bm1 x tx).
  - rewrite Hal, Hd, Wal. symmetry. by eapply forallb_insert_same.
  - by rewrite Hext.
  - intros c' bm1 Hc'. rewrite Hd in Hc'.
    destruct (decide (c' = c)) as [->|Hne].
    + rewrite list_lookup_insert_eq in Hc' by done. injection Hc' as <-.
      destruct (Hpart c bm Hc) as [Hle Hp].
      split.
      { unfold bm_size in *. rewrite Hfi, Hbd, length_take. lia. }
      intros k' x tx Hkx Hx. rewrite Hbd in Hkx. apply lookup_take_Some in Hkx as [Hkx Hlt].
      rewrite Hpools in Hx. apply lookup_delete_Some in Hx as [_ Hx].
      destruct (Hp k' x tx Hkx Hx) as (P1 & P2 & P3). rewrite Hfi.
      split; [done|]. split; [done|]. intros Hex _ k2 x2 tx2 Hk2 Hkx2 Hx2.
      rewrite Hbd in Hkx2. apply lookup_take_Some in Hkx2 as [Hkx2 _].
      rewrite Hpools in Hx2. apply lookup_delete_Some in Hx2 as [_ Hx2].
      by eapply (P3 Hex ltac:(done) k2 x2 tx2).
    + rewrite list_lookup_insert_ne in Hc' by done.
      eapply partition_ex_same; [done|done| |exact (Hpart c' bm1 Hc')].
      intros x tx' _ Hx. rewrite Hpools in Hx. apply lookup_delete_Some in Hx as [_ Hx].
      exists tx'. by split.
Qed.

Lemma set_bm_data_id (bm : block_manager_s) : set_bm_data (bm_data bm) bm = bm.
Proof. by destruct bm. Qed.

Lemma sweep_loop_wf (c : nat) (n : nat) : ∀ (w : tbman_s) (bm : block_manager_s),
  wf w → data w !! c = Some bm → bm_size bm = n →
  ∃ w' e evs, sweep_loop c n w = Ok (tt, w') ∧ wf w'
    ∧ same_fixed w w' ∧ aligned w' = aligned w
    ∧ data w' = <[c := set_bm_data (take e (bm_data bm)) bm]> (data w)
    ∧ (e ≤ n)%nat
    ∧ (∀ k z tz, (e ≤ k)%nat → bm_data bm !! k = Some z → pools w !! z = Some tz →
         tm_empty tz)
    ∧ (e = 0%nat ∨ ∃ z tz, bm_data bm !! pred e = Some z ∧ pools w !! z = Some tz
                           ∧ ¬ tm_empty tz)
    ∧ (∀ x, pools w' !! x
            = if bool_decide (x ∈ drop e (bm_data bm)) then None else pools w !! x)
    ∧ trace w' = trace w ++ evs
    ∧ Forall sweep_event evs
    ∧ (∀ x, x ∈ drop e (bm_data bm) ↔ EvDiscard x ∈ evs)
    ∧ (∀ x, x ∈ drop e (bm_data bm) ↔ EvVdRemove x ∈ evs).
Proof.
  induction n as [|k IH]; intros w bm Hwf Hc Hsz.
  - exists w, 0%nat, []. unfold bm_size in Hsz.
    assert (Hnil : bm_data bm = []) by (by apply nil_length_inv).
    split; [done|]. split; [done|]. split; [apply same_fixed_refl|]. split; [done|].
    split.
    { rewrite take_ge by lia. rewrite set_bm_data_id. symmetry. by apply list_insert_id. }
    split; [done|].
    split. { intros k z tz _ Hk. rewrite Hnil in Hk. done. }
    split; [by left|].
    split. { intros x. rewrite Hnil. cbn. rewrite bool_decide_eq_false_2; [done|].
             apply not_elem_of_nil. }
    split; [by rewrite app_nil_r|]. split; [done|].
    rewrite Hnil. cbn. split; intros x; split; intros Hx; by apply elem_of_nil in Hx.
  - assert (Hclt : (c < length (data w))%nat) by (by eapply lookup_lt_Some).
    unfold bm_size in Hsz.
    destruct (lookup_lt_is_Some_2 (bm_data bm) k) as [z Hz]; [lia|].
    destruct (wf_slot w (proj1 Hwf) c bm k z Hc Hz) as (tz & Hpz & Hzp & Hzi).
    destruct (wf_pool w (proj1 Hwf) z tz Hpz) as (Hokz & _).
    assert (Hd : bm_data bm = take k (bm_data bm) ++ [z]).
    { rewrite <- (take_drop k (bm_data bm)) at 1. f_equal.
      rewrite (drop_S _ z k Hz). rewrite drop_ge by lia. done. }
    destruct (decide (tm_empty tz)) as [He|Hne].
    + set (bm1 := set_bm_data (take k (bm_data bm)) bm).
      set (w1 := set_pools (λ h, delete z h)
                   (set_trace (λ l, l ++ [EvDiscard z])
                      (set_internal_btree (λ t, filter (λ x, x ≠ z) t)
                         (set_trace (λ l, l ++ [EvVdRemove z])
                            (set_data (λ d, <[c := bm1]> d) w))))).
      assert (Hrun : ∀ r, sweep_loop c k w1 = r → sweep_loop c (S k) w = r).
      { intros r Hr. cbn [sweep_loop]. mget_bm Hc. mdata_at Hz.
        unfold token_manager_s_is_empty. eapply bind_intro.
        { mderef Hpz. reflexivity. }
        cbv beta. unfold tm_empty in He. rewrite He. cbn [Z.eqb].
        mstep. unfold btree_vd_s_remove. eapply bind_intro.
        { mstep. mstep. proj_simpl. rewrite bool_decide_eq_true_2.
          - mstep. reflexivity.
          - apply (wf_tree w (proj1 Hwf)). eauto. }
        cbv beta. cbn [negb Z.eqb Pos.eqb]. unfold token_manager_s_discard.
        replace (z =? 0) with false
          by (symmetry; apply Z.eqb_neq; pose proof (tm_ok_addr _ _ Hokz); lia).
        eapply bind_intro.
        { mstep. reflexivity. }
        exact Hr. }
      assert (Hwf1 : wf w1).
      { by apply (drop_last_wf w w1 c bm bm1 k z tz). }
      assert (Hc1 : data w1 !! c = Some bm1).
      { subst w1. proj_simpl. by rewrite list_lookup_insert_eq. }
      assert (Hsz1 : bm_size bm1 = k).
      { subst bm1. unfold bm_size. proj_simpl. rewrite length_take. lia. }
      destruct (IH w1 bm1 Hwf1 Hc1 Hsz1)
        as (w' & e & evs & Hr & Hwf' & Hfix & Hal & Hd' & Hle & Hemp & Hlast & Hpools
            & Htr & Hsw & Hdis & Hrem).
      assert (Htake : take e (bm_data bm1) = take e (bm_data bm)).
      { subst bm1. proj_simpl. rewrite take_take. f_equal. lia. }
      assert (Hdrop : drop e (bm_data bm) = drop e (bm_data bm1) ++ [z]).
      { rewrite Hd at 1. rewrite drop_app_le; [done|]. rewrite length_take. lia. }
      exists w', e, ([EvVdRemove z; EvDiscard z] ++ evs).
      split; [by apply Hrun|]. split; [done|].
      split. { eapply same_fixed_trans; [|exact Hfix]. subst w1. by repeat split. }
      split; [by rewrite Hal|].
      split. { rewrite Hd', Htake. subst w1 bm1. proj_simpl.
               by rewrite list_insert_insert_eq. }
      split; [lia|].
      split.
      { intros k' x tx Hk' Hx Hpx.
        destruct (decide (k' = k)) as [->|Hkk].
        - assert (x = z) as -> by congruence. by assert (tx = tz) as -> by congruence.
        - assert (k' < S k)%nat by (rewrite <- Hsz; by eapply lookup_lt_Some).
          apply (Hemp k' x tx); [done| |].
          + subst bm1. proj_simpl. apply lookup_take_Some. split; [done|lia].
          + subst w1. proj_simpl. rewrite lookup_delete_ne; [done|].
            intros <-. apply Hkk. by apply (wf_slot_inj w c bm k' k z (proj1 Hwf)). }
      split.
      { destruct Hlast as [->|(x & tx & Hx & Hpx & Hnx)]; [by left|]. right.
        subst bm1 w1. proj_simpl. proj_simpl in Hx. proj_simpl in Hpx.
        apply lookup_take_Some in Hx as [Hx _].
        apply lookup_delete_Some in Hpx as [_ Hpx]. eauto. }
      split.
      { intros x. rewrite Hpools, Hdrop. subst w1. proj_simpl.
        destruct (decide (x = z)) as [->|Hxz].
        - rewrite lookup_delete_eq. rewrite (bool_decide_eq_true_2 (z ∈ _ ++ [z])).
          + by case_bool_decide.
          + apply elem_of_app. right. by apply list_elem_of_singleton.
        - rewrite lookup_delete_ne by done.
          destruct (decide (x ∈ drop e (bm_data bm1))) as [Hin|Hnin].
          + rewrite (bool_decide_eq_true_2 _ Hin), bool_decide_eq_true_2; [done|].
            apply elem_of_app. by left.
          + rewrite (bool_decide_eq_false_2 _ Hnin), bool_decide_eq_false_2; [done|].
            rewrite elem_of_app, list_elem_of_singleton. tauto. }
      split. { rewrite Htr. subst w1. proj_simpl. by rewrite <- !app_assoc. }
      split. { repeat constructor; done. }
      split; intros x; rewrite Hdrop, elem_of_app, list_elem_of_singleton.
      * rewrite Hdis. rewrite elem_of_app, !elem_of_cons, elem_of_nil.
        split; [intros [?| ->]; auto|intros [[?|[?|[]]]|?]; [done|right; congruence|by left]].
      * rewrite Hrem. rewrite elem_of_app, !elem_of_cons, elem_of_nil.
        split; [intros [?| ->]; auto|intros [[?|[?|[]]]|?]; [right; congruence|done|by left]].
    + exists w, (S k), [].
      split.
      { cbn [sweep_loop]. mget_bm Hc. mdata_at Hz.
        unfold token_manager_s_is_empty. eapply bind_intro.
        { mderef Hpz. reflexivity. }
        cbv beta. unfold tm_empty in Hne.
        replace (tm_stack_index tz =? 0) with false by (symmetry; by apply Z.eqb_neq).
        reflexivity. }
      split; [done|]. split; [apply same_fixed_refl|]. split; [done|].
      split.
      { rewrite take_ge by lia. rewrite set_bm_data_id. symmetry. by apply list_insert_id. }
      split; [done|].
      split. { intros k' x tx Hk' Hx. apply lookup_lt_Some in Hx. lia. }
      split; [right; eauto|].
      assert (Hnil : drop (S k) (bm_data bm) = []) by (apply drop_ge; lia).
      rewrite Hnil.
      split. { intros x. rewrite bool_decide_eq_false_2; [done|]. apply not_elem_of_nil. }
      split; [by rewrite app_nil_r|]. split; [done|].
      split; intros x; split; intros Hx; by apply elem_of_nil in Hx.
Qed.

(** ** Block managers: [free_to_empty] *)

Lemma bm_data_NoDup (w : tbman_s) (c : nat) (bm : block_manager_s) :
  wf_core w → data w !! c = Some bm → NoDup (bm_data bm).
Proof.
  intros Hwf Hc. apply NoDup_alt. intros i j x Hi Hj. by eapply (wf_slot_inj w c bm).
Qed.

(** Where the empty pools sit once they form the tail from [e] on. *)
Lemma empty_pools_tail (h : gmap Z token_manager_s) (d d2 : list Z) (e : nat) :
  NoDup d → NoDup d2 → (∀ x, x ∈ d2 ↔ x ∈ d) →
  (∀ k z, d2 !! k = Some z → (e ≤ k)%nat ↔ is_empty_pool h z) →
  filter (is_empty_pool h) d ≡ₚ drop e d2.
Proof.
  intros Hnd Hnd2 Hsame Hb. apply NoDup_Permutation.
  - by apply NoDup_filter.
  - eapply sublist_NoDup; [|apply sublist_drop]. done.
  - intros x. rewrite list_elem_of_filter, <- Hsame, !list_elem_of_lookup. split.
    + intros [He [k Hk]]. apply (Hb k x Hk) in He.
      exists (k - e)%nat. rewrite lookup_drop. by replace (e + (k - e))%nat with k by lia.
    + intros [i Hi]. rewrite lookup_drop in Hi. split; [|eauto].
      apply (Hb _ _ Hi). lia.
Qed.

Lemma sweep_fires_spec (empty_tail size : nat) (hysteresis : Q) :
  sweep_fires empty_tail size hysteresis = true
  ↔ Qlt (inject_Z (Z.of_nat (size - empty_tail)) * hysteresis)
         (inject_Z (Z.of_nat empty_tail)).
Proof.
  unfold sweep_fires. rewrite negb_true_iff, <- not_true_iff_false, Qle_bool_iff.
  split; [apply Qnot_le_lt|apply Qlt_not_le].
Qed.

Lemma swap_idx_invol (i j k : nat) : swap_idx i j (swap_idx i j k) = k.
Proof. unfold swap_idx. repeat case_decide; congruence. Qed.

(** The empty pool [a] is in the empty tail already. *)
Lemma fte_keep_wf (w : tbman_s) (c : nat) (bm : block_manager_s) (a : Z)
    (tm : token_manager_s) (e : nat) :
  wf_ex w None (Some a) → pools w !! a = Some tm → tm_parent tm = c →
  data w !! c = Some bm → (e ≤ tm_parent_index tm)%nat →
  (∀ k z tz, (e ≤ k)%nat → bm_data bm !! k = Some z → pools w !! z = Some tz →
     tm_empty tz) →
  wf w.
Proof.
  intros [Hwf Hpart] Ha Hpar Hc Hei Hemp. split; [done|].
  intros c' bm' Hc'. destruct (Hpart c' bm' Hc') as [Hle Hp]. split; [done|].
  intros k z tz Hk Hz. destruct (Hp k z tz Hk Hz) as (P1 & P2 & P3).
  split; [done|]. split; [done|]. intros He _.
  destruct (decide (z = a)) as [->|Hne].
  - assert (tz = tm) as -> by congruence.
    destruct (wf_slot_parent w c' bm' k a tm Hwf Hc' Hk Ha) as [Hpc Hpk].
    assert (c' = c) as -> by congruence. assert (bm' = bm) as -> by congruence.
    intros k' z' tz' Hkk' Hk' Hz'. apply (Hemp k' z' tz'); [lia|done|done].
  - apply P3; [done|congruence].
Qed.

Lemma nonempty_below (w : tbman_s) (c : nat) (bm : block_manager_s) (e : nat) :
  wf w → data w !! c = Some bm →
  (e = 0%nat ∨ ∃ z tz, bm_data bm !! pred e = Some z ∧ pools w !! z = Some tz
                       ∧ ¬ tm_empty tz) →
  ∀ k z tz, (k < e)%nat → bm_data bm !! k = Some z → pools w !! z = Some tz →
    ¬ tm_empty tz.
Proof.
  intros [Hwf Hpart] Hc [->|(z0 & tz0 & Hz0 & Hp0 & Hne0)] k z tz Hk Hz Hpz He; [lia|].
  destruct (Hpart c bm Hc) as [_ Hp]. destruct (Hp k z tz Hz Hpz) as (_ & _ & P3).
  destruct (decide (k = pred e)) as [->|Hne].
  - assert (z = z0) as -> by congruence. by assert (tz = tz0) as -> by congruence.
  - apply Hne0. apply (P3 He ltac:(done) (pred e) z0 tz0); [lia|done|done].
Qed.

(** The empty pool [a] changes places with the last pool that is not empty. *)
Lemma fte_swap_wf (w w' : tbman_s) (c : nat) (bm bm' : block_manager_s) (a s : Z)
    (tm ts : token_manager_s) (e : nat) :
  wf_ex w None (Some a) → pools w !! a = Some tm → tm_parent tm = c → tm_empty tm →
  data w !! c = Some bm →
  (tm_parent_index tm < pred e)%nat →
  bm_data bm !! pred e = Some s → pools w !! s = Some ts → ¬ tm_empty ts →
  (∀ k z tz, (e ≤ k)%nat → bm_data bm !! k = Some z → pools w !! z = Some tz →
     tm_empty tz) →
  data w' = <[c := bm']> (data w) →
  bm_data bm' = <[pred e := a]> (<[tm_parent_index tm := s]> (bm_data bm)) →
  bm_free_index bm' = bm_free_index bm →
  bm_pool_size bm' = bm_pool_size bm →
  bm_block_size bm' = bm_block_size bm →
  bm_aligned bm' = bm_aligned bm →
  pools w' = <[s := set_parent_index (tm_parent_index tm) ts]>
               (<[a := set_parent_index (pred e) tm]> (pools w)) →
  same_fixed w w' → aligned w' = aligned w → internal_btree w' = internal_btree w →
  wf w'
  ∧ (∀ k z tz, (pred e ≤ k)%nat → bm_data bm' !! k = Some z → pools w' !! z = Some tz →
       tm_empty tz)
  ∧ (∀ k z tz, (k < pred e)%nat → bm_data bm' !! k = Some z → pools w' !! z = Some tz →
       ¬ tm_empty tz)
  ∧ (∀ z tz', pools w' !! z = Some tz' →
       ∃ tz, pools w !! z = Some tz ∧ tm_same_static tz tz' ∧ tm_same_status tz tz')
  ∧ (∀ x, x ∈ bm_data bm' ↔ x ∈ bm_data bm).
Proof.
  intros [Hwf Hpart] Ha Hpar He Hc Hie Hs Hps Hnes Hemp Hd Hbd Hfi Hbp Hbb Hba Hpools
    Hfix Hal Htree.
  destruct (wf_pool w Hwf a tm Ha) as (Hoka & _ & bm0 & Hc0 & Hk & _).
  rewrite Hpar in Hc0. assert (bm0 = bm) as -> by congruence.
  assert (Hclt : (c < length (data w))%nat) by (by eapply lookup_lt_Some).
  assert (Has : a ≠ s).
  { intros <-. assert (ts = tm) as -> by congruence. done. }
  set (i := tm_parent_index tm) in *.
  destruct (Hpart c bm Hc) as [Hle Hp].
  assert (Hfa : (bm_free_index bm ≤ i)%nat).
  { destruct (decide (bm_free_index bm ≤ i)%nat); [done|]. exfalso.
    destruct (Hp i a tm Hk Ha) as (P1 & _).
    apply (tm_empty_not_full a tm Hoka He), P1. lia. }
  assert (Hlow : ∀ k z tz, (k < pred e)%nat → bm_data bm !! k = Some z →
                   pools w !! z = Some tz → z ≠ a → ¬ tm_empty tz).
  { intros k z tz Hk' Hz Hpz Hza Hez.
    destruct (Hp k z tz Hz Hpz) as (_ & _ & P3).
    apply Hnes. apply (P3 Hez ltac:(congruence) (pred e) s ts); [lia|done|done]. }
  destruct (swap_slots_wf w w' c bm bm' (pred e) i s a ts tm Hwf Hc Hs Hk Hps)
    as (Hwf' & Hold & Hswap); try done.
  { by rewrite lookup_insert_ne. }
  { rewrite Hpools. by apply insert_insert_ne. }
  assert (Hkk : ∀ k, swap_idx (pred e) i k = k
                  ∨ (k = pred e ∧ swap_idx (pred e) i k = i)
                  ∨ (k = i ∧ swap_idx (pred e) i k = pred e)).
  { intros k. unfold swap_idx. repeat case_decide; auto. }
  assert (Hc' : data w' !! c = Some bm') by (by rewrite Hd, list_lookup_insert_eq).
  assert (Htail : ∀ k z tz, (pred e ≤ k)%nat → bm_data bm' !! k = Some z →
                    pools w' !! z = Some tz → tm_empty tz).
  { intros k z tz' Hk' Hz Hpz. destruct (Hold z tz' Hpz) as (tz & Hpz0 & _ & Hst).
    apply (tm_empty_same tz tz' Hst). rewrite Hswap in Hz.
    destruct (Hkk k) as [E|[[-> E]|[-> E]]]; rewrite E in Hz.
    - destruct (decide (k = pred e)) as [->|Hne].
      + unfold swap_idx in E. repeat case_decide; lia.
      + apply (Hemp k z tz); [lia|done|done].
    - assert (z = a) as -> by congruence. by assert (tz = tm) as -> by congruence.
    - lia. }
  assert (Hhead : ∀ k z tz, (k < pred e)%nat → bm_data bm' !! k = Some z →
                    pools w' !! z = Some tz → ¬ tm_empty tz).
  { intros k z tz' Hk' Hz Hpz. destruct (Hold z tz' Hpz) as (tz & Hpz0 & _ & Hst).
    rewrite (tm_empty_same tz tz' Hst). rewrite Hswap in Hz.
    destruct (Hkk k) as [E|[[-> E]|[-> E]]]; rewrite E in Hz.
    - apply (Hlow k z tz); [done..|]. intros ->.
      assert (k = i) as -> by (by eapply (wf_slot_inj w c bm)).
      unfold swap_idx in E. repeat case_decide; lia.
    - lia.
    - assert (z = s) as -> by congruence. by assert (tz = ts) as -> by congruence. }
  split; [|split; [done|split; [done|split; [done|]]]].
  - split; [done|]. intros c1 bm1 Hc1.
    destruct (decide (c1 = c)) as [->|Hne].
    + assert (bm1 = bm') as -> by congruence.
      split; [unfold bm_size; rewrite Hfi, Hbd, !length_insert; done|].
      intros k z tz' Hkz Hz'. destruct (Hold z tz' Hz') as (tz & Hz & _ & Hst).
      pose proof Hkz as Hkz0. rewrite Hswap in Hkz0.
      destruct (Hp _ z tz Hkz0 Hz) as (P1 & P2 & P3). rewrite Hfi.
      split; [|split].
      * intros Hkf. apply (tm_full_same tz tz' Hst). apply P1.
        destruct (Hkk k) as [->|[[-> _]|[-> _]]]; lia.
      * intros Hkf _. rewrite (tm_full_same tz tz' Hst). apply P2; [|done].
        destruct (Hkk k) as [->|[[_ ->]|[_ ->]]]; lia.
      * intros Hez _ k' z' tz2 Hkk' Hk' Hz2.
        destruct (decide (pred e ≤ k)%nat) as [Hge|Hlt].
        -- apply (Htail k' z' tz2); [lia|done|done].
        -- exfalso. apply (Hhead k z tz'); [lia|done|done|done].
    + rewrite Hd, list_lookup_insert_ne in Hc1 by done.
      eapply (partition_frame w w' c c1 bm1); [done..| |].
      * intros x tx' Hx'. destruct (Hold x tx' Hx') as (tx & Hx & _ & Hst). eauto.
      * eapply partition_ex_mono; [| |exact (Hpart c1 bm1 Hc1)]; [done|].
        intros z Hin [= <-]. exfalso. apply list_elem_of_lookup_1 in Hin as [k Hkz].
        destruct (wf_slot_parent w c1 bm1 k a tm Hwf Hc1 Hkz Ha) as [Hpc _]. congruence.
  - intros x. rewrite !list_elem_of_lookup. split; intros [k Hkx].
    + rewrite Hswap in Hkx. eauto.
    + exists (swap_idx (pred e) i k). by rewrite Hswap, swap_idx_invol.
Qed.

Lemma pools_dom_same (w w' : tbman_s) :
  wf_core w → wf_core w' → internal_btree w' = internal_btree w →
  ∀ x, pools w' !! x = None ↔ pools w !! x = None.
Proof.
  intros Hwf Hwf' Htree x. rewrite !eq_None_not_Some.
  by rewrite <- (wf_tree w Hwf), <- (wf_tree w' Hwf'), Htree.
Qed.

(** The first half of [block_manager_s_free_to_empty]: the child that
    turned empty joins the empty tail, which then starts at slot [e]. *)
Lemma fte_move (c : nat) (a : Z) (w : tbman_s) (tm : token_manager_s)
    (bm : block_manager_s) :
  wf_ex w None (Some a) → pools w !! a = Some tm → tm_parent tm = c → tm_empty tm →
  data w !! c = Some bm →
  ∃ w2 bm2 e,
    (∀ r, (let* o := get_bm c in
           if sweep_fires (bm_size bm - e) (bm_size o) (bm_sweep_hysteresis o)
           then sweep_loop c (bm_size o) else ret tt) w2 = r →
          block_manager_s_free_to_empty c a w = r)
    ∧ wf w2 ∧ data w2 !! c = Some bm2
    ∧ same_fixed w w2 ∧ aligned w2 = aligned w ∧ internal_btree w2 = internal_btree w
    ∧ trace w2 = trace w ++ [EvFreeToEmpty c a]
    ∧ bm_size bm2 = bm_size bm ∧ bm_sweep_hysteresis bm2 = bm_sweep_hysteresis bm
    ∧ (e ≤ bm_size bm)%nat
    ∧ (∀ k z tz, (e ≤ k)%nat → bm_data bm2 !! k = Some z → pools w2 !! z = Some tz →
         tm_empty tz)
    ∧ (∀ k z tz, (k < e)%nat → bm_data bm2 !! k = Some z → pools w2 !! z = Some tz →
         ¬ tm_empty tz)
    ∧ (∀ z tz', pools w2 !! z = Some tz' →
         ∃ tz, pools w !! z = Some tz ∧ tm_same_static tz tz' ∧ tm_same_status tz tz')
    ∧ (∀ x, x ∈ bm_data bm2 ↔ x ∈ bm_data bm).
Proof.
  intros Hwfx Ha Hpar He Hc. pose proof Hwfx as [Hwf Hpart].
  destruct (wf_pool w Hwf a tm Ha) as (Hoka & _ & bm0 & Hc0 & Hk & _).
  rewrite Hpar in Hc0. assert (bm0 = bm) as -> by congruence.
  assert (Hclt : (c < length (data w))%nat) by (by eapply lookup_lt_Some).
  assert (Hilt : (tm_parent_index tm < bm_size bm)%nat) by (by eapply lookup_lt_Some).
  destruct (empty_index_loop_spec (pools w) (bm_data bm) (bm_size bm))
    as (e & Hloop & Hle & Hemp & Hlast).
  { intros k Hk'. destruct (lookup_lt_is_Some_2 (bm_data bm) k Hk') as [z Hz].
    destruct (wf_slot w Hwf c bm k z Hc Hz) as (tz & Hpz & _). eauto. }
  assert (Hemp' : ∀ k z tz, (e ≤ k)%nat → bm_data bm !! k = Some z →
                    pools w !! z = Some tz → tm_empty tz).
  { intros k z tz Hk' Hz Hpz. apply (Hemp k z tz); [|done..].
    split; [done|]. by eapply lookup_lt_Some. }
  set (w1 := set_trace (λ l, l ++ [EvFreeToEmpty c a]) w).
  assert (Hpre : ∀ r,
    (let* empty_tail :=
       if (bm_size bm - e <? bm_size bm)%nat then
         let swapc_index := (bm_size bm - (bm_size bm - e) - 1)%nat in
         if (tm_parent_index tm <? swapc_index)%nat then
           let* swapc := data_at bm swapc_index in
           put_bm c (set_bm_data (<[swapc_index := a]>
                                    (<[tm_parent_index tm := swapc]> (bm_data bm))) bm);;
           store a (set_parent_index swapc_index tm);;
           let* stm := deref swapc in
           store swapc (set_parent_index (tm_parent_index tm) stm);;
           ret (S (bm_size bm - e))
         else ret (bm_size bm - e)%nat
       else ret (bm_size bm - e)%nat in
     let* o := get_bm c in
     if sweep_fires empty_tail (bm_size o) (bm_sweep_hysteresis o)
     then sweep_loop c (bm_size o) else ret tt) w1 = r →
    block_manager_s_free_to_empty c a w = r).
  { intros r Hr. unfold block_manager_s_free_to_empty. mstep. fold w1. mderef Ha.
    eapply bind_intro.
    { unfold block_manager_s_empty_tail. mget_bm Hc. mstep.
      replace (bm_size bm =? 0)%nat with false by (symmetry; apply Nat.eqb_neq; lia).
      subst w1. proj_simpl. rewrite Hloop. reflexivity. }
    cbv beta. mget_bm Hc. exact Hr. }
  assert (Hwf1 : wf_ex w1 None (Some a)).
  { split; [|exact Hpart]. apply (wf_core_same w w1); [by repeat split|done]. }
  assert (Hkeep : (e ≤ tm_parent_index tm)%nat →
    ∃ w2 bm2 e0,
    (∀ r, (let* o := get_bm c in
           if sweep_fires (bm_size bm - e0) (bm_size o) (bm_sweep_hysteresis o)
           then sweep_loop c (bm_size o) else ret tt) w2 = r →
          block_manager_s_free_to_empty c a w = r)
    ∧ wf w2 ∧ data w2 !! c = Some bm2
    ∧ same_fixed w w2 ∧ aligned w2 = aligned w ∧ internal_btree w2 = internal_btree w
    ∧ trace w2 = trace w ++ [EvFreeToEmpty c a]
    ∧ bm_size bm2 = bm_size bm ∧ bm_sweep_hysteresis bm2 = bm_sweep_hysteresis bm
    ∧ (e0 ≤ bm_size bm)%nat
    ∧ (∀ k z tz, (e0 ≤ k)%nat → bm_data bm2 !! k = Some z → pools w2 !! z = Some tz →
         tm_empty tz)
    ∧ (∀ k z tz, (k < e0)%nat → bm_data bm2 !! k = Some z → pools w2 !! z = Some tz →
         ¬ tm_empty tz)
    ∧ (∀ z tz', pools w2 !! z = Some tz' →
         ∃ tz, pools w !! z = Some tz ∧ tm_same_static tz tz' ∧ tm_same_status tz tz')
    ∧ (∀ x, x ∈ bm_data bm2 ↔ x ∈ bm_data bm)).
  { intros Hei. exists w1, bm, e.
    assert (Hwf2 : wf w1) by (by apply (fte_keep_wf w1 c bm a tm e)).
    split.
    { intros r Hr. apply Hpre. cbv zeta.
      destruct (bm_size bm - e <? bm_size bm)%nat eqn:E1.
      - replace (tm_parent_index tm <? bm_size bm - (bm_size bm - e) - 1)%nat with false
          by (symmetry; apply Nat.ltb_ge; lia).
        mstep. exact Hr.
      - mstep. exact Hr. }
    split; [done|]. split; [done|]. split; [by repeat split|].
    split; [done|]. split; [done|]. split; [done|]. split; [done|]. split; [done|].
    split; [done|]. split; [done|].
    split; [by apply (nonempty_below w1 c bm e)|].
    split; [|done]. intros z tz' Hz. exists tz'. by repeat split. }
  destruct (decide (e ≤ tm_parent_index tm)%nat) as [Hei|Hie]; [by apply Hkeep|].
  destruct Hlast as [->|(s & ts & Hs & Hps & Hnes)]; [lia|].
  destruct (decide (tm_parent_index tm = pred e)) as [Heq|Hneq].
  { exfalso. rewrite <- Heq in Hs. assert (s = a) as -> by congruence.
    by assert (ts = tm) as -> by congruence. }
  assert (Hlt : (tm_parent_index tm < pred e)%nat) by lia.
  assert (Has : a ≠ s).
  { intros <-. assert (ts = tm) as -> by congruence. done. }
  set (bm2 := set_bm_data (<[pred e := a]> (<[tm_parent_index tm := s]> (bm_data bm))) bm).
  set (w2 := set_pools (λ h, <[s := set_parent_index (tm_parent_index tm) ts]> h)
               (set_pools (λ h, <[a := set_parent_index (pred e) tm]> h)
                  (set_data (λ d, <[c := bm2]> d) w1))).
  destruct (fte_swap_wf w1 w2 c bm bm2 a s tm ts e Hwf1 Ha Hpar He Hc Hlt Hs Hps Hnes Hemp')
    as (Hwf2 & Htail & Hhead & Hold & Helem); try done.
  exists w2, bm2, (pred e).
  split.
  { intros r Hr. apply Hpre.
    replace (bm_size bm - e <? bm_size bm)%nat with true
      by (symmetry; apply Nat.ltb_lt; lia).
    cbv zeta. replace (bm_size bm - (bm_size bm - e) - 1)%nat with (pred e) by lia.
    replace (tm_parent_index tm <? pred e)%nat with true
      by (symmetry; apply Nat.ltb_lt; lia).
    eapply bind_intro.
    { mdata_at Hs. mstep. mstep. eapply bind_intro.
      { apply deref_intro. proj_simpl. rewrite lookup_insert_ne by done. exact Hps. }
      cbv beta. mstep. reflexivity. }
    cbv beta. replace (S (bm_size bm - e)) with (bm_size bm - pred e)%nat by lia.
    exact Hr. }
  split; [done|].
  split; [subst w2 w1; proj_simpl; by rewrite list_lookup_insert_eq|].
  split; [by repeat split|].
  split; [done|]. split; [done|]. split; [done|].
  split; [subst bm2; unfold bm_size; proj_simpl; by rewrite !length_insert|].
  split; [done|]. split; [lia|]. done.
Qed.

Lemma block_manager_s_free_to_empty_wf (c : nat) (a : Z) (w : tbman_s)
    (tm : token_manager_s) (bm : block_manager_s) :
  wf_ex w None (Some a) → pools w !! a = Some tm → tm_parent tm = c → tm_empty tm →
  data w !! c = Some bm →
  ∃ w' evs, block_manager_s_free_to_empty c a w = Ok (tt, w') ∧ wf w'
    ∧ same_fixed w w' ∧ aligned w' = aligned w
    ∧ trace w' = trace w ++ EvFreeToEmpty c a :: evs ∧ Forall sweep_event evs
    ∧ (∀ z tz', pools w' !! z = Some tz' →
         ∃ tz, pools w !! z = Some tz ∧ tm_same_static tz tz' ∧ tm_same_status tz tz')
    ∧ (length (empty_pools (pools w) bm) ≤ bm_size bm)%nat
    ∧ (sweep_fires (length (empty_pools (pools w) bm)) (bm_size bm)
                   (bm_sweep_hysteresis bm) = true →
         (∀ x, pools w' !! x = None ↔ pools w !! x = None ∨ x ∈ empty_pools (pools w) bm)
         ∧ (∀ x, x ∈ empty_pools (pools w) bm ↔ EvDiscard x ∈ evs)
         ∧ (∀ x, x ∈ empty_pools (pools w) bm ↔ EvVdRemove x ∈ evs)
         ∧ ∃ bm', data w' !! c = Some bm' ∧ empty_pools (pools w') bm' = []
                  ∧ bm_size bm' = (bm_size bm - length (empty_pools (pools w) bm))%nat)
    ∧ (sweep_fires (length (empty_pools (pools w) bm)) (bm_size bm)
                   (bm_sweep_hysteresis bm) = false →
         evs = [] ∧ ∀ x, pools w' !! x = None ↔ pools w !! x = None).
Proof.
  intros Hwfx Ha Hpar He Hc. pose proof Hwfx as [Hwf Hpart].
  destruct (fte_move c a w tm bm Hwfx Ha Hpar He Hc)
    as (w2 & bm2 & e & Hrun & Hwf2 & Hc2 & Hfix2 & Hal2 & Htree2 & Htr2 & Hsz2 & Hhy2 & Hle
        & Htail & Hhead & Hold & Helem).
  assert (Hdom : ∀ x, pools w2 !! x = None ↔ pools w !! x = None).
  { apply pools_dom_same; [done|apply Hwf2|done]. }
  assert (Hperm : empty_pools (pools w) bm ≡ₚ drop e (bm_data bm2)).
  { apply empty_pools_tail;
      [by eapply bm_data_NoDup|by eapply (bm_data_NoDup w2 c bm2 (proj1 Hwf2))|done|].
    intros k z Hkz.
    destruct (wf_slot w2 (proj1 Hwf2) c bm2 k z Hc2 Hkz) as (tz' & Hz' & _).
    destruct (Hold z tz' Hz') as (tz & Hz & _ & Hst). split.
    - intros Hk. exists tz. split; [done|]. apply (tm_empty_same tz tz' Hst).
      by apply (Htail k z tz').
    - intros (tz0 & Hz0 & He0). assert (tz0 = tz) as -> by congruence.
      destruct (decide (e ≤ k)%nat); [done|]. exfalso.
      apply (Hhead k z tz'); [lia|done|done|]. by apply (tm_empty_same tz tz' Hst). }
  assert (Hn : length (empty_pools (pools w) bm) = (bm_size bm - e)%nat).
  { rewrite Hperm, length_drop. unfold bm_size in *. lia. }
  rewrite Hn.
  destruct (sweep_fires (bm_size bm - e) (bm_size bm) (bm_sweep_hysteresis bm)) eqn:Hfire.
  - destruct (sweep_loop_wf c (bm_size bm2) w2 bm2 Hwf2 Hc2 eq_refl)
      as (w' & e' & evs & Hr & Hwf' & Hfix & Hal & Hd' & Hle' & Hemp & Hlast & Hpools
          & Htr & Hsw & Hdis & Hrem).
    assert (Hee : e' = e).
    { destruct (decide (e' < e)%nat) as [Hlt|Hge].
      - exfalso. destruct (lookup_lt_is_Some_2 (bm_data bm2) e') as [z Hz].
        { unfold bm_size in *. lia. }
        destruct (wf_slot w2 (proj1 Hwf2) c bm2 e' z Hc2 Hz) as (tz & Hpz & _).
        apply (Hhead e' z tz Hlt Hz Hpz). by apply (Hemp e' z tz).
      - destruct Hlast as [->|(z & tz & Hz & Hpz & Hne)]; [lia|].
        destruct (decide (e' = e)); [done|]. exfalso.
        apply Hne. apply (Htail (pred e') z tz); [lia|done|done]. }
    subst e'.
    exists w', evs. split.
    { apply Hrun. mget_bm Hc2. rewrite Hsz2, Hhy2, Hfire. rewrite <- Hsz2. exact Hr. }
    split; [done|]. split; [by eapply same_fixed_trans|]. split; [congruence|].
    split; [by rewrite Htr, Htr2, <- app_assoc|]. split; [done|].
    split.
    { intros z tz' Hz'. rewrite Hpools in Hz'. case_bool_decide; [done|]. by apply Hold. }
    split; [lia|]. split; [|done]. intros _.
    split.
    { intros x. rewrite Hpools, Hperm.
      case_bool_decide as Hin; [by split; auto|].
      rewrite Hdom. split; [auto|]. by intros [?|?]. }
    split. { intros x. by rewrite Hperm, Hdis. }
    split. { intros x. by rewrite Hperm, Hrem. }
    exists (set_bm_data (take e (bm_data bm2)) bm2).
    assert (Hclt : (c < length (data w2))%nat) by (by eapply lookup_lt_Some).
    split; [by rewrite Hd', list_lookup_insert_eq|].
    split.
    + unfold empty_pools. proj_simpl.
      destruct (filter _ _) as [|x l] eqn:E; [done|]. exfalso.
      assert (Hx : x ∈ filter (is_empty_pool (pools w')) (take e (bm_data bm2)))
        by (rewrite E; by left).
      apply list_elem_of_filter in Hx as [(tx & Hpx & Hex) Hin].
      apply elem_of_take in Hin as (k & Hk & Hlt).
      rewrite Hpools in Hpx. case_bool_decide; [done|].
      by apply (Hhead k x tx).
    + unfold bm_size in *. proj_simpl. rewrite length_take. lia.
  - exists w2, []. split.
    { apply Hrun. mget_bm Hc2. rewrite Hsz2, Hhy2, Hfire. reflexivity. }
    split; [done|]. split; [done|]. split; [done|]. split; [done|]. split; [done|].
    split; [done|]. split; [lia|]. split; [done|]. intros _. done.
Qed.

(** ** The sweep hysteresis is never changed *)

Lemma keeps_ret {A} (a : A) : keeps_hyst (ret a).
Proof. intros w a' w' [= <- <-]. done. Qed.

Lemma keeps_fail {A} (e : error) : keeps_hyst (@fail A e).
Proof. intros w a w' H. done. Qed.

Lemma keeps_same {A} (m : M A) :
  (∀ w a w', m w = Ok (a, w') → data w' = data w) → keeps_hyst m.
Proof. intros Hd w a w' H Hh c bm Hc. rewrite (Hd w a w' H) in Hc. by apply (Hh c). Qed.

Lemma keeps_modify (f : tbman_s → tbman_s) :
  (∀ w, data (f w) = data w) → keeps_hyst (modify f).
Proof. intros Hf. apply keeps_same. intros w a w' [= <- <-]. apply Hf. Qed.

Lemma keeps_emit (e : event) : keeps_hyst (emit e).
Proof. by apply keeps_modify. Qed.

Lemma keeps_get : keeps_hyst get.
Proof. apply keeps_same. by intros w a w' [= <- <-]. Qed.

Lemma keeps_deref (o : Z) : keeps_hyst (deref o).
Proof. apply keeps_same. intros w a w' H. by apply deref_Ok in H as [_ ->]. Qed.

Lemma keeps_store (o : Z) (tm : token_manager_s) : keeps_hyst (store o tm).
Proof. by apply keeps_modify. Qed.

Lemma keeps_read_token (tm : token_manager_s) (i : Z) : keeps_hyst (read_token tm i).
Proof. apply keeps_same. intros w a w' H. by apply read_token_Ok in H as [_ ->]. Qed.

Lemma keeps_data_at (o : block_manager_s) (k : nat) : keeps_hyst (data_at o k).
Proof. apply keeps_same. intros w a w' H. by apply data_at_Ok in H as [_ ->]. Qed.

Lemma keeps_put_bm (c : nat) (bm : block_manager_s) :
  bm_sweep_hysteresis bm = (1 # 8)%Q → keeps_hyst (put_bm c bm).
Proof.
  intros Hbm w a w' [= <- <-] Hh c' bm' Hc'. cbn in Hc'.
  apply list_lookup_insert_Some in Hc' as [(_ & <- & _)|[_ Hc']]; [done|].
  by apply (Hh c').
Qed.

Lemma keeps_bind {A B} (m : M A) (f : A → M B) :
  keeps_hyst m → (∀ a, keeps_hyst (f a)) → keeps_hyst (bind m f).
Proof.
  intros Hm Hf w b w' H Hh. apply bind_Ok in H as (a & w1 & H1 & H2).
  apply (Hf a w1 b w' H2). by apply (Hm w a w1).
Qed.

(** The continuation may rely on what the action returns. *)
Lemma keeps_bind_val {A B} (m : M A) (f : A → M B) (P : A → Prop) :
  (∀ w a w', m w = Ok (a, w') → hyst_ok w → P a) → keeps_hyst m →
  (∀ a, P a → keeps_hyst (f a)) → keeps_hyst (bind m f).
Proof.
  intros HP Hm Hf w b w' H Hh. apply bind_Ok in H as (a & w1 & H1 & H2).
  apply (Hf a (HP w a w1 H1 Hh) w1 b w' H2). by apply (Hm w a w1).
Qed.

Lemma keeps_get_bm_bind {B} (c : nat) (f : block_manager_s → M B) :
  (∀ o, bm_sweep_hysteresis o = (1 # 8)%Q → keeps_hyst (f o)) →
  keeps_hyst (bind (get_bm c) f).
Proof.
  intros Hf. apply (keeps_bind_val _ _ (λ o, bm_sweep_hysteresis o = (1 # 8)%Q)).
  - intros w o w' H Hh. apply get_bm_Ok in H as [Hc _]. by apply (Hh c).
  - apply keeps_same. intros w a w' H. by apply get_bm_Ok in H as [_ ->].
  - exact Hf.
Qed.

Lemma keeps_when (b : bool) (m : M unit) : keeps_hyst m → keeps_hyst (when b m).
Proof. intros Hm. destruct b; [done|apply keeps_ret]. Qed.

Ltac keeps_step :=
  first
    [ apply keeps_ret | apply keeps_fail | apply keeps_emit | apply keeps_get
    | apply keeps_deref | apply keeps_store | apply keeps_read_token
    | apply keeps_data_at
    | apply keeps_modify; intros ?; reflexivity
    | apply keeps_put_bm; cbn; assumption
    | apply keeps_get_bm_bind; intros ? ?
    | apply keeps_bind; [|intros ?]
    | apply keeps_when
    | match goal with
      | |- keeps_hyst (if ?b then _ else _) => destruct b
      | |- keeps_hyst (match ?x with _ => _ end) => destruct x
      end
    | progress cbv zeta ].
Ltac keeps := repeat keeps_step.
Tactic Notation "keeps" "using" tactic3(tac) := repeat first [tac | keeps_step].

Lemma keeps_is_full (o : Z) : keeps_hyst (token_manager_s_is_full o).
Proof. unfold token_manager_s_is_full. keeps. Qed.

Lemma keeps_is_empty (o : Z) : keeps_hyst (token_manager_s_is_empty o).
Proof. unfold token_manager_s_is_empty. keeps. Qed.

Lemma keeps_tm_alloc (o : Z) : keeps_hyst (token_manager_s_alloc o).
Proof. unfold token_manager_s_alloc. keeps using (apply keeps_is_full). Qed.

Lemma keeps_discard (o : Z) : keeps_hyst (token_manager_s_discard o).
Proof. unfold token_manager_s_discard. keeps. Qed.

Lemma keeps_vd_set (key : Z) : keeps_hyst (btree_vd_s_set key).
Proof. unfold btree_vd_s_set. keeps. Qed.

Lemma keeps_vd_remove (key : Z) : keeps_hyst (btree_vd_s_remove key).
Proof. unfold btree_vd_s_remove. keeps. Qed.

Lemma keeps_aligned_malloc (sys alignment size : Z) :
  keeps_hyst (_aligned_malloc sys alignment size).
Proof.
  apply keeps_same. unfold _aligned_malloc. intros w a w' H.
  destruct (sys =? 0); [by injection H as <- <-|].
  destruct (_ && _); [by injection H as <- <-|done].
Qed.

Lemma keeps_create (sys P B : Z) (align : bool) :
  keeps_hyst (token_manager_s_create sys P B align).
Proof. unfold token_manager_s_create. keeps using (apply keeps_aligned_malloc). Qed.

Lemma keeps_full_to_free (c : nat) (child : Z) :
  keeps_hyst (block_manager_s_full_to_free c child).
Proof. unfold block_manager_s_full_to_free. keeps. Qed.

Lemma keeps_empty_tail (c : nat) : keeps_hyst (block_manager_s_empty_tail c).
Proof. unfold block_manager_s_empty_tail. keeps. Qed.

Lemma keeps_sweep_loop (c n : nat) : keeps_hyst (sweep_loop c n).
Proof.
  induction n as [|k IH]; cbn [sweep_loop]; [apply keeps_ret|].
  keeps using (first [apply keeps_is_empty | apply keeps_vd_remove
                     | apply keeps_discard | exact IH]).
Qed.

Lemma keeps_free_to_empty (c : nat) (child : Z) :
  keeps_hyst (block_manager_s_free_to_empty c child).
Proof.
  unfold block_manager_s_free_to_empty.
  keeps using (first [apply keeps_empty_tail | apply keeps_sweep_loop]).
Qed.

Lemma keeps_tm_free (o ptr : Z) : keeps_hyst (token_manager_s_free o ptr).
Proof.
  unfold token_manager_s_free.
  keeps using (first [apply keeps_full_to_free | apply keeps_free_to_empty]).
Qed.

Lemma keeps_bm_alloc (sys : Z) (c : nat) : keeps_hyst (block_manager_s_alloc sys c).
Proof.
  unfold block_manager_s_alloc. apply keeps_get_bm_bind. intros o Ho.
  apply keeps_bind.
  - apply keeps_when. cbv zeta.
    set (o' := if (bm_size o =? bm_space o)%nat then _ else o).
    assert (Ho' : bm_sweep_hysteresis o' = (1 # 8)%Q)
      by (unfold o'; by destruct (bm_size o =? bm_space o)%nat).
    clearbody o'.
    apply keeps_bind; [apply keeps_create|]. intros a.
    apply keeps_bind; [apply keeps_deref|]. intros tm.
    apply keeps_bind; [apply keeps_store|]. intros _.
    apply (keeps_bind_val _ _ (λ o2, bm_sweep_hysteresis o2 = (1 # 8)%Q)).
    + intros w o2 w' H _. destruct (bm_aligned o' && negb (tm_aligned tm)).
      * minv H. done.
      * by injection H as <- <-.
    + unfold tbman_s_lost_alignment. keeps.
    + intros o2 Ho2. keeps using (apply keeps_vd_set).
  - intros _. keeps using (first [apply keeps_tm_alloc | apply keeps_is_full]).
Qed.

(** ** Counting the empty pools of a block manager *)

Lemma sweep_fires_eighth (e s : nat) :
  sweep_fires e s (1 # 8) = false ↔ (8 * e ≤ s - e)%nat.
Proof.
  unfold sweep_fires. rewrite negb_false_iff, Qle_bool_iff.
  unfold Qle, inject_Z, Qmult. cbn [Qnum Qden]. lia.
Qed.

Lemma sweep_calm_hyst (w : tbman_s) : sweep_calm w → hyst_ok w.
Proof. intros H c bm Hc. by destruct (H c bm Hc). Qed.

Lemma sweep_calm_same (w w' : tbman_s) :
  data w' = data w → pools w' = pools w → sweep_calm w → sweep_calm w'.
Proof. intros Hd Hp H c bm Hc. rewrite Hp. apply (H c). by rewrite <- Hd. Qed.

(** The pools of a block manager are the pools whose parent it is. *)
Lemma bm_data_elem (w : tbman_s) (c : nat) (bm : block_manager_s) (x : Z) :
  wf_core w → data w !! c = Some bm →
  x ∈ bm_data bm ↔ ∃ tx, pools w !! x = Some tx ∧ tm_parent tx = c.
Proof.
  intros Hwf Hc. split.
  - intros Hx. apply list_elem_of_lookup in Hx as [k Hk].
    destruct (wf_slot w Hwf c bm k x Hc Hk) as (tx & Hx & Hp & _). eauto.
  - intros (tx & Hx & Hp).
    destruct (wf_pool w Hwf x tx Hx) as (_ & _ & bm0 & Hc0 & Hk & _).
    rewrite Hp in Hc0. assert (bm0 = bm) as -> by congruence.
    by eapply list_elem_of_lookup_2.
Qed.

(** No pool of the block manager turns empty and none that is in use goes
    away: the sweep condition stays off. *)
Lemma class_count_mono (w w' : tbman_s) (c : nat) (bm bm' : block_manager_s) :
  wf_core w → wf_core w' → data w !! c = Some bm → data w' !! c = Some bm' →
  (∀ x tx', pools w' !! x = Some tx' → tm_parent tx' = c → tm_empty tx' →
     ∃ tx, pools w !! x = Some tx ∧ tm_parent tx = c ∧ tm_empty tx) →
  (∀ x tx, pools w !! x = Some tx → tm_parent tx = c → ¬ tm_empty tx →
     ∃ tx', pools w' !! x = Some tx' ∧ tm_parent tx' = c ∧ ¬ tm_empty tx') →
  sweep_fires (length (empty_pools (pools w) bm)) (bm_size bm) (1 # 8) = false →
  sweep_fires (length (empty_pools (pools w') bm')) (bm_size bm') (1 # 8) = false.
Proof.
  intros Hwf Hwf' Hc Hc' He Hn. rewrite !sweep_fires_eighth. unfold empty_pools, bm_size.
  pose proof (bm_data_NoDup w c bm Hwf Hc) as Hnd.
  pose proof (bm_data_NoDup w' c bm' Hwf' Hc') as Hnd'.
  assert (HE : (length (filter (is_empty_pool (pools w')) (bm_data bm'))
                ≤ length (filter (is_empty_pool (pools w)) (bm_data bm)))%nat).
  { apply submseteq_length, NoDup_submseteq; [by apply NoDup_filter|].
    intros x Hx. apply list_elem_of_filter in Hx as [(tx' & Hx' & Hex) Hin].
    apply (bm_data_elem w' c bm' x Hwf' Hc') in Hin as (t2 & Ht2 & Hp2).
    assert (t2 = tx') as -> by congruence.
    destruct (He x tx' Hx' Hp2 Hex) as (tx & Hx & Hp & Hem).
    apply list_elem_of_filter. split; [by exists tx|].
    apply (bm_data_elem w c bm x Hwf Hc). eauto. }
  assert (HN : (length (filter (λ z, ¬ is_empty_pool (pools w) z) (bm_data bm))
                ≤ length (filter (λ z, ¬ is_empty_pool (pools w') z) (bm_data bm')))%nat).
  { apply submseteq_length, NoDup_submseteq; [by apply NoDup_filter|].
    intros x Hx. apply list_elem_of_filter in Hx as [Hne Hin].
    apply (bm_data_elem w c bm x Hwf Hc) in Hin as (tx & Hx & Hp).
    destruct (Hn x tx Hx Hp) as (tx' & Hx' & Hp' & Hne').
    { intros Hem. apply Hne. by exists tx. }
    apply list_elem_of_filter. split.
    - intros (t2 & Ht2 & Hem). apply Hne'. congruence.
    - apply (bm_data_elem w' c bm' x Hwf' Hc'). eauto. }
  pose proof (filter_app_complement (is_empty_pool (pools w)) (bm_data bm)) as P.
  pose proof (filter_app_complement (is_empty_pool (pools w')) (bm_data bm')) as P'.
  apply Permutation_length in P, P'. rewrite length_app in P, P'. lia.
Qed.

(** ** Token managers: [free] *)

Lemma tm_same_static_trans (t1 t2 t3 : token_manager_s) :
  tm_same_static t1 t2 → tm_same_static t2 t3 → tm_same_static t1 t3.
Proof. unfold tm_same_static. intros. destruct_and!. repeat split; congruence. Qed.

Lemma tm_same_status_refl (tm : token_manager_s) : tm_same_status tm tm.
Proof. by split. Qed.

Lemma tm_same_status_trans (t1 t2 t3 : token_manager_s) :
  tm_same_status t1 t2 → tm_same_status t2 t3 → tm_same_status t1 t3.
Proof. unfold tm_same_status. intros. destruct_and!. split; congruence. Qed.

Lemma tm_live_same (a : Z) (tm tm' : token_manager_s) (p : Z) :
  tm_same_static tm tm' → tm_same_status tm tm' → tm_live a tm p → tm_live a tm' p.
Proof.
  intros (Hp & Hb & Hs & _) (Hi & Ht).
  unfold tm_live, free_tokens, tm_capacity, tm_stack_len, tm_reserved.
  by rewrite Hp, Hb, Hi, Ht.
Qed.

Lemma token_manager_s_free_sweep (a p : Z) (w : tbman_s) (tm : token_manager_s) :
  wf w → pools w !! a = Some tm → tm_live a tm p →
  ∃ w' post, token_manager_s_free a p w = Ok (tt, w') ∧ wf w'
    ∧ same_fixed w w' ∧ aligned w' = aligned w
    ∧ trace w' = trace w
                 ++ (if decide (tm_full tm) then [EvFullToFree (tm_parent tm) a] else [])
                 ++ [EvStackIndex a (tm_stack_index tm - 1);
                     EvTokenWrite a (tm_stack_index tm - 1) ((p - a) / tm_block_size tm)]
                 ++ post
    ∧ (tm_stack_index tm ≠ 1 → post = [])
    ∧ (tm_stack_index tm = 1 →
         ∃ evs, post = EvFreeToEmpty (tm_parent tm) a :: evs ∧ Forall sweep_event evs)
    ∧ (∀ z tz', pools w' !! z = Some tz' →
         ∃ tz, pools w !! z = Some tz ∧ tm_same_static tz tz'
           ∧ (z ≠ a → tm_same_status tz tz')
           ∧ (z = a → tm_stack_index tz' = tm_stack_index tm - 1
                      ∧ tm_token_stack tz'
                        = <[Z.to_nat (tm_stack_index tm - 1) := (p - a) / tm_block_size tm]>
                            (tm_token_stack tm)))
    ∧ (tm_stack_index tm ≠ 1 → ∀ x, pools w' !! x = None ↔ pools w !! x = None)
    ∧ (∀ z tz, pools w !! z = Some tz → z ≠ a → ¬ tm_empty tz → is_Some (pools w' !! z))
    ∧ (tm_stack_index tm = 1 → hyst_ok w → ∀ bm', data w' !! tm_parent tm = Some bm' →
         sweep_fires (length (empty_pools (pools w') bm')) (bm_size bm') (1 # 8) = false).
Proof.
  intros Hwfw Ha Hlive. pose proof Hwfw as [Hwf Hpart].
  pose proof Hlive as (Hi & t0 & Hp & Hr & Hnin).
  destruct (wf_pool w Hwf a tm Ha) as (Hok & _ & bm & Hc & Hk & _).
  pose proof (tm_ok_block _ _ Hok) as HB.
  assert (Ht : (p - a) / tm_block_size tm = t0).
  { rewrite Hp. replace (a + t0 * tm_block_size tm - a) with (t0 * tm_block_size tm) by lia.
    apply Z.div_mul. lia. }
  rewrite Ht.
  assert (Htok : uint16 (size_t (p - a) / tm_block_size tm) = t0).
  { rewrite Hp. by apply token_of_ptr. }
  set (c := tm_parent tm) in *.
  set (rest := λ tok : Z,
    let* tm := deref a in
    let i := uint16 (tm_stack_index tm - 1) in
    emit (EvStackIndex a i);;
    store a (set_stack_index i tm);;
    if negb (Z.to_nat i <? length (tm_token_stack tm))%nat then fail Undefined else
    emit (EvTokenWrite a i tok);;
    store a (set_token_stack (<[Z.to_nat i := tok]> (tm_token_stack tm))
               (set_stack_index i tm));;
    when (i =? 0) (block_manager_s_free_to_empty (tm_parent tm) a)).
  assert (Hphase1 : ∃ w1 tm1 bm1 exF,
    (hyst_ok w → hyst_ok w1)
    ∧ (∀ r, rest t0 w1 = r → token_manager_s_free a p w = r)
    ∧ wf_ex w1 exF None ∧ (∀ z, exF = Some z → z = a)
    ∧ pools w1 !! a = Some tm1 ∧ tm_same_static tm tm1 ∧ tm_same_status tm tm1
    ∧ data w1 !! c = Some bm1 ∧ (bm_free_index bm1 ≤ tm_parent_index tm1)%nat
    ∧ same_fixed w w1 ∧ aligned w1 = aligned w ∧ internal_btree w1 = internal_btree w
    ∧ trace w1 = trace w ++ (if decide (tm_full tm) then [EvFullToFree c a] else [])
    ∧ (∀ z tz', pools w1 !! z = Some tz' →
         ∃ tz, pools w !! z = Some tz ∧ tm_same_static tz tz' ∧ tm_same_status tz tz')).
  { destruct (decide (tm_full tm)) as [Hfull|Hnf].
    - destruct (block_manager_s_full_to_free_wf c a w tm Hwfw Ha eq_refl Hfull)
        as (w1 & Hrun & Hwf1 & Hfix & Hal & Htree & Htr & Hold & bm1 & Hc1 & Hslot).
      destruct (wf_slot w1 (proj1 Hwf1) c bm1 _ a Hc1 Hslot) as (tm1 & Ha1 & _ & Hi1).
      destruct (Hold a tm1 Ha1) as (tm0 & Ha0 & Hst & Hss).
      assert (tm0 = tm) as -> by congruence.
      exists w1, tm1, bm1, (Some a).
      split; [exact (keeps_full_to_free c a w tt w1 Hrun)|].
      split.
      { intros r Hr'. unfold token_manager_s_free. mderef Ha.
        replace (tm_block_size tm =? 0) with false by (symmetry; apply Z.eqb_neq; lia).
        eapply bind_intro; [apply read_token_intro; exact Hfull|]. cbv beta.
        cbn [Z.eqb when]. eapply bind_intro; [exact Hrun|]. cbv beta.
        rewrite Htok. exact Hr'. }
      split; [done|]. split; [by intros z [= <-]|].
      split; [done|]. split; [done|]. split; [done|]. split; [done|].
      split; [lia|]. done.
    - assert (Hlt : tm_stack_index tm < tm_capacity tm).
      { pose proof (tm_ok_index _ _ Hok). rewrite (tm_full_iff a) in Hnf by done. lia. }
      destruct (tm_ok_tokens _ _ Hok (tm_stack_index tm)) as (t1 & Ht1 & Hr1); [lia|].
      pose proof (tm_reserved_pos _ _ Hok) as Hrb.
      exists w, tm, bm, None.
      split; [done|].
      split.
      { intros r Hr'. unfold token_manager_s_free. mderef Ha.
        replace (tm_block_size tm =? 0) with false by (symmetry; apply Z.eqb_neq; lia).
        eapply bind_intro; [apply read_token_intro; exact Ht1|]. cbv beta.
        replace (t1 =? 0) with false by (symmetry; apply Z.eqb_neq; lia).
        cbn [when]. mstep. rewrite Htok. exact Hr'. }
      split; [by apply (proj1 (conj Hwfw I))|]. split; [done|].
      split; [done|]. split; [apply tm_same_static_refl|].
      split; [apply tm_same_status_refl|]. split; [done|].
      split.
      { destruct (partition_full_below w c bm a tm None Hwf (Hpart c bm Hc) Hc Ha eq_refl)
          as [Hiff _].
        destruct (decide (bm_free_index bm ≤ tm_parent_index tm)%nat); [done|].
        exfalso. apply Hnf, Hiff. lia. }
      split; [apply same_fixed_refl|]. split; [done|]. split; [done|].
      split; [by rewrite app_nil_r|].
      intros z tz' Hz. exists tz'.
      split; [done|]. split; [apply tm_same_static_refl|apply tm_same_status_refl]. }
  destruct Hphase1 as (w1 & tm1 & bm1 & exF & Hhy1 & Hrun1 & Hwf1 & HexF & Ha1 & Hst1 & Hss1 & Hc1
                       & Hslot1 & Hfix1 & Hal1 & Htree1 & Htr1 & Hold1).
  destruct (wf_pool w1 (proj1 Hwf1) a tm1 Ha1) as (Hok1 & _).
  pose proof Hst1 as (Hps1 & Hbs1 & Hsz1 & Hag1 & Hpar1).
  pose proof Hss1 as (Hidx1 & Htk1).
  assert (Hlive1 : tm_live a tm1 p) by (by apply (tm_live_same a tm tm1)).
  destruct Hlive1 as (Hi' & t0' & Hp' & Hr' & Hnin').
  assert (t0' = t0) as ->.
  { rewrite Hbs1 in Hp'. assert (t0' * tm_block_size tm = t0 * tm_block_size tm) by lia.
    nia. }
  destruct (tm_ok_push a tm1 t0 Hok1 Hi' Hr' Hnin') as (Hu & Hlen & Hok2).
  set (i := tm_stack_index tm - 1) in *.
  rewrite Hidx1 in Hu, Hlen, Hok2. fold i in Hu, Hlen, Hok2.
  set (tm2 := set_token_stack (<[Z.to_nat i := t0]> (tm_token_stack tm1))
                (set_stack_index i tm1)) in *.
  set (w2 := set_pools (λ h, <[a := tm2]> h)
               (set_trace (λ l, l ++ [EvTokenWrite a i t0])
                  (set_pools (λ h, <[a := set_stack_index i tm1]> h)
                     (set_trace (λ l, l ++ [EvStackIndex a i]) w1)))).
  assert (Hrun2 : ∀ r, when (i =? 0) (block_manager_s_free_to_empty c a) w2 = r →
                       token_manager_s_free a p w = r).
  { intros r Hr2. apply Hrun1. unfold rest. mderef Ha1. cbv zeta.
    rewrite Hidx1. fold i. rewrite Hu. mstep. mstep.
    replace (Z.to_nat i <? length (tm_token_stack tm1))%nat with true
      by (symmetry; by apply Nat.ltb_lt).
    cbn [negb]. mstep. mstep. rewrite Hpar1. exact Hr2. }
  assert (Hpools2 : pools w2 = <[a := tm2]> (pools w1)).
  { subst w2. proj_simpl. by rewrite insert_insert_eq. }
  destruct (push_wf w1 w2 a tm1 tm2 bm1 exF t0) as [Hwfx2 Hwf2]; try done.
  { by rewrite Hpar1. }
  { subst tm2 i. by rewrite Hidx1. }
  assert (Hold2 : ∀ z tz', pools w2 !! z = Some tz' →
    ∃ tz, pools w !! z = Some tz ∧ tm_same_static tz tz'
      ∧ (z ≠ a → tm_same_status tz tz')
      ∧ (z = a → tm_stack_index tz' = i
                 ∧ tm_token_stack tz' = <[Z.to_nat i := t0]> (tm_token_stack tm))).
  { intros z tz' Hz. rewrite Hpools2 in Hz.
    destruct (decide (z = a)) as [->|Hne].
    - rewrite lookup_insert_eq in Hz. injection Hz as <-. exists tm.
      split; [done|]. split; [by subst tm2|]. split; [done|]. intros _.
      split; [done|]. subst tm2. proj_simpl. by rewrite Htk1.
    - rewrite lookup_insert_ne in Hz by done.
      destruct (Hold1 z tz' Hz) as (tz & Hz0 & Hs0 & Hs1). exists tz.
      split; [done|]. split; [done|]. split; [done|]. done. }
  assert (Htr2 : trace w2 = trace w
                  ++ (if decide (tm_full tm) then [EvFullToFree c a] else [])
                  ++ [EvStackIndex a i; EvTokenWrite a i t0]).
  { subst w2. proj_simpl. rewrite Htr1, <- !app_assoc. done. }
  assert (Hdom2 : ∀ x, pools w2 !! x = None ↔ pools w !! x = None).
  { apply pools_dom_same; [done|apply Hwfx2|done]. }
  destruct (decide (i = 0)) as [Hi0|Hi0].
  - assert (Ha2 : pools w2 !! a = Some tm2) by (by rewrite Hpools2, lookup_insert_eq).
    destruct (block_manager_s_free_to_empty_wf c a w2 tm2 bm1 Hwfx2 Ha2)
      as (w' & evs & Hrun & Hwf' & Hfix & Hal & Htr & Hsw & Hold & _ & Hfire & Hcalm);
      try done.
    exists w', (EvFreeToEmpty c a :: evs).
    split. { apply Hrun2. rewrite Hi0. exact Hrun. }
    split; [done|].
    split. { eapply same_fixed_trans; [exact Hfix1|]. eapply same_fixed_trans; [|exact Hfix].
             by repeat split. }
    split; [by rewrite Hal|].
    split; [by rewrite Htr, Htr2, <- !app_assoc|].
    split; [intros; lia|]. split; [intros _; eauto|].
    split; [|split; [intros; lia|split]].
    3: { intros _ Hh bm' Hbm'.
         assert (Hb1 : bm_sweep_hysteresis bm1 = (1 # 8)%Q) by (by apply (Hhy1 Hh c)).
         destruct (sweep_fires (length (empty_pools (pools w2) bm1)) (bm_size bm1)
                     (bm_sweep_hysteresis bm1)) eqn:Hf.
         - destruct (Hfire eq_refl) as (_ & _ & _ & bm2 & Hc2 & Hemp & _).
           assert (bm' = bm2) as -> by congruence.
           rewrite Hemp. apply sweep_fires_eighth. cbn. lia.
         - rewrite Hb1 in Hf. destruct (Hcalm eq_refl) as (_ & Hsame).
           apply (class_count_mono w2 w' c bm1 bm'); try done.
           + apply Hwfx2.
           + apply Hwf'.
           + intros x tx' Hx Hpx He. destruct (Hold x tx' Hx) as (tz & Hz & Hst & Hss).
             exists tz. split; [done|]. destruct Hst as (_ & _ & _ & _ & Hpz).
             split; [congruence|]. by apply (tm_empty_same tz tx' Hss).
           + intros x tx Hx Hpx Hne.
             destruct (pools w' !! x) as [tx'|] eqn:E; [|apply Hsame in E; congruence].
             destruct (Hold x tx' E) as (tz & Hz & Hst & Hss).
             assert (tz = tx) as -> by congruence.
             exists tx'. split; [done|]. destruct Hst as (_ & _ & _ & _ & Hpz).
             split; [congruence|]. by rewrite (tm_empty_same tx tx' Hss). }
    2: { intros z tz Hz Hza Hne. apply not_eq_None_Some. intros Hnone.
         assert (Hz2 : ∃ tz2, pools w2 !! z = Some tz2 ∧ ¬ tm_empty tz2).
         { destruct (pools w2 !! z) as [tz2|] eqn:E; [|apply Hdom2 in E; congruence].
           exists tz2. split; [done|].
           destruct (Hold2 z tz2 E) as (tz0 & Hz0 & _ & Hst & _).
           assert (tz0 = tz) as -> by congruence.
           by rewrite (tm_empty_same tz tz2 (Hst Hza)). }
         destruct Hz2 as (tz2 & Hz2 & Hne2).
         destruct (sweep_fires _ _ _) eqn:Hf.
         - destruct (Hfire eq_refl) as (Hgone & _). apply Hgone in Hnone as [E|Hin];
             [congruence|].
           apply list_elem_of_filter in Hin as [(tz3 & Hz3 & He3) _]. congruence.
         - destruct (Hcalm eq_refl) as (_ & Hsame). apply Hsame in Hnone. congruence. }
    intros z tz' Hz. destruct (Hold z tz' Hz) as (tz2 & Hz2 & Hs2 & Hss2).
    destruct (Hold2 z tz2 Hz2) as (tz & Hz0 & Hs0 & Hne0 & Heq0).
    exists tz. split; [done|]. split; [by eapply tm_same_static_trans|].
    split.
    + intros Hne. eapply tm_same_status_trans; [by apply Hne0|done].
    + intros Heq. destruct (Heq0 Heq) as [E1 E2]. destruct Hss2 as [E3 E4].
      split; congruence.
  - exists w2, [].
    split. { apply Hrun2. replace (i =? 0) with false by (symmetry; by apply Z.eqb_neq).
             reflexivity. }
    split; [apply Hwf2; lia|].
    split. { eapply same_fixed_trans; [exact Hfix1|]. by repeat split. }
    split; [done|]. split; [by rewrite Htr2, app_nil_r|].
    split; [done|]. split; [intros; lia|]. split; [done|]. split; [intros _; exact Hdom2|].
    split; [|intros; lia].
    intros z tz Hz _ _. apply not_eq_None_Some. rewrite Hdom2. by rewrite Hz.
Qed.

Lemma token_manager_s_free_wf (a p : Z) (w : tbman_s) (tm : token_manager_s) :
  wf w → pools w !! a = Some tm → tm_live a tm p →
  ∃ w' post, token_manager_s_free a p w = Ok (tt, w') ∧ wf w'
    ∧ same_fixed w w' ∧ aligned w' = aligned w
    ∧ trace w' = trace w
                 ++ (if decide (tm_full tm) then [EvFullToFree (tm_parent tm) a] else [])
                 ++ [EvStackIndex a (tm_stack_index tm - 1);
                     EvTokenWrite a (tm_stack_index tm - 1) ((p - a) / tm_block_size tm)]
                 ++ post
    ∧ (tm_stack_index tm ≠ 1 → post = [])
    ∧ (tm_stack_index tm = 1 →
         ∃ evs, post = EvFreeToEmpty (tm_parent tm) a :: evs ∧ Forall sweep_event evs)
    ∧ (∀ z tz', pools w' !! z = Some tz' →
         ∃ tz, pools w !! z = Some tz ∧ tm_same_static tz tz'
           ∧ (z ≠ a → tm_same_status tz tz')
           ∧ (z = a → tm_stack_index tz' = tm_stack_index tm - 1
                      ∧ tm_token_stack tz'
                        = <[Z.to_nat (tm_stack_index tm - 1) := (p - a) / tm_block_size tm]>
                            (tm_token_stack tm)))
    ∧ (tm_stack_index tm ≠ 1 → ∀ x, pools w' !! x = None ↔ pools w !! x = None)
    ∧ (∀ z tz, pools w !! z = Some tz → z ≠ a → ¬ tm_empty tz → is_Some (pools w' !! z)).
Proof.
  intros Hwf Ha Hl.
  destruct (token_manager_s_free_sweep a p w tm Hwf Ha Hl)
    as (w' & post & R1 & R2 & R3 & R4 & R5 & R6 & R7 & R8 & R9 & R10 & _).
  exists w', post. do 9 (split; [assumption|]). assumption.
Qed.

(** [free] leaves no block manager due for a sweep. *)
Lemma token_manager_s_free_calm (a p : Z) (w : tbman_s) (tm : token_manager_s)
    (w' : tbman_s) :
  wf w → pools w !! a = Some tm → tm_live a tm p →
  token_manager_s_free a p w = Ok (tt, w') → sweep_calm w → sweep_calm w'.
Proof.
  intros Hwf Ha Hl Hrun Hcalm.
  destruct (token_manager_s_free_sweep a p w tm Hwf Ha Hl)
    as (w2 & post & R1 & Hwf' & Hfix & _ & _ & _ & _ & Hold & Hdom & Hkeep & Hsweep).
  rewrite Hrun in R1. injection R1 as <-.
  pose proof (sweep_calm_hyst w Hcalm) as Hh.
  pose proof (keeps_tm_free a p w tt w' Hrun Hh) as Hh'.
  intros c' bm' Hc'. split; [by apply (Hh' c')|].
  assert (Hlen : length (data w') = length (data w)).
  { destruct Hfix as (_ & _ & _ & Hb & _).
    rewrite (wf_bsa w (proj1 Hwf)), (wf_bsa w' (proj1 Hwf')) in Hb.
    apply (f_equal length) in Hb. by rewrite !length_fmap in Hb. }
  destruct (lookup_lt_is_Some_2 (data w) c') as [bm Hc].
  { rewrite <- Hlen. by eapply lookup_lt_Some. }
  destruct (decide (tm_stack_index tm = 1 ∧ c' = tm_parent tm)) as [[E ->]|Hother].
  { by apply Hsweep. }
  destruct Hl as [Hpos _].
  apply (class_count_mono w w' c' bm bm' (proj1 Hwf) (proj1 Hwf') Hc Hc').
  - intros x tx' Hx Hp He. destruct (Hold x tx' Hx) as (tz & Hz & Hst & Hne & Heq).
    destruct Hst as (_ & _ & _ & _ & Hpz).
    exists tz. split; [done|]. split; [congruence|].
    destruct (decide (x = a)) as [->|Hxa].
    + exfalso. destruct (Heq eq_refl) as [Hi _]. unfold tm_empty in He.
      assert (tz = tm) as -> by congruence. apply Hother. split; [lia|congruence].
    + by apply (tm_empty_same tz tx' (Hne Hxa)).
  - intros x tx Hx Hp Hne.
    assert (His : is_Some (pools w' !! x)).
    { destruct (decide (x = a)) as [->|Hxa]; [|by apply (Hkeep x tx)].
      assert (tx = tm) as -> by congruence.
      apply not_eq_None_Some. rewrite Hdom, Ha; [done|]. intros E. apply Hother. done. }
    destruct His as [tx' Hx'].
    destruct (Hold x tx' Hx') as (tz & Hz & Hst & Hsame & Heq).
    assert (tz = tx) as -> by congruence.
    destruct Hst as (_ & _ & _ & _ & Hpz).
    exists tx'. split; [done|]. split; [congruence|].
    destruct (decide (x = a)) as [->|Hxa].
    + assert (tx = tm) as -> by congruence. destruct (Heq eq_refl) as [Hi _].
      unfold tm_empty. intros E0. apply Hother. split; [lia|congruence].
    + by rewrite (tm_empty_same tx tx' (Hsame Hxa)).
  - by destruct (Hcalm c' bm Hc).
Qed.

(** ** The manager: from a pointer to its pool *)

Lemma largest_below_equal_spec (keys : list Z) (q : Z) :
  0 ≤ largest_below_equal keys q
  ∧ (largest_below_equal keys q = 0
     ∨ (largest_below_equal keys q ∈ keys ∧ largest_below_equal keys q ≤ q))
  ∧ ∀ k, k ∈ keys → k ≤ q → k ≤ largest_below_equal keys q.
Proof.
  unfold largest_below_equal. induction keys as [|k keys (IH1 & IH2 & IH3)]; cbn [foldr].
  - split; [done|]. split; [by left|]. intros k Hk. by apply elem_of_nil in Hk.
  - set (acc := foldr _ 0 keys) in *.
    destruct ((k <=? q) && (acc <? k)) eqn:E.
    + apply andb_true_iff in E as [E1 E2]. apply Z.leb_le in E1. apply Z.ltb_lt in E2.
      split; [lia|]. split; [right; split; [by left|done]|].
      intros k0 [->|Hin]%elem_of_cons Hq; [lia|]. specialize (IH3 k0 Hin Hq). lia.
    + split; [done|]. split.
      { destruct IH2 as [?|[? ?]]; [by left|right]. split; [by right|done]. }
      intros k0 [->|Hin]%elem_of_cons Hq; [|by apply IH3].
      apply andb_false_iff in E as [E|E]; [apply Z.leb_gt in E|apply Z.ltb_ge in E]; lia.
Qed.

Lemma tree_pool_live (w : tbman_s) (a : Z) (tm : token_manager_s) (p : Z) :
  wf_core w → pools w !! a = Some tm → tm_live a tm p →
  tree_pool p w = Ok (a, set_trace (λ l, l ++ [EvVdQuery p]) w).
Proof.
  intros Hwf Ha Hl. destruct (pool_range w a tm p Hwf Ha Hl) as [Hr HP].
  destruct (wf_pool w Hwf a tm Ha) as (Hok & _).
  pose proof (tm_ok_addr _ _ Hok) as Ha0. pose proof (tm_ok_top _ _ Hok) as Htop.
  assert (Hin : a ∈ internal_btree w) by (apply (wf_tree w Hwf); eauto).
  destruct (largest_below_equal_spec (internal_btree w) p) as (H0 & Hmem & Hmax).
  specialize (Hmax a Hin ltac:(lia)).
  destruct Hmem as [E|[Hrin Hrp]]; [lia|].
  assert (Hra : largest_below_equal (internal_btree w) p = a).
  { destruct (decide (largest_below_equal (internal_btree w) p = a)) as [|Hne]; [done|].
    exfalso. destruct (wf_apart w Hwf _ a Hrin Hin Hne); lia. }
  unfold tree_pool, btree_vd_s_largest_below_equal.
  eapply bind_intro. { mstep. mstep. reflexivity. }
  cbv beta. mstep. proj_simpl. rewrite Hra.
  replace (a =? 0) with false by (symmetry; apply Z.eqb_neq; lia).
  replace (size_t (p - a) <? pool_size w) with true; [done|].
  symmetry. apply Z.ltb_lt. rewrite size_t_small; [lia|].
  destruct (wf_pool w Hwf a tm Ha) as (_ & HP' & _). rewrite HP' in Htop. lia.
Qed.

Lemma tree_pool_external (w : tbman_s) (q sz : Z) :
  wf_core w → (q, sz) ∈ external_btree w →
  tree_pool q w = Ok (0, set_trace (λ l, l ++ [EvVdQuery q]) w).
Proof.
  intros Hwf Hq. destruct (wf_ext w Hwf q sz Hq) as (H1 & H2 & H3).
  pose proof (wf_top w Hwf q sz Hq) as Htop.
  destruct (largest_below_equal_spec (internal_btree w) q) as (H0 & Hmem & Hmax).
  unfold tree_pool, btree_vd_s_largest_below_equal.
  eapply bind_intro. { mstep. mstep. reflexivity. }
  cbv beta. mstep. proj_simpl.
  destruct Hmem as [->|[Hrin Hrq]]; [done|].
  set (r := largest_below_equal (internal_btree w) q) in *.
  destruct (r =? 0) eqn:E; [done|]. apply Z.eqb_neq in E.
  replace (size_t (q - r) <? pool_size w) with false; [done|].
  symmetry. apply Z.ltb_ge. rewrite size_t_small by lia.
  destruct (H3 r Hrin); lia.
Qed.

Lemma mask_pool_eq (w : tbman_s) (k p : Z) :
  0 ≤ k → pool_size w = 2 ^ k → mask_pool w p = p - p mod pool_size w.
Proof.
  intros Hk HP. unfold mask_pool. rewrite HP.
  replace (2 ^ k - 1) with (Z.ones k) by (rewrite Z.ones_equiv; lia).
  rewrite <- Z.ldiff_land, Z.ldiff_ones_r by done.
  rewrite Z.shiftr_div_pow2, Z.shiftl_mul_pow2 by done.
  pose proof (Z.div_mod p (2 ^ k)). assert (0 < 2 ^ k) by (by apply Z.pow_pos_nonneg).
  lia.
Qed.

Lemma pool_aligned (w : tbman_s) (a : Z) (tm : token_manager_s) :
  wf_core w → aligned w = true → pools w !! a = Some tm → a mod pool_size w = 0.
Proof.
  intros Hwf Hal Ha.
  destruct (wf_pool w Hwf a tm Ha) as (Hok & HP & bm & Hc & Hk & _).
  assert (Hbal : bm_aligned bm = true).
  { rewrite (wf_aligned w Hwf) in Hal. rewrite forallb_forall in Hal.
    apply Hal. apply list_elem_of_In. by eapply list_elem_of_lookup_2. }
  assert (Htal : tm_aligned tm = true).
  { apply (wf_bm_aligned w Hwf _ bm a tm Hc Hbal); [|done]. by eapply list_elem_of_lookup_2. }
  rewrite (tm_ok_aligned _ _ Hok) in Htal. apply Z.eqb_eq in Htal.
  destruct (tm_ok_pow2 _ _ Hok) as (k & Hk' & Hpow).
  rewrite <- HP, Hpow. rewrite Hpow in Htal.
  assert (0 < 2 ^ k) by (apply Z.pow_pos_nonneg; lia).
  assert (2 ^ k < 2 ^ 64) by (apply Z.pow_lt_mono_r; lia).
  rewrite size_t_small in Htal by lia.
  replace (2 ^ k - 1) with (Z.ones k) in Htal by (rewrite Z.ones_equiv; lia).
  rewrite Z.land_ones in Htal by lia. done.
Qed.

Lemma mask_pool_live (w : tbman_s) (a : Z) (tm : token_manager_s) (p : Z) :
  wf_core w → aligned w = true → pools w !! a = Some tm → tm_live a tm p →
  mask_pool w p = a.
Proof.
  intros Hwf Hal Ha Hl. pose proof (pool_aligned w a tm Hwf Hal Ha) as Hmod.
  destruct (pool_range w a tm p Hwf Ha Hl) as [Hr HP].
  destruct (wf_pool w Hwf a tm Ha) as (Hok & HP' & _).
  destruct (tm_ok_pow2 _ _ Hok) as (k & Hk & Hpow). rewrite HP' in Hpow.
  rewrite (mask_pool_eq w k p) by (done || lia).
  assert (Hp : p mod pool_size w = p - a); [|lia].
  replace p with ((p - a) + a) at 1 by lia.
  rewrite Z.add_mod, Hmod, Z.add_0_r, Z.mod_mod by lia.
  apply Z.mod_small. lia.
Qed.

Lemma mask_pool_range (w : tbman_s) (k p : Z) :
  0 ≤ k → pool_size w = 2 ^ k → mask_pool w p ≤ p < mask_pool w p + pool_size w.
Proof.
  intros Hk HP. rewrite (mask_pool_eq w k p) by done.
  assert (0 < pool_size w) by (rewrite HP; by apply Z.pow_pos_nonneg).
  pose proof (Z.mod_pos_bound p (pool_size w)). lia.
Qed.

(** On the fast path, an external pointer is not taken for a block of a
    pool. *)
Lemma mask_pool_external (w : tbman_s) (q sz : Z) :
  wf_core w → (q, sz) ∈ external_btree w → pools w !! mask_pool w q = None.
Proof.
  intros Hwf Hq. destruct (pools w !! mask_pool w q) as [tb|] eqn:E; [|done]. exfalso.
  destruct (wf_pool w Hwf _ tb E) as (Hok & HP & _).
  destruct (tm_ok_pow2 _ _ Hok) as (k & Hk & Hpow). rewrite HP in Hpow.
  apply (external_not_in_pool w q sz _ tb Hwf Hq E).
  apply (mask_pool_range w k); [lia|done].
Qed.

(** ** The manager: [mem_alloc], [mem_free], [mem_realloc] *)

Lemma same_config_refl (w : tbman_s) : same_config w w.
Proof. by repeat split. Qed.

Lemma same_config_trans (w1 w2 w3 : tbman_s) :
  same_config w1 w2 → same_config w2 w3 → same_config w1 w3.
Proof. unfold same_config. intros. destruct_and!. repeat split; congruence. Qed.

Lemma same_fixed_config (w w' : tbman_s) : same_fixed w w' → same_config w w'.
Proof. unfold same_fixed, same_config. intros. destruct_and!. by repeat split. Qed.

Lemma ps_val_None (t : list (Z * Z)) (key : Z) :
  ps_val t key = None ↔ ∀ sz, (key, sz) ∉ t.
Proof.
  unfold ps_val. destruct (list_find _ t) as [[i [k v]]|] eqn:E; cbn.
  - split; [done|]. intros H. exfalso.
    apply list_find_Some in E as (Hi & Hk & _). cbn in Hk. subst k.
    apply (H v). by eapply list_elem_of_lookup_2.
  - split; [|done]. intros _ sz Hin.
    apply list_find_None in E. rewrite Forall_forall in E. by apply (E _ Hin).
Qed.

Lemma ps_val_Some (t : list (Z * Z)) (key sz : Z) :
  ps_val t key = Some sz → (key, sz) ∈ t.
Proof.
  unfold ps_val. destruct (list_find _ t) as [[i [k v]]|] eqn:E; cbn; [|done].
  intros [= <-]. apply list_find_Some in E as (Hi & Hk & _). cbn in Hk. subst k.
  by eapply list_elem_of_lookup_2.
Qed.

Lemma btree_ps_s_set_Ok (key val : Z) (w : tbman_s) (r : Z) (w' : tbman_s) :
  btree_ps_s_set key val w = Ok (r, w') → r = 1 →
  w' = set_external_btree (λ t, (key, val) :: t)
         (set_trace (λ l, l ++ [EvPsSet key val]) w).
Proof.
  intros H Hr. unfold btree_ps_s_set in H. minv H.
  - proj_simpl in E. done.
  - done.
Qed.

Lemma btree_ps_s_remove_Ok (key : Z) (w : tbman_s) (r : Z) (w' : tbman_s) :
  btree_ps_s_remove key w = Ok (r, w') → r = 1 →
  w' = set_external_btree (λ t, filter (λ kv, fst kv ≠ key) t)
         (set_trace (λ l, l ++ [EvPsRemove key]) w).
Proof.
  intros H Hr. unfold btree_ps_s_remove in H. minv H; done.
Qed.

Lemma btree_ps_s_remove_present (key sz : Z) (w : tbman_s) :
  (key, sz) ∈ external_btree w →
  btree_ps_s_remove key w
  = Ok (1, set_external_btree (λ t, filter (λ kv, fst kv ≠ key) t)
             (set_trace (λ l, l ++ [EvPsRemove key]) w)).
Proof.
  intros Hin. unfold btree_ps_s_remove. mstep. mstep. proj_simpl.
  destruct (ps_val (external_btree w) key) eqn:E.
  - mstep. reflexivity.
  - exfalso. by apply (proj1 (ps_val_None _ _) E sz).
Qed.

(** The external blocks change; the pools do not. *)
Lemma wf_ext_change (w w' : tbman_s) :
  wf w → data w' = data w → pool_size w' = pool_size w → aligned w' = aligned w →
  block_size_array w' = block_size_array w → internal_btree w' = internal_btree w →
  pools w' = pools w →
  (∀ q sz, (q, sz) ∈ external_btree w' →
     (q, sz) ∈ external_btree w
     ∨ (0 < q ∧ 0 < sz ∧ q + sz ≤ 2 ^ 64 ∧ region_free w q sz = true)) →
  wf w'.
Proof.
  intros [[] Hpart] Hd Hps Hal Hbsa Htree Hpools Hext.
  split; [split|]; rewrite ?Hd, ?Hps, ?Hal, ?Hbsa, ?Htree, ?Hpools; try done.
  - intros q sz Hq. destruct (Hext q sz Hq) as [Hold|(H1 & H2 & H3 & Hfree)]; [auto|].
    split; [done|]. split; [done|]. intros b Hb.
    apply region_free_spec in Hfree as [Hf _]. destruct (Hf b Hb); lia.
  - intros q sz Hq. destruct (Hext q sz Hq) as [Hold|(H1 & H2 & H3 & Hfree)]; [auto|done].
Qed.

Lemma _aligned_malloc_Ok (sys alignment size : Z) (w : tbman_s) (p : Z) (w' : tbman_s) :
  _aligned_malloc sys alignment size w = Ok (p, w') → p ≠ 0 →
  w' = w ∧ p = sys ∧ 0 < p ∧ p + size ≤ 2 ^ 64 ∧ region_free w p size = true.
Proof.
  unfold _aligned_malloc. intros H Hp. destruct (sys =? 0); [by simplify_eq|].
  destruct ((0 <? sys) && (sys + size <=? 2 ^ 64) && region_free w sys size) eqn:E;
    [|done].
  injection H as <- <-.
  apply andb_true_iff in E as [E E3]. apply andb_true_iff in E as [E1 E2].
  apply Z.ltb_lt in E1. apply Z.leb_le in E2. done.
Qed.

Lemma find_block_manager_Some (w : tbman_s) (n : Z) (c : nat) :
  find_block_manager w n = Some c →
  ∃ b, block_size_array w !! c = Some b ∧ n ≤ b
       ∧ ∀ j y, block_size_array w !! j = Some y → (j < c)%nat → y < n.
Proof.
  unfold find_block_manager. destruct (list_find _ _) as [[i b]|] eqn:E; [|done].
  cbn. intros [= <-]. apply list_find_Some in E as (Hi & Hb & Hmin).
  exists b. split; [done|]. split; [done|]. intros j y Hj Hlt.
  specialize (Hmin j y Hj Hlt). lia.
Qed.


Lemma tbman_s_mem_alloc_wf (sys n : Z) (w : tbman_s) (p g : Z) (w' : tbman_s) :
  wf w → 0 < n → tbman_s_mem_alloc sys n w = Ok ((p, g), w') →
  wf w' ∧ same_config w w'
  ∧ (aligned w' = true → aligned w = true)
  ∧ (∀ a1 tm1, pools w !! a1 = Some tm1 →
       ∃ tm1', pools w' !! a1 = Some tm1' ∧ tm_same_static tm1 tm1'
               ∧ ∀ q, tm_live a1 tm1 q → tm_live a1 tm1' q)
  ∧ (∀ q sz, (q, sz) ∈ external_btree w → (q, sz) ∈ external_btree w')
  ∧ ¬ valid_ptr w p
  ∧ match find_block_manager w n with
    | Some c => external_btree w' = external_btree w
                ∧ block_size_array w !! c = Some g
                ∧ ∃ a tm, pools w' !! a = Some tm ∧ tm_parent tm = c ∧ tm_live a tm p
    | None => g = n ∧ external_btree w' = (p, n) :: external_btree w
              ∧ pools w' = pools w ∧ data w' = data w ∧ 0 < p
              ∧ aligned w' = aligned w
              ∧ trace w' = trace w ++ [EvPsSet p n]
              ∧ region_free w p n = true
    end.
Proof.
  intros Hwf Hn H. unfold tbman_s_mem_alloc in H.
  apply bind_Ok in H as (o & w0 & Hget & H). unfold get in Hget. injection Hget as <- <-.
  destruct (find_block_manager w n) as [c|] eqn:Hfind.
  - apply bind_Ok in H as (rp & w1 & Halloc & H).
    apply bind_Ok in H as (bm & ? & Hget & H).
    apply get_bm_Ok in Hget as [Hc ->]. unfold ret in H. injection H as <- <- <-.
    destruct (block_manager_s_alloc_wf sys c w rp w1 Hwf Halloc)
      as (Hwf1 & Hfix & Hlive & _ & Hlatch & Hkeep & Hfresh & _).
    split; [done|]. split; [by apply same_fixed_config|]. split; [done|].
    split; [done|].
    destruct Hfix as (_ & _ & _ & Hbsa & Hext & _).
    split; [by rewrite Hext|]. split; [done|]. split; [done|]. split; [|done].
    rewrite <- Hbsa, (wf_bsa w1 (proj1 Hwf1)), list_lookup_fmap, Hc. done.
  - apply bind_Ok in H as (rp & w1 & Hm & H).
    destruct (rp =? 0) eqn:Hrp; [done|]. apply Z.eqb_neq in Hrp.
    apply _aligned_malloc_Ok in Hm as (-> & _ & Hpos & Htop & Hfree); [|done].
    apply bind_Ok in H as (r & w2 & Hset & H).
    destruct (negb (r =? 1)) eqn:Hr; [done|]. apply negb_false_iff, Z.eqb_eq in Hr.
    apply btree_ps_s_set_Ok in Hset; [|done]. subst w2.
    unfold ret in H. injection H as <- <- <-.
    split.
    { apply (wf_ext_change w); try done. intros q sz Hq. proj_simpl in Hq.
      apply elem_of_cons in Hq as [[= -> ->]|Hq]; [right|by left]. done. }
    split; [by repeat split|]. split; [done|].
    split. { intros a1 tm1 Ha1. exists tm1. split; [done|].
             split; [apply tm_same_static_refl|done]. }
    split. { intros q sz Hq. proj_simpl. by right. }
    split.
    { pose proof Hfree as Hfree'. apply region_free_spec in Hfree' as [Hf1 Hf2].
      intros [(a1 & tm1 & Ha1 & Hl)|(sz & Hq)].
      - destruct (pool_range w a1 tm1 rp (proj1 Hwf) Ha1 Hl) as [Hrg _].
        destruct (Hf1 a1); [apply (wf_tree w (proj1 Hwf)); eauto|lia|lia].
      - destruct (wf_ext w (proj1 Hwf) rp sz Hq) as (_ & Hsz & _).
        destruct (Hf2 rp sz Hq); lia. }
    by repeat split.
Qed.

Lemma token_manager_s_free_deref (a p : Z) (w : tbman_s) (r : unit * tbman_s) :
  token_manager_s_free a p w = Ok r → is_Some (pools w !! a).
Proof.
  unfold token_manager_s_free. intros H. apply bind_Ok in H as (tm & w0 & Hd & _).
  apply deref_Ok in Hd as [Hd _]. eauto.
Qed.

Lemma wf_trace (w : tbman_s) (f : list event → list event) : wf w → wf (set_trace f w).
Proof. intros Hwf. apply (wf_same w); [by repeat split|done]. Qed.

Lemma use_fast_path_aligned (w : tbman_s) (cs : option Z) :
  use_fast_path w cs = true → aligned w = true.
Proof.
  unfold use_fast_path. destruct cs; [|done]. by intros [_ ?]%andb_true_iff.
Qed.

(** The external block at [p] is released. *)
Lemma external_remove_wf (w w' : tbman_s) (p : Z) :
  wf w → data w' = data w → pool_size w' = pool_size w → aligned w' = aligned w →
  block_size_array w' = block_size_array w → internal_btree w' = internal_btree w →
  pools w' = pools w →
  external_btree w' = filter (λ kv, fst kv ≠ p) (external_btree w) →
  wf w'.
Proof.
  intros Hwf Hd Hps Hal Hbsa Htree Hpools Hext. apply (wf_ext_change w); try done.
  intros q sz Hq. rewrite Hext in Hq. apply list_elem_of_filter in Hq as [_ Hq]. by left.
Qed.

Lemma tbman_s_mem_free_wf (p : Z) (cs : option Z) (w w' : tbman_s) :
  wf w → valid_ptr w p → tbman_s_mem_free p cs w = Ok (tt, w') →
  wf w' ∧ same_config w w' ∧ aligned w' = aligned w.
Proof.
  intros Hwf Hv H. unfold tbman_s_mem_free in H.
  apply bind_Ok in H as (o & w0 & Hget & H). injection Hget as <- <-.
  destruct (use_fast_path w cs) eqn:Hfast.
  - apply use_fast_path_aligned in Hfast as Hal.
    destruct Hv as [(a & tm & Ha & Hl)|(sz & Hq)].
    + rewrite (mask_pool_live w a tm p (proj1 Hwf) Hal Ha Hl) in H.
      destruct (token_manager_s_free_wf a p w tm Hwf Ha Hl)
        as (w2 & post & Hrun & Hwf2 & Hfix & Hal2 & _).
      rewrite Hrun in H. injection H as <-.
      split; [done|]. split; [by apply same_fixed_config|done].
    + exfalso. apply token_manager_s_free_deref in H as [? H].
      rewrite (mask_pool_external w p sz (proj1 Hwf) Hq) in H. done.
  - apply bind_Ok in H as (x & w1 & Htree & H).
    set (wq := set_trace (λ l, l ++ [EvVdQuery p]) w) in *.
    assert (Hwfq : wf wq) by (by apply wf_trace).
    destruct Hv as [(a & tm & Ha & Hl)|(sz & Hq)].
    + rewrite (tree_pool_live w a tm p (proj1 Hwf) Ha Hl) in Htree.
      injection Htree as <- <-. fold wq in H.
      destruct (wf_pool w (proj1 Hwf) a tm Ha) as (Hok & _).
      replace (a =? 0) with false in H
        by (symmetry; apply Z.eqb_neq; pose proof (tm_ok_addr _ _ Hok); lia).
      cbn [negb] in H.
      destruct (token_manager_s_free_wf a p wq tm Hwfq Ha Hl)
        as (w2 & post & Hrun & Hwf2 & Hfix & Hal2 & _).
      rewrite Hrun in H. injection H as <-.
      split; [done|]. split; [|done].
      apply same_fixed_config in Hfix. eapply same_config_trans; [|exact Hfix].
      by repeat split.
    + rewrite (tree_pool_external w p sz (proj1 Hwf) Hq) in Htree.
      injection Htree as <- <-. fold wq in H. cbn [negb Z.eqb] in H.
      apply bind_Ok in H as (r & w2 & Hrem & H).
      rewrite (btree_ps_s_remove_present p sz wq Hq) in Hrem. injection Hrem as <- <-.
      cbn [negb Z.eqb Pos.eqb] in H. unfold platform_free, emit, modify in H.
      injection H as <-.
      split; [|by repeat split].
      apply wf_trace. by apply (external_remove_wf wq _ p).
Qed.

(** After an allocation, the block [p] of the pool at [a] is freed. *)
Lemma free_after_alloc (a p : Z) (w w1 w2 : tbman_s) (tm : token_manager_s) :
  wf w1 → pools w !! a = Some tm → tm_live a tm p →
  (∀ a1 tm1, pools w !! a1 = Some tm1 →
     ∃ tm1', pools w1 !! a1 = Some tm1' ∧ tm_same_static tm1 tm1'
             ∧ ∀ q, tm_live a1 tm1 q → tm_live a1 tm1' q) →
  token_manager_s_free a p w1 = Ok (tt, w2) →
  wf w2 ∧ same_config w1 w2 ∧ aligned w2 = aligned w1.
Proof.
  intros Hwf1 Ha Hl Hkeep H.
  destruct (Hkeep a tm Ha) as (tm1 & Ha1 & _ & Hl1).
  destruct (token_manager_s_free_wf a p w1 tm1 Hwf1 Ha1 (Hl1 p Hl))
    as (w2' & post & Hrun & Hwf2 & Hfix & Hal2 & _).
  rewrite Hrun in H. injection H as <-.
  split; [done|]. split; [by apply same_fixed_config|done].
Qed.

Lemma tbman_s_mem_realloc_wf (sys p : Z) (cs : option Z) (n : Z) (w : tbman_s)
    (r g : Z) (w' : tbman_s) :
  wf w → valid_ptr w p → 0 < n →
  tbman_s_mem_realloc sys p cs n w = Ok ((r, g), w') →
  wf w' ∧ same_config w w' ∧ (aligned w' = true → aligned w = true).
Proof.
  intros Hwf Hv Hn H. unfold tbman_s_mem_realloc in H.
  apply bind_Ok in H as (o & w00 & Hget & H). injection Hget as <- <-.
  apply bind_Ok in H as (x & w0 & Hx & H).
  assert (Hcase : same_core w w0 ∧ mutex w0 = mutex w
            ∧ ((∃ tm, pools w !! x = Some tm ∧ tm_live x tm p)
               ∨ (x = 0 ∧ ∃ sz, (p, sz) ∈ external_btree w)
               ∨ (x ≠ 0 ∧ pools w !! x = None))).
  { destruct (use_fast_path w cs) eqn:Hfast.
    - injection Hx as <- <-. apply use_fast_path_aligned in Hfast as Hal.
      split; [apply same_core_refl|]. split; [done|].
      destruct Hv as [(a & tm & Ha & Hl)|(sz & Hq)].
      + left. rewrite (mask_pool_live w a tm p (proj1 Hwf) Hal Ha Hl). eauto.
      + destruct (decide (mask_pool w p = 0)) as [E|E]; [right; left; eauto|].
        right. right. split; [done|]. by apply (mask_pool_external w p sz (proj1 Hwf)).
    - destruct Hv as [(a & tm & Ha & Hl)|(sz & Hq)].
      + rewrite (tree_pool_live w a tm p (proj1 Hwf) Ha Hl) in Hx. injection Hx as <- <-.
        split; [by repeat split|]. split; [done|]. left. eauto.
      + rewrite (tree_pool_external w p sz (proj1 Hwf) Hq) in Hx. injection Hx as <- <-.
        split; [by repeat split|]. split; [done|]. right. left. eauto. }
  destruct Hcase as (Hsame & Hmu & Hcase).
  assert (Hwf0 : wf w0) by (by apply (wf_same w)).
  assert (Hcfg0 : same_config w w0).
  { destruct Hsame as (_ & ? & ? & ? & _ & ? & _). by repeat split. }
  pose proof Hsame as (Hd0 & Hps0 & Hmin0 & Hmax0 & Hal0 & Hbsa0 & Htree0 & Hext0 & Hpools0).
  destruct Hcase as [(tm & Ha & Hl)|[(-> & sz & Hq)|[Hx0 Hnone]]].
  - destruct (wf_pool w (proj1 Hwf) x tm Ha) as (Hok & _).
    replace (x =? 0) with false in H
      by (symmetry; apply Z.eqb_neq; pose proof (tm_ok_addr _ _ Hok); lia).
    cbn [negb] in H. apply bind_Ok in H as (tm0 & ? & Hd & H).
    apply deref_Ok in Hd as [Hd ->]. rewrite Hpools0 in Hd.
    assert (tm0 = tm) as -> by congruence.
    rewrite <- Hpools0 in Ha.
    destruct (tm_block_size tm <? n) eqn:Hgrow.
    + apply bind_Ok in H as ([r1 g1] & w1 & Halloc & H).
      apply bind_Ok in H as ([] & w2 & Hfree & H). injection H as <- <- <-.
      destruct (tbman_s_mem_alloc_wf sys n w0 r1 g1 w1 Hwf0 Hn Halloc)
        as (Hwf1 & Hcfg1 & Hlatch1 & Hkeep1 & _).
      destruct (free_after_alloc x p w0 w1 w2 tm Hwf1 Ha Hl Hkeep1 Hfree)
        as (Hwf2 & Hcfg2 & Hal2).
      split; [done|].
      split; [eapply same_config_trans; [exact Hcfg0|];
              eapply same_config_trans; [exact Hcfg1|exact Hcfg2]|].
      intros E. rewrite Hal2 in E. apply Hlatch1 in E. congruence.
    + destruct (find_block_manager w n) as [c|]; [|done].
      apply bind_Ok in H as (bm & ? & Hget & H). apply get_bm_Ok in Hget as [Hc ->].
      destruct (negb (bm_block_size bm =? tm_block_size tm)).
      * apply bind_Ok in H as (r1 & w1 & Halloc & H).
        apply bind_Ok in H as ([] & w2 & Hfree & H). injection H as <- <- <-.
        destruct (block_manager_s_alloc_wf sys c w0 r1 w1 Hwf0 Halloc)
          as (Hwf1 & Hfix1 & _ & _ & Hlatch1 & Hkeep1 & _).
        destruct (free_after_alloc x p w0 w1 w2 tm Hwf1 Ha Hl Hkeep1 Hfree)
          as (Hwf2 & Hcfg2 & Hal2).
        split; [done|].
        split; [eapply same_config_trans; [exact Hcfg0|];
                eapply same_config_trans; [apply same_fixed_config, Hfix1|exact Hcfg2]|].
        intros E. rewrite Hal2 in E. apply Hlatch1 in E. congruence.
      * injection H as <- <- <-. split; [done|]. split; [done|]. congruence.
  - cbn [negb Z.eqb] in H. rewrite <- Hext0 in Hq.
    destruct (n <=? max_block_size w).
    + apply bind_Ok in H as ([r1 g1] & w1 & Halloc & H).
      destruct (tbman_s_mem_alloc_wf sys n w0 r1 g1 w1 Hwf0 Hn Halloc)
        as (Hwf1 & Hcfg1 & Hlatch1 & _ & Hextk & _).
      apply bind_Ok in H as (r2 & w2 & Hrem & H).
      rewrite (btree_ps_s_remove_present p sz w1 (Hextk p sz Hq)) in Hrem.
      injection Hrem as <- <-. cbn [negb Z.eqb Pos.eqb] in H.
      apply bind_Ok in H as ([] & w3 & Hpf & H). injection H as <- <- <-.
      unfold platform_free, emit, modify in Hpf. injection Hpf as <-.
      split. { apply wf_trace.
               apply (external_remove_wf (set_trace (λ l, l ++ [EvPsRemove p]) w1) _ p);
                 [by apply wf_trace|done..]. }
      split. { eapply same_config_trans; [exact Hcfg0|].
               eapply same_config_trans; [exact Hcfg1|]. by repeat split. }
      intros E. proj_simpl in E. apply Hlatch1 in E. congruence.
    + apply bind_Ok in H as (v & w1 & Hval & H).
      unfold btree_ps_s_val in Hval. minv Hval.
      destruct (ps_val _ p) as [cur|] eqn:Hcur in H; [|done].
      destruct ((n <? cur) && (Z.shiftr cur 1 <=? n)).
      * injection H as <- <- <-. split; [by apply wf_trace|].
        split. { eapply same_config_trans; [exact Hcfg0|]. by repeat split. }
        proj_simpl. congruence.
      * apply bind_Ok in H as (rp & w2 & Hm & H).
        destruct (rp =? 0) eqn:Hrp; [done|]. apply Z.eqb_neq in Hrp.
        apply _aligned_malloc_Ok in Hm as (-> & _ & Hpos & Htop & Hfree); [|done].
        apply bind_Ok in H as (r1 & w3 & Hset & H).
        destruct (negb (r1 =? 1)) eqn:Hr1; [done|].
        apply negb_false_iff, Z.eqb_eq in Hr1.
        apply btree_ps_s_set_Ok in Hset; [|done]. subst w3.
        apply bind_Ok in H as (r2 & w4 & Hrem & H).
        destruct (negb (r2 =? 1)) eqn:Hr2; [done|].
        apply negb_false_iff, Z.eqb_eq in Hr2.
        apply btree_ps_s_remove_Ok in Hrem; [|done]. subst w4.
        apply bind_Ok in H as ([] & w5 & Hpf & H). injection H as <- <- <-.
        unfold platform_free, emit, modify in Hpf. injection Hpf as <-.
        split.
        { apply (wf_ext_change w0); try done. intros q sq Hin. proj_simpl in Hin.
          apply list_elem_of_filter in Hin as [_ Hin].
          apply elem_of_cons in Hin as [[= -> ->]|Hin]; [right|by left].
          split; [done|]. split; [lia|]. split; [done|]. exact Hfree. }
        split. { eapply same_config_trans; [exact Hcfg0|]. by repeat split. }
        proj_simpl. congruence.
  - exfalso. replace (x =? 0) with false in H by (symmetry; by apply Z.eqb_neq).
    cbn [negb] in H. apply bind_Ok in H as (tm0 & ? & Hd & H).
    apply deref_Ok in Hd as [Hd ->]. rewrite Hpools0 in Hd. congruence.
Qed.

(** ** The manager: the public entry points *)

Lemma read_only_ret {A} (a : A) : read_only (ret a).
Proof. intros w a' w' [= <- <-]. split; [apply same_core_refl|done]. Qed.

Lemma read_only_fail {A} (e : error) : read_only (@fail A e).
Proof. intros w a w' H. done. Qed.

Lemma read_only_bind {A B} (m : M A) (f : A → M B) :
  read_only m → (∀ a, read_only (f a)) → read_only (bind m f).
Proof.
  intros Hm Hf w b w' H. apply bind_Ok in H as (a & w1 & H1 & H2).
  destruct (Hm w a w1 H1) as [Hs1 Hm1]. destruct (Hf a w1 b w' H2) as [Hs2 Hm2].
  split; [by eapply same_core_trans|congruence].
Qed.

Lemma read_only_emit (e : event) : read_only (emit e).
Proof. intros w a w' [= <- <-]. by repeat split. Qed.

Lemma read_only_get : read_only get.
Proof. intros w a w' [= <- <-]. split; [apply same_core_refl|done]. Qed.

Lemma read_only_deref (o : Z) : read_only (deref o).
Proof.
  intros w a w' H. apply deref_Ok in H as [_ ->]. split; [apply same_core_refl|done].
Qed.

Lemma read_only_get_bm (c : nat) : read_only (get_bm c).
Proof.
  intros w a w' H. apply get_bm_Ok in H as [_ ->]. split; [apply same_core_refl|done].
Qed.

Lemma read_only_read_token (tm : token_manager_s) (i : Z) : read_only (read_token tm i).
Proof.
  intros w a w' H. apply read_token_Ok in H as [_ ->]. split; [apply same_core_refl|done].
Qed.

Lemma read_only_sum_over {A} (f : A → M Z) (l : list A) :
  (∀ x, read_only (f x)) → ∀ s, read_only (sum_over f l s).
Proof.
  intros Hf. induction l as [|x l IH]; intros s; cbn [sum_over].
  - apply read_only_ret.
  - apply read_only_bind; [apply Hf|]. intros v. apply IH.
Qed.

Lemma read_only_collect_over {A B} (f : A → M (list B)) (l : list A) :
  (∀ x, read_only (f x)) → read_only (collect_over f l).
Proof.
  intros Hf. induction l as [|x l IH]; cbn [collect_over].
  - apply read_only_ret.
  - apply read_only_bind; [apply Hf|]. intros v.
    apply read_only_bind; [apply IH|]. intros vs. apply read_only_ret.
Qed.

Lemma read_only_tree_pool (p : Z) : read_only (tree_pool p).
Proof.
  unfold tree_pool, btree_vd_s_largest_below_equal.
  repeat (apply read_only_bind; [|intros ?]);
    try apply read_only_emit; try apply read_only_get; try apply read_only_ret.
  destruct (_ && _); apply read_only_ret.
Qed.

Lemma read_only_btree_ps_s_val (key : Z) : read_only (btree_ps_s_val key).
Proof.
  unfold btree_ps_s_val.
  repeat (apply read_only_bind; [|intros ?]);
    try apply read_only_emit; try apply read_only_get; try apply read_only_ret.
Qed.

Lemma read_only_granted_space (p : Z) : read_only (tbman_s_granted_space p).
Proof.
  unfold tbman_s_granted_space. apply read_only_bind; [apply read_only_tree_pool|].
  intros x. destruct (negb (x =? 0)).
  - apply read_only_bind; [apply read_only_deref|]. intros tm. apply read_only_ret.
  - apply read_only_bind; [apply read_only_btree_ps_s_val|].
    intros [s|]; apply read_only_ret.
Qed.

Lemma read_only_total_alloc : read_only tbman_s_total_alloc.
Proof.
  unfold tbman_s_total_alloc, tbman_s_external_total_alloc, btree_ps_s_sum,
    tbman_s_internal_total_alloc.
  repeat (apply read_only_bind; [|intros ?]);
    try apply read_only_emit; try apply read_only_get; try apply read_only_ret.
  apply read_only_sum_over. intros c. unfold block_manager_s_total_alloc.
  apply read_only_bind; [apply read_only_get_bm|]. intros bm.
  apply read_only_sum_over. intros o. unfold token_manager_s_total_alloc.
  apply read_only_bind; [apply read_only_deref|]. intros tm. apply read_only_ret.
Qed.

Lemma read_only_total_instances :
  read_only (let* e := tbman_s_external_total_instances in
             let* i := tbman_s_internal_total_instances in
             ret (size_t (size_t (0 + e) + i))).
Proof.
  unfold tbman_s_external_total_instances, btree_ps_s_run,
    tbman_s_internal_total_instances.
  repeat (apply read_only_bind; [|intros ?]);
    try apply read_only_emit; try apply read_only_get; try apply read_only_ret.
  apply read_only_sum_over. intros c. unfold block_manager_s_total_instances.
  apply read_only_bind; [apply read_only_get_bm|]. intros bm.
  apply read_only_sum_over. intros o. unfold token_manager_s_total_instances.
  apply read_only_bind; [apply read_only_deref|]. intros tm. apply read_only_ret.
Qed.

Lemma read_only_for_each :
  read_only (let* e := tbman_s_external_for_each_instance in
             let* i := tbman_s_internal_for_each_instance in
             ret (e ++ i)).
Proof.
  unfold tbman_s_external_for_each_instance, btree_ps_s_run,
    tbman_s_internal_for_each_instance.
  repeat (apply read_only_bind; [|intros ?]);
    try apply read_only_emit; try apply read_only_get; try apply read_only_ret.
  apply read_only_collect_over. intros c. unfold block_manager_s_for_each_instance.
  apply read_only_bind; [apply read_only_get_bm|]. intros bm.
  apply read_only_collect_over. intros o. unfold token_manager_s_for_each_instance.
  apply read_only_bind; [apply read_only_deref|]. intros tm.
  apply read_only_collect_over. intros i.
  apply read_only_bind; [apply read_only_read_token|]. intros t. apply read_only_ret.
Qed.

Lemma lock_guard_Ok {A} (body : M A) (w : tbman_s) (r : A) (w' : tbman_s) :
  lock_guard body w = Ok (r, w') →
  mutex w = false
  ∧ ∃ wb, body (set_mutex true (set_trace (λ l, l ++ [EvLock]) w)) = Ok (r, wb)
          ∧ w' = set_mutex false (set_trace (λ l, l ++ [EvUnlock]) wb).
Proof.
  intros H. unfold lock_guard in H. apply bind_Ok in H as ([] & wl & Hl & H).
  unfold lock in Hl. apply bind_Ok in Hl as (o & ? & Hget & Hl). injection Hget as <- <-.
  destruct (mutex w) eqn:Hm; [done|]. minv Hl.
  apply bind_Ok in H as (a & wb & Hb & H). unfold unlock in H. minv H.
  split; [done|]. eauto.
Qed.

Lemma lock_guard_read_only {A} (body : M A) (w : tbman_s) (r : A) (w' : tbman_s) :
  read_only body → lock_guard body w = Ok (r, w') → same_core w w' ∧ mutex w' = false.
Proof.
  intros Hro H. apply lock_guard_Ok in H as (Hm & wb & Hb & ->).
  destruct (Hro _ _ _ Hb) as [Hs _]. split; [|done].
  eapply same_core_trans; [|eapply same_core_trans; [exact Hs|]]; by repeat split.
Qed.

Lemma wf_locked (w : tbman_s) :
  wf w → wf (set_mutex true (set_trace (λ l, l ++ [EvLock]) w)).
Proof. intros Hwf. apply (wf_same w); [by repeat split|done]. Qed.

Lemma wf_unlocked (w : tbman_s) :
  wf w → wf (set_mutex false (set_trace (λ l, l ++ [EvUnlock]) w)).
Proof. intros Hwf. apply (wf_same w); [by repeat split|done]. Qed.

(** What the body of [alloc] and [nalloc] keeps. *)
Lemma alloc_body_wf (sys p : Z) (cs : option Z) (ptr_given : bool) (n : Z) (w : tbman_s)
    (r : Z * Z) (w' : tbman_s) :
  wf w → is_size_t n → (ptr_given = true → valid_ptr w p) →
  (if n =? 0 then
     when ptr_given (tbman_s_mem_free p cs);; ret (0, 0)
   else if ptr_given then tbman_s_mem_realloc sys p cs n
   else tbman_s_mem_alloc sys n) w = Ok (r, w') →
  wf w' ∧ same_config w w' ∧ (aligned w' = true → aligned w = true).
Proof.
  intros Hwf Hn Hv H. destruct (n =? 0) eqn:E.
  - apply bind_Ok in H as ([] & w1 & Hf & H). injection H as <- <-.
    destruct ptr_given.
    + destruct (tbman_s_mem_free_wf p cs w w1 Hwf (Hv eq_refl) Hf) as (H1 & H2 & H3).
      split; [done|]. split; [done|]. congruence.
    + injection Hf as <-. split; [done|]. split; [apply same_config_refl|done].
  - apply Z.eqb_neq in E. assert (0 < n) by (destruct Hn; lia). destruct r as [q g].
    destruct ptr_given.
    + apply (tbman_s_mem_realloc_wf sys p cs n w q g w'); [done|by apply Hv|done|done].
    + destruct (tbman_s_mem_alloc_wf sys n w q g w' Hwf ltac:(done) H) as (H1 & H2 & H3 & _).
      done.
Qed.

Lemma guarded_wf {A} (body : M A) (w : tbman_s) (r : A) (w' : tbman_s) :
  wf w →
  (∀ wl wb, wf wl → same_core w wl → body wl = Ok (r, wb) →
     wf wb ∧ same_config wl wb ∧ (aligned wb = true → aligned wl = true)) →
  lock_guard body w = Ok (r, w') →
  wf w' ∧ mutex w' = false ∧ same_config w w' ∧ (aligned w' = true → aligned w = true).
Proof.
  intros Hwf Hbody H. apply lock_guard_Ok in H as (Hm & wb & Hb & ->).
  destruct (Hbody _ wb (wf_locked w Hwf) ltac:(by repeat split) Hb) as (Hwfb & Hcfg & Hlatch).
  split; [by apply wf_unlocked|]. split; [done|].
  destruct Hcfg as (? & ? & ? & ? & _). split; [by repeat split|]. exact Hlatch.
Qed.

Lemma tbman_s_alloc_wf (sys p n : Z) (w : tbman_s) (r : Z * Z) (w' : tbman_s) :
  wf w → is_size_t n → p = 0 ∨ valid_ptr w p →
  tbman_s_alloc sys p n w = Ok (r, w') →
  wf w' ∧ mutex w' = false ∧ same_config w w' ∧ (aligned w' = true → aligned w = true).
Proof.
  intros Hwf Hn Hv H. unfold tbman_s_alloc in H. revert H. apply guarded_wf; [done|].
  intros wl wb Hwfl Hs Hb.
  apply (alloc_body_wf sys p None (negb (p =? 0)) n wl r wb Hwfl Hn); [|exact Hb].
  intros Hp. apply negb_true_iff, Z.eqb_neq in Hp. destruct Hv as [|Hv]; [done|].
  destruct Hs as (_ & _ & _ & _ & _ & _ & _ & He & Hp'). unfold valid_ptr.
  by rewrite He, Hp'.
Qed.

Lemma tbman_s_nalloc_wf (sys p cs n : Z) (w : tbman_s) (r : Z * Z) (w' : tbman_s) :
  wf w → is_size_t n → cs = 0 ∨ valid_ptr w p →
  tbman_s_nalloc sys p cs n w = Ok (r, w') →
  wf w' ∧ mutex w' = false ∧ same_config w w' ∧ (aligned w' = true → aligned w = true).
Proof.
  intros Hwf Hn Hv H. unfold tbman_s_nalloc in H. revert H. apply guarded_wf; [done|].
  intros wl wb Hwfl Hs Hb.
  apply (alloc_body_wf sys p (Some cs) (negb (cs =? 0)) n wl r wb Hwfl Hn); [|exact Hb].
  intros Hp. apply negb_true_iff, Z.eqb_neq in Hp. destruct Hv as [|Hv]; [done|].
  destruct Hs as (_ & _ & _ & _ & _ & _ & _ & He & Hp'). unfold valid_ptr.
  by rewrite He, Hp'.
Qed.

Lemma same_core_config (w w' : tbman_s) :
  same_core w w' → mutex w' = mutex w → same_config w w'.
Proof. intros (_ & ? & ? & ? & _ & ? & _) ?. by repeat split. Qed.

Lemma tbman_s_for_each_instance_same (w : tbman_s) (r : list (Z * Z)) (w' : tbman_s) :
  tbman_s_for_each_instance w = Ok (r, w') → same_core w w' ∧ mutex w' = false.
Proof.
  intros H. unfold tbman_s_for_each_instance in H.
  apply bind_Ok in H as (size & w1 & H1 & H).
  apply (lock_guard_read_only _ w size w1 read_only_total_instances) in H1 as [Hs1 Hm1].
  destruct (size =? 0).
  - injection H as <- <-. done.
  - apply bind_Ok in H as (arr & w2 & H2 & H).
    apply (lock_guard_read_only _ w1 arr w2 read_only_for_each) in H2 as [Hs2 Hm2].
    destruct (negb _); [done|]. injection H as <- <-.
    split; [by eapply same_core_trans|done].
Qed.

(** ** Every reachable state is well formed *)

Lemma ladder_loop_nonneg (fuel : nat) :
  ∀ (B mask inc maxB : Z) (l : list Z),
    0 ≤ B → ladder_loop fuel B mask inc maxB = Some l → Forall (λ b, 0 ≤ b) l.
Proof.
  induction fuel as [|fuel IH]; intros B mask inc maxB l HB H; [done|].
  rewrite ladder_loop_unfold in H. destruct (B <=? maxB); [|by simplify_eq].
  destruct (ladder_loop fuel _ _ _ _) as [l'|] eqn:E; [|done]. injection H as <-.
  constructor; [done|]. eapply IH; [|exact E].
  unfold size_t. apply Z.mod_pos_bound. lia.
Qed.



Lemma fmap_block_size_create (P : Z) (full_align : bool) (l : list Z) :
  bm_block_size <$> ((λ b, block_manager_s_create P b full_align) <$> l) = l.
Proof. induction l as [|x l IH]; csimpl; [done|]. by f_equal. Qed.

(** What [tbman_s_init] returns, whatever the fuel. *)
Lemma tbman_s_init_Ok (fuel : nat) (P minB maxB m : Z) (full_align : bool) (w : tbman_s) :
  tbman_s_init fuel P minB maxB m full_align = Ok w →
  m < 31
  ∧ ∃ mask sizes,
      size_mask_loop fuel (Z.shiftl 1 m - 1) minB = Some mask
      ∧ ladder_loop fuel minB mask minB maxB = Some sizes
      ∧ data w = (λ b, block_manager_s_create P b full_align) <$> sizes
      ∧ block_size_array w = sizes
      ∧ pool_size w = P ∧ min_block_size w = minB ∧ max_block_size w = maxB
      ∧ internal_btree w = [] ∧ external_btree w = [] ∧ pools w = ∅
      ∧ mutex w = false ∧ trace w = []
      ∧ aligned w = foldl (λ acc bm, acc && bm_aligned bm) true (data w).
Proof.
  unfold tbman_s_init. intros H. destruct (31 <=? m) eqn:Hm; [done|].
  apply Z.leb_gt in Hm. split; [done|].
  destruct (size_mask_loop _ _ _) as [mask|] eqn:E1; [|done].
  destruct (ladder_loop _ _ _ _ _) as [sizes|] eqn:E2; [|done].
  injection H as <-. exists mask, sizes. cbn. rewrite fmap_block_size_create.
  by repeat split.
Qed.

Lemma foldl_aligned (d : list block_manager_s) (acc : bool) :
  foldl (λ acc bm, acc && bm_aligned bm) acc d = acc && forallb bm_aligned d.
Proof.
  revert acc. induction d as [|bm d IH]; intros acc; cbn; [by rewrite andb_true_r|].
  rewrite IH. by rewrite andb_assoc.
Qed.

Lemma initial_wf (w : tbman_s) : initial w → wf w ∧ mutex w = false.
Proof.
  intros (fuel & P & minB & maxB & m & fa & HP & Hmin & Hmax & Hm & H).
  apply tbman_s_init_Ok in H
    as (_ & mask & sizes & _ & Hl & Hd & Hbsa & Hps & _ & _ & Htree & Hext & Hpools & Hmu
        & _ & Hal).
  split; [|done].
  assert (Hnn : Forall (λ b, 0 ≤ b) sizes).
  { eapply ladder_loop_nonneg; [|exact Hl]. apply Hmin. }
  assert (Hbm : ∀ c bm, data w !! c = Some bm →
            bm_pool_size bm = P ∧ 0 ≤ bm_block_size bm ∧ bm_data bm = []
            ∧ bm_free_index bm = 0%nat ∧ bm_aligned bm = true).
  { intros c bm Hc. rewrite Hd, list_lookup_fmap in Hc.
    destruct (sizes !! c) as [b|] eqn:E; [|done]. injection Hc as <-. cbn.
    split; [done|]. split; [|done]. rewrite Forall_forall in Hnn. apply Hnn.
    by eapply list_elem_of_lookup_2. }
  split; [split|].
  - by rewrite Hbsa, Hd, fmap_block_size_create.
  - rewrite Hps. apply HP.
  - intros c bm Hc. destruct (Hbm c bm Hc) as (? & ? & _). by rewrite Hps.
  - intros c bm k a Hc Hk. destruct (Hbm c bm Hc) as (_ & _ & E & _).
    rewrite E in Hk. done.
  - intros a tm Ha. rewrite Hpools in Ha. done.
  - intros a. rewrite Htree, Hpools, lookup_empty. split; [by intros ?%elem_of_nil|].
    by intros [? ?].
  - intros a b Ha. rewrite Htree in Ha. by apply elem_of_nil in Ha.
  - intros q sz Hq. rewrite Hext in Hq. by apply elem_of_nil in Hq.
  - intros c bm a tm Hc _ Hin. destruct (Hbm c bm Hc) as (_ & _ & E & _).
    rewrite E in Hin. by apply elem_of_nil in Hin.
  - rewrite Hal. apply foldl_aligned.
  - intros q sz Hq. rewrite Hext in Hq. by apply elem_of_nil in Hq.
  - intros c bm Hc. destruct (Hbm c bm Hc) as (_ & _ & E & F & _).
    split; [rewrite F; lia|]. intros k a tm Hk. rewrite E in Hk. done.
Qed.

Lemma step_wf (w w' : tbman_s) :
  wf w → mutex w = false → step w w' →
  wf w' ∧ mutex w' = false ∧ same_config w w' ∧ (aligned w' = true → aligned w = true).
Proof.
  intros Hwf Hmu Hstep. destruct Hstep.
  - by eapply tbman_s_alloc_wf.
  - by eapply tbman_s_nalloc_wf.
  - match goal with H : tbman_s_granted_space _ _ = _ |- _ =>
      destruct (read_only_granted_space _ _ _ _ H) as [Hs Hm] end.
    split; [by apply (wf_same w)|]. split; [congruence|].
    split; [by apply same_core_config|]. destruct Hs as (_ & _ & _ & _ & -> & _). done.
  - match goal with H : tbman_s_total_granted_space _ = _ |- _ =>
      destruct (lock_guard_read_only _ _ _ _ read_only_total_alloc H) as [Hs Hm] end.
    split; [by apply (wf_same w)|]. split; [done|].
    split; [apply same_core_config; congruence|].
    destruct Hs as (_ & _ & _ & _ & -> & _). done.
  - match goal with H : tbman_s_total_instances _ = _ |- _ =>
      destruct (lock_guard_read_only _ _ _ _ read_only_total_instances H) as [Hs Hm] end.
    split; [by apply (wf_same w)|]. split; [done|].
    split; [apply same_core_config; congruence|].
    destruct Hs as (_ & _ & _ & _ & -> & _). done.
  - match goal with H : tbman_s_for_each_instance _ = _ |- _ =>
      destruct (tbman_s_for_each_instance_same _ _ _ H) as [Hs Hm] end.
    split; [by apply (wf_same w)|]. split; [done|].
    split; [apply same_core_config; congruence|].
    destruct Hs as (_ & _ & _ & _ & -> & _). done.
  - match goal with H : block_manager_s_alloc _ _ _ = _ |- _ =>
      destruct (block_manager_s_alloc_wf _ _ _ _ _ Hwf H)
        as (Hwf' & Hfix & _ & _ & Hlatch & _) end.
    split; [done|]. split; [destruct Hfix as (_ & _ & _ & _ & _ & ->); done|].
    split; [by apply same_fixed_config|done].
  - match goal with Ha : pools w !! _ = Some _, Hl : tm_live _ _ _,
                    H : token_manager_s_free _ _ _ = _ |- _ =>
      destruct (token_manager_s_free_wf _ _ _ _ Hwf Ha Hl)
        as (w2 & post & Hrun & Hwf' & Hfix & Hal & _);
      rewrite Hrun in H; injection H as <- end.
    split; [done|]. split; [destruct Hfix as (_ & _ & _ & _ & _ & ->); done|].
    split; [by apply same_fixed_config|congruence].
Qed.

Lemma reachable_wf (w : tbman_s) : reachable w → wf w ∧ mutex w = false.
Proof.
  induction 1 as [w Hi|w w' _ [IH1 IH2] Hs]; [by apply initial_wf|].
  destruct (step_wf w w' IH1 IH2 Hs) as (? & ? & _). done.
Qed.



(** ** Runs of the entry points *)


Lemma lock_guard_intro {A} (body : M A) (w wb : tbman_s) (r : A) :
  mutex w = false →
  body (set_mutex true (set_trace (λ l, l ++ [EvLock]) w)) = Ok (r, wb) →
  lock_guard body w = Ok (r, set_mutex false (set_trace (λ l, l ++ [EvUnlock]) wb)).
Proof.
  intros Hm Hb. unfold lock_guard. eapply bind_intro.
  { unfold lock. mstep. rewrite Hm. mstep. reflexivity. }
  eapply bind_intro; [exact Hb|]. cbv beta. unfold unlock. eapply bind_intro.
  { mstep. reflexivity. }
  reflexivity.
Qed.

Lemma tbman_s_alloc_fresh (sys n : Z) (w : tbman_s) (r : Z * Z) (w1 : tbman_s) :
  n ≠ 0 → tbman_s_alloc sys 0 n w = Ok (r, w1) →
  mutex w = false
  ∧ ∃ wb, tbman_s_mem_alloc sys n (set_mutex true (set_trace (λ l, l ++ [EvLock]) w))
          = Ok (r, wb)
          ∧ w1 = set_mutex false (set_trace (λ l, l ++ [EvUnlock]) wb).
Proof.
  intros Hn H. apply lock_guard_Ok in H as (Hm & wb & Hb & ->).
  replace (n =? 0) with false in Hb by (symmetry; by apply Z.eqb_neq).
  cbn [negb Z.eqb] in Hb. eauto.
Qed.

(** The token manager hands out the block of the token on top of its
    stack. *)
Lemma token_manager_s_alloc_run (a : Z) (w : tbman_s) (tm : token_manager_s) (t : Z) :
  pools w !! a = Some tm → tm_ok a tm →
  tm_token_stack tm !! Z.to_nat (tm_stack_index tm) = Some t →
  tm_reserved tm ≤ t < tm_stack_len tm →
  token_manager_s_alloc a w
  = Ok (a + t * tm_block_size tm,
        set_pools (λ h, <[a := set_stack_index (uint16 (tm_stack_index tm + 1)) tm]> h)
          (set_trace (λ l, l ++ [EvStackIndex a (uint16 (tm_stack_index tm + 1))]) w)).
Proof.
  intros Ha Hok Ht Hr. pose proof (tm_reserved_pos _ _ Hok) as Hrb.
  destruct (tm_token_in_pool a tm t Hok Hr) as (Hsz & Hlo & _).
  unfold token_manager_s_alloc. eapply bind_intro.
  { unfold token_manager_s_is_full. mderef Ha. mread Ht. reflexivity. }
  cbv beta. replace (t =? 0) with false by (symmetry; apply Z.eqb_neq; lia).
  mderef Ha. mread Ht. rewrite Hsz.
  replace (a + t * tm_block_size tm <? a + sizeof_token_manager_s) with false
    by (symmetry; apply Z.ltb_ge; lia).
  mstep. mstep. reflexivity.
Qed.

(** The pointer is a block of a pool of the class that serves [n]: the
    reallocation to [n] bytes keeps it. *)
Lemma tbman_s_alloc_same_class (sys p n : Z) (w : tbman_s) (a : Z) (tm : token_manager_s)
    (c : nat) :
  wf w → mutex w = false → pools w !! a = Some tm → tm_live a tm p →
  0 < n → find_block_manager w n = Some c → tm_parent tm = c →
  ∃ w', tbman_s_alloc sys p n w = Ok ((p, tm_block_size tm), w').
Proof.
  intros Hwf Hmu Ha Hl Hn Hfind Hpar.
  destruct (wf_pool w (proj1 Hwf) a tm Ha) as (Hok & _ & bm & Hc & _ & Hbs).
  rewrite Hpar in Hc.
  destruct (find_block_manager_Some w n c Hfind) as (b & Hb & Hnb & _).
  rewrite (wf_bsa w (proj1 Hwf)), list_lookup_fmap, Hc in Hb. injection Hb as <-.
  destruct (pool_range w a tm p (proj1 Hwf) Ha Hl) as [Hr _].
  pose proof (tm_ok_addr _ _ Hok) as Ha0.
  eexists. unfold tbman_s_alloc. apply lock_guard_intro; [done|].
  replace (n =? 0) with false by (symmetry; apply Z.eqb_neq; lia).
  replace (p =? 0) with false by (symmetry; apply Z.eqb_neq; lia).
  cbn [negb]. unfold tbman_s_mem_realloc. mstep.
  set (wl := set_mutex true (set_trace (λ l, l ++ [EvLock]) w)).
  assert (Hwfl : wf wl) by (by apply wf_locked).
  eapply bind_intro.
  { change (use_fast_path wl None) with false. cbv iota.
    apply (tree_pool_live wl a tm p (proj1 Hwfl)); done. }
  cbv beta. replace (a =? 0) with false by (symmetry; apply Z.eqb_neq; lia).
  cbn [negb]. mderef Ha.
  replace (tm_block_size tm <? n) with false by (symmetry; apply Z.ltb_ge; lia).
  change (find_block_manager wl n) with (find_block_manager w n). rewrite Hfind.
  mget_bm Hc. rewrite Hbs, Z.eqb_refl. reflexivity.
Qed.

(** ** What [free] leaves alone *)

(** With one block allocated, every other token is on the stack. *)
Lemma tm_live_single (a : Z) (tm : token_manager_s) (p q : Z) :
  tm_ok a tm → tm_stack_index tm = 1 → tm_live a tm p → tm_live a tm q → p = q.
Proof.
  intros Hok Hi (_ & tp & -> & Hrp & Hnp) (_ & tq & -> & Hrq & Hnq).
  destruct (decide (tp = tq)) as [->|Hne]; [done|]. exfalso.
  pose proof (tm_ok_cap _ _ Hok) as Hcap.
  assert (Hlen : length (free_tokens tm) = Z.to_nat (tm_capacity tm - 1)).
  { unfold free_tokens. rewrite Hi, length_drop, length_take.
    pose proof (tm_ok_sentinel _ _ Hok) as Hs. apply lookup_lt_Some in Hs. lia. }
  assert (Hin : ∀ x, x ∈ free_tokens tm → x ∈ seqZ (tm_reserved tm) (tm_capacity tm)).
  { intros x Hx. apply elem_of_seqZ. unfold free_tokens in Hx.
    apply list_elem_of_lookup in Hx as [i Hx]. rewrite lookup_drop in Hx.
    apply lookup_take_Some in Hx as [Hx Hlt].
    destruct (tm_ok_tokens _ _ Hok (Z.of_nat (Z.to_nat (tm_stack_index tm) + i)))
      as (t & Ht & Hr); [lia|].
    rewrite Nat2Z.id in Ht. assert (t = x) as -> by congruence.
    unfold tm_capacity. lia. }
  assert (Hsub : tp :: tq :: free_tokens tm ⊆+ seqZ (tm_reserved tm) (tm_capacity tm)).
  { apply NoDup_submseteq.
    - apply NoDup_cons. split.
      + intros [->|H]%elem_of_cons; done.
      + apply NoDup_cons. split; [done|apply Hok].
    - intros x [->|[->|Hx]%elem_of_cons]%elem_of_cons; [..|by apply Hin];
        apply elem_of_seqZ; unfold tm_capacity; lia. }
  apply submseteq_length in Hsub. rewrite length_seqZ in Hsub. cbn in Hsub. lia.
Qed.

(** The free tokens once a token has been pushed. *)
Lemma free_tokens_pushed (a : Z) (tm : token_manager_s) (t x : Z) :
  tm_ok a tm → 0 < tm_stack_index tm →
  x ∈ free_tokens (set_token_stack
                     (<[Z.to_nat (tm_stack_index tm - 1) := t]> (tm_token_stack tm))
                     (set_stack_index (tm_stack_index tm - 1) tm))
  ↔ x = t ∨ x ∈ free_tokens tm.
Proof.
  intros Hok Hi. pose proof (tm_ok_index _ _ Hok) as Hidx.
  pose proof (tm_ok_sentinel _ _ Hok) as Hs. apply lookup_lt_Some in Hs.
  rewrite free_tokens_push. unfold free_tokens.
  rewrite !list_elem_of_lookup. setoid_rewrite lookup_drop. split.
  - intros [i Hx]. apply lookup_take_Some in Hx as [Hx Hlt].
    apply list_lookup_insert_Some in Hx as [(_ & -> & _)|[Hne Hx]]; [by left|].
    right. exists (i - 1)%nat. rewrite lookup_take_lt by lia.
    rewrite <- Hx. f_equal. lia.
  - intros [->|[i Hx]].
    + exists 0%nat. rewrite Nat.add_0_r, lookup_take_lt by lia.
      apply list_lookup_insert_eq. lia.
    + apply lookup_take_Some in Hx as [Hx Hlt]. exists (S i).
      rewrite lookup_take_lt by lia. rewrite list_lookup_insert_ne by lia.
      rewrite <- Hx. f_equal. lia.
Qed.

Lemma token_manager_s_free_frame (a p : Z) (w : tbman_s) (tm : token_manager_s)
    (w' : tbman_s) :
  wf w → pools w !! a = Some tm → tm_live a tm p →
  token_manager_s_free a p w = Ok (tt, w') →
  (∀ q, q ≠ p → valid_ptr w q → valid_ptr w' q) ∧ ¬ valid_ptr w' p
  ∧ (∀ q, valid_ptr w' q → valid_ptr w q)
  ∧ external_btree w' = external_btree w.
Proof.
  intros Hwf Ha Hl H.
  destruct (token_manager_s_free_wf a p w tm Hwf Ha Hl)
    as (w2 & post & Hrun & Hwf' & Hfix & _ & _ & _ & _ & Hold & Hdom & Hsurv).
  rewrite Hrun in H. injection H as <-.
  destruct (wf_pool w (proj1 Hwf) a tm Ha) as (Hok & HP & _).
  pose proof (tm_ok_block _ _ Hok) as HB.
  destruct (pool_range w a tm p (proj1 Hwf) Ha Hl) as [Hrp _].
  pose proof Hl as (Hi & tp & Hp & Hrtp & Hntp).
  assert (Hdiv : (p - a) / tm_block_size tm = tp).
  { rewrite Hp. replace (a + tp * tm_block_size tm - a) with (tp * tm_block_size tm) by lia.
    apply Z.div_mul. lia. }
  pose proof Hfix as (Hps & _ & _ & _ & Hext & _).
  assert (Hpushed : ∀ tm', pools w2 !! a = Some tm' →
            tm_same_static tm tm'
            ∧ tm_stack_index tm' = tm_stack_index tm - 1
            ∧ ∀ x, x ∈ free_tokens tm' ↔ x = tp ∨ x ∈ free_tokens tm).
  { intros tm' Ha'. destruct (Hold a tm' Ha') as (tm0 & Ha0 & Hst & _ & Heq).
    assert (tm0 = tm) as -> by congruence. destruct (Heq eq_refl) as [E1 E2].
    split; [done|]. split; [done|]. intros x.
    rewrite <- (free_tokens_pushed a tm tp x Hok Hi).
    rewrite Hdiv in E2. destruct Hst as (S1 & S2 & _).
    unfold free_tokens, tm_capacity, tm_stack_len, tm_reserved.
    by rewrite S1, S2, E1, E2. }
  split; [|split; [|split; [|done]]].
  - intros q Hqp [(b & tb & Hb & Hlq)|(sz & Hq)]; [|right; exists sz; by rewrite Hext].
    left. destruct (decide (b = a)) as [->|Hba].
    + assert (tb = tm) as -> by congruence.
      destruct (decide (tm_stack_index tm = 1)) as [Hi1|Hi1].
      { exfalso. apply Hqp. by apply (tm_live_single a tm q p). }
      destruct (pools w2 !! a) as [tm'|] eqn:Ha'; [|apply (Hdom Hi1) in Ha'; congruence].
      destruct (Hpushed tm' eq_refl) as ((S1 & S2 & _) & E1 & Hfree).
      exists a, tm'. split; [done|].
      destruct Hlq as (_ & tq & Hq & Hrtq & Hntq).
      split; [lia|]. exists tq. rewrite S2. split; [done|].
      split; [unfold tm_reserved, tm_stack_len; by rewrite S1, S2|].
      rewrite Hfree. intros [->|Hin]; [|done]. apply Hqp. congruence.
    + pose proof Hlq as (Hiq & _).
      destruct (Hsurv b tb Hb Hba ltac:(unfold tm_empty; lia)) as [tb' Hb'].
      destruct (Hold b tb' Hb') as (tb0 & Hb0 & Hst & Hss & _).
      assert (tb0 = tb) as -> by congruence.
      exists b, tb'. split; [done|]. by apply (tm_live_same b tb tb' q Hst (Hss Hba)).
  - intros [(b & tb' & Hb' & Hlp)|(sz & Hq)].
    + destruct (Hold b tb' Hb') as (tb & Hb & _).
      destruct (pool_range w2 b tb' p (proj1 Hwf') Hb' Hlp) as [Hrb _]. rewrite Hps in Hrb.
      assert (a = b) as <- by (apply (tm_live_unique w a b tm tb p (proj1 Hwf) Ha Hb Hl); lia).
      destruct (Hpushed tb' Hb') as ((S1 & S2 & _) & E1 & Hfree).
      destruct Hlp as (_ & t1 & Hp1 & _ & Hn1).
      assert (t1 = tp) as -> by (rewrite S2 in Hp1; nia).
      apply Hn1, Hfree. by left.
    + rewrite Hext in Hq.
      apply (external_not_in_pool w p sz a tm (proj1 Hwf) Hq Ha). lia.
  - intros q [(b & tb' & Hb' & Hlq)|(sz & Hq)]; [|right; exists sz; by rewrite <- Hext].
    left. destruct (Hold b tb' Hb') as (tb & Hb & Hst & Hss & _).
    exists b, tb. split; [done|].
    destruct (decide (b = a)) as [->|Hba].
    + assert (tb = tm) as -> by congruence.
      destruct (Hpushed tb' Hb') as ((S1 & S2 & _) & E1 & Hfree).
      destruct Hlq as (_ & tq & Hq & Hrtq & Hntq).
      split; [done|]. exists tq. rewrite S2 in Hq. split; [done|].
      split; [unfold tm_reserved, tm_stack_len in *; by rewrite S1, S2 in Hrtq|].
      intros Hin. apply Hntq, Hfree. by right.
    + destruct Hst as (S1 & S2 & _), (Hss Hba) as (E1 & E2).
      revert Hlq. unfold tm_live, free_tokens, tm_capacity, tm_stack_len, tm_reserved.
      by rewrite S1, S2, E1, E2.
Qed.

(** ** The pointers the caller owns, across the manager's operations *)

Lemma valid_ptr_pos (w : tbman_s) (q : Z) : wf_core w → valid_ptr w q → 0 < q.
Proof.
  intros Hwf [(a & tm & Ha & Hl)|(sz & Hq)].
  - destruct (pool_range w a tm q Hwf Ha Hl) as [Hr _].
    destruct (wf_pool w Hwf a tm Ha) as (Hok & _). pose proof (tm_ok_addr _ _ Hok). lia.
  - by destruct (wf_ext w Hwf q sz Hq).
Qed.

Lemma valid_ptr_same (w w' : tbman_s) (q : Z) :
  pools w' = pools w → external_btree w' = external_btree w →
  valid_ptr w' q ↔ valid_ptr w q.
Proof. intros Hp He. unfold valid_ptr. by rewrite Hp, He. Qed.

(** A block of a pool is not an external block. *)
Lemma live_not_external (w : tbman_s) (a : Z) (tm : token_manager_s) (p sz : Z) :
  wf_core w → pools w !! a = Some tm → tm_live a tm p → (p, sz) ∉ external_btree w.
Proof.
  intros Hwf Ha Hl Hq. destruct (pool_range w a tm p Hwf Ha Hl) as [Hr _].
  apply (external_not_in_pool w p sz a tm Hwf Hq Ha). lia.
Qed.

Lemma keys_filter (t : list (Z * Z)) (p : Z) :
  NoDup (fst <$> t) → NoDup (fst <$> filter (λ kv, fst kv ≠ p) t).
Proof.
  intros Hnd. eapply sublist_NoDup; [exact Hnd|].
  apply fmap_sublist, sublist_filter.
Qed.

Lemma keys_cons (w : tbman_s) (t : list (Z * Z)) (r n : Z) :
  ¬ valid_ptr w r → external_btree w = t →
  NoDup (fst <$> t) → NoDup (fst <$> (r, n) :: t).
Proof.
  intros Hfresh <- Hnd. cbn [fmap list_fmap fst]. apply NoDup_cons. split; [|done].
  intros Hin. apply list_elem_of_fmap in Hin as ([q sz] & Heq & Hin). cbn in Heq.
  subst q. apply Hfresh. right. eauto.
Qed.

Lemma tbman_s_mem_alloc_frame (sys n : Z) (w : tbman_s) (p g : Z) (w' : tbman_s) :
  wf w → 0 < n → tbman_s_mem_alloc sys n w = Ok ((p, g), w') →
  0 < p ∧ n ≤ g ∧ ¬ valid_ptr w p ∧ (∀ q, valid_ptr w' q ↔ q = p ∨ valid_ptr w q)
  ∧ (ext_keys_ok w → ext_keys_ok w').
Proof.
  intros Hwf Hn H.
  destruct (tbman_s_mem_alloc_wf sys n w p g w' Hwf Hn H)
    as (Hwf' & _ & _ & Hkeep & Hextk & Hfresh & Hcase).
  assert (Hmono : ∀ q, valid_ptr w q → valid_ptr w' q).
  { intros q [(a & tm & Ha & Hl)|(sz & Hq)].
    - left. destruct (Hkeep a tm Ha) as (tm' & Ha' & _ & Hl'). eauto.
    - right. eauto. }
  unfold tbman_s_mem_alloc in H.
  apply bind_Ok in H as (o & w0 & Hget & H). unfold get in Hget. injection Hget as <- <-.
  destruct (find_block_manager w n) as [c|] eqn:Hfind.
  - destruct Hcase as (Hext & Hg & a & tm & Ha & _ & Hl).
    apply find_block_manager_Some in Hfind as (b & Hb & Hnb & _).
    assert (b = g) as -> by congruence.
    assert (Hv : valid_ptr w' p) by (left; eauto).
    split; [by apply (valid_ptr_pos w' p (proj1 Hwf'))|]. split; [done|]. split; [done|].
    apply bind_Ok in H as (rp & w1 & Halloc & H).
    apply bind_Ok in H as (bm & ? & Hgb & H).
    apply get_bm_Ok in Hgb as [Hc ->]. unfold ret in H. injection H as <- <- <-.
    destruct (block_manager_s_alloc_wf sys c w rp w1 Hwf Halloc)
      as (_ & _ & _ & _ & _ & _ & _ & Hback).
    split; [|unfold ext_keys_ok; by rewrite Hext].
    intros q. split; [apply Hback|]. intros [->|Hq]; [done|by apply Hmono].
  - destruct Hcase as (-> & Hext & Hpools & _ & Hpos & _).
    split; [done|]. split; [lia|]. split; [done|]. split.
    2:{ unfold ext_keys_ok. rewrite Hext. cbn [fmap list_fmap fst]. intros Hnd.
        apply NoDup_cons. split; [|done]. intros Hin.
        apply list_elem_of_fmap in Hin as ([q sz] & Heq & Hin). cbn in Heq. subst q.
        apply Hfresh. right. eauto. }
    intros q. split.
    + intros [(a & tm & Ha & Hl)|(sz & Hq)].
      * right. left. rewrite Hpools in Ha. eauto.
      * rewrite Hext in Hq. apply elem_of_cons in Hq as [[= -> ->]|Hq]; [by left|].
        right. right. eauto.
    + intros [->|Hq]; [|by apply Hmono]. right. exists n. rewrite Hext. by left.
Qed.

Lemma tbman_s_mem_free_frame (p : Z) (cs : option Z) (w w' : tbman_s) :
  wf w → valid_ptr w p → tbman_s_mem_free p cs w = Ok (tt, w') →
  (∀ q, valid_ptr w' q ↔ valid_ptr w q ∧ q ≠ p)
  ∧ (ext_keys_ok w → ext_keys_ok w').
Proof.
  intros Hwf Hv H. unfold tbman_s_mem_free in H.
  apply bind_Ok in H as (o & w0 & Hget & H). injection Hget as <- <-.
  assert (Hint : ∀ a tm w1, wf w1 → pools w1 = pools w → external_btree w1 = external_btree w →
            pools w !! a = Some tm → tm_live a tm p →
            token_manager_s_free a p w1 = Ok (tt, w') →
            (∀ q, valid_ptr w' q ↔ valid_ptr w q ∧ q ≠ p)
            ∧ (ext_keys_ok w → ext_keys_ok w')).
  { intros a tm w1 Hwf1 Hp1 He1 Ha Hl Hfree. rewrite <- Hp1 in Ha.
    destruct (token_manager_s_free_frame a p w1 tm w' Hwf1 Ha Hl Hfree)
      as (F1 & F2 & F3 & Fe).
    split; [|unfold ext_keys_ok; by rewrite Fe, He1].
    intros q. rewrite <- (valid_ptr_same w w1 q) by done. split.
    - intros Hq. split; [by apply F3|]. by intros ->.
    - intros [Hq Hne]. by apply F1. }
  destruct (use_fast_path w cs) eqn:Hfast.
  - apply use_fast_path_aligned in Hfast as Hal.
    destruct Hv as [(a & tm & Ha & Hl)|(sz & Hq)].
    + rewrite (mask_pool_live w a tm p (proj1 Hwf) Hal Ha Hl) in H.
      by apply (Hint a tm w).
    + exfalso. apply token_manager_s_free_deref in H as [? H].
      rewrite (mask_pool_external w p sz (proj1 Hwf) Hq) in H. done.
  - apply bind_Ok in H as (x & w1 & Htree & H).
    set (wq := set_trace (λ l, l ++ [EvVdQuery p]) w) in *.
    assert (Hwfq : wf wq) by (by apply wf_trace).
    destruct Hv as [(a & tm & Ha & Hl)|(sz & Hq)].
    + rewrite (tree_pool_live w a tm p (proj1 Hwf) Ha Hl) in Htree.
      injection Htree as <- <-. fold wq in H.
      destruct (wf_pool w (proj1 Hwf) a tm Ha) as (Hok & _).
      replace (a =? 0) with false in H
        by (symmetry; apply Z.eqb_neq; pose proof (tm_ok_addr _ _ Hok); lia).
      cbn [negb] in H. by apply (Hint a tm wq).
    + rewrite (tree_pool_external w p sz (proj1 Hwf) Hq) in Htree.
      injection Htree as <- <-. fold wq in H. cbn [negb Z.eqb] in H.
      apply bind_Ok in H as (r & w2 & Hrem & H).
      rewrite (btree_ps_s_remove_present p sz wq Hq) in Hrem. injection Hrem as <- <-.
      cbn [negb Z.eqb Pos.eqb] in H. unfold platform_free, emit, modify in H.
      injection H as <-. split.
      2:{ unfold ext_keys_ok. proj_simpl. apply keys_filter. }
      intros q. unfold valid_ptr. proj_simpl. split.
      * intros [(a & tm & Ha & Hl)|(s & Hs)].
        -- split; [left; eauto|]. intros ->.
           by apply (live_not_external w a tm p sz (proj1 Hwf) Ha Hl).
        -- apply list_elem_of_filter in Hs as [Hne Hs]. split; [right; eauto|done].
      * intros [[Hl|(s & Hs)] Hne]; [by left|]. right. exists s.
        by apply list_elem_of_filter.
Qed.

(** Without a size hint, [free] of a pointer the caller owns returns. *)
Lemma tbman_s_mem_free_total (p : Z) (w : tbman_s) :
  wf w → valid_ptr w p → ∃ w', tbman_s_mem_free p None w = Ok (tt, w').
Proof.
  intros Hwf Hv. unfold tbman_s_mem_free, bind, get. cbn [use_fast_path].
  set (wq := set_trace (λ l, l ++ [EvVdQuery p]) w).
  assert (Hwfq : wf wq) by (by apply wf_trace).
  destruct Hv as [(a & tm & Ha & Hl)|(sz & Hq)].
  - rewrite (tree_pool_live w a tm p (proj1 Hwf) Ha Hl). fold wq.
    destruct (wf_pool w (proj1 Hwf) a tm Ha) as (Hok & _).
    replace (a =? 0) with false
      by (symmetry; apply Z.eqb_neq; pose proof (tm_ok_addr _ _ Hok); lia).
    cbn [negb].
    destruct (token_manager_s_free_wf a p wq tm Hwfq Ha Hl) as (w2 & post & Hrun & _).
    eauto.
  - rewrite (tree_pool_external w p sz (proj1 Hwf) Hq). fold wq. cbn [negb Z.eqb].
    rewrite (btree_ps_s_remove_present p sz wq Hq). cbn [negb Z.eqb Pos.eqb].
    unfold platform_free, emit, modify. eauto.
Qed.

Lemma region_free_fresh (w : tbman_s) (p n : Z) :
  wf_core w → region_free w p n = true → 0 < n → ¬ valid_ptr w p.
Proof.
  intros Hwf Hfree Hn. apply region_free_spec in Hfree as [Hf1 Hf2].
  intros [(a1 & tm1 & Ha1 & Hl)|(sz & Hq)].
  - destruct (pool_range w a1 tm1 p Hwf Ha1 Hl) as [Hrg _].
    destruct (Hf1 a1); [apply (wf_tree w Hwf); eauto|lia|lia].
  - destruct (wf_ext w Hwf p sz Hq) as (_ & Hsz & _).
    destruct (Hf2 p sz Hq); lia.
Qed.

Lemma external_remove_frame (w w' : tbman_s) (p sz : Z) :
  wf_core w → (p, sz) ∈ external_btree w → pools w' = pools w →
  external_btree w' = filter (λ kv, fst kv ≠ p) (external_btree w) →
  ∀ q, valid_ptr w' q ↔ valid_ptr w q ∧ q ≠ p.
Proof.
  intros Hwf Hp Hpools Hext q. unfold valid_ptr. rewrite Hpools, Hext. split.
  - intros [(a & tm & Ha & Hl)|(s & Hs)].
    + split; [left; eauto|]. intros ->. by apply (live_not_external w a tm p sz Hwf Ha Hl).
    + apply list_elem_of_filter in Hs as [Hne Hs]. split; [right; eauto|done].
  - intros [[Hl|(s & Hs)] Hne]; [by left|]. right. exists s. by apply list_elem_of_filter.
Qed.

Lemma alloc_free_frame (w0 w1 w2 : tbman_s) (x : Z) (tm : token_manager_s) (p r1 : Z) :
  wf w1 → pools w0 !! x = Some tm → tm_live x tm p →
  (∀ a1 tm1, pools w0 !! a1 = Some tm1 →
     ∃ tm1', pools w1 !! a1 = Some tm1' ∧ tm_same_static tm1 tm1'
             ∧ ∀ q, tm_live a1 tm1 q → tm_live a1 tm1' q) →
  ¬ valid_ptr w0 r1 →
  (∀ q, valid_ptr w1 q ↔ q = r1 ∨ valid_ptr w0 q) →
  token_manager_s_free x p w1 = Ok (tt, w2) →
  (∀ q, valid_ptr w2 q ↔ q = r1 ∨ (valid_ptr w0 q ∧ q ≠ p))
  ∧ external_btree w2 = external_btree w1.
Proof.
  intros Hwf1 Ha Hl Hkeep Hfresh Hiff Hfree.
  destruct (Hkeep x tm Ha) as (tm1 & Ha1 & _ & Hl1).
  destruct (token_manager_s_free_frame x p w1 tm1 w2 Hwf1 Ha1 (Hl1 p Hl) Hfree)
    as (F1 & F2 & F3 & Fe).
  assert (Hne : r1 ≠ p). { intros ->. apply Hfresh. left. eauto. }
  split; [|done]. intros q. split.
  - intros Hq. assert (q ≠ p) by (by intros ->).
    apply F3, Hiff in Hq as [->|Hq]; [by left|by right].
  - intros [->|[Hq Hqp]]; apply F1; [done| |done|]; apply Hiff; [by left|by right].
Qed.

Lemma tbman_s_mem_realloc_frame (sys p : Z) (cs : option Z) (n : Z) (w : tbman_s)
    (r g : Z) (w' : tbman_s) :
  wf w → valid_ptr w p → 0 < n →
  tbman_s_mem_realloc sys p cs n w = Ok ((r, g), w') →
  0 < r ∧ n ≤ g ∧ (r = p ∨ ¬ valid_ptr w r)
  ∧ (∀ q, valid_ptr w' q ↔ q = r ∨ (valid_ptr w q ∧ q ≠ p))
  ∧ (ext_keys_ok w → ext_keys_ok w').
Proof.
  intros Hwf Hv Hn H. unfold tbman_s_mem_realloc in H.
  apply bind_Ok in H as (o & w00 & Hget & H). injection Hget as <- <-.
  apply bind_Ok in H as (x & w0 & Hx & H).
  assert (Hcase : same_core w w0 ∧ mutex w0 = mutex w
            ∧ ((∃ tm, pools w !! x = Some tm ∧ tm_live x tm p)
               ∨ (x = 0 ∧ ∃ sz, (p, sz) ∈ external_btree w)
               ∨ (x ≠ 0 ∧ pools w !! x = None))).
  { destruct (use_fast_path w cs) eqn:Hfast.
    - injection Hx as <- <-. apply use_fast_path_aligned in Hfast as Hal.
      split; [apply same_core_refl|]. split; [done|].
      destruct Hv as [(a & tm & Ha & Hl)|(sz & Hq)].
      + left. rewrite (mask_pool_live w a tm p (proj1 Hwf) Hal Ha Hl). eauto.
      + destruct (decide (mask_pool w p = 0)) as [E|E]; [right; left; eauto|].
        right. right. split; [done|]. by apply (mask_pool_external w p sz (proj1 Hwf)).
    - destruct Hv as [(a & tm & Ha & Hl)|(sz & Hq)].
      + rewrite (tree_pool_live w a tm p (proj1 Hwf) Ha Hl) in Hx. injection Hx as <- <-.
        split; [by repeat split|]. split; [done|]. left. eauto.
      + rewrite (tree_pool_external w p sz (proj1 Hwf) Hq) in Hx. injection Hx as <- <-.
        split; [by repeat split|]. split; [done|]. right. left. eauto. }
  destruct Hcase as (Hsame & Hmu & Hcase).
  assert (Hwf0 : wf w0) by (by apply (wf_same w)).
  pose proof Hsame as (Hd0 & Hps0 & Hmin0 & Hmax0 & Hal0 & Hbsa0 & Htree0 & Hext0 & Hpools0).
  assert (Hv0 : ∀ q, valid_ptr w0 q ↔ valid_ptr w q)
    by (intros q; by apply valid_ptr_same).
  enough (G : 0 < r ∧ n ≤ g ∧ (r = p ∨ ¬ valid_ptr w0 r)
              ∧ (∀ q, valid_ptr w' q ↔ q = r ∨ (valid_ptr w0 q ∧ q ≠ p))
              ∧ (ext_keys_ok w0 → ext_keys_ok w')).
  { destruct G as (G1 & G2 & G3 & G4 & G5). split; [done|]. split; [done|].
    split; [by rewrite <- Hv0|]. split; [intros q; by rewrite G4, Hv0|].
    unfold ext_keys_ok in *. by rewrite <- Hext0. }
  apply Hv0 in Hv.
  assert (Hstay : ∀ q, valid_ptr w0 q ↔ q = p ∨ (valid_ptr w0 q ∧ q ≠ p)).
  { intros q. split.
    - intros Hq. destruct (decide (q = p)); [by left|by right].
    - by intros [->|[? _]]. }
  destruct Hcase as [(tm & Ha & Hl)|[(-> & sz & Hq)|[Hx0 Hnone]]].
  - destruct (wf_pool w (proj1 Hwf) x tm Ha) as (Hok & _).
    replace (x =? 0) with false in H
      by (symmetry; apply Z.eqb_neq; pose proof (tm_ok_addr _ _ Hok); lia).
    cbn [negb] in H. apply bind_Ok in H as (tm0 & ? & Hd & H).
    apply deref_Ok in Hd as [Hd ->]. rewrite Hpools0 in Hd.
    assert (tm0 = tm) as -> by congruence.
    rewrite <- Hpools0 in Ha.
    destruct (tm_block_size tm <? n) eqn:Hgrow.
    + apply bind_Ok in H as ([r1 g1] & w1 & Halloc & H).
      apply bind_Ok in H as ([] & w2 & Hfree & H). injection H as <- <- <-.
      destruct (tbman_s_mem_alloc_wf sys n w0 r1 g1 w1 Hwf0 Hn Halloc)
        as (Hwf1 & _ & _ & Hkeep1 & _).
      destruct (tbman_s_mem_alloc_frame sys n w0 r1 g1 w1 Hwf0 Hn Halloc)
        as (Hpos & Hng & Hfr & Hiff & Hk1).
      split; [done|]. split; [done|]. split; [by right|].
      destruct (alloc_free_frame w0 w1 w2 x tm p r1 Hwf1 Ha Hl Hkeep1 Hfr Hiff Hfree)
        as [Hiff2 He2].
      split; [done|]. unfold ext_keys_ok in *. by rewrite He2.
    + apply Z.ltb_ge in Hgrow.
      destruct (find_block_manager w n) as [c|] eqn:Hfind; [|done].
      apply bind_Ok in H as (bm & ? & Hget & H). apply get_bm_Ok in Hget as [Hc ->].
      apply find_block_manager_Some in Hfind as (b & Hb & Hnb & _).
      assert (Hbb : b = bm_block_size bm).
      { rewrite (wf_bsa w (proj1 Hwf)), list_lookup_fmap, <- Hd0, Hc in Hb.
        by injection Hb. }
      destruct (negb (bm_block_size bm =? tm_block_size tm)).
      * apply bind_Ok in H as (r1 & w1 & Halloc & H).
        apply bind_Ok in H as ([] & w2 & Hfree & H). injection H as <- <- <-.
        destruct (block_manager_s_alloc_wf sys c w0 r1 w1 Hwf0 Halloc)
          as (Hwf1 & Hfix1 & (a1 & tm1 & Ha1 & _ & Hl1) & Hmono & _ & Hkeep1 & Hfr & Hback).
        assert (Hv1 : valid_ptr w1 r1) by (left; eauto).
        split; [by apply (valid_ptr_pos w1 r1 (proj1 Hwf1))|]. split; [lia|].
        split; [by right|].
        destruct (alloc_free_frame w0 w1 w2 x tm p r1 Hwf1 Ha Hl Hkeep1 Hfr) as [Hiff2 He2];
          [|done|].
        { intros q. split; [apply Hback|]. intros [->|?]; [done|by apply Hmono]. }
        split; [done|]. destruct Hfix1 as (_ & _ & _ & _ & He1 & _).
        unfold ext_keys_ok. by rewrite He2, He1.
      * injection H as <- <- <-.
        split; [by apply (valid_ptr_pos w0 p (proj1 Hwf0))|]. split; [done|].
        split; [by left|done].
  - cbn [negb Z.eqb] in H. rewrite <- Hext0 in Hq.
    destruct (n <=? max_block_size w).
    + apply bind_Ok in H as ([r1 g1] & w1 & Halloc & H).
      destruct (tbman_s_mem_alloc_wf sys n w0 r1 g1 w1 Hwf0 Hn Halloc)
        as (Hwf1 & _ & _ & _ & Hextk & _).
      destruct (tbman_s_mem_alloc_frame sys n w0 r1 g1 w1 Hwf0 Hn Halloc)
        as (Hpos & Hng & Hfr & Hiff & Hk1).
      apply bind_Ok in H as (r2 & w2 & Hrem & H).
      rewrite (btree_ps_s_remove_present p sz w1 (Hextk p sz Hq)) in Hrem.
      injection Hrem as <- <-. cbn [negb Z.eqb Pos.eqb] in H.
      apply bind_Ok in H as ([] & w3 & Hpf & H). injection H as <- <- <-.
      unfold platform_free, emit, modify in Hpf. injection Hpf as <-.
      split; [done|]. split; [done|]. split; [by right|].
      assert (Hne : r1 ≠ p) by (by intros ->).
      split.
      2:{ intros Hk. unfold ext_keys_ok. proj_simpl. by apply keys_filter, Hk1. }
      intros q.
      match goal with
      | |- valid_ptr ?W q ↔ _ =>
          rewrite (external_remove_frame w1 W p sz (proj1 Hwf1) (Hextk p sz Hq)
                     eq_refl eq_refl q), Hiff
      end.
      split; [intros [[->|?] ?]; [by left|by right]|].
      intros [->|[? ?]]; (split; [|done]); [by left|by right].
    + apply bind_Ok in H as (v & w1 & Hval & H).
      unfold btree_ps_s_val in Hval. minv Hval.
      destruct (ps_val _ p) as [cur|] eqn:Hcur in H; [|done].
      destruct ((n <? cur) && (Z.shiftr cur 1 <=? n)) eqn:Hkeep.
      * injection H as <- <- <-. apply andb_true_iff in Hkeep as [Hlt _].
        apply Z.ltb_lt in Hlt.
        split; [by apply (valid_ptr_pos w0 p (proj1 Hwf0))|]. split; [lia|].
        split; [by left|]. split; [exact Hstay|done].
      * apply bind_Ok in H as (rp & w2 & Hm & H).
        destruct (rp =? 0) eqn:Hrp; [done|]. apply Z.eqb_neq in Hrp.
        apply _aligned_malloc_Ok in Hm as (-> & _ & Hpos & Htop & Hfree); [|done].
        apply bind_Ok in H as (r1 & w3 & Hset & H).
        destruct (negb (r1 =? 1)) eqn:Hr1; [done|].
        apply negb_false_iff, Z.eqb_eq in Hr1.
        apply btree_ps_s_set_Ok in Hset; [|done]. subst w3.
        apply bind_Ok in H as (r2 & w4 & Hrem & H).
        destruct (negb (r2 =? 1)) eqn:Hr2; [done|].
        apply negb_false_iff, Z.eqb_eq in Hr2.
        apply btree_ps_s_remove_Ok in Hrem; [|done]. subst w4.
        apply bind_Ok in H as ([] & w5 & Hpf & H). injection H as <- <- <-.
        unfold platform_free, emit, modify in Hpf. injection Hpf as <-.
        assert (Hfr : ¬ valid_ptr w0 rp)
          by (by apply (region_free_fresh w0 rp n (proj1 Hwf0))).
        assert (Hne : rp ≠ p) by (by intros ->).
        split; [done|]. split; [lia|]. split; [by right|]. split.
        2:{ intros Hk. unfold ext_keys_ok. proj_simpl.
            by apply keys_filter, (keys_cons w0). }
        intros q. unfold valid_ptr. proj_simpl. split.
        -- intros [(a & tm & Ha & Hl)|(s & Hs)].
           ++ right. split; [left; eauto|]. intros ->.
              by apply (live_not_external w0 a tm p sz (proj1 Hwf0) Ha Hl).
           ++ apply list_elem_of_filter in Hs as [Hqp Hs]. cbn in Hqp.
              apply elem_of_cons in Hs as [[= -> ->]|Hs]; [by left|].
              right. split; [right; eauto|done].
        -- intros [->|[[Hl|(s & Hs)] Hqp]].
           ++ right. exists n. apply list_elem_of_filter. split; [done|by left].
           ++ by left.
           ++ right. exists s. apply list_elem_of_filter. split; [done|by right].
  - exfalso. replace (x =? 0) with false in H by (symmetry; by apply Z.eqb_neq).
    cbn [negb] in H. apply bind_Ok in H as (tm0 & ? & Hd & H).
    apply deref_Ok in Hd as [Hd ->]. rewrite Hpools0 in Hd. congruence.
Qed.

(** The body of [tbman_s_alloc] and [tbman_s_nalloc], under the lock. *)
Lemma alloc_body_frame (sys p : Z) (cs : option Z) (ptr_given : bool) (n : Z)
    (w : tbman_s) (r g : Z) (w' : tbman_s) :
  wf w → is_size_t n → (ptr_given = true → valid_ptr w p) →
  (if n =? 0 then
     when ptr_given (tbman_s_mem_free p cs);; ret (0, 0)
   else if ptr_given then tbman_s_mem_realloc sys p cs n
   else tbman_s_mem_alloc sys n) w = Ok ((r, g), w') →
  (n = 0 → r = 0 ∧ g = 0)
  ∧ (0 < n → 0 < r ∧ n ≤ g ∧ ((ptr_given = true ∧ r = p) ∨ ¬ valid_ptr w r))
  ∧ (∀ q, valid_ptr w' q
          ↔ (0 < n ∧ q = r) ∨ (valid_ptr w q ∧ (ptr_given = true → q ≠ p)))
  ∧ (ext_keys_ok w → ext_keys_ok w').
Proof.
  intros Hwf [Hn0 _] Hv H. destruct (n =? 0) eqn:En.
  - apply Z.eqb_eq in En as ->.
    apply bind_Ok in H as ([] & w1 & Hfree & H). injection H as <- <- <-.
    split; [done|]. split; [lia|].
    destruct ptr_given; cbn [when] in Hfree.
    + destruct (tbman_s_mem_free_frame p cs w w1 Hwf (Hv eq_refl) Hfree) as [Hiff Hk].
      split; [|done]. intros q. rewrite (Hiff q). split.
      * intros [? ?]. right. done.
      * intros [[? _]|[? Hne]]; [lia|]. split; [done|by apply Hne].
    + injection Hfree as <-. split; [|done]. intros q.
      split; [by right|]. intros [[? _]|[? _]]; [lia|done].
  - apply Z.eqb_neq in En. assert (Hn : 0 < n) by lia.
    split; [done|]. destruct ptr_given.
    + destruct (tbman_s_mem_realloc_frame sys p cs n w r g w' Hwf (Hv eq_refl) Hn H)
        as (Hpos & Hng & Hor & Hiff & Hk).
      split. { intros _. split; [done|]. split; [done|]. destruct Hor; [by left|by right]. }
      split; [|done]. intros q. rewrite Hiff. split.
      * intros [->|[? ?]]; [by left|by right].
      * intros [[_ ->]|[? Hne]]; [by left|]. right. split; [done|by apply Hne].
    + destruct (tbman_s_mem_alloc_frame sys n w r g w' Hwf Hn H)
        as (Hpos & Hng & Hfr & Hiff & Hk).
      split. { intros _. split; [done|]. split; [done|]. by right. }
      split; [|done]. intros q. rewrite Hiff. split.
      * intros [->|?]; [by left|by right].
      * intros [[_ ->]|[? _]]; [by left|by right].
Qed.

Lemma tbman_s_alloc_frame (sys p n : Z) (w : tbman_s) (r g : Z) (w' : tbman_s) :
  wf w → is_size_t n → p = 0 ∨ valid_ptr w p →
  tbman_s_alloc sys p n w = Ok ((r, g), w') →
  (n = 0 → r = 0 ∧ g = 0)
  ∧ (0 < n → 0 < r ∧ n ≤ g ∧ ((p ≠ 0 ∧ r = p) ∨ ¬ valid_ptr w r))
  ∧ (∀ q, valid_ptr w' q ↔ (0 < n ∧ q = r) ∨ (valid_ptr w q ∧ q ≠ p))
  ∧ (ext_keys_ok w → ext_keys_ok w').
Proof.
  intros Hwf Hn Hp H. unfold tbman_s_alloc in H.
  apply lock_guard_Ok in H as (_ & wb & Hb & ->).
  apply (alloc_body_frame sys p None (negb (p =? 0)) n _ r g wb (wf_locked w Hwf) Hn)
    in Hb as (B1 & B2 & B3 & B4).
  2:{ intros E. apply negb_true_iff, Z.eqb_neq in E. by destruct Hp. }
  split; [done|]. split.
  - intros H0. destruct (B2 H0) as (? & ? & [[E ->]|Hfr]).
    + apply negb_true_iff, Z.eqb_neq in E. split; [done|]. split; [done|]. by left.
    + split; [done|]. split; [done|]. by right.
  - split; [|exact B4]. intros q. etrans; [exact (B3 q)|]. split.
    + intros [?|[Hq Hne]]; [by left|right]. split; [exact Hq|].
      destruct (decide (p = 0)) as [->|E].
      * pose proof (valid_ptr_pos w q (proj1 Hwf) Hq). lia.
      * apply Hne. by apply negb_true_iff, Z.eqb_neq.
    + intros [?|[Hq Hne]]; [by left|right]. split; [exact Hq|done].
Qed.

Lemma tbman_s_nalloc_frame (sys p cs n : Z) (w : tbman_s) (r g : Z) (w' : tbman_s) :
  wf w → is_size_t n → cs = 0 ∨ valid_ptr w p →
  tbman_s_nalloc sys p cs n w = Ok ((r, g), w') →
  (n = 0 → r = 0 ∧ g = 0)
  ∧ (0 < n → 0 < r ∧ n ≤ g ∧ ((cs ≠ 0 ∧ r = p) ∨ ¬ valid_ptr w r))
  ∧ (∀ q, valid_ptr w' q ↔ (0 < n ∧ q = r) ∨ (valid_ptr w q ∧ (cs ≠ 0 → q ≠ p)))
  ∧ (ext_keys_ok w → ext_keys_ok w').
Proof.
  intros Hwf Hn Hp H. unfold tbman_s_nalloc in H.
  apply lock_guard_Ok in H as (_ & wb & Hb & ->).
  apply (alloc_body_frame sys p (Some cs) (negb (cs =? 0)) n _ r g wb (wf_locked w Hwf) Hn)
    in Hb as (B1 & B2 & B3 & B4).
  2:{ intros E. apply negb_true_iff, Z.eqb_neq in E. by destruct Hp. }
  split; [done|]. split.
  - intros H0. destruct (B2 H0) as (? & ? & [[E ->]|Hfr]).
    + apply negb_true_iff, Z.eqb_neq in E. split; [done|]. split; [done|]. by left.
    + split; [done|]. split; [done|]. by right.
  - split; [|exact B4]. intros q. etrans; [exact (B3 q)|]. split.
    + intros [?|[Hq Hne]]; [by left|right]. split; [exact Hq|].
      intros E. apply Hne. by apply negb_true_iff, Z.eqb_neq.
    + intros [?|[Hq Hne]]; [by left|right]. split; [exact Hq|].
      intros E. apply Hne. by apply negb_true_iff, Z.eqb_neq in E.
Qed.

(** [alloc (p, 0)] releases a pointer the caller owns: it returns. *)
Lemma tbman_s_alloc_free_total (sys p : Z) (w : tbman_s) :
  wf w → mutex w = false → valid_ptr w p →
  ∃ w', tbman_s_alloc sys p 0 w = Ok ((0, 0), w').
Proof.
  intros Hwf Hmu Hv. pose proof (valid_ptr_pos w p (proj1 Hwf) Hv) as Hpos.
  destruct (tbman_s_mem_free_total p _ (wf_locked w Hwf) Hv) as [wb Hb].
  eexists. unfold tbman_s_alloc. apply lock_guard_intro; [done|].
  cbn [Z.eqb]. replace (p =? 0) with false by (symmetry; apply Z.eqb_neq; lia).
  cbn [negb when]. unfold bind. rewrite Hb. reflexivity.
Qed.

(** ** Introspection *)

Lemma tree_pool_outside (w : tbman_s) (p : Z) :
  wf_core w → 0 ≤ p < 2 ^ 64 →
  (∀ a tm, pools w !! a = Some tm → ¬ (a ≤ p < a + pool_size w)) →
  tree_pool p w = Ok (0, set_trace (λ l, l ++ [EvVdQuery p]) w).
Proof.
  intros Hwf Hp Hout.
  destruct (largest_below_equal_spec (internal_btree w) p) as (H0 & Hmem & Hmax).
  unfold tree_pool, btree_vd_s_largest_below_equal.
  eapply bind_intro. { mstep. mstep. reflexivity. }
  cbv beta. mstep. proj_simpl.
  destruct Hmem as [->|[Hrin Hrq]]; [done|].
  set (r := largest_below_equal (internal_btree w) p) in *.
  destruct (r =? 0) eqn:E; [done|]. apply Z.eqb_neq in E.
  replace (size_t (p - r) <? pool_size w) with false; [done|].
  symmetry. apply Z.ltb_ge. rewrite size_t_small by lia.
  apply (wf_tree w Hwf) in Hrin as [tm Hr]. specialize (Hout r tm Hr). lia.
Qed.

Lemma tbman_s_granted_space_live (w : tbman_s) (a : Z) (tm : token_manager_s) (p : Z) :
  wf_core w → pools w !! a = Some tm → tm_live a tm p →
  tbman_s_granted_space p w
  = Ok (tm_block_size tm, set_trace (λ l, l ++ [EvVdQuery p]) w).
Proof.
  intros Hwf Ha Hl. unfold tbman_s_granted_space.
  eapply bind_intro; [by apply (tree_pool_live w a tm p)|]. cbv beta.
  destruct (wf_pool w Hwf a tm Ha) as (Hok & _).
  replace (a =? 0) with false
    by (symmetry; apply Z.eqb_neq; pose proof (tm_ok_addr _ _ Hok); lia).
  cbn [negb]. mderef Ha. reflexivity.
Qed.

Lemma ps_val_head (t : list (Z * Z)) (key val : Z) : ps_val ((key, val) :: t) key = Some val.
Proof. unfold ps_val. cbn. by rewrite decide_True. Qed.

Lemma tbman_s_granted_space_val (w : tbman_s) (p sz : Z) :
  wf_core w → ps_val (external_btree w) p = Some sz →
  tbman_s_granted_space p w
  = Ok (sz, set_trace (λ l, l ++ [EvPsQuery p]) (set_trace (λ l, l ++ [EvVdQuery p]) w)).
Proof.
  intros Hwf E. unfold tbman_s_granted_space.
  eapply bind_intro; [apply (tree_pool_external w p sz Hwf); by apply ps_val_Some|].
  cbv beta. cbn [negb Z.eqb]. unfold btree_ps_s_val.
  eapply bind_intro. { mstep. mstep. reflexivity. }
  cbv beta. proj_simpl. by rewrite E.
Qed.

(** The live blocks of a pool are as many as [stack_index] says. *)
Lemma live_blocks_spec (a : Z) (tm : token_manager_s) :
  tm_ok a tm →
  NoDup (live_blocks a tm) ∧ (∀ p, p ∈ live_blocks a tm ↔ tm_live a tm p)
  ∧ Z.of_nat (length (live_blocks a tm)) = tm_stack_index tm.
Proof.
  intros Hok. pose proof (tm_ok_block _ _ Hok) as HB.
  pose proof (tm_ok_index _ _ Hok) as Hidx. unfold live_blocks.
  set (range := seqZ (tm_reserved tm) (tm_capacity tm)).
  set (L := filter (λ t, t ∉ free_tokens tm) range).
  assert (HL : ∀ t, t ∈ L ↔ tm_reserved tm ≤ t < tm_stack_len tm ∧ t ∉ free_tokens tm).
  { intros t. unfold L, range. rewrite list_elem_of_filter, elem_of_seqZ.
    unfold tm_capacity. split; intros [? ?]; (split; [done || lia|done || lia]). }
  split; [|split].
  - apply NoDup_fmap_2_strong; [|apply NoDup_filter, NoDup_seqZ].
    intros x y _ _ E. nia.
  - intros p. rewrite list_elem_of_fmap. split.
    + intros (t & -> & Ht). apply HL in Ht as [Hr Hn]. split; [|by exists t].
      destruct (decide (tm_stack_index tm = 0)) as [E|E]; [|lia].
      exfalso. by apply Hn, (free_tokens_all a).
    + intros (_ & t & -> & Hr & Hn). exists t. split; [done|]. by apply HL.
  - rewrite length_fmap.
    assert (Hfree : filter (λ t, t ∈ free_tokens tm) range ≡ₚ free_tokens tm).
    { apply NoDup_Permutation; [apply NoDup_filter, NoDup_seqZ|apply Hok|].
      intros t. unfold range. rewrite list_elem_of_filter, elem_of_seqZ. split; [by intros [? _]|].
      intros Ht. split; [done|].
      pose proof (free_tokens_range a tm t Hok Ht). unfold tm_capacity. lia. }
    pose proof (filter_app_complement (λ t, t ∈ free_tokens tm) range) as Hc.
    apply Permutation_length in Hc. rewrite length_app in Hc.
    apply Permutation_length in Hfree. rewrite Hfree, (free_tokens_length a) in Hc by done.
    unfold range in Hc at 2. rewrite length_seqZ in Hc. fold L in Hc. lia.
Qed.

Lemma tm_live_count (a : Z) (tm : token_manager_s) :
  tm_ok a tm →
  ∃ l, NoDup l ∧ (∀ p, p ∈ l ↔ tm_live a tm p)
       ∧ Z.of_nat (length l) = tm_stack_index tm.
Proof. intros Hok. exists (live_blocks a tm). by apply live_blocks_spec. Qed.

(** The callback invocations of [token_manager_s_for_each_instance]: the
    cells of the token stack below [stack_index], in order. *)
Lemma collect_over_tokens (a : Z) (tm : token_manager_s) (w : tbman_s) (l : list Z) :
  (∀ i, i ∈ l → is_Some (tm_token_stack tm !! Z.to_nat i)) →
  collect_over
    (λ i, let* token := read_token tm i in
          ret [(a + size_t (token * tm_block_size tm), tm_block_size tm)]) l w
  = Ok ((λ i, (a + size_t (default 0 (tm_token_stack tm !! Z.to_nat i) * tm_block_size tm),
               tm_block_size tm)) <$> l, w).
Proof.
  induction l as [|i l IH]; intros Hl; [done|].
  destruct (Hl i ltac:(by left)) as [t Ht].
  cbn [collect_over fmap list_fmap].
  eapply bind_intro. { mread Ht. reflexivity. }
  cbv beta. eapply bind_intro; [apply IH; intros j Hj; apply Hl; by right|].
  cbv beta. by rewrite Ht.
Qed.

Lemma token_manager_s_for_each_instance_run (a : Z) (tm : token_manager_s) (w : tbman_s) :
  pools w !! a = Some tm → tm_ok a tm →
  token_manager_s_for_each_instance a w
  = Ok ((λ i, (a + size_t (default 0 (tm_token_stack tm !! Z.to_nat i) * tm_block_size tm),
               tm_block_size tm)) <$> seqZ 0 (tm_stack_index tm), w).
Proof.
  intros Ha Hok. unfold token_manager_s_for_each_instance. mderef Ha.
  apply collect_over_tokens. intros i Hi%elem_of_seqZ.
  pose proof (tm_ok_index _ _ Hok).
  destruct (tm_ok_tokens _ _ Hok i) as (t & Ht & _); [lia|]. eauto.
Qed.

(** ** Failing under the lock *)

Lemma bind_Err {A B} (m : M A) (f : A → M B) (w : tbman_s) (e : error) :
  m w = Err e → bind m f w = Err e.
Proof. unfold bind. by intros ->. Qed.

Lemma lock_guard_Err {A} (body : M A) (w : tbman_s) (e : error) :
  mutex w = false →
  body (set_mutex true (set_trace (λ l, l ++ [EvLock]) w)) = Err e →
  lock_guard body w = Err e.
Proof.
  intros Hm Hb. unfold lock_guard. eapply bind_intro.
  { unfold lock. mstep. rewrite Hm. mstep. reflexivity. }
  by apply bind_Err.
Qed.

(** With [min_block_size] = 0 the size increment is 0 and the block size
    stays 0: the ladder loop does not end. *)
Lemma ladder_loop_stuck (fuel : nat) (mask maxB : Z) :
  0 ≤ mask → 0 ≤ maxB → ladder_loop fuel 0 mask 0 maxB = None.
Proof.
  intros Hm HB. induction fuel as [|fuel IH]; [done|].
  cbn [ladder_loop]. replace (0 <=? maxB) with true by (symmetry; apply Z.leb_le; lia).
  replace (mask <? 0) with false by (symmetry; apply Z.ltb_ge; lia).
  change (size_t (0 + 0)) with 0. by rewrite IH.
Qed.

Lemma size_mask_loop_min_zero (fuel : nat) (mask r : Z) :
  0 ≤ mask → size_mask_loop fuel mask 0 = Some r → r = mask.
Proof.
  intros Hm. destruct fuel as [|fuel]; [done|]. cbn [size_mask_loop].
  replace (mask <? 0) with false by (symmetry; apply Z.ltb_ge; lia).
  rewrite Z.land_0_r. cbn. congruence.
Qed.

(** ** Sums over the pools *)

Lemma size_t_idemp (z : Z) : size_t (size_t z) = size_t z.
Proof. unfold size_t. by rewrite Z.mod_mod. Qed.

Lemma size_t_add_l (x y : Z) : size_t (size_t x + y) = size_t (x + y).
Proof. unfold size_t. by rewrite Zplus_mod_idemp_l. Qed.

Lemma size_t_add_r (x y : Z) : size_t (x + size_t y) = size_t (x + y).
Proof. unfold size_t. by rewrite Zplus_mod_idemp_r. Qed.

Lemma sum_list_Z_mod {A} (g : A → Z) (l : list A) (s : Z) :
  size_t (s + sum_list_Z ((λ x, size_t (g x)) <$> l)) = size_t (s + sum_list_Z (g <$> l)).
Proof.
  revert s. induction l as [|x l IH]; intros s; [done|].
  cbn [fmap list_fmap sum_list_Z foldr]. fold (sum_list_Z ((λ x, size_t (g x)) <$> l)).
  fold (sum_list_Z (g <$> l)).
  rewrite !Z.add_assoc, IH, <- (Z.add_comm (size_t (g x))), <- Z.add_assoc, size_t_add_l.
  f_equal. lia.
Qed.

(** A summing loop over actions that only read. *)
Lemma sum_over_const {A} (f : A → M Z) (v : A → Z) (l : list A) (w : tbman_s) :
  (∀ x, x ∈ l → f x w = Ok (v x, w)) →
  ∀ s, size_t s = s → sum_over f l s w = Ok (size_t (s + sum_list_Z (v <$> l)), w).
Proof.
  induction l as [|x l IH]; intros Hf s Hs.
  - cbn. unfold ret. by rewrite Z.add_0_r, Hs.
  - cbn [sum_over fmap list_fmap sum_list_Z foldr]. fold (sum_list_Z (v <$> l)).
    eapply bind_intro; [apply Hf; by left|]. cbv beta.
    rewrite IH; [|intros y Hy; apply Hf; by right|apply size_t_idemp].
    by rewrite size_t_add_l, Z.add_assoc.
Qed.

(** The sum over the pools of every block manager, for a reading [leaf]
    that returns [g] of the header. *)
Lemma pools_sum_run (leaf : Z → M Z) (g : token_manager_s → Z) (w : tbman_s) :
  wf_core w →
  (∀ a tm, pools w !! a = Some tm → leaf a w = Ok (size_t (g tm), w)) →
  sum_over (λ c, let* o := get_bm c in sum_over leaf (bm_data o) 0) (seq 0 (size w)) 0 w
  = Ok (size_t (pools_sum g w), w).
Proof.
  intros Hwf Hleaf.
  set (S := λ bm : block_manager_s,
              sum_list_Z ((λ a, from_option g 0 (pools w !! a)) <$> bm_data bm)).
  rewrite (sum_over_const _ (λ c, size_t (from_option S 0 (data w !! c)))); [|
    |done].
  - f_equal. f_equal. rewrite (sum_list_Z_mod (λ c, from_option S 0 (data w !! c))).
    f_equal. rewrite Z.add_0_l. unfold pools_sum, size. f_equal.
    apply list_eq. intros i. rewrite !list_lookup_fmap.
    destruct (data w !! i) as [bm|] eqn:E.
    + rewrite lookup_seq_lt by (by eapply lookup_lt_Some). cbn. by rewrite E.
    + rewrite lookup_seq_ge by (by apply lookup_ge_None). done.
  - intros c Hc. apply elem_of_seq in Hc as [_ Hc]. unfold size in Hc.
    destruct (lookup_lt_is_Some_2 (data w) c ltac:(lia)) as [bm Hbm].
    rewrite Hbm. cbn [from_option]. mget_bm Hbm.
    rewrite (sum_over_const leaf (λ a, size_t (from_option g 0 (pools w !! a)))); [|
      |done].
    + by rewrite (sum_list_Z_mod (λ a, from_option g 0 (pools w !! a))).
    + intros a Ha. apply list_elem_of_lookup in Ha as [k Hk].
      destruct (wf_slot w Hwf c bm k a Hbm Hk) as (tm & Htm & _).
      rewrite Htm. cbn [from_option]. by apply Hleaf.
Qed.

Lemma external_sum (t : list (Z * Z)) :
  foldr (λ kv acc, snd kv + acc) 0 t = sum_list_Z (snd <$> t).
Proof. induction t as [|kv t IH]; [done|]. cbn. by rewrite IH. Qed.

Lemma tbman_s_total_alloc_run (w : tbman_s) :
  wf_core w →
  tbman_s_total_alloc w
  = Ok (size_t (external_bytes w + allocated_bytes w),
        set_trace (λ l, l ++ [EvPoolScan]) (set_trace (λ l, l ++ [EvPsRun]) w)).
Proof.
  intros Hwf. unfold tbman_s_total_alloc, tbman_s_external_total_alloc, btree_ps_s_sum.
  eapply bind_intro. { mstep. mstep. reflexivity. }
  cbv beta. proj_simpl. unfold tbman_s_internal_total_alloc.
  eapply bind_intro.
  { mstep. mstep.
    apply (pools_sum_run token_manager_s_total_alloc
             (λ tm, tm_block_size tm * tm_stack_index tm)).
    - by apply (wf_core_same w).
    - intros a tm Ha. unfold token_manager_s_total_alloc. mderef Ha. reflexivity. }
  cbv beta. unfold ret. f_equal. f_equal.
  rewrite external_sum, size_t_add_l, size_t_add_r. reflexivity.
Qed.

Lemma tbman_s_total_instances_run (w : tbman_s) :
  wf_core w →
  (let* e := tbman_s_external_total_instances in
   let* i := tbman_s_internal_total_instances in
   ret (size_t (size_t (0 + e) + i))) w
  = Ok (size_t (Z.of_nat (length (external_btree w)) + allocated_blocks w),
        set_trace (λ l, l ++ [EvPoolScan]) (set_trace (λ l, l ++ [EvPsRun]) w)).
Proof.
  intros Hwf. unfold tbman_s_external_total_instances, btree_ps_s_run.
  eapply bind_intro. { eapply bind_intro; [mstep; mstep; reflexivity|]. reflexivity. }
  cbv beta. proj_simpl. unfold tbman_s_internal_total_instances.
  eapply bind_intro.
  { mstep. mstep.
    apply (pools_sum_run token_manager_s_total_instances tm_stack_index).
    - by apply (wf_core_same w).
    - intros a tm Ha. unfold token_manager_s_total_instances. mderef Ha.
      unfold ret. f_equal. f_equal. symmetry. apply size_t_small.
      destruct (wf_pool _ ltac:(by apply (wf_core_same w)) a tm Ha) as (Hok & _).
      pose proof (tm_ok_index _ _ Hok). pose proof (tm_ok_fits _ _ Hok).
      pose proof (tm_reserved_pos a tm Hok). unfold tm_capacity in *. lia. }
  cbv beta. unfold ret. f_equal. f_equal.
  rewrite Z.add_0_l, size_t_add_l, size_t_add_r. reflexivity.
Qed.

(** ** Reallocation, branch by branch *)

(** The token manager [tbman_s_mem_realloc] finds for a pointer the caller
    owns. *)
Lemma realloc_lookup (w : tbman_s) (p : Z) (cs : option Z) (x : Z) (w0 : tbman_s) :
  wf w → valid_ptr w p →
  (if use_fast_path w cs then ret (mask_pool w p) else tree_pool p) w = Ok (x, w0) →
  same_core w w0 ∧ mutex w0 = mutex w
  ∧ ((∃ tm, pools w !! x = Some tm ∧ tm_live x tm p)
     ∨ (x = 0 ∧ ∃ sz, (p, sz) ∈ external_btree w)
     ∨ (x ≠ 0 ∧ pools w !! x = None)).
Proof.
  intros Hwf Hv Hx. destruct (use_fast_path w cs) eqn:Hfast.
  - injection Hx as <- <-. apply use_fast_path_aligned in Hfast as Hal.
    split; [apply same_core_refl|]. split; [done|].
    destruct Hv as [(a & tm & Ha & Hl)|(sz & Hq)].
    + left. rewrite (mask_pool_live w a tm p (proj1 Hwf) Hal Ha Hl). eauto.
    + destruct (decide (mask_pool w p = 0)) as [E|E]; [right; left; eauto|].
      right. right. split; [done|]. by apply (mask_pool_external w p sz (proj1 Hwf)).
  - destruct Hv as [(a & tm & Ha & Hl)|(sz & Hq)].
    + rewrite (tree_pool_live w a tm p (proj1 Hwf) Ha Hl) in Hx. injection Hx as <- <-.
      split; [by repeat split|]. split; [done|]. left. eauto.
    + rewrite (tree_pool_external w p sz (proj1 Hwf) Hq) in Hx. injection Hx as <- <-.
      split; [by repeat split|]. split; [done|]. right. left. eauto.
Qed.

Lemma find_block_manager_same (w w0 : tbman_s) (n : Z) :
  block_size_array w0 = block_size_array w →
  find_block_manager w0 n = find_block_manager w n.
Proof. unfold find_block_manager. by intros ->. Qed.

(** Reallocation of a block of a pool. *)
Lemma tbman_s_mem_realloc_internal (sys p : Z) (cs : option Z) (n : Z) (w : tbman_s)
    (a : Z) (tm : token_manager_s) (r g : Z) (w' : tbman_s) :
  wf w → pools w !! a = Some tm → tm_live a tm p → 0 < n →
  tbman_s_mem_realloc sys p cs n w = Ok ((r, g), w') →
  (r = p ↔ g = tm_block_size tm)
  ∧ match find_block_manager w n with
    | Some c => block_size_array w !! c = Some g
    | None => g = n ∧ (r, n) ∈ external_btree w'
    end.
Proof.
  intros Hwf Ha Hl Hn H. unfold tbman_s_mem_realloc in H.
  apply bind_Ok in H as (o & w00 & Hget & H). injection Hget as <- <-.
  apply bind_Ok in H as (x & w0 & Hx & H).
  assert (Hv : valid_ptr w p) by (left; eauto).
  destruct (realloc_lookup w p cs x w0 Hwf Hv Hx) as (Hsame & Hmu & Hcase).
  assert (Hwf0 : wf w0) by (by apply (wf_same w)).
  pose proof Hsame as (Hd0 & Hps0 & Hmin0 & Hmax0 & Hal0 & Hbsa0 & Htree0 & Hext0 & Hpools0).
  assert (Hxa : x = a ∧ pools w0 !! a = Some tm).
  { destruct Hcase as [(tm1 & Ha1 & Hl1)|[(-> & sz & Hq)|[Hx0 Hnone]]].
    - destruct (pool_range w x tm1 p (proj1 Hwf) Ha1 Hl1) as [R1 _].
      destruct (pool_range w a tm p (proj1 Hwf) Ha Hl) as [R2 _].
      assert (a = x) as <-
        by (apply (tm_live_unique w a x tm tm1 p (proj1 Hwf) Ha Ha1 Hl); lia).
      split; [done|]. by rewrite Hpools0.
    - exfalso. by apply (live_not_external w a tm p sz (proj1 Hwf) Ha Hl).
    - exfalso. replace (x =? 0) with false in H by (symmetry; by apply Z.eqb_neq).
      cbn [negb] in H. apply bind_Ok in H as (tm0 & ? & Hd & H).
      apply deref_Ok in Hd as [Hd ->]. rewrite Hpools0 in Hd. congruence. }
  destruct Hxa as [-> Ha0].
  destruct (wf_pool w (proj1 Hwf) a tm Ha) as (Hok & _).
  replace (a =? 0) with false in H
    by (symmetry; apply Z.eqb_neq; pose proof (tm_ok_addr _ _ Hok); lia).
  cbn [negb] in H. apply bind_Ok in H as (tm0 & ? & Hd & H).
  apply deref_Ok in Hd as [Hd ->]. assert (tm0 = tm) as -> by congruence.
  assert (Hv0 : valid_ptr w0 p) by (left; eauto).
  destruct (tm_block_size tm <? n) eqn:Hgrow.
  - apply Z.ltb_lt in Hgrow.
    apply bind_Ok in H as ([r1 g1] & w1 & Halloc & H).
    apply bind_Ok in H as ([] & w2 & Hfree & H). injection H as <- <- <-.
    destruct (tbman_s_mem_alloc_wf sys n w0 r1 g1 w1 Hwf0 Hn Halloc)
      as (Hwf1 & _ & _ & Hkeep1 & _ & Hfr & Hc).
    destruct (tbman_s_mem_alloc_frame sys n w0 r1 g1 w1 Hwf0 Hn Halloc)
      as (_ & Hng & _).
    destruct (Hkeep1 a tm Ha0) as (tm1 & Ha1 & _ & Hl1).
    destruct (token_manager_s_free_wf a p w1 tm1 Hwf1 Ha1 (Hl1 p Hl))
      as (w2' & post & Hrun & _ & Hfix & _).
    rewrite Hrun in Hfree. injection Hfree as ->.
    split. { split; [intros ->; done|lia]. }
    rewrite (find_block_manager_same w w0 n Hbsa0) in Hc. rewrite Hbsa0 in Hc.
    destruct (find_block_manager w n) as [c|]; [by destruct Hc as (_ & ? & _)|].
    destruct Hc as (-> & Hext & _). split; [done|].
    destruct Hfix as (_ & _ & _ & _ & -> & _). rewrite Hext. by left.
  - apply Z.ltb_ge in Hgrow.
    destruct (find_block_manager w n) as [c|] eqn:Hfind; [|done].
    apply bind_Ok in H as (bm & ? & Hget & H). apply get_bm_Ok in Hget as [Hc ->].
    assert (Hbb : block_size_array w !! c = Some (bm_block_size bm)).
    { by rewrite (wf_bsa w (proj1 Hwf)), list_lookup_fmap, <- Hd0, Hc. }
    destruct (bm_block_size bm =? tm_block_size tm) eqn:Esame; cbn [negb] in H.
    + apply Z.eqb_eq in Esame. injection H as <- <- <-.
      split; [done|]. by rewrite <- Esame.
    + apply Z.eqb_neq in Esame.
      apply bind_Ok in H as (r1 & w1 & Halloc & H).
      apply bind_Ok in H as ([] & w2 & Hfree & H). injection H as <- <- <-.
      destruct (block_manager_s_alloc_wf sys c w0 r1 w1 Hwf0 Halloc)
        as (_ & _ & _ & _ & _ & _ & Hfr & _).
      split; [|done]. split; [intros ->; done|done].
Qed.

(** Reallocation of an external block. *)
Lemma tbman_s_mem_realloc_external (sys p : Z) (cs : option Z) (n : Z) (w : tbman_s)
    (cur r g : Z) (w' : tbman_s) :
  wf w → ps_val (external_btree w) p = Some cur → 0 < n →
  tbman_s_mem_realloc sys p cs n w = Ok ((r, g), w') →
  if n <=? max_block_size w then
    r ≠ p ∧ (∀ sz, (p, sz) ∉ external_btree w')
    ∧ match find_block_manager w n with
      | Some c => block_size_array w !! c = Some g
      | None => g = n ∧ (r, n) ∈ external_btree w'
      end
  else if (n <? cur) && (cur / 2 <=? n) then
    r = p ∧ g = cur ∧ external_btree w' = external_btree w ∧ pools w' = pools w
  else
    r ≠ p ∧ g = n
    ∧ external_btree w' = (r, n) :: filter (λ kv, fst kv ≠ p) (external_btree w)
    ∧ pools w' = pools w.
Proof.
  intros Hwf Hcur Hn H. apply ps_val_Some in Hcur as Hq.
  unfold tbman_s_mem_realloc in H.
  apply bind_Ok in H as (o & w00 & Hget & H). injection Hget as <- <-.
  apply bind_Ok in H as (x & w0 & Hx & H).
  assert (Hv : valid_ptr w p) by (right; eauto).
  destruct (realloc_lookup w p cs x w0 Hwf Hv Hx) as (Hsame & Hmu & Hcase).
  assert (Hwf0 : wf w0) by (by apply (wf_same w)).
  pose proof Hsame as (Hd0 & Hps0 & Hmin0 & Hmax0 & Hal0 & Hbsa0 & Htree0 & Hext0 & Hpools0).
  assert (x = 0) as ->.
  { destruct Hcase as [(tm1 & Ha1 & Hl1)|[(-> & _)|[Hx0 Hnone]]]; [| done |].
    - exfalso. by apply (live_not_external w x tm1 p cur (proj1 Hwf) Ha1 Hl1).
    - exfalso. replace (x =? 0) with false in H by (symmetry; by apply Z.eqb_neq).
      cbn [negb] in H. apply bind_Ok in H as (tm0 & ? & Hd & H).
      apply deref_Ok in Hd as [Hd ->]. rewrite Hpools0 in Hd. congruence. }
  cbn [negb Z.eqb] in H. rewrite <- Hext0 in Hq.
  assert (Hv0 : valid_ptr w0 p) by (right; eauto).
  destruct (n <=? max_block_size w).
  - apply bind_Ok in H as ([r1 g1] & w1 & Halloc & H).
    destruct (tbman_s_mem_alloc_wf sys n w0 r1 g1 w1 Hwf0 Hn Halloc)
      as (Hwf1 & _ & _ & _ & Hextk & Hfr & Hc).
    apply bind_Ok in H as (r2 & w2 & Hrem & H).
    rewrite (btree_ps_s_remove_present p cur w1 (Hextk p cur Hq)) in Hrem.
    injection Hrem as <- <-. cbn [negb Z.eqb Pos.eqb] in H.
    apply bind_Ok in H as ([] & w3 & Hpf & H). injection H as <- <- <-.
    unfold platform_free, emit, modify in Hpf. injection Hpf as <-.
    assert (Hne : r1 ≠ p) by (by intros ->).
    split; [done|]. proj_simpl. split.
    { intros sz [Hk _]%list_elem_of_filter. by apply Hk. }
    rewrite (find_block_manager_same w w0 n Hbsa0) in Hc. rewrite Hbsa0 in Hc.
    destruct (find_block_manager w n) as [c|]; [by destruct Hc as (_ & ? & _)|].
    destruct Hc as (-> & Hext & _). split; [done|].
    apply list_elem_of_filter. split; [done|]. rewrite Hext. by left.
  - apply bind_Ok in H as (v & w1 & Hval & H).
    unfold btree_ps_s_val in Hval. minv Hval. proj_simpl in H.
    rewrite Hext0, Hcur in H. rewrite Z.shiftr_div_pow2 in H by lia.
    change (2 ^ 1) with 2 in H.
    destruct ((n <? cur) && (cur / 2 <=? n)).
    + injection H as <- <- <-. by repeat split.
    + apply bind_Ok in H as (rp & w2 & Hm & H).
      destruct (rp =? 0) eqn:Hrp; [done|]. apply Z.eqb_neq in Hrp.
      apply _aligned_malloc_Ok in Hm as (-> & _ & Hpos & Htop & Hfree); [|done].
      apply bind_Ok in H as (r1 & w3 & Hset & H).
      destruct (negb (r1 =? 1)) eqn:Hr1; [done|].
      apply negb_false_iff, Z.eqb_eq in Hr1.
      apply btree_ps_s_set_Ok in Hset; [|done]. subst w3.
      apply bind_Ok in H as (r2 & w4 & Hrem & H).
      destruct (negb (r2 =? 1)) eqn:Hr2; [done|].
      apply negb_false_iff, Z.eqb_eq in Hr2.
      apply btree_ps_s_remove_Ok in Hrem; [|done]. subst w4.
      apply bind_Ok in H as ([] & w5 & Hpf & H). injection H as <- <- <-.
      unfold platform_free, emit, modify in Hpf. injection Hpf as <-.
      assert (Hfr : ¬ valid_ptr w0 rp)
        by (by apply (region_free_fresh w0 rp n (proj1 Hwf0))).
      assert (Hne : rp ≠ p) by (by intros ->).
      split; [done|]. split; [done|]. proj_simpl. split; [|done].
      rewrite Hext0, filter_cons_True by done. done.
Qed.

(** ** Counting the pointers the caller owns *)

Lemma step_keys (w w' : tbman_s) :
  wf w → step w w' → ext_keys_ok w → ext_keys_ok w'.
Proof.
  intros Hwf Hstep Hk.
  destruct Hstep as [sys p n [r g] w' Hn Hp H|sys p cs n [r g] w' Hn Hp H|p r w' H|r w' H
                    |r w' H|r w' H|sys c p w' H|a tm p w' Ha Hl H].
  - destruct (tbman_s_alloc_frame sys p n w r g w' Hwf Hn Hp H) as (_ & _ & _ & K).
    by apply K.
  - destruct (tbman_s_nalloc_frame sys p cs n w r g w' Hwf Hn Hp H) as (_ & _ & _ & K).
    by apply K.
  - destruct (read_only_granted_space p w r w' H) as [(_ & _ & _ & _ & _ & _ & _ & He & _) _].
    unfold ext_keys_ok. by rewrite He.
  - destruct (lock_guard_read_only _ w r w' read_only_total_alloc H)
      as [(_ & _ & _ & _ & _ & _ & _ & He & _) _].
    unfold ext_keys_ok. by rewrite He.
  - destruct (lock_guard_read_only _ w r w' read_only_total_instances H)
      as [(_ & _ & _ & _ & _ & _ & _ & He & _) _].
    unfold ext_keys_ok. by rewrite He.
  - destruct (tbman_s_for_each_instance_same w r w' H)
      as [(_ & _ & _ & _ & _ & _ & _ & He & _) _].
    unfold ext_keys_ok. by rewrite He.
  - destruct (block_manager_s_alloc_wf sys c w p w' Hwf H)
      as (_ & (_ & _ & _ & _ & He & _) & _).
    unfold ext_keys_ok. by rewrite He.
  - destruct (token_manager_s_free_frame a p w tm w' Hwf Ha Hl H) as (_ & _ & _ & He).
    unfold ext_keys_ok. by rewrite He.
Qed.

Lemma reachable_keys (w : tbman_s) : reachable w → ext_keys_ok w.
Proof.
  induction 1 as [w Hi|w w' Hr IH Hs].
  - destruct Hi as (fuel & P & minB & maxB & m & fa & _ & _ & _ & _ & H).
    apply tbman_s_init_Ok in H
      as (_ & mask & sizes & _ & _ & _ & _ & _ & _ & _ & _ & Hext & _).
    unfold ext_keys_ok. rewrite Hext. apply NoDup_nil_2.
  - apply (step_keys w w'); [by apply reachable_wf|done|done].
Qed.

(** A concatenation without duplicates: the parts have none and parts at
    different positions share no element. *)
Lemma NoDup_bind_pos {A B} (f : A → list B) (l : list A) :
  (∀ i j x1 x2 y, l !! i = Some x1 → l !! j = Some x2 → y ∈ f x1 → y ∈ f x2 → i = j) →
  (∀ x, x ∈ l → NoDup (f x)) → NoDup (l ≫= f).
Proof.
  induction l as [|x l IH]; intros Hpos Hnd; [apply NoDup_nil_2|].
  rewrite bind_cons. apply NoDup_app. split; [apply Hnd; by left|]. split.
  - intros y Hy Hin. apply list_elem_of_bind in Hin as (x2 & Hy2 & Hx2).
    apply list_elem_of_lookup in Hx2 as [j Hj].
    by specialize (Hpos 0%nat (S j) x x2 y eq_refl Hj Hy Hy2).
  - apply IH.
    + intros i j x1 x2 y Hi Hj H1 H2.
      by injection (Hpos (S i) (S j) x1 x2 y Hi Hj H1 H2).
    + intros x' Hx'. apply Hnd. by right.
Qed.

Lemma length_bind_Z {A B} (f : A → list B) (l : list A) :
  Z.of_nat (length (l ≫= f)) = sum_list_Z ((λ x, Z.of_nat (length (f x))) <$> l).
Proof.
  induction l as [|x l IH]; [done|].
  rewrite bind_cons, length_app, Nat2Z.inj_add, IH. done.
Qed.

Lemma valid_ptr_top (w : tbman_s) (q : Z) : wf_core w → valid_ptr w q → q < 2 ^ 64.
Proof.
  intros Hwf [(a & tm & Ha & Hl)|(sz & Hq)].
  - destruct (wf_pool w Hwf a tm Ha) as (Hok & _).
    destruct (tm_live_range a tm q Hok Hl) as [_ Hhi].
    pose proof (tm_ok_top _ _ Hok). pose proof (tm_ok_block _ _ Hok). lia.
  - destruct (wf_ext w Hwf q sz Hq) as (_ & Hsz & _).
    pose proof (wf_top w Hwf q sz Hq). lia.
Qed.

Lemma pool_live_blocks_elem (w : tbman_s) (a p : Z) :
  wf_core w →
  p ∈ pool_live_blocks w a ↔ ∃ tm, pools w !! a = Some tm ∧ tm_live a tm p.
Proof.
  intros Hwf. unfold pool_live_blocks. destruct (pools w !! a) as [tm|] eqn:Ha; cbn.
  - destruct (wf_pool w Hwf a tm Ha) as (Hok & _).
    destruct (live_blocks_spec a tm Hok) as (_ & Hl & _). rewrite Hl.
    split; [eauto|]. by intros (tm' & [= <-] & ?).
  - split; [by intros ?%elem_of_nil|]. by intros (? & ? & _).
Qed.

Lemma owned_pointers_elem (w : tbman_s) (p : Z) :
  wf_core w → p ∈ owned_pointers w ↔ valid_ptr w p.
Proof.
  intros Hwf. unfold owned_pointers, valid_ptr. rewrite elem_of_app. split.
  - intros [Hin|Hin].
    + right. apply list_elem_of_fmap in Hin as ([q sz] & -> & Hin). eauto.
    + left. apply list_elem_of_bind in Hin as (bm & Hin & _).
      apply list_elem_of_bind in Hin as (a & Hin & _).
      apply (pool_live_blocks_elem w a p Hwf) in Hin as (tm & ? & ?). eauto.
  - intros [(a & tm & Ha & Hl)|(sz & Hq)].
    + right. destruct (wf_pool w Hwf a tm Ha) as (_ & _ & bm & Hc & Hk & _).
      apply list_elem_of_bind. exists bm. split; [|by eapply list_elem_of_lookup_2].
      apply list_elem_of_bind. exists a. split; [|by eapply list_elem_of_lookup_2].
      apply (pool_live_blocks_elem w a p Hwf). eauto.
    + left. apply list_elem_of_fmap. by exists (p, sz).
Qed.

Lemma owned_pointers_NoDup (w : tbman_s) :
  wf_core w → ext_keys_ok w → NoDup (owned_pointers w).
Proof.
  intros Hwf Hk. unfold owned_pointers. apply NoDup_app. split; [done|].
  assert (Hsame : ∀ a1 a2 y, y ∈ pool_live_blocks w a1 → y ∈ pool_live_blocks w a2 →
            a1 = a2).
  { intros a1 a2 y H1 H2.
    apply (pool_live_blocks_elem w a1 y Hwf) in H1 as (t1 & Ha1 & Hl1).
    apply (pool_live_blocks_elem w a2 y Hwf) in H2 as (t2 & Ha2 & Hl2).
    destruct (pool_range w a1 t1 y Hwf Ha1 Hl1) as [R1 _].
    destruct (pool_range w a2 t2 y Hwf Ha2 Hl2) as [R2 _].
    apply (tm_live_unique w a1 a2 t1 t2 y Hwf Ha1 Ha2 Hl1); lia. }
  split.
  - intros y Hy Hin. apply list_elem_of_fmap in Hy as ([q sz] & -> & Hq).
    apply list_elem_of_bind in Hin as (bm & Hin & _).
    apply list_elem_of_bind in Hin as (a & Hin & _).
    apply (pool_live_blocks_elem w a _ Hwf) in Hin as (tm & Ha & Hl).
    by apply (live_not_external w a tm q sz Hwf Ha Hl).
  - apply NoDup_bind_pos.
    + intros i j bm1 bm2 y Hi Hj H1 H2.
      apply list_elem_of_bind in H1 as (a1 & H1 & Hk1).
      apply list_elem_of_bind in H2 as (a2 & H2 & Hk2).
      assert (a1 = a2) as <- by (by apply (Hsame a1 a2 y)).
      apply list_elem_of_lookup in Hk1 as [k1 Hk1]. apply list_elem_of_lookup in Hk2 as [k2 Hk2].
      destruct (wf_slot w Hwf i bm1 k1 a1 Hi Hk1) as (t1 & Ht1 & P1 & _).
      destruct (wf_slot w Hwf j bm2 k2 a1 Hj Hk2) as (t2 & Ht2 & P2 & _).
      congruence.
    + intros bm Hbm. apply list_elem_of_lookup in Hbm as [c Hc]. apply NoDup_bind_pos.
      * intros k1 k2 a1 a2 y Hk1 Hk2 H1 H2.
        assert (a1 = a2) as <- by (by apply (Hsame a1 a2 y)).
        destruct (wf_slot w Hwf c bm k1 a1 Hc Hk1) as (t1 & Ht1 & _ & I1).
        destruct (wf_slot w Hwf c bm k2 a1 Hc Hk2) as (t2 & Ht2 & _ & I2).
        congruence.
      * intros a _. unfold pool_live_blocks.
        destruct (pools w !! a) as [tm|] eqn:Ha; cbn; [|apply NoDup_nil_2].
        destruct (wf_pool w Hwf a tm Ha) as (Hok & _).
        by destruct (live_blocks_spec a tm Hok).
Qed.

Lemma owned_pointers_length (w : tbman_s) :
  wf_core w →
  Z.of_nat (length (owned_pointers w))
  = Z.of_nat (length (external_btree w)) + allocated_blocks w.
Proof.
  intros Hwf. unfold owned_pointers, allocated_blocks, pools_sum.
  rewrite length_app, length_fmap, Nat2Z.inj_add, length_bind_Z. f_equal. f_equal.
  apply list_fmap_ext. intros _ bm _. rewrite length_bind_Z. f_equal.
  apply list_fmap_ext. intros _ a _. unfold pool_live_blocks.
  destruct (pools w !! a) as [tm|] eqn:Ha; cbn; [|done].
  destruct (wf_pool w Hwf a tm Ha) as (Hok & _).
  by destruct (live_blocks_spec a tm Hok) as (_ & _ & ?).
Qed.

Lemma owned_pointers_bound (w : tbman_s) :
  wf_core w → ext_keys_ok w → Z.of_nat (length (owned_pointers w)) < 2 ^ 64.
Proof.
  intros Hwf Hk.
  assert (Hsub : owned_pointers w ⊆+ seqZ 1 (2 ^ 64 - 1)).
  { apply NoDup_submseteq; [by apply owned_pointers_NoDup|].
    intros p Hp%(owned_pointers_elem w p Hwf). apply elem_of_seqZ.
    pose proof (valid_ptr_pos w p Hwf Hp). pose proof (valid_ptr_top w p Hwf Hp). lia. }
  apply submseteq_length in Hsub. rewrite length_seqZ in Hsub. lia.
Qed.

(** ** Walking all instances *)





Lemma tbman_s_total_instances_exact (w : tbman_s) :
  wf w → mutex w = false → ext_keys_ok w →
  tbman_s_total_instances w
  = Ok (Z.of_nat (length (owned_pointers w)),
        set_mutex false
          (set_trace (λ l, l ++ [EvUnlock])
             (set_trace (λ l, l ++ [EvPoolScan])
                (set_trace (λ l, l ++ [EvPsRun])
                   (set_mutex true (set_trace (λ l, l ++ [EvLock]) w)))))).
Proof.
  intros Hwf Hmu Hk. unfold tbman_s_total_instances.
  rewrite <- (size_t_small (Z.of_nat (length (owned_pointers w)))).
  2:{ pose proof (owned_pointers_bound w (proj1 Hwf) Hk). lia. }
  rewrite (owned_pointers_length w (proj1 Hwf)).
  apply lock_guard_intro; [done|].
  exact (tbman_s_total_instances_run _ (proj1 (wf_locked w Hwf))).
Qed.


(** ** Allocation with and without the platform *)

Lemma token_manager_s_is_full_run (a : Z) (tm : token_manager_s) (w : tbman_s) :
  pools w !! a = Some tm → tm_ok a tm →
  ∃ b, token_manager_s_is_full a w = Ok (b, w).
Proof.
  intros Ha Hok. pose proof (tm_ok_index _ _ Hok) as Hi.
  assert (Ht : ∃ t, tm_token_stack tm !! Z.to_nat (tm_stack_index tm) = Some t).
  { destruct (decide (tm_stack_index tm = tm_capacity tm)) as [E|E].
    - rewrite E. exists 0. apply Hok.
    - destruct (tm_ok_tokens _ _ Hok (tm_stack_index tm)) as (t & Ht & _); [lia|]. eauto. }
  destruct Ht as [t Ht]. exists (t =? 0).
  unfold token_manager_s_is_full. mderef Ha. mread Ht. reflexivity.
Qed.

(** A block manager with a pool that has room allocates from the pool at
    [free_index], whatever the platform would answer. *)
Lemma block_manager_s_alloc_reuse (sys : Z) (c : nat) (w : tbman_s) (bm : block_manager_s) :
  wf w → data w !! c = Some bm → (bm_free_index bm < bm_size bm)%nat →
  ∃ a tm t w' bm',
    bm_data bm !! bm_free_index bm = Some a ∧ pools w !! a = Some tm
    ∧ tm_token_stack tm !! Z.to_nat (tm_stack_index tm) = Some t
    ∧ block_manager_s_alloc sys c w = Ok (a + t * tm_block_size tm, w')
    ∧ pools w' = <[a := set_stack_index (tm_stack_index tm + 1) tm]> (pools w)
    ∧ internal_btree w' = internal_btree w ∧ external_btree w' = external_btree w
    ∧ data w' !! c = Some bm' ∧ bm_block_size bm' = bm_block_size bm
    ∧ bm_data bm' = bm_data bm.
Proof.
  intros [Hwf Hpart] Hc Hlt.
  destruct (lookup_lt_is_Some_2 (bm_data bm) (bm_free_index bm) Hlt) as [a Hk].
  destruct (wf_slot w Hwf c bm _ a Hc Hk) as (tm & Ha & _).
  destruct (wf_pool w Hwf a tm Ha) as (Hok & _).
  destruct (Hpart c bm Hc) as [_ Hp].
  assert (Hnf : ¬ tm_full tm).
  { destruct (Hp _ a tm Hk Ha) as (_ & H2 & _). by apply H2. }
  destruct (tm_ok_alloc a tm Hok Hnf) as (Hu & Hok' & t & Ht & Hrange & _).
  set (tm' := set_stack_index (tm_stack_index tm + 1) tm) in *.
  set (w2 := set_pools (λ h, <[a := tm']> h)
               (set_trace (λ l, l ++ [EvStackIndex a (tm_stack_index tm + 1)]) w)).
  assert (Ha2 : pools w2 !! a = Some tm') by (cbn; apply lookup_insert_eq).
  destruct (token_manager_s_is_full_run a tm' w2 Ha2 Hok') as [full Hfull].
  assert (Hrun : ∀ r, (when full (put_bm c (set_bm_free_index (S (bm_free_index bm)) bm));;
                       ret (a + t * tm_block_size tm)) w2 = r →
            block_manager_s_alloc sys c w = r).
  { intros r Hr. unfold block_manager_s_alloc. mget_bm Hc.
    replace (bm_free_index bm =? bm_size bm)%nat with false
      by (symmetry; apply Nat.eqb_neq; lia).
    cbn [when]. mstep. mget_bm Hc. mdata_at Hk.
    eapply bind_intro; [by apply (token_manager_s_alloc_run a w tm t)|]. cbv beta.
    rewrite Hu. fold tm' w2. eapply bind_intro; [exact Hfull|]. cbv beta. exact Hr. }
  exists a, tm, t. destruct full; cbn [when] in Hrun.
  - eexists _, (set_bm_free_index (S (bm_free_index bm)) bm).
    split; [done|]. split; [done|]. split; [done|].
    split; [apply Hrun; reflexivity|]. cbn.
    split; [done|]. split; [done|]. split; [done|].
    split; [|done]. apply list_lookup_insert_eq. by eapply lookup_lt_Some.
  - exists w2, bm. split; [done|]. split; [done|]. split; [done|].
    split; [apply Hrun; reflexivity|]. by cbn.
Qed.

(** Without memory from the platform no pool is created. *)
Lemma token_manager_s_create_null (P B : Z) (align : bool) (w : tbman_s) :
  ∃ e, token_manager_s_create 0 P B align w = Err e.
Proof.
  unfold token_manager_s_create.
  destruct (negb _); [by eexists|]. destruct (B =? 0); [by eexists|].
  destruct (65536 <? P / B); [by eexists|].
  destruct (P / B <? _); [by eexists|]. by eexists.
Qed.

(** ** Invariants of the pools *)

(** A property of the block managers and their pools that the block
    manager's [alloc] and the token manager's [free] keep is kept by every
    operation. *)
Section pool_invariant.
Variable Q : tbman_s → Prop.
Hypothesis Q_same : ∀ w w', data w' = data w → pools w' = pools w → Q w → Q w'.
Hypothesis Q_alloc : ∀ sys c w p w',
  wf w → block_manager_s_alloc sys c w = Ok (p, w') → Q w → Q w'.
Hypothesis Q_free : ∀ a p w tm w',
  wf w → pools w !! a = Some tm → tm_live a tm p →
  token_manager_s_free a p w = Ok (tt, w') → Q w → Q w'.

Lemma tbman_s_mem_alloc_inv (sys n : Z) (w : tbman_s) (p g : Z) (w' : tbman_s) :
  wf w → tbman_s_mem_alloc sys n w = Ok ((p, g), w') → Q w → Q w'.
Proof.
  intros Hwf H HQ. unfold tbman_s_mem_alloc in H.
  apply bind_Ok in H as (o & w0 & Hget & H). injection Hget as <- <-.
  destruct (find_block_manager w n) as [c|].
  - apply bind_Ok in H as (rp & w1 & Halloc & H).
    apply bind_Ok in H as (bm & ? & Hgb & H).
    apply get_bm_Ok in Hgb as [Hc ->]. injection H as <- <- <-.
    by apply (Q_alloc sys c w rp).
  - apply bind_Ok in H as (rp & w1 & Hm & H).
    destruct (rp =? 0) eqn:Hrp; [done|]. apply Z.eqb_neq in Hrp.
    apply _aligned_malloc_Ok in Hm as (-> & _); [|done].
    apply bind_Ok in H as (r1 & w3 & Hset & H).
    destruct (negb (r1 =? 1)) eqn:Hr1; [done|].
    apply negb_false_iff, Z.eqb_eq in Hr1.
    apply btree_ps_s_set_Ok in Hset; [|done]. subst w3. injection H as <- <- <-.
    by apply (Q_same w).
Qed.

Lemma tbman_s_mem_free_inv (p : Z) (cs : option Z) (w w' : tbman_s) :
  wf w → valid_ptr w p → tbman_s_mem_free p cs w = Ok (tt, w') → Q w → Q w'.
Proof.
  intros Hwf Hv H HQ. unfold tbman_s_mem_free in H.
  apply bind_Ok in H as (o & w0 & Hget & H). injection Hget as <- <-.
  assert (Hint : ∀ a tm w1, wf w1 → data w1 = data w → pools w1 = pools w →
            pools w !! a = Some tm → tm_live a tm p →
            token_manager_s_free a p w1 = Ok (tt, w') → Q w').
  { intros a tm w1 Hwf1 Hd1 Hp1 Ha Hl Hfree. rewrite <- Hp1 in Ha.
    apply (Q_free a p w1 tm w' Hwf1 Ha Hl Hfree). by apply (Q_same w). }
  destruct (use_fast_path w cs) eqn:Hfast.
  - apply use_fast_path_aligned in Hfast as Hal.
    destruct Hv as [(a & tm & Ha & Hl)|(sz & Hq)].
    + rewrite (mask_pool_live w a tm p (proj1 Hwf) Hal Ha Hl) in H.
      by apply (Hint a tm w).
    + exfalso. apply token_manager_s_free_deref in H as [? H].
      rewrite (mask_pool_external w p sz (proj1 Hwf) Hq) in H. done.
  - apply bind_Ok in H as (x & w1 & Htree & H).
    set (wq := set_trace (λ l, l ++ [EvVdQuery p]) w) in *.
    assert (Hwfq : wf wq) by (by apply wf_trace).
    destruct Hv as [(a & tm & Ha & Hl)|(sz & Hq)].
    + rewrite (tree_pool_live w a tm p (proj1 Hwf) Ha Hl) in Htree.
      injection Htree as <- <-. fold wq in H.
      destruct (wf_pool w (proj1 Hwf) a tm Ha) as (Hok & _).
      replace (a =? 0) with false in H
        by (symmetry; apply Z.eqb_neq; pose proof (tm_ok_addr _ _ Hok); lia).
      cbn [negb] in H. by apply (Hint a tm wq).
    + rewrite (tree_pool_external w p sz (proj1 Hwf) Hq) in Htree.
      injection Htree as <- <-. fold wq in H. cbn [negb Z.eqb] in H.
      apply bind_Ok in H as (r & w2 & Hrem & H).
      rewrite (btree_ps_s_remove_present p sz wq Hq) in Hrem. injection Hrem as <- <-.
      cbn [negb Z.eqb Pos.eqb] in H. unfold platform_free, emit, modify in H.
      injection H as <-. by apply (Q_same w).
Qed.

Lemma tbman_s_mem_realloc_inv (sys p : Z) (cs : option Z) (n : Z) (w : tbman_s)
    (r g : Z) (w' : tbman_s) :
  wf w → valid_ptr w p → 0 < n →
  tbman_s_mem_realloc sys p cs n w = Ok ((r, g), w') → Q w → Q w'.
Proof.
  intros Hwf Hv Hn H HQ. unfold tbman_s_mem_realloc in H.
  apply bind_Ok in H as (o & w00 & Hget & H). injection Hget as <- <-.
  apply bind_Ok in H as (x & w0 & Hx & H).
  destruct (realloc_lookup w p cs x w0 Hwf Hv Hx) as (Hsame & Hmu & Hcase).
  assert (Hwf0 : wf w0) by (by apply (wf_same w)).
  pose proof Hsame as (Hd0 & Hps0 & Hmin0 & Hmax0 & Hal0 & Hbsa0 & Htree0 & Hext0 & Hpools0).
  assert (HQ0 : Q w0) by (by apply (Q_same w)).
  destruct Hcase as [(tm & Ha & Hl)|[(-> & sz & Hq)|[Hx0 Hnone]]].
  - destruct (wf_pool w (proj1 Hwf) x tm Ha) as (Hok & _).
    replace (x =? 0) with false in H
      by (symmetry; apply Z.eqb_neq; pose proof (tm_ok_addr _ _ Hok); lia).
    cbn [negb] in H. apply bind_Ok in H as (tm0 & ? & Hd & H).
    apply deref_Ok in Hd as [Hd ->]. rewrite Hpools0 in Hd.
    assert (tm0 = tm) as -> by congruence.
    rewrite <- Hpools0 in Ha.
    destruct (tm_block_size tm <? n).
    + apply bind_Ok in H as ([r1 g1] & w1 & Halloc & H).
      apply bind_Ok in H as ([] & w2 & Hfree & H). injection H as <- <- <-.
      destruct (tbman_s_mem_alloc_wf sys n w0 r1 g1 w1 Hwf0 Hn Halloc)
        as (Hwf1 & _ & _ & Hkeep1 & _).
      destruct (Hkeep1 x tm Ha) as (tm1 & Ha1 & _ & Hl1).
      apply (Q_free x p w1 tm1 w2 Hwf1 Ha1 (Hl1 p Hl) Hfree).
      by apply (tbman_s_mem_alloc_inv sys n w0 r1 g1).
    + destruct (find_block_manager w n) as [c|]; [|done].
      apply bind_Ok in H as (bm & ? & Hget & H). apply get_bm_Ok in Hget as [Hc ->].
      destruct (negb (bm_block_size bm =? tm_block_size tm)).
      * apply bind_Ok in H as (r1 & w1 & Halloc & H).
        apply bind_Ok in H as ([] & w2 & Hfree & H). injection H as <- <- <-.
        destruct (block_manager_s_alloc_wf sys c w0 r1 w1 Hwf0 Halloc)
          as (Hwf1 & _ & _ & _ & _ & Hkeep1 & _).
        destruct (Hkeep1 x tm Ha) as (tm1 & Ha1 & _ & Hl1).
        apply (Q_free x p w1 tm1 w2 Hwf1 Ha1 (Hl1 p Hl) Hfree).
        by apply (Q_alloc sys c w0 r1).
      * by injection H as <- <- <-.
  - cbn [negb Z.eqb] in H. rewrite <- Hext0 in Hq.
    destruct (n <=? max_block_size w).
    + apply bind_Ok in H as ([r1 g1] & w1 & Halloc & H).
      destruct (tbman_s_mem_alloc_wf sys n w0 r1 g1 w1 Hwf0 Hn Halloc)
        as (Hwf1 & _ & _ & _ & Hextk & _).
      apply bind_Ok in H as (r2 & w2 & Hrem & H).
      rewrite (btree_ps_s_remove_present p sz w1 (Hextk p sz Hq)) in Hrem.
      injection Hrem as <- <-. cbn [negb Z.eqb Pos.eqb] in H.
      apply bind_Ok in H as ([] & w3 & Hpf & H). injection H as <- <- <-.
      unfold platform_free, emit, modify in Hpf. injection Hpf as <-.
      apply (Q_same w1); [done|done|].
      by apply (tbman_s_mem_alloc_inv sys n w0 r1 g1).
    + apply bind_Ok in H as (v & w1 & Hval & H).
      unfold btree_ps_s_val in Hval. minv Hval.
      destruct (ps_val _ p) as [cur|] eqn:Hcur in H; [|done].
      destruct ((n <? cur) && (Z.shiftr cur 1 <=? n)).
      * injection H as <- <- <-. by apply (Q_same w0).
      * apply bind_Ok in H as (rp & w2 & Hm & H).
        destruct (rp =? 0) eqn:Hrp; [done|]. apply Z.eqb_neq in Hrp.
        apply _aligned_malloc_Ok in Hm as (-> & _); [|done].
        apply bind_Ok in H as (r1 & w3 & Hset & H).
        destruct (negb (r1 =? 1)) eqn:Hr1; [done|].
        apply negb_false_iff, Z.eqb_eq in Hr1.
        apply btree_ps_s_set_Ok in Hset; [|done]. subst w3.
        apply bind_Ok in H as (r2 & w4 & Hrem & H).
        destruct (negb (r2 =? 1)) eqn:Hr2; [done|].
        apply negb_false_iff, Z.eqb_eq in Hr2.
        apply btree_ps_s_remove_Ok in Hrem; [|done]. subst w4.
        apply bind_Ok in H as ([] & w5 & Hpf & H). injection H as <- <- <-.
        unfold platform_free, emit, modify in Hpf. injection Hpf as <-.
        by apply (Q_same w0).
  - exfalso. replace (x =? 0) with false in H by (symmetry; by apply Z.eqb_neq).
    cbn [negb] in H. apply bind_Ok in H as (tm0 & ? & Hd & H).
    apply deref_Ok in Hd as [Hd ->]. rewrite Hpools0 in Hd. congruence.
Qed.

(** The body of [tbman_s_alloc] and [tbman_s_nalloc], under the lock. *)
Lemma alloc_body_inv (sys p : Z) (cs : option Z) (ptr_given : bool) (n : Z)
    (w : tbman_s) (r g : Z) (w' : tbman_s) :
  wf w → is_size_t n → (ptr_given = true → valid_ptr w p) →
  (if n =? 0 then
     when ptr_given (tbman_s_mem_free p cs);; ret (0, 0)
   else if ptr_given then tbman_s_mem_realloc sys p cs n
   else tbman_s_mem_alloc sys n) w = Ok ((r, g), w') →
  Q w → Q w'.
Proof.
  intros Hwf [Hn0 _] Hv H HQ. destruct (n =? 0) eqn:En.
  - apply bind_Ok in H as ([] & w1 & Hfree & H). injection H as <- <- <-.
    destruct ptr_given; cbn [when] in Hfree.
    + by apply (tbman_s_mem_free_inv p cs w w1 Hwf (Hv eq_refl)).
    + by injection Hfree as <-.
  - apply Z.eqb_neq in En. assert (Hn : 0 < n) by lia. destruct ptr_given.
    + by apply (tbman_s_mem_realloc_inv sys p cs n w r g w' Hwf (Hv eq_refl)).
    + by apply (tbman_s_mem_alloc_inv sys n w r g).
Qed.

Lemma step_inv (w w' : tbman_s) : wf w → step w w' → Q w → Q w'.
Proof.
  intros Hwf Hstep HQ.
  destruct Hstep as [sys p n [r g] w' Hn Hp H|sys p cs n [r g] w' Hn Hp H|p r w' H|r w' H
                    |r w' H|r w' H|sys c p w' H|a tm p w' Ha Hl H].
  - unfold tbman_s_alloc in H. apply lock_guard_Ok in H as (_ & wb & Hb & ->).
    apply (Q_same wb); [done|done|].
    apply (alloc_body_inv sys p None (negb (p =? 0)) n _ r g wb (wf_locked w Hwf) Hn)
      in Hb; [done| |by apply (Q_same w)].
    intros E. apply negb_true_iff, Z.eqb_neq in E. by destruct Hp.
  - unfold tbman_s_nalloc in H. apply lock_guard_Ok in H as (_ & wb & Hb & ->).
    apply (Q_same wb); [done|done|].
    apply (alloc_body_inv sys p (Some cs) (negb (cs =? 0)) n _ r g wb
             (wf_locked w Hwf) Hn) in Hb; [done| |by apply (Q_same w)].
    intros E. apply negb_true_iff, Z.eqb_neq in E. by destruct Hp.
  - destruct (read_only_granted_space p w r w' H) as [(Hd & _ & _ & _ & _ & _ & _ & _ & Hp) _].
    by apply (Q_same w).
  - destruct (lock_guard_read_only _ w r w' read_only_total_alloc H)
      as [(Hd & _ & _ & _ & _ & _ & _ & _ & Hp) _].
    by apply (Q_same w).
  - destruct (lock_guard_read_only _ w r w' read_only_total_instances H)
      as [(Hd & _ & _ & _ & _ & _ & _ & _ & Hp) _].
    by apply (Q_same w).
  - destruct (tbman_s_for_each_instance_same w r w' H)
      as [(Hd & _ & _ & _ & _ & _ & _ & _ & Hp) _].
    by apply (Q_same w).
  - by apply (Q_alloc sys c w p).
  - by apply (Q_free a p w tm).
Qed.
End pool_invariant.

(** ** No sweep is ever pending *)

Lemma data_length_fixed (w w' : tbman_s) :
  wf_core w → wf_core w' → block_size_array w' = block_size_array w →
  length (data w') = length (data w).
Proof.
  intros Hwf Hwf' Hb. rewrite (wf_bsa w Hwf), (wf_bsa w' Hwf') in Hb.
  apply (f_equal length) in Hb. by rewrite !length_fmap in Hb.
Qed.

Lemma block_manager_s_alloc_calm (sys : Z) (c : nat) (w : tbman_s) (p : Z) (w' : tbman_s) :
  wf w → block_manager_s_alloc sys c w = Ok (p, w') → sweep_calm w → sweep_calm w'.
Proof.
  intros Hwf H Hcalm.
  destruct (block_manager_s_alloc_shape sys c w p w' Hwf H)
    as (Hwf' & Hfix & _ & _ & _ & _ & _ & _ & Hempty & Hgrow).
  pose proof (keeps_bm_alloc sys c w p w' H (sweep_calm_hyst w Hcalm)) as Hh'.
  intros c' bm' Hc'. split; [by apply (Hh' c')|].
  destruct (lookup_lt_is_Some_2 (data w) c') as [bm Hc].
  { rewrite <- (data_length_fixed w w' (proj1 Hwf) (proj1 Hwf')).
    - by eapply lookup_lt_Some.
    - by destruct Hfix as (_ & _ & _ & ? & _). }
  apply (class_count_mono w w' c' bm bm' (proj1 Hwf) (proj1 Hwf') Hc Hc').
  - intros x tx' Hx Hpx He. exists tx'. split; [by apply Hempty|done].
  - intros x tx Hx Hpx Hne. destruct (Hgrow x tx Hx) as (tx' & Hx' & Hp' & Hle).
    exists tx'. split; [done|]. split; [congruence|].
    destruct (wf_pool w (proj1 Hwf) x tx Hx) as (Hok & _).
    pose proof (tm_ok_index _ _ Hok). unfold tm_empty in *. lia.
  - by destruct (Hcalm c' bm Hc).
Qed.

Lemma initial_calm (w : tbman_s) : initial w → sweep_calm w.
Proof.
  intros (fuel & P & minB & maxB & m & fa & _ & _ & _ & _ & H).
  apply tbman_s_init_Ok in H as (_ & mask & sizes & _ & _ & Hd & _).
  intros c bm Hc. rewrite Hd in Hc.
  apply list_lookup_fmap_Some in Hc as (b & -> & _).
  split; [done|]. by apply sweep_fires_eighth.
Qed.

Lemma step_calm (w w' : tbman_s) : wf w → step w w' → sweep_calm w → sweep_calm w'.
Proof.
  apply (step_inv sweep_calm sweep_calm_same block_manager_s_alloc_calm
           token_manager_s_free_calm).
Qed.

Lemma reachable_calm (w : tbman_s) : reachable w → sweep_calm w.
Proof.
  induction 1 as [w Hi|w w' Hr IH Hs]; [by apply initial_calm|].
  apply (step_calm w w'); [by apply reachable_wf|done|done].
Qed.

(** ** The example runs *)

Lemma ex_init_initial : initial ex_init.
Proof.
  exists 300%nat, 1024, 64, 256, 1, true. unfold is_size_t.
  split; [lia|]. split; [lia|]. split; [lia|]. split; [lia|]. vm_compute. reflexivity.
Qed.

Lemma ex_one_run : tbman_s_alloc 4096 0 200 ex_init = Ok ((4352, 256), ex_one).
Proof. vm_compute. reflexivity. Qed.

Lemma ex_two_run : tbman_s_alloc 0 0 200 ex_one = Ok ((4608, 256), ex_two).
Proof. vm_compute. reflexivity. Qed.

Lemma ex_init_reachable : reachable ex_init.
Proof. apply reachable_initial, ex_init_initial. Qed.

Lemma ex_one_reachable : reachable ex_one.
Proof.
  apply (reachable_step ex_init); [apply ex_init_reachable|].
  apply (step_alloc ex_init 4096 0 200 (4352, 256)); [unfold is_size_t; lia|by left|].
  apply ex_one_run.
Qed.

Lemma ex_two_reachable : reachable ex_two.
Proof.
  apply (reachable_step ex_one); [apply ex_one_reachable|].
  apply (step_alloc ex_one 0 0 200 (4608, 256)); [unfold is_size_t; lia|by left|].
  apply ex_two_run.
Qed.

Lemma ex_one_pool : pools ex_one !! 4096 = Some ex_one_tm.
Proof. vm_compute. reflexivity. Qed.

Lemma ex_two_pool :
  pools ex_two !! 4096
  = Some (TokenManager 1024 256 4 2 true 2%nat 0%nat [1; 2; 3; 0]).
Proof. vm_compute. reflexivity. Qed.

Lemma ex_one_live : tm_live 4096 ex_one_tm 4352.
Proof.
  split; [done|]. exists 1. split; [done|]. split; [by vm_compute|].
  vm_compute. intros H. repeat (apply elem_of_cons in H as [H|H]; [done|]).
  by apply elem_of_nil in H.
Qed.

Lemma ex_two_live : tm_live 4096 (TokenManager 1024 256 4 2 true 2%nat 0%nat [1; 2; 3; 0]) 4608.
Proof.
  split; [done|]. exists 2. split; [done|]. split; [by vm_compute|].
  vm_compute. intros H. repeat (apply elem_of_cons in H as [H|H]; [done|]).
  by apply elem_of_nil in H.
Qed.

Lemma ex_unaligned_init_initial : initial ex_unaligned_init.
Proof.
  exists 300%nat, 1024, 64, 256, 1, false. unfold is_size_t.
  split; [lia|]. split; [lia|]. split; [lia|]. split; [lia|]. vm_compute. reflexivity.
Qed.

Lemma ex_unaligned_one_run :
  tbman_s_alloc 4352 0 200 ex_unaligned_init = Ok ((4608, 256), ex_unaligned_one).
Proof. vm_compute. reflexivity. Qed.

Lemma ex_unaligned_freed_run :
  tbman_s_alloc 0 4608 0 ex_unaligned_one = Ok ((0, 0), ex_unaligned_freed).
Proof. vm_compute. reflexivity. Qed.

Lemma ex_unaligned_one_reachable : reachable ex_unaligned_one.
Proof.
  apply (reachable_step ex_unaligned_init);
    [apply reachable_initial, ex_unaligned_init_initial|].
  apply (step_alloc ex_unaligned_init 4352 0 200 (4608, 256));
    [unfold is_size_t; lia|by left|].
  apply ex_unaligned_one_run.
Qed.

Lemma ex_unaligned_freed_reachable : reachable ex_unaligned_freed.
Proof.
  apply (reachable_step ex_unaligned_one); [apply ex_unaligned_one_reachable|].
  apply (step_alloc ex_unaligned_one 0 4608 0 (0, 0)); [unfold is_size_t; lia| |].
  - right. left. exists 4352, (TokenManager 1024 256 4 1 false 2%nat 0%nat [1; 2; 3; 0]).
    split; [vm_compute; reflexivity|].
    split; [done|]. exists 1. split; [done|]. split; [by vm_compute|].
    vm_compute. intros H. repeat (apply elem_of_cons in H as [H|H]; [done|]).
    by apply elem_of_nil in H.
  - apply ex_unaligned_freed_run.
Qed.

Lemma ex_short_initial : initial ex_short.
Proof.
  exists 200%nat, 1024, 8, 100, 1, true. unfold is_size_t.
  split; [lia|]. split; [lia|]. split; [lia|]. split; [lia|]. vm_compute. reflexivity.
Qed.

Lemma ex_three_run : tbman_s_alloc 0 0 200 ex_two = Ok ((4864, 256), ex_three).
Proof. vm_compute. reflexivity. Qed.

Lemma ex_three_reachable : reachable ex_three.
Proof.
  apply (reachable_step ex_two); [apply ex_two_reachable|].
  apply (step_alloc ex_two 0 0 200 (4864, 256)); [unfold is_size_t; lia|by left|].
  apply ex_three_run.
Qed.

Lemma ex_emptied_wf : wf_ex ex_emptied None (Some 4096).
Proof.
  destruct (reachable_wf ex_one ex_one_reachable) as [Hwf _].
  apply (push_wf ex_one ex_emptied 4096 ex_one_tm ex_emptied_tm ex_bm None 1).
  - exact Hwf.
  - done.
  - apply ex_one_pool.
  - vm_compute. reflexivity.
  - cbn. lia.
  - done.
  - by vm_compute.
  - vm_compute. intros H. repeat (apply elem_of_cons in H as [H|H]; [done|]).
    by apply elem_of_nil in H.
  - vm_compute. reflexivity.
  - vm_compute. reflexivity.
  - reflexivity.
  - by repeat split.
  - reflexivity.
  - reflexivity.
Qed.

Lemma ex_emptied_pool : pools ex_emptied !! 4096 = Some ex_emptied_tm.
Proof. vm_compute. reflexivity. Qed.

Lemma ex_emptied_data : data ex_emptied !! 2%nat = Some ex_bm.
Proof. vm_compute. reflexivity. Qed.

Lemma ex_two_pool_tm : pools ex_two !! 4096 = Some ex_two_tm.
Proof. vm_compute. reflexivity. Qed.

Lemma ex_two_live_first : tm_live 4096 ex_two_tm 4352.
Proof.
  split; [done|]. exists 1. split; [done|]. split; [by vm_compute|].
  vm_compute. intros H. repeat (apply elem_of_cons in H as [H|H]; [done|]).
  by apply elem_of_nil in H.
Qed.

Lemma ex_two_live_second : tm_live 4096 ex_two_tm 4608.
Proof. apply ex_two_live. Qed.

Lemma ex_one_valid : valid_ptr ex_one 4352.
Proof. left. exists 4096, ex_one_tm. split; [apply ex_one_pool|apply ex_one_live]. Qed.

Lemma ex_external_run : tbman_s_alloc 8192 0 100 ex_short = Ok ((8192, 100), ex_external).
Proof. vm_compute. reflexivity. Qed.

Lemma ex_short_reachable : reachable ex_short.
Proof. apply reachable_initial, ex_short_initial. Qed.

Lemma ex_external_reachable : reachable ex_external.
Proof.
  apply (reachable_step ex_short); [apply ex_short_reachable|].
  apply (step_alloc ex_short 8192 0 100 (8192, 100)); [unfold is_size_t; lia|by left|].
  apply ex_external_run.
Qed.

Lemma ex_bm_one_run : block_manager_s_alloc 4096 2 ex_init = Ok (4352, ex_bm_one).
Proof. vm_compute. reflexivity. Qed.

Lemma ex_one_nalloc_run : tbman_s_nalloc 4096 0 0 200 ex_init = Ok ((4352, 256), ex_one).
Proof. vm_compute. reflexivity. Qed.

Lemma ex_moved_run : tbman_s_alloc 8192 4352 100 ex_one = Ok ((8320, 128), ex_moved).
Proof. vm_compute. reflexivity. Qed.

Lemma ex_external_moved_run :
  tbman_s_alloc 16384 8192 60 ex_external = Ok ((16512, 64), ex_external_moved).
Proof. vm_compute. reflexivity. Qed.

Lemma ex_external_val : ps_val (external_btree ex_external) 8192 = Some 100.
Proof. vm_compute. reflexivity. Qed.

(** * The claims *)

(** C3, the failing case: [block_manager_s_full_to_free], called on its
    own, leaves the partition broken.  In the example the pool at 4096 is
    full and sits below [free_index] = 1; after its report [free_index] is 0
    and slot 0 still holds that pool, which is still full, since
    [token_manager_s_free] decrements [stack_index] only after the report
    has returned. *)
Lemma C3_partition_fails_after_full_to_free :
  reachable ex_three
  ∧ pools ex_three !! 4096 = Some ex_three_tm ∧ tm_full ex_three_tm
  ∧ block_manager_s_full_to_free 2 4096 ex_three = Ok (tt, ex_three_reported)
  ∧ data ex_three_reported !! 2%nat
    = Some (BlockManager 1024 256 true [4096] 1 0 (1 # 8) true)
  ∧ pools ex_three_reported !! 4096 = Some ex_three_tm
  ∧ ¬ partition (pools ex_three_reported)
        (BlockManager 1024 256 true [4096] 1 0 (1 # 8) true).
Proof.
  assert (Hpool : pools ex_three_reported !! 4096 = Some ex_three_tm)
    by (vm_compute; reflexivity).
  assert (Hfull : tm_full ex_three_tm) by (vm_compute; reflexivity).
  split; [apply ex_three_reachable|]. split; [vm_compute; reflexivity|].
  split; [done|]. split; [vm_compute; reflexivity|].
  split; [vm_compute; reflexivity|]. split; [done|].
  intros [_ Hp].
  destruct (Hp 0%nat 4096 ex_three_tm eq_refl Hpool) as (_ & Hnf & _).
  apply Hnf; [cbn; lia|done|done].
Qed.

(** C3, amended: the partition holds between operations and is broken
    inside [free].  In every state reached from a fresh manager by the
    operations of the manager, by the block managers' [alloc] and by the
    token managers' [free], every block manager keeps its partition: each
    slot holds a pool, the slots below [free_index] hold full pools
    ([token_stack[stack_index] == 0]), the slots from [free_index] on hold
    pools that are not full, and an empty pool is followed by empty pools
    only, so that the empty pools are a contiguous tail of the vector.
    [block_manager_s_full_to_free], called in such a state by a full pool of
    the block manager, returns with that pool at slot [free_index] and still
    full: the partition then holds for every other slot only.  The whole
    [free], with its reports [full_to_free] and [free_to_empty], returns
    with the partition of every block manager restored. *)
Theorem C3_partition_invariant (w : tbman_s) (c : nat) (bm : block_manager_s) :
  reachable w → data w !! c = Some bm →
  ((bm_free_index bm ≤ bm_size bm)%nat
   ∧ ∀ (k : nat) (a : Z), bm_data bm !! k = Some a →
       ∃ tm, pools w !! a = Some tm
         ∧ ((k < bm_free_index bm)%nat → tm_full tm)
         ∧ ((bm_free_index bm ≤ k)%nat → ¬ tm_full tm)
         ∧ (tm_empty tm →
            ∀ (k' : nat) (a' : Z) (tm' : token_manager_s),
              (k < k')%nat → bm_data bm !! k' = Some a' → pools w !! a' = Some tm' →
              tm_empty tm'))
  ∧ (∀ (a : Z) (tm : token_manager_s),
       pools w !! a = Some tm → tm_parent tm = c → tm_full tm →
       ∃ w' bm' tm',
         block_manager_s_full_to_free c a w = Ok (tt, w')
         ∧ data w' !! c = Some bm'
         ∧ bm_data bm' !! bm_free_index bm' = Some a
         ∧ pools w' !! a = Some tm' ∧ tm_full tm'
         ∧ ¬ partition (pools w') bm'
         ∧ ∀ c2 bm2, data w' !! c2 = Some bm2 →
             partition_ex (pools w') bm2 (Some a) None)
  ∧ (∀ (a : Z) (tm : token_manager_s) (p : Z),
       pools w !! a = Some tm → tm_live a tm p →
       ∃ w', token_manager_s_free a p w = Ok (tt, w')
         ∧ ∀ c2 bm2, data w' !! c2 = Some bm2 → partition (pools w') bm2).
Proof.
  intros Hr Hc. destruct (reachable_wf w Hr) as [Hwfw _].
  pose proof Hwfw as [Hwf Hpart]. split; [|split].
  - destruct (Hpart c bm Hc) as [Hle Hp]. split; [done|].
    intros k a Hk. destruct (wf_slot w Hwf c bm k a Hc Hk) as (tm & Ha & _).
    exists tm. split; [done|]. destruct (Hp k a tm Hk Ha) as (P1 & P2 & P3).
    split; [done|]. split; [intros; by apply P2|]. intros He. by apply P3.
  - intros a tm Ha Hpar Hfull.
    destruct (block_manager_s_full_to_free_wf c a w tm Hwfw Ha Hpar Hfull)
      as (w' & Hrun & Hwfx & _ & _ & _ & _ & Hold & bm' & Hc' & Hslot).
    destruct (wf_slot w' (proj1 Hwfx) c bm' _ a Hc' Hslot) as (tm' & Ha' & _).
    destruct (Hold a tm' Ha') as (tm0 & Ha0 & _ & Hst).
    assert (tm0 = tm) as -> by congruence.
    assert (Hfull' : tm_full tm') by (by apply (tm_full_same tm tm' Hst)).
    exists w', bm', tm'. split; [done|]. split; [done|]. split; [done|].
    split; [done|]. split; [done|]. split; [|apply Hwfx].
    intros [_ Hp]. destruct (Hp _ a tm' Hslot Ha') as (_ & Hnf & _).
    by apply Hnf.
  - intros a tm p Ha Hl.
    destruct (token_manager_s_free_wf a p w tm Hwfw Ha Hl)
      as (w' & post & Hrun & Hwf' & _).
    exists w'. split; [done|]. apply Hwf'.
Qed.

(** C3 on the example with a full pool: slot 0 of the block manager of
    class 256 lies below [free_index] = 1. *)
Lemma C3_partition_invariant_witness :
  reachable ex_three
  ∧ data ex_three !! 2%nat = Some (BlockManager 1024 256 true [4096] 1 1 (1 # 8) true)
  ∧ ((1 ≤ 1)%nat
     ∧ ∀ (k : nat) (a : Z), [4096] !! k = Some a →
         ∃ tm, pools ex_three !! a = Some tm
           ∧ ((k < 1)%nat → tm_full tm)
           ∧ ((1 ≤ k)%nat → ¬ tm_full tm)
           ∧ (tm_empty tm →
              ∀ (k' : nat) (a' : Z) (tm' : token_manager_s),
                (k < k')%nat → [4096] !! k' = Some a' → pools ex_three !! a' = Some tm' →
                tm_empty tm'))
  ∧ (∀ (a : Z) (tm : token_manager_s),
       pools ex_three !! a = Some tm → tm_parent tm = 2%nat → tm_full tm →
       ∃ w' bm' tm',
         block_manager_s_full_to_free 2 a ex_three = Ok (tt, w')
         ∧ data w' !! 2%nat = Some bm'
         ∧ bm_data bm' !! bm_free_index bm' = Some a
         ∧ pools w' !! a = Some tm' ∧ tm_full tm'
         ∧ ¬ partition (pools w') bm'
         ∧ ∀ c2 bm2, data w' !! c2 = Some bm2 →
             partition_ex (pools w') bm2 (Some a) None)
  ∧ (∀ (a : Z) (tm : token_manager_s) (p : Z),
       pools ex_three !! a = Some tm → tm_live a tm p →
       ∃ w', token_manager_s_free a p ex_three = Ok (tt, w')
         ∧ ∀ c2 bm2, data w' !! c2 = Some bm2 → partition (pools w') bm2).
Proof.
  split; [apply ex_three_reachable|]. split; [vm_compute; reflexivity|].
  apply (C3_partition_invariant ex_three 2
           (BlockManager 1024 256 true [4096] 1 1 (1 # 8) true)).
  - apply ex_three_reachable.
  - vm_compute. reflexivity.
Defined.



(** C10, the failing case: the pool at 4096 of the example has one live
    block, 4352; its [free] empties the pool, the parent's sweep discards
    it, and there is no token manager left to [alloc] from. *)
Lemma C10_freed_pool_is_swept :
  ∃ w', reachable ex_one
    ∧ pools ex_one !! 4096 = Some ex_one_tm ∧ tm_live 4096 ex_one_tm 4352
    ∧ token_manager_s_free 4096 4352 ex_one = Ok (tt, w')
    ∧ pools w' !! 4096 = None
    ∧ token_manager_s_alloc 4096 w' = Err Undefined.
Proof.
  eexists. split; [apply ex_one_reachable|]. split; [apply ex_one_pool|].
  split; [apply ex_one_live|]. split; [vm_compute; reflexivity|].
  split; vm_compute; reflexivity.
Qed.

(** C10, amended: [free (p)] on a token manager, with [p] a live block of
    its pool, returns; the pool is still there afterwards if it has another
    live block; and whenever it is still there, the [alloc] that follows
    returns exactly [p]. *)
Theorem C10_free_then_alloc (w : tbman_s) (a : Z) (tm : token_manager_s) (p : Z) :
  reachable w → pools w !! a = Some tm → tm_live a tm p →
  ∃ w', token_manager_s_free a p w = Ok (tt, w')
    ∧ (tm_stack_index tm ≠ 1 → is_Some (pools w' !! a))
    ∧ (is_Some (pools w' !! a) → ∃ w'', token_manager_s_alloc a w' = Ok (p, w'')).
Proof.
  intros Hr Ha Hl. destruct (reachable_wf w Hr) as [Hwf _].
  destruct (token_manager_s_free_wf a p w tm Hwf Ha Hl)
    as (w' & post & Hrun & Hwf' & _ & _ & _ & _ & _ & Hold & Hdom & _).
  exists w'. split; [done|]. split.
  { intros Hi. apply not_eq_None_Some. rewrite (Hdom Hi). by rewrite Ha. }
  intros [tm' Ha'].
  destruct (Hold a tm' Ha') as (tm0 & Ha0 & Hst & _ & Heq).
  assert (tm0 = tm) as -> by congruence.
  destruct (Heq eq_refl) as [E1 E2].
  destruct (wf_pool w (proj1 Hwf) a tm Ha) as (Hok & _).
  destruct (wf_pool w' (proj1 Hwf') a tm' Ha') as (Hok' & _).
  destruct Hl as (Hi & t & Hp & Ht & Hnin).
  destruct (tm_ok_push a tm t Hok Hi Ht Hnin) as (_ & Hlen & _).
  pose proof (tm_ok_block _ _ Hok) as HB.
  assert (Hdiv : (p - a) / tm_block_size tm = t).
  { rewrite Hp. replace (a + t * tm_block_size tm - a) with (t * tm_block_size tm) by lia.
    apply Z.div_mul. lia. }
  rewrite Hdiv in E2. destruct Hst as (Hps & Hbs & _).
  eexists. rewrite Hp, <- Hbs.
  apply (token_manager_s_alloc_run a w' tm' t Ha' Hok').
  - rewrite E1, E2. by apply list_lookup_insert_eq.
  - unfold tm_reserved, tm_stack_len. by rewrite Hps, Hbs.
Qed.

(** C10 on the example with two live blocks: the pool survives the free
    of 4608, and the next [alloc] returns 4608. *)
Lemma C10_free_then_alloc_witness :
  ∃ w', token_manager_s_free 4096 4608 ex_two = Ok (tt, w')
    ∧ (2 ≠ 1 → is_Some (pools w' !! 4096))
    ∧ (is_Some (pools w' !! 4096) → ∃ w'', token_manager_s_alloc 4096 w' = Ok (4608, w'')).
Proof.
  apply (C10_free_then_alloc ex_two 4096
           (TokenManager 1024 256 4 2 true 2%nat 0%nat [1; 2; 3; 0]) 4608).
  - apply ex_two_reachable.
  - apply ex_two_pool.
  - apply ex_two_live.
Defined.

(** C1, the failing case: 300 bytes are more than the largest block size
    of the example, 256, so the request goes to the platform, which answers
    8192; the call [alloc (8192, 300)] that follows asks the platform for a
    new block (the test [requested_size < current_ext_bytes] fails for
    equal sizes), gets 16384, and returns it: the pointer has changed. *)
Lemma C1_external_realloc_moves :
  ∃ w1 w2, reachable ex_init
    ∧ tbman_s_alloc 8192 0 300 ex_init = Ok ((8192, 300), w1)
    ∧ tbman_s_alloc 16384 8192 300 w1 = Ok ((16384, 300), w2)
    ∧ 16384 ≠ 8192.
Proof.
  eexists _, _. split; [apply ex_init_reachable|].
  split; [vm_compute; reflexivity|]. split; [vm_compute; reflexivity|]. done.
Qed.

(** C1, amended: after [p = alloc (null, n, &g)] succeeds for a request of
    n >= 1 bytes, the call [alloc (p, n, &g')] that follows returns the same
    pointer and the same granted size when [n] is served by a size class;
    when [n] is served by the platform it returns the same granted size and
    another pointer. *)
Theorem C1_realloc_same_size (w : tbman_s) (sys n p g : Z) (w1 : tbman_s) :
  reachable w → 1 ≤ n < 2 ^ 64 →
  tbman_s_alloc sys 0 n w = Ok ((p, g), w1) →
  (is_Some (find_block_manager w n) →
     ∀ sys', ∃ w2, tbman_s_alloc sys' p n w1 = Ok ((p, g), w2))
  ∧ (find_block_manager w n = None →
     g = n ∧ ∀ sys' p' g' w2, tbman_s_alloc sys' p n w1 = Ok ((p', g'), w2) →
             g' = g ∧ p' ≠ p).
Proof.
  intros Hr Hn H. destruct (reachable_wf w Hr) as [Hwf Hmu].
  apply tbman_s_alloc_fresh in H as (_ & wb & Hb & ->); [|lia].
  set (wl := set_mutex true (set_trace (λ l, l ++ [EvLock]) w)) in *.
  assert (Hwfl : wf wl) by (by apply wf_locked).
  destruct (tbman_s_mem_alloc_wf sys n wl p g wb Hwfl ltac:(lia) Hb)
    as (Hwfb & Hcfg & _ & _ & _ & _ & Hcase).
  change (find_block_manager wl n) with (find_block_manager w n) in Hcase.
  set (w1 := set_mutex false (set_trace (λ l, l ++ [EvUnlock]) wb)).
  assert (Hwf1 : wf w1) by (by apply wf_unlocked).
  assert (Hfind1 : find_block_manager w1 n = find_block_manager w n).
  { unfold find_block_manager. destruct Hcfg as (_ & _ & _ & Hbsa & _).
    change (block_size_array w1) with (block_size_array wb). by rewrite Hbsa. }
  split.
  - intros [c Hfind] sys'. rewrite Hfind in Hcase.
    destruct Hcase as (_ & Hg & a & tm & Ha & Hpar & Hl).
    destruct (tbman_s_alloc_same_class sys' p n w1 a tm c Hwf1 eq_refl Ha Hl)
      as [w2 H2]; [lia|by rewrite Hfind1|done|].
    exists w2. rewrite H2. do 3 f_equal.
    destruct (wf_pool wb (proj1 Hwfb) a tm Ha) as (_ & _ & bm & Hc & _ & Hbs).
    rewrite Hpar in Hc. destruct Hcfg as (_ & _ & _ & Hbsa & _).
    rewrite <- Hbsa, (wf_bsa wb (proj1 Hwfb)), list_lookup_fmap, Hc in Hg.
    injection Hg as <-. done.
  - intros Hfind. rewrite Hfind in Hcase.
    destruct Hcase as (-> & Hext & _ & _ & Hp0 & _). split; [done|].
    intros sys' p' g' w2 H2. apply lock_guard_Ok in H2 as (_ & w3 & H2 & _).
    replace (n =? 0) with false in H2 by (symmetry; apply Z.eqb_neq; lia).
    replace (p =? 0) with false in H2 by (symmetry; apply Z.eqb_neq; lia).
    cbn [negb] in H2. unfold tbman_s_mem_realloc in H2.
    apply bind_Ok in H2 as (o & ? & Hget & H2). injection Hget as <- <-.
    set (wl1 := set_mutex true (set_trace (λ l, l ++ [EvLock]) w1)) in *.
    assert (Hwfl1 : wf wl1) by (by apply wf_locked).
    assert (Hin : (p, n) ∈ external_btree wl1).
    { change (external_btree wl1) with (external_btree wb). rewrite Hext. by left. }
    apply bind_Ok in H2 as (x & wq & Hx & H2).
    change (use_fast_path wl1 None) with false in Hx. cbv iota in Hx.
    rewrite (tree_pool_external wl1 p n (proj1 Hwfl1) Hin) in Hx.
    injection Hx as <- <-. cbn [negb Z.eqb] in H2.
    set (wq := set_trace (λ l, l ++ [EvVdQuery p]) wl1) in *.
    assert (Hwfq : wf wq) by (by apply wf_trace).
    destruct (n <=? max_block_size wl1).
    + apply bind_Ok in H2 as ([r1 g1] & w4 & Halloc & H2).
      destruct (tbman_s_mem_alloc_wf sys' n wq r1 g1 w4 Hwfq ltac:(lia) Halloc)
        as (_ & _ & _ & _ & _ & _ & Hcase2).
      change (find_block_manager wq n) with (find_block_manager w1 n) in Hcase2.
      rewrite Hfind1, Hfind in Hcase2.
      destruct Hcase2 as (-> & _ & _ & _ & _ & _ & _ & Hfree).
      apply bind_Ok in H2 as (r2 & w5 & _ & H2).
      destruct (negb (r2 =? 1)); [done|].
      apply bind_Ok in H2 as ([] & w6 & _ & H2). injection H2 as <- <- _.
      split; [done|]. apply region_free_spec in Hfree as [_ Hf].
      destruct (Hf p n Hin); lia.
    + apply bind_Ok in H2 as (v & w4 & Hval & H2).
      unfold btree_ps_s_val in Hval. minv Hval.
      assert (Hv : ps_val (external_btree wq) p = Some n).
      { change (external_btree wq) with (external_btree wb). rewrite Hext.
        unfold ps_val. cbn. rewrite decide_True by done. done. }
      proj_simpl in H2. change (external_btree wq) with (external_btree wb) in Hv.
      change (external_btree w1) with (external_btree wb) in H2.
      rewrite Hv in H2. rewrite Z.ltb_irrefl in H2. cbn [andb] in H2.
      apply bind_Ok in H2 as (rp & w5 & Hm & H2).
      destruct (rp =? 0) eqn:Hrp; [done|]. apply Z.eqb_neq in Hrp.
      apply _aligned_malloc_Ok in Hm as (-> & _ & _ & _ & Hfree); [|done].
      apply bind_Ok in H2 as (r1 & w6 & _ & H2). destruct (negb (r1 =? 1)); [done|].
      apply bind_Ok in H2 as (r2 & w7 & _ & H2). destruct (negb (r2 =? 1)); [done|].
      apply bind_Ok in H2 as ([] & w8 & _ & H2). injection H2 as <- <- _.
      split; [done|]. apply region_free_spec in Hfree as [_ Hf].
      destruct (Hf p n); [exact Hin|lia|lia].
Qed.

(** C1 on the example: 200 bytes are served by the class of 256 bytes. *)
Lemma C1_realloc_same_size_witness :
  is_Some (find_block_manager ex_init 200)
  ∧ (is_Some (find_block_manager ex_init 200) →
     ∀ sys', ∃ w2, tbman_s_alloc sys' 4352 200 ex_one = Ok ((4352, 256), w2))
  ∧ (find_block_manager ex_init 200 = None →
     256 = 200 ∧ ∀ sys' p' g' w2, tbman_s_alloc sys' 4352 200 ex_one = Ok ((p', g'), w2) →
                 g' = 256 ∧ p' ≠ 4352).
Proof.
  split; [by exists 2%nat|].
  apply (C1_realloc_same_size ex_init 4096 200 4352 256 ex_one).
  - apply ex_init_reachable.
  - lia.
  - apply ex_one_run.
Defined.




(** C7: [free_to_empty], called by [token_manager_s_free] for the child
    [a] that has just become empty (the manager is well formed but for the
    place of [a] in its vector), returns.  With [n] the number of empty
    pools of the block manager (the value of [empty_tail] at the test, once
    the child has joined the tail), the sweep runs if and only if
    n > (size - n) * sweep_hysteresis.  When it runs, every empty pool is
    deregistered from the pool-address tree and destroyed, no other pool
    is, and the block manager is left with the size - n pools that are not
    empty; when it does not run, no pool is destroyed.  A new block manager
    has the hysteresis 0.125. *)
Theorem C7_sweep_hysteresis (w : tbman_s) (c : nat) (a : Z) (tm : token_manager_s)
    (bm : block_manager_s) :
  wf_ex w None (Some a) → pools w !! a = Some tm → tm_parent tm = c → tm_empty tm →
  data w !! c = Some bm →
  ∃ w' evs,
    block_manager_s_free_to_empty c a w = Ok (tt, w')
    ∧ trace w' = trace w ++ EvFreeToEmpty c a :: evs
    ∧ (sweep_fires (length (empty_pools (pools w) bm)) (bm_size bm)
                   (bm_sweep_hysteresis bm) = true
       ↔ Qlt (inject_Z (Z.of_nat (bm_size bm - length (empty_pools (pools w) bm)))
              * bm_sweep_hysteresis bm)
             (inject_Z (Z.of_nat (length (empty_pools (pools w) bm)))))
    ∧ (sweep_fires (length (empty_pools (pools w) bm)) (bm_size bm)
                   (bm_sweep_hysteresis bm) = true →
         (∀ x, x ∈ empty_pools (pools w) bm →
            pools w' !! x = None ∧ (x ∉ internal_btree w')
            ∧ EvVdRemove x ∈ evs ∧ EvDiscard x ∈ evs)
         ∧ (∀ x, EvDiscard x ∈ evs → x ∈ empty_pools (pools w) bm)
         ∧ (∀ x, x ∉ empty_pools (pools w) bm → is_Some (pools w !! x) →
              is_Some (pools w' !! x))
         ∧ ∃ bm', data w' !! c = Some bm' ∧ empty_pools (pools w') bm' = []
                  ∧ bm_size bm'
                    = (bm_size bm - length (empty_pools (pools w) bm))%nat)
    ∧ (sweep_fires (length (empty_pools (pools w) bm)) (bm_size bm)
                   (bm_sweep_hysteresis bm) = false →
         evs = [] ∧ ∀ x, pools w' !! x = None ↔ pools w !! x = None)
    ∧ (∀ P B al, bm_sweep_hysteresis (block_manager_s_create P B al) = (1 # 8)%Q).
Proof.
  intros Hwf Ha Hpar He Hc.
  destruct (block_manager_s_free_to_empty_wf c a w tm bm Hwf Ha Hpar He Hc)
    as (w' & evs & Hrun & Hwf' & _ & _ & Htr & _ & _ & _ & Hfire & Hcalm).
  exists w', evs. split; [done|]. split; [done|].
  split; [apply sweep_fires_spec|]. split; [|split; [done|done]].
  intros Hf. destruct (Hfire Hf) as (Hgone & Hdis & Hrem & Hleft).
  split; [|split; [|split; [|done]]].
  - intros x Hx. assert (Hnone : pools w' !! x = None) by (apply Hgone; by right).
    split; [done|]. split; [|split; [by apply Hrem|by apply Hdis]].
    intros Hin. apply (wf_tree w' (proj1 Hwf')) in Hin as [? Hin]. congruence.
  - intros x Hx. by apply Hdis.
  - intros x Hx [tx Hpx]. apply not_eq_None_Some. intros Hnone.
    apply Hgone in Hnone as [Hnone|Hin]; [congruence|done].
Qed.

(** C7 on the example: the only pool of the block manager has become
    empty; 1 > (1 - 1) * 0.125, the sweep runs and destroys it. *)
Lemma C7_sweep_hysteresis_witness :
  ∃ w' evs,
    block_manager_s_free_to_empty 2 4096 ex_emptied = Ok (tt, w')
    ∧ trace w' = trace ex_emptied ++ EvFreeToEmpty 2 4096 :: evs
    ∧ (sweep_fires (length (empty_pools (pools ex_emptied) ex_bm)) (bm_size ex_bm)
                   (bm_sweep_hysteresis ex_bm) = true
       ↔ Qlt (inject_Z (Z.of_nat
                          (bm_size ex_bm - length (empty_pools (pools ex_emptied) ex_bm)))
              * bm_sweep_hysteresis ex_bm)
             (inject_Z (Z.of_nat (length (empty_pools (pools ex_emptied) ex_bm)))))
    ∧ (sweep_fires (length (empty_pools (pools ex_emptied) ex_bm)) (bm_size ex_bm)
                   (bm_sweep_hysteresis ex_bm) = true →
         (∀ x, x ∈ empty_pools (pools ex_emptied) ex_bm →
            pools w' !! x = None ∧ (x ∉ internal_btree w')
            ∧ EvVdRemove x ∈ evs ∧ EvDiscard x ∈ evs)
         ∧ (∀ x, EvDiscard x ∈ evs → x ∈ empty_pools (pools ex_emptied) ex_bm)
         ∧ (∀ x, x ∉ empty_pools (pools ex_emptied) ex_bm →
              is_Some (pools ex_emptied !! x) → is_Some (pools w' !! x))
         ∧ ∃ bm', data w' !! 2%nat = Some bm' ∧ empty_pools (pools w') bm' = []
                  ∧ bm_size bm'
                    = (bm_size ex_bm - length (empty_pools (pools ex_emptied) ex_bm))%nat)
    ∧ (sweep_fires (length (empty_pools (pools ex_emptied) ex_bm)) (bm_size ex_bm)
                   (bm_sweep_hysteresis ex_bm) = false →
         evs = [] ∧ ∀ x, pools w' !! x = None ↔ pools ex_emptied !! x = None)
    ∧ (∀ P B al, bm_sweep_hysteresis (block_manager_s_create P B al) = (1 # 8)%Q).
Proof.
  apply (C7_sweep_hysteresis ex_emptied 2 4096 ex_emptied_tm ex_bm).
  - apply ex_emptied_wf.
  - apply ex_emptied_pool.
  - reflexivity.
  - reflexivity.
  - apply ex_emptied_data.
Defined.

(** C8, the failing case: without full alignment the platform hands out
    a pool at 4352, which is not aligned to the pool size 1024, and the
    block manager's flag goes false; once the pool's only block is freed
    the pool is swept, the block manager holds no pool at all, and its
    flag, like the manager's, is still false. *)
Lemma C8_flag_stays_false :
  reachable ex_unaligned_freed
  ∧ data ex_unaligned_freed !! 2%nat
    = Some (BlockManager 1024 256 false [] 1 0 (1 # 8) false)
  ∧ pools ex_unaligned_freed = ∅
  ∧ aligned ex_unaligned_freed = false.
Proof.
  split; [apply ex_unaligned_freed_reachable|].
  split; [vm_compute; reflexivity|]. split; vm_compute; reflexivity.
Qed.

(** C8, amended: in every reachable state, a block manager whose aligned
    flag is true holds only pools whose address is aligned to the pool
    size (the converse fails: the flag never goes back to true), and the
    manager's aligned flag is true if and only if the flag of every block
    manager is true. *)
Theorem C8_aligned_flags (w : tbman_s) :
  reachable w →
  (∀ c bm a, data w !! c = Some bm → bm_aligned bm = true → a ∈ bm_data bm →
     is_Some (pools w !! a) ∧ Z.land a (size_t (pool_size w - 1)) = 0)
  ∧ (aligned w = true ↔ ∀ c bm, data w !! c = Some bm → bm_aligned bm = true).
Proof.
  intros Hr. destruct (reachable_wf w Hr) as [[Hwf _] _]. split.
  - intros c bm a Hc Hal Hin. pose proof Hin as Hin'.
    apply list_elem_of_lookup_1 in Hin' as [k Hk].
    destruct (wf_slot w Hwf c bm k a Hc Hk) as (tm & Ha & _).
    split; [eauto|].
    pose proof (wf_bm_aligned w Hwf c bm a tm Hc Hal Hin Ha) as Ht.
    destruct (wf_pool w Hwf a tm Ha) as (Hok & HP & _).
    rewrite (tm_ok_aligned _ _ Hok), HP in Ht. by apply Z.eqb_eq.
  - rewrite (wf_aligned w Hwf), forallb_forall. split.
    + intros H c bm Hc. apply H, list_elem_of_In. by eapply list_elem_of_lookup_2.
    + intros H bm Hin. apply list_elem_of_In, list_elem_of_lookup_1 in Hin as [c Hc].
      by apply (H c).
Qed.

(** C8 on the example with two live blocks. *)
Lemma C8_aligned_flags_witness :
  (∀ c bm a, data ex_two !! c = Some bm → bm_aligned bm = true → a ∈ bm_data bm →
     is_Some (pools ex_two !! a) ∧ Z.land a (size_t (pool_size ex_two - 1)) = 0)
  ∧ (aligned ex_two = true ↔ ∀ c bm, data ex_two !! c = Some bm → bm_aligned bm = true).
Proof. apply (C8_aligned_flags ex_two), ex_two_reachable. Defined.

(** C5, the failing case: a pool of 262144 bytes with blocks of 4 bytes
    has a stack size of 65536, which passes the test [stack_size > 0x10000]
    but does not fit the 16-bit field [stack_size]: the field holds 0, the
    initialising loop runs zero times, no cell of the token stack is
    written, and [is_full] reads a cell that was never initialised. *)
Lemma C5_stack_size_wraps :
  ∃ w' tm,
    token_manager_s_create 262144 262144 4 true blank = Ok (262144, w')
    ∧ pools w' !! 262144 = Some tm
    ∧ tm_pool_size tm / tm_block_size tm = 65536
    ∧ tm_stack_size tm = 0
    ∧ tm_token_stack tm = []
    ∧ token_manager_s_is_full 262144 w' = Err Undefined.
Proof.
  eexists _, _. split; [vm_compute; reflexivity|].
  split; [vm_compute; reflexivity|]. split; [vm_compute; reflexivity|].
  split; [vm_compute; reflexivity|]. split; vm_compute; reflexivity.
Qed.

(** C9, the failing case: [granted_space] looks the pointer up in the
    pool-address tree without taking the mutex: the log of the call on the
    example shows the tree query and no lock, whereas the log of
    [total_granted_space] on the same state stays guarded. *)
Lemma C9_granted_space_takes_no_lock :
  ∃ w' w'' total,
    reachable ex_one
    ∧ guarded (trace ex_one) = true
    ∧ tbman_s_granted_space 4352 ex_one = Ok (256, w')
    ∧ trace w' = trace ex_one ++ [EvVdQuery 4352]
    ∧ guarded (trace w') = false
    ∧ tbman_s_total_granted_space ex_one = Ok (total, w'')
    ∧ guarded (trace w'') = true.
Proof.
  eexists _, _, _. split; [apply ex_one_reachable|].
  split; [vm_compute; reflexivity|]. split; [vm_compute; reflexivity|].
  split; [vm_compute; reflexivity|]. split; [vm_compute; reflexivity|].
  split; vm_compute; reflexivity.
Qed.

(** * Further properties of the manager *)

(** ** The registry of pools *)

(** X1: in every reachable state the three registries of pools agree.
    Every slot of every block manager's vector holds a pool whose header
    points back at that block manager and that slot ([parent],
    [parent_index]) and has the block manager's block size and the
    manager's pool size; every pool sits in the slot its header names; and
    the pool-address tree holds exactly the addresses of the pools. *)
Theorem X1_registry_invariant (w : tbman_s) :
  reachable w →
  (∀ c bm k a, data w !! c = Some bm → bm_data bm !! k = Some a →
     ∃ tm, pools w !! a = Some tm ∧ tm_parent tm = c ∧ tm_parent_index tm = k
           ∧ tm_block_size tm = bm_block_size bm ∧ tm_pool_size tm = pool_size w)
  ∧ (∀ a tm, pools w !! a = Some tm →
       ∃ bm, data w !! tm_parent tm = Some bm
             ∧ bm_data bm !! tm_parent_index tm = Some a)
  ∧ (∀ a, a ∈ internal_btree w ↔ is_Some (pools w !! a)).
Proof.
  intros Hr. destruct (reachable_wf w Hr) as [[Hwf _] _]. split; [|split].
  - intros c bm k a Hc Hk.
    destruct (wf_slot w Hwf c bm k a Hc Hk) as (tm & Ha & Hp & Hi).
    destruct (wf_pool w Hwf a tm Ha) as (_ & HP & bm' & Hc' & _ & HB).
    exists tm. repeat split; try done.
    rewrite Hp in Hc'. by assert (bm' = bm) as -> by congruence.
  - intros a tm Ha. destruct (wf_pool w Hwf a tm Ha) as (_ & _ & bm & Hc & Hk & _). eauto.
  - apply (wf_tree w Hwf).
Qed.

(** X1 on the example with a full pool. *)
Lemma X1_registry_invariant_witness :
  (∀ c bm k a, data ex_three !! c = Some bm → bm_data bm !! k = Some a →
     ∃ tm, pools ex_three !! a = Some tm ∧ tm_parent tm = c ∧ tm_parent_index tm = k
           ∧ tm_block_size tm = bm_block_size bm ∧ tm_pool_size tm = pool_size ex_three)
  ∧ (∀ a tm, pools ex_three !! a = Some tm →
       ∃ bm, data ex_three !! tm_parent tm = Some bm
             ∧ bm_data bm !! tm_parent_index tm = Some a)
  ∧ (∀ a, a ∈ internal_btree ex_three ↔ is_Some (pools ex_three !! a)).
Proof. apply (X1_registry_invariant ex_three), ex_three_reachable. Defined.

(** ** The token stack of a pool *)

(** X2: the header of every pool of a reachable state is consistent.  The
    16-bit field [stack_size] holds [pool_size / block_size], which is at
    most 65535; [stack_index] lies between 0 and the capacity (the stack
    size less the reserved blocks); the pool is full, that is
    [token_stack[stack_index] == 0], exactly when [stack_index] has reached
    the capacity; and the tokens from [stack_index] up to the sentinel, the
    free blocks, are pairwise distinct and each names a block behind the
    reserved ones. *)
Theorem X2_token_stack_invariant (w : tbman_s) (a : Z) (tm : token_manager_s) :
  reachable w → pools w !! a = Some tm →
  tm_stack_size tm = tm_pool_size tm / tm_block_size tm
  ∧ tm_pool_size tm / tm_block_size tm ≤ 65535
  ∧ 1 ≤ tm_reserved tm
  ∧ 0 ≤ tm_stack_index tm ≤ tm_capacity tm
  ∧ (tm_full tm ↔ tm_stack_index tm = tm_capacity tm)
  ∧ tm_token_stack tm !! Z.to_nat (tm_capacity tm) = Some 0
  ∧ NoDup (free_tokens tm)
  ∧ length (free_tokens tm) = Z.to_nat (tm_capacity tm - tm_stack_index tm)
  ∧ ∀ t, t ∈ free_tokens tm → tm_reserved tm ≤ t < tm_pool_size tm / tm_block_size tm.
Proof.
  intros Hr Ha. destruct (reachable_wf w Hr) as [[Hwf _] _].
  destruct (wf_pool w Hwf a tm Ha) as (Hok & _).
  split; [apply Hok|]. split; [apply Hok|]. split; [by apply (tm_reserved_pos a)|].
  split; [apply Hok|]. split; [by apply (tm_full_iff a)|]. split; [apply Hok|].
  split; [apply Hok|]. split; [by apply (free_tokens_length a)|].
  intros t Ht. by apply (free_tokens_range a).
Qed.

(** X2 on the example with one live block. *)
Lemma X2_token_stack_invariant_witness :
  tm_stack_size ex_one_tm = tm_pool_size ex_one_tm / tm_block_size ex_one_tm
  ∧ tm_pool_size ex_one_tm / tm_block_size ex_one_tm ≤ 65535
  ∧ 1 ≤ tm_reserved ex_one_tm
  ∧ 0 ≤ tm_stack_index ex_one_tm ≤ tm_capacity ex_one_tm
  ∧ (tm_full ex_one_tm ↔ tm_stack_index ex_one_tm = tm_capacity ex_one_tm)
  ∧ tm_token_stack ex_one_tm !! Z.to_nat (tm_capacity ex_one_tm) = Some 0
  ∧ NoDup (free_tokens ex_one_tm)
  ∧ length (free_tokens ex_one_tm)
    = Z.to_nat (tm_capacity ex_one_tm - tm_stack_index ex_one_tm)
  ∧ ∀ t, t ∈ free_tokens ex_one_tm →
         tm_reserved ex_one_tm ≤ t < tm_pool_size ex_one_tm / tm_block_size ex_one_tm.
Proof.
  apply (X2_token_stack_invariant ex_one 4096 ex_one_tm);
    [apply ex_one_reachable|apply ex_one_pool].
Defined.

(** X3: [stack_index] counts the allocated blocks.  For every pool of a
    reachable state there is a duplicate-free list of exactly the blocks of
    the pool that are allocated; [token_manager_s_total_instances] returns
    its length, and [token_manager_s_total_alloc] its length times the
    block size (without wrap-around), both without changing the state. *)
Theorem X3_total_instances_counts_live_blocks (w : tbman_s) (a : Z) (tm : token_manager_s) :
  reachable w → pools w !! a = Some tm →
  ∃ l, NoDup l ∧ (∀ p, p ∈ l ↔ tm_live a tm p)
    ∧ token_manager_s_total_instances a w = Ok (Z.of_nat (length l), w)
    ∧ token_manager_s_total_alloc a w = Ok (Z.of_nat (length l) * tm_block_size tm, w).
Proof.
  intros Hr Ha. destruct (reachable_wf w Hr) as [[Hwf _] _].
  destruct (wf_pool w Hwf a tm Ha) as (Hok & _).
  destruct (tm_live_count a tm Hok) as (l & Hnd & Hl & Hlen).
  exists l. split; [done|]. split; [done|].
  unfold token_manager_s_total_instances, token_manager_s_total_alloc, bind, deref.
  rewrite Ha. unfold ret. rewrite Hlen. split; [done|].
  rewrite size_t_small; [by rewrite Z.mul_comm|].
  pose proof (tm_ok_index _ _ Hok) as Hi. pose proof (tm_ok_block _ _ Hok) as HB.
  pose proof (tm_reserved_pos a tm Hok) as Hres.
  destruct (tm_ok_pow2 _ _ Hok) as (k & Hk & HP).
  assert (tm_pool_size tm < 2 ^ 64) by (rewrite HP; apply Z.pow_lt_mono_r; lia).
  assert (0 ≤ tm_pool_size tm) by (rewrite HP; apply Z.pow_nonneg; lia).
  pose proof (Z.mul_div_le (tm_pool_size tm) (tm_block_size tm) HB) as Hle.
  fold (tm_stack_len tm) in Hle. unfold tm_capacity in Hi. nia.
Qed.

(** X3 on the example with two live blocks. *)
Lemma X3_total_instances_counts_live_blocks_witness :
  ∃ l, NoDup l ∧ (∀ p, p ∈ l ↔ tm_live 4096 ex_two_tm p)
    ∧ token_manager_s_total_instances 4096 ex_two = Ok (Z.of_nat (length l), ex_two)
    ∧ token_manager_s_total_alloc 4096 ex_two
      = Ok (Z.of_nat (length l) * tm_block_size ex_two_tm, ex_two).
Proof.
  apply (X3_total_instances_counts_live_blocks ex_two 4096 ex_two_tm);
    [apply ex_two_reachable|apply ex_two_pool_tm].
Defined.

(** ** Where the blocks lie *)

(** X4: an allocated block of a pool lies wholly inside the pool, behind
    the pool header and the token stack (of [stack_size] 16-bit cells), at
    a whole number of blocks from the pool's address; the pool itself lies
    inside the 64-bit address space. *)
Theorem X4_block_inside_pool (w : tbman_s) (a : Z) (tm : token_manager_s) (p : Z) :
  reachable w → pools w !! a = Some tm → tm_live a tm p →
  a + sizeof_token_manager_s + 2 * tm_stack_size tm ≤ p
  ∧ p + tm_block_size tm ≤ a + pool_size w
  ∧ (p - a) mod tm_block_size tm = 0
  ∧ 0 < a ∧ a + pool_size w ≤ 2 ^ 64.
Proof.
  intros Hr Ha Hl. destruct (reachable_wf w Hr) as [[Hwf _] _].
  destruct (wf_pool w Hwf a tm Ha) as (Hok & HP & _).
  pose proof (tm_ok_block _ _ Hok) as HB.
  pose proof (tm_reserved_covers a tm Hok) as Hcov.
  destruct (tm_live_range a tm p Hok Hl) as [_ Hhi].
  destruct Hl as (_ & t & -> & Hr' & _).
  rewrite (tm_ok_size _ _ Hok). rewrite <- HP.
  split; [nia|]. split; [done|]. split.
  - replace (a + t * tm_block_size tm - a) with (t * tm_block_size tm) by lia.
    by apply Z.mod_mul, Z.neq_sym, Z.lt_neq.
  - split; [apply Hok|apply Hok].
Qed.

(** X4 on the example with one live block. *)
Lemma X4_block_inside_pool_witness :
  4096 + sizeof_token_manager_s + 2 * tm_stack_size ex_one_tm ≤ 4352
  ∧ 4352 + tm_block_size ex_one_tm ≤ 4096 + pool_size ex_one
  ∧ (4352 - 4096) mod tm_block_size ex_one_tm = 0
  ∧ 0 < 4096 ∧ 4096 + pool_size ex_one ≤ 2 ^ 64.
Proof.
  apply (X4_block_inside_pool ex_one 4096 ex_one_tm 4352);
    [apply ex_one_reachable|apply ex_one_pool|apply ex_one_live].
Defined.

(** X5: the blocks the manager has handed out do not overlap.  In a
    reachable state two different allocated blocks of pools, each with the
    block size of its pool, are disjoint, and an allocated block of a pool
    is disjoint from every registered external block. *)
Theorem X5_blocks_disjoint (w : tbman_s) (a b : Z) (ta tb : token_manager_s) (p q : Z) :
  reachable w → pools w !! a = Some ta → pools w !! b = Some tb →
  tm_live a ta p → tm_live b tb q →
  (p ≠ q → p + tm_block_size ta ≤ q ∨ q + tm_block_size tb ≤ p)
  ∧ (∀ e sz, (e, sz) ∈ external_btree w → p + tm_block_size ta ≤ e ∨ e + sz ≤ p).
Proof.
  intros Hr Ha Hb Hp Hq. destruct (reachable_wf w Hr) as [[Hwf _] _].
  destruct (wf_pool w Hwf a ta Ha) as (Hoka & HPa & _).
  destruct (wf_pool w Hwf b tb Hb) as (Hokb & HPb & _).
  destruct (tm_live_range a ta p Hoka Hp) as [Hpl Hph].
  destruct (tm_live_range b tb q Hokb Hq) as [Hql Hqh].
  unfold sizeof_token_manager_s in *. split.
  - intros Hne. destruct (decide (a = b)) as [->|Hab].
    + assert (ta = tb) as -> by congruence.
      pose proof (tm_ok_block _ _ Hokb) as HB.
      destruct Hp as (_ & t & -> & _), Hq as (_ & t' & -> & _).
      assert (t ≠ t') by (intros ->; done). nia.
    + assert (Hia : a ∈ internal_btree w) by (apply (wf_tree w Hwf); eauto).
      assert (Hib : b ∈ internal_btree w) by (apply (wf_tree w Hwf); eauto).
      destruct (wf_apart w Hwf a b Hia Hib Hab); lia.
  - intros e sz He. destruct (wf_ext w Hwf e sz He) as (_ & _ & Hap).
    assert (Hia : a ∈ internal_btree w) by (apply (wf_tree w Hwf); eauto).
    destruct (Hap a Hia); lia.
Qed.

(** X5 on the example with two live blocks. *)
Lemma X5_blocks_disjoint_witness :
  (4352 ≠ 4608 → 4352 + tm_block_size ex_two_tm ≤ 4608
                  ∨ 4608 + tm_block_size ex_two_tm ≤ 4352)
  ∧ (∀ e sz, (e, sz) ∈ external_btree ex_two →
       4352 + tm_block_size ex_two_tm ≤ e ∨ e + sz ≤ 4352).
Proof.
  apply (X5_blocks_disjoint ex_two 4096 4096 ex_two_tm ex_two_tm 4352 4608);
    [apply ex_two_reachable|apply ex_two_pool_tm|apply ex_two_pool_tm
    |apply ex_two_live_first|apply ex_two_live_second].
Defined.

(** ** The pointers the caller owns *)

(** X6: what [tbman_s_alloc] does to the set of pointers the caller owns
    (the allocated blocks of pools and the registered external blocks).
    Called in a reachable state with null or a pointer the caller owns, a
    call that returns gives back null and the granted size 0 when
    [requested_size] is 0; otherwise it gives back a non-null pointer and a
    granted size of at least [requested_size], and the pointer is either a
    block nobody owned before or, on reallocation, the old pointer itself.
    Afterwards the caller owns exactly the returned block (when a size was
    requested) and every pointer it owned before except [current_ptr]: no
    other block is released or handed out. *)
Theorem X6_alloc_owned_pointers (w : tbman_s) (sys p n r g : Z) (w' : tbman_s) :
  reachable w → is_size_t n → p = 0 ∨ valid_ptr w p →
  tbman_s_alloc sys p n w = Ok ((r, g), w') →
  (n = 0 → r = 0 ∧ g = 0)
  ∧ (0 < n → 0 < r ∧ n ≤ g ∧ ((p ≠ 0 ∧ r = p) ∨ ¬ valid_ptr w r))
  ∧ (∀ q, valid_ptr w' q ↔ (0 < n ∧ q = r) ∨ (valid_ptr w q ∧ q ≠ p)).
Proof.
  intros Hr Hn Hp H. destruct (reachable_wf w Hr) as [Hwf _].
  destruct (tbman_s_alloc_frame sys p n w r g w' Hwf Hn Hp H) as (F1 & F2 & F3 & _).
  done.
Qed.

(** X6 on the first allocation of the example. *)
Lemma X6_alloc_owned_pointers_witness :
  (200 = 0 → 4352 = 0 ∧ 256 = 0)
  ∧ (0 < 200 → 0 < 4352 ∧ 200 ≤ 256 ∧ ((0 ≠ 0 ∧ 4352 = 0) ∨ ¬ valid_ptr ex_init 4352))
  ∧ (∀ q, valid_ptr ex_one q ↔ (0 < 200 ∧ q = 4352) ∨ (valid_ptr ex_init q ∧ q ≠ 0)).
Proof.
  apply (X6_alloc_owned_pointers ex_init 4096 0 200 4352 256 ex_one).
  - apply ex_init_reachable.
  - unfold is_size_t. lia.
  - by left.
  - apply ex_one_run.
Defined.

(** X7: [tbman_s_nalloc] does the same to the set of pointers the caller
    owns, with [current_size] = 0 in the role of the null pointer: a call
    that returns in a reachable state, given [current_size] = 0 or a
    pointer the caller owns, grants at least the requested size, returns a
    block nobody owned or the old pointer, and leaves every other pointer
    of the caller as it was. *)
Theorem X7_nalloc_owned_pointers (w : tbman_s) (sys p cs n r g : Z) (w' : tbman_s) :
  reachable w → is_size_t n → cs = 0 ∨ valid_ptr w p →
  tbman_s_nalloc sys p cs n w = Ok ((r, g), w') →
  (n = 0 → r = 0 ∧ g = 0)
  ∧ (0 < n → 0 < r ∧ n ≤ g ∧ ((cs ≠ 0 ∧ r = p) ∨ ¬ valid_ptr w r))
  ∧ (∀ q, valid_ptr w' q ↔ (0 < n ∧ q = r) ∨ (valid_ptr w q ∧ (cs ≠ 0 → q ≠ p))).
Proof.
  intros Hr Hn Hp H. destruct (reachable_wf w Hr) as [Hwf _].
  destruct (tbman_s_nalloc_frame sys p cs n w r g w' Hwf Hn Hp H) as (F1 & F2 & F3 & _).
  done.
Qed.

(** X7 on the first allocation of the example, through [nalloc]. *)
Lemma X7_nalloc_owned_pointers_witness :
  (200 = 0 → 4352 = 0 ∧ 256 = 0)
  ∧ (0 < 200 → 0 < 4352 ∧ 200 ≤ 256 ∧ ((0 ≠ 0 ∧ 4352 = 0) ∨ ¬ valid_ptr ex_init 4352))
  ∧ (∀ q, valid_ptr ex_one q
          ↔ (0 < 200 ∧ q = 4352) ∨ (valid_ptr ex_init q ∧ (0 ≠ 0 → q ≠ 0))).
Proof.
  apply (X7_nalloc_owned_pointers ex_init 4096 0 0 200 4352 256 ex_one).
  - apply ex_init_reachable.
  - unfold is_size_t. lia.
  - by left.
  - apply ex_one_nalloc_run.
Defined.

(** X8: releasing a pointer the caller owns always works.  In a reachable
    state [tbman_s_alloc (p, 0)] with [p] an allocated block of a pool or a
    registered external block returns null and the granted size 0, whatever
    the platform would answer; afterwards [p] is no longer owned and every
    other pointer is owned exactly if it was before. *)
Theorem X8_free_returns (w : tbman_s) (sys p : Z) :
  reachable w → valid_ptr w p →
  ∃ w', tbman_s_alloc sys p 0 w = Ok ((0, 0), w')
    ∧ ¬ valid_ptr w' p
    ∧ (∀ q, q ≠ p → (valid_ptr w' q ↔ valid_ptr w q)).
Proof.
  intros Hr Hv. destruct (reachable_wf w Hr) as [Hwf Hmu].
  destruct (tbman_s_alloc_free_total sys p w Hwf Hmu Hv) as [w' H].
  exists w'. split; [done|].
  destruct (tbman_s_alloc_frame sys p 0 w 0 0 w' Hwf) as (_ & _ & Hiff & _);
    [unfold is_size_t; lia|by right|done|].
  split.
  - intros Hq. apply Hiff in Hq as [[? _]|[_ ?]]; [lia|done].
  - intros q Hne. rewrite Hiff. split.
    + intros [[? _]|[? _]]; [lia|done].
    + intros Hq. by right.
Qed.

(** X8 on the example with one live block. *)
Lemma X8_free_returns_witness :
  ∃ w', tbman_s_alloc 0 4352 0 ex_one = Ok ((0, 0), w')
    ∧ ¬ valid_ptr w' 4352
    ∧ (∀ q, q ≠ 4352 → (valid_ptr w' q ↔ valid_ptr ex_one q)).
Proof.
  apply (X8_free_returns ex_one 0 4352); [apply ex_one_reachable|apply ex_one_valid].
Defined.

(** X9: [token_manager_s_free], with [ptr] an allocated block of the pool,
    releases that block and nothing else: it returns, and afterwards the
    caller owns exactly the pointers it owned before except [ptr], also
    when the parent's sweep destroys pools on the way. *)
Theorem X9_token_manager_free_frame (w : tbman_s) (a : Z) (tm : token_manager_s) (p : Z) :
  reachable w → pools w !! a = Some tm → tm_live a tm p →
  ∃ w', token_manager_s_free a p w = Ok (tt, w')
    ∧ ∀ q, valid_ptr w' q ↔ valid_ptr w q ∧ q ≠ p.
Proof.
  intros Hr Ha Hl. destruct (reachable_wf w Hr) as [Hwf _].
  destruct (token_manager_s_free_wf a p w tm Hwf Ha Hl) as (w' & post & Hrun & _).
  exists w'. split; [done|].
  destruct (token_manager_s_free_frame a p w tm w' Hwf Ha Hl Hrun) as (F1 & F2 & F3 & _).
  intros q. split.
  - intros Hq. split; [by apply F3|]. by intros ->.
  - intros [Hq Hne]. by apply F1.
Qed.

(** X9 on the example with two live blocks: 4352 is released. *)
Lemma X9_token_manager_free_frame_witness :
  ∃ w', token_manager_s_free 4096 4352 ex_two = Ok (tt, w')
    ∧ ∀ q, valid_ptr w' q ↔ valid_ptr ex_two q ∧ q ≠ 4352.
Proof.
  apply (X9_token_manager_free_frame ex_two 4096 ex_two_tm 4352);
    [apply ex_two_reachable|apply ex_two_pool_tm|apply ex_two_live_first].
Defined.

(** X10: [block_manager_s_alloc], when it returns in a reachable state,
    hands out one block and nothing else: the block was not owned before,
    it is now an allocated block of a pool of this block manager, with the
    block manager's block size, and the caller owns exactly this block and
    the pointers it owned before. *)
Theorem X10_block_manager_alloc_frame (w : tbman_s) (sys : Z) (c : nat) (p : Z)
    (w' : tbman_s) :
  reachable w → block_manager_s_alloc sys c w = Ok (p, w') →
  ¬ valid_ptr w p
  ∧ (∃ a tm bm, pools w' !! a = Some tm ∧ tm_parent tm = c ∧ tm_live a tm p
                ∧ data w !! c = Some bm ∧ tm_block_size tm = bm_block_size bm)
  ∧ (∀ q, valid_ptr w' q ↔ q = p ∨ valid_ptr w q).
Proof.
  intros Hr H. destruct (reachable_wf w Hr) as [Hwf _].
  destruct (block_manager_s_alloc_wf sys c w p w' Hwf H)
    as (Hwf' & Hfix & (a & tm & Ha & Hpar & Hl) & Hmono & _ & _ & Hfresh & Hback).
  split; [done|]. split.
  - destruct (wf_pool w' (proj1 Hwf') a tm Ha) as (_ & _ & bm' & Hc' & _ & HB).
    rewrite Hpar in Hc'.
    assert (Hbsa : block_size_array w !! c = Some (bm_block_size bm')).
    { destruct Hfix as (_ & _ & _ & <- & _).
      by rewrite (wf_bsa w' (proj1 Hwf')), list_lookup_fmap, Hc'. }
    rewrite (wf_bsa w (proj1 Hwf)), list_lookup_fmap in Hbsa.
    destruct (data w !! c) as [bm|] eqn:Hc; [|done]. injection Hbsa as Hbsa.
    exists a, tm, bm. split; [done|]. split; [done|]. split; [done|]. split; [done|].
    congruence.
  - intros q. split; [apply Hback|]. intros [->|Hq]; [left; eauto|by apply Hmono].
Qed.

(** X10 on the example: the block manager of class 256 of the fresh manager. *)
Lemma X10_block_manager_alloc_frame_witness :
  ¬ valid_ptr ex_init 4352
  ∧ (∃ a tm bm, pools ex_bm_one !! a = Some tm ∧ tm_parent tm = 2%nat ∧ tm_live a tm 4352
                ∧ data ex_init !! 2%nat = Some bm ∧ tm_block_size tm = bm_block_size bm)
  ∧ (∀ q, valid_ptr ex_bm_one q ↔ q = 4352 ∨ valid_ptr ex_init q).
Proof.
  apply (X10_block_manager_alloc_frame ex_init 4096 2 4352 ex_bm_one);
    [apply ex_init_reachable|apply ex_bm_one_run].
Defined.

(** ** Asking for the size of a block *)

(** X11: [tbman_s_granted_space] gives back what [tbman_s_alloc] granted.
    After a fresh allocation of n >= 1 bytes in a reachable state has
    returned the pointer [p] and the granted size [g], the query
    [tbman_s_granted_space (p)] returns [g], for a block of a pool (found
    through the pool-address tree) as for an external block (found in the
    external tree), and changes nothing but the log. *)
Theorem X11_granted_space_after_alloc (w : tbman_s) (sys n p g : Z) (w' : tbman_s) :
  reachable w → 1 ≤ n < 2 ^ 64 →
  tbman_s_alloc sys 0 n w = Ok ((p, g), w') →
  ∃ w'', tbman_s_granted_space p w' = Ok (g, w'') ∧ same_core w' w''.
Proof.
  intros Hr Hn H. destruct (reachable_wf w Hr) as [Hwf Hmu].
  apply tbman_s_alloc_fresh in H as (_ & wb & Hb & ->); [|lia].
  set (wl := set_mutex true (set_trace (λ l, l ++ [EvLock]) w)) in *.
  assert (Hwfl : wf wl) by (by apply wf_locked).
  destruct (tbman_s_mem_alloc_wf sys n wl p g wb Hwfl ltac:(lia) Hb)
    as (Hwfb & Hcfg & _ & _ & _ & _ & Hcase).
  set (w' := set_mutex false (set_trace (λ l, l ++ [EvUnlock]) wb)).
  assert (Hwf' : wf w') by (by apply wf_unlocked).
  destruct (find_block_manager wl n) as [c|].
  - destruct Hcase as (_ & Hg & a & tm & Ha & Hpar & Hl).
    destruct (wf_pool wb (proj1 Hwfb) a tm Ha) as (_ & _ & bm & Hc & _ & HB).
    assert (Hgb : g = tm_block_size tm).
    { destruct Hcfg as (_ & _ & _ & Hbsa & _). rewrite <- Hbsa in Hg.
      rewrite (wf_bsa wb (proj1 Hwfb)), list_lookup_fmap, <- Hpar, Hc in Hg.
      injection Hg as <-. done. }
    eexists. split;
      [rewrite Hgb; by apply (tbman_s_granted_space_live w' a tm p (proj1 Hwf'))
      |by repeat split].
  - destruct Hcase as (-> & Hext & _).
    eexists. split; [apply (tbman_s_granted_space_val w' p n (proj1 Hwf'))|by repeat split].
    change (external_btree w') with (external_btree wb). rewrite Hext. apply ps_val_head.
Qed.

(** X11 on the first allocation of the example. *)
Lemma X11_granted_space_after_alloc_witness :
  ∃ w'', tbman_s_granted_space 4352 ex_one = Ok (256, w'') ∧ same_core ex_one w''.
Proof.
  apply (X11_granted_space_after_alloc ex_init 4096 200 4352 256 ex_one).
  - apply ex_init_reachable.
  - lia.
  - apply ex_one_run.
Defined.

(** ** From a pointer to its pool *)

(** X12: both ways [tbman_s_mem_free] finds the token manager of a block
    end at the same pool.  For an allocated block [p] of the pool at [a]
    in a reachable state, the search in the pool-address tree returns [a];
    when the manager is aligned, masking the pointer with
    [~(pool_size - 1)] gives [a] as well; and so [tbman_s_mem_free], with or
    without a size hint, is [token_manager_s_free] on the pool at [a] (in a
    state that differs by the log of the tree query at most). *)
Theorem X12_pool_of_block (w : tbman_s) (a : Z) (tm : token_manager_s) (p : Z) :
  reachable w → pools w !! a = Some tm → tm_live a tm p →
  tree_pool p w = Ok (a, set_trace (λ l, l ++ [EvVdQuery p]) w)
  ∧ (aligned w = true → mask_pool w p = a)
  ∧ ∀ cs, ∃ w0, same_core w w0 ∧ mutex w0 = mutex w
      ∧ tbman_s_mem_free p cs w = token_manager_s_free a p w0.
Proof.
  intros Hr Ha Hl. destruct (reachable_wf w Hr) as [[Hwf _] _].
  pose proof (tree_pool_live w a tm p Hwf Ha Hl) as Htree.
  split; [done|]. split; [intros Hal; by apply (mask_pool_live w a tm)|].
  intros cs. unfold tbman_s_mem_free, bind, get.
  destruct (use_fast_path w cs) eqn:Hfast.
  - apply use_fast_path_aligned in Hfast.
    exists w. split; [apply same_core_refl|]. split; [done|].
    by rewrite (mask_pool_live w a tm p Hwf Hfast Ha Hl).
  - rewrite Htree. destruct (wf_pool w Hwf a tm Ha) as (Hok & _).
    replace (a =? 0) with false
      by (symmetry; apply Z.eqb_neq; pose proof (tm_ok_addr _ _ Hok); lia).
    eexists. split; [|split; [|reflexivity]]; [by repeat split|done].
Qed.

(** X12 on the example with one live block. *)
Lemma X12_pool_of_block_witness :
  tree_pool 4352 ex_one = Ok (4096, set_trace (λ l, l ++ [EvVdQuery 4352]) ex_one)
  ∧ (aligned ex_one = true → mask_pool ex_one 4352 = 4096)
  ∧ ∀ cs, ∃ w0, same_core ex_one w0 ∧ mutex w0 = mutex ex_one
      ∧ tbman_s_mem_free 4352 cs ex_one = token_manager_s_free 4096 4352 w0.
Proof.
  apply (X12_pool_of_block ex_one 4096 ex_one_tm 4352);
    [apply ex_one_reachable|apply ex_one_pool|apply ex_one_live].
Defined.

(** ** What no operation changes *)

(** X13: no operation changes the configuration of the manager.  Across
    every step from a reachable state (a public entry point, a block
    manager's [alloc], a token manager's [free]) the pool size, the minimal
    and the maximal block size and the array of block sizes stay as
    [tbman_s_init] set them; the mutex is free before and after the step;
    and the manager's [aligned] flag, once false, stays false. *)
Theorem X13_configuration_is_fixed (w w' : tbman_s) :
  reachable w → step w w' →
  pool_size w' = pool_size w
  ∧ min_block_size w' = min_block_size w ∧ max_block_size w' = max_block_size w
  ∧ block_size_array w' = block_size_array w
  ∧ mutex w = false ∧ mutex w' = false
  ∧ (aligned w = false → aligned w' = false).
Proof.
  intros Hr Hstep. destruct (reachable_wf w Hr) as [Hwf Hmu].
  destruct (step_wf w w' Hwf Hmu Hstep) as (_ & Hmu' & (H1 & H2 & H3 & H4 & _) & Hlatch).
  repeat (split; [done|]). intros Hal.
  destruct (aligned w') eqn:E; [|done]. rewrite Hlatch in Hal; done.
Qed.

(** X13 on the first allocation of the example. *)
Lemma X13_configuration_is_fixed_witness :
  pool_size ex_one = pool_size ex_init
  ∧ min_block_size ex_one = min_block_size ex_init
  ∧ max_block_size ex_one = max_block_size ex_init
  ∧ block_size_array ex_one = block_size_array ex_init
  ∧ mutex ex_init = false ∧ mutex ex_one = false
  ∧ (aligned ex_init = false → aligned ex_one = false).
Proof.
  apply (X13_configuration_is_fixed ex_init ex_one); [apply ex_init_reachable|].
  apply (step_alloc ex_init 4096 0 200 (4352, 256)); [unfold is_size_t; lia|by left|].
  apply ex_one_run.
Defined.

(** ** Errors *)

(** X14: releasing a pointer the manager does not know is a fatal error.
    In a reachable state, [tbman_s_alloc (p, 0)] with a non-null [p] that
    lies in no pool and is no key of the external tree finds no token
    manager, fails to remove [p] from the external tree and stops with the
    error of an attempt to free invalid memory. *)
Theorem X14_free_of_unknown_pointer (w : tbman_s) (sys p : Z) :
  reachable w → 0 < p < 2 ^ 64 →
  (∀ a tm, pools w !! a = Some tm → ¬ (a ≤ p < a + pool_size w)) →
  (∀ sz, (p, sz) ∉ external_btree w) →
  tbman_s_alloc sys p 0 w = Err Fatal.
Proof.
  intros Hr Hp Hout Hext. destruct (reachable_wf w Hr) as [Hwf Hmu].
  unfold tbman_s_alloc. apply lock_guard_Err; [done|].
  set (wl := set_mutex true (set_trace (λ l, l ++ [EvLock]) w)).
  assert (Hwfl : wf wl) by (by apply wf_locked).
  cbn [Z.eqb]. replace (p =? 0) with false by (symmetry; apply Z.eqb_neq; lia).
  cbn [negb when]. apply bind_Err. unfold tbman_s_mem_free.
  eapply bind_intro; [reflexivity|]. cbv beta. cbn [use_fast_path].
  eapply bind_intro; [apply (tree_pool_outside wl p (proj1 Hwfl)); [lia|exact Hout]|].
  cbv beta. cbn [negb Z.eqb]. apply bind_intro with (a := 0)
    (w1 := set_trace (λ l, l ++ [EvPsRemove p]) (set_trace (λ l, l ++ [EvVdQuery p]) wl));
    [|done].
  unfold btree_ps_s_remove. eapply bind_intro; [reflexivity|]. cbv beta.
  eapply bind_intro; [reflexivity|]. cbv beta. proj_simpl.
  change (external_btree wl) with (external_btree w).
  by rewrite (proj2 (ps_val_None (external_btree w) p) Hext).
Qed.

(** X14 on the example with one pool, at 4096: the pointer 12288 was never
    handed out. *)
Lemma X14_free_of_unknown_pointer_witness :
  tbman_s_alloc 0 12288 0 ex_one = Err Fatal.
Proof.
  apply (X14_free_of_unknown_pointer ex_one 0 12288).
  - apply ex_one_reachable.
  - lia.
  - intros a tm Ha.
    assert (E : pools ex_one = {[4096 := ex_one_tm]}) by (vm_compute; reflexivity).
    rewrite E in Ha. apply lookup_singleton_Some in Ha as [<- _].
    vm_compute. intros [_ H]. discriminate H.
  - intros sz H. vm_compute in H. by apply elem_of_nil in H.
Defined.

(** X15: two configurations for which [tbman_s_init] never returns.  With
    the stepping method 0 (and a minimal block size of at least 1) the
    size mask is 0 and shifting never raises it; with a minimal block size
    of 0 the size increment is 0 and the block size never passes
    [max_block_size].  In both cases no amount of fuel yields a manager. *)
Theorem X15_init_never_returns (P minB maxB m : Z) (full_align : bool) :
  (m = 0 ∧ 1 ≤ minB) ∨ (minB = 0 ∧ 0 ≤ m ∧ 0 ≤ maxB) →
  ¬ ∃ fuel w, tbman_s_init fuel P minB maxB m full_align = Ok w.
Proof.
  intros Hcfg (fuel & w & H). unfold tbman_s_init in H.
  destruct (31 <=? m); [done|].
  destruct Hcfg as [[-> HB]|(-> & Hm & Hmax)].
  - cbn in H. by rewrite size_mask_loop_zero in H.
  - destruct (size_mask_loop fuel (Z.shiftl 1 m - 1) 0) as [mask|] eqn:E; [|done].
    apply size_mask_loop_min_zero in E as ->.
    + rewrite ladder_loop_stuck in H; [done| |done].
      rewrite Z.shiftl_1_l. pose proof (Z.pow_pos_nonneg 2 m). lia.
    + rewrite Z.shiftl_1_l. pose proof (Z.pow_pos_nonneg 2 m). lia.
Qed.

(** X15 on the default configuration with [min_block_size] = 0. *)
Lemma X15_init_never_returns_witness :
  ¬ ∃ fuel w, tbman_s_init fuel default_pool_size 0 default_max_block_size
                default_stepping_method default_full_align = Ok w.
Proof.
  apply (X15_init_never_returns default_pool_size 0 default_max_block_size
           default_stepping_method default_full_align).
  right. unfold default_stepping_method, default_max_block_size. lia.
Defined.

(** ** Walking the instances *)

(** X16: [token_manager_s_for_each_instance] reports the cells of the
    token stack below [stack_index], and [free] does not keep those cells
    in step with the allocated blocks.  In a reachable state, take a pool
    with at least two allocated blocks and free the block [p] whose token
    is in cell 0 of the stack (the block the pool handed out first): the
    free returns, [p] is no longer owned, and the walk over the pool that
    follows returns, makes [stack_index - 1] reports, and still reports
    [p] as an instance of [block_size] bytes. *)
Theorem X16_for_each_instance_reports_freed_block (w : tbman_s) (a : Z)
    (tm : token_manager_s) (p : Z) :
  reachable w → pools w !! a = Some tm → tm_live a tm p →
  2 ≤ tm_stack_index tm →
  tm_token_stack tm !! 0%nat = Some ((p - a) / tm_block_size tm) →
  ∃ w' l w'',
    token_manager_s_free a p w = Ok (tt, w')
    ∧ ¬ valid_ptr w' p
    ∧ token_manager_s_for_each_instance a w' = Ok (l, w'')
    ∧ Z.of_nat (length l) = tm_stack_index tm - 1
    ∧ (p, tm_block_size tm) ∈ l.
Proof.
  intros Hr Ha Hl Hidx H0. destruct (reachable_wf w Hr) as [Hwf _].
  destruct (token_manager_s_free_wf a p w tm Hwf Ha Hl)
    as (w' & post & Hrun & Hwf' & _ & _ & _ & _ & _ & Hold & Hdom & _).
  destruct (token_manager_s_free_frame a p w tm w' Hwf Ha Hl Hrun) as (_ & Hgone & _).
  destruct (pools w' !! a) as [tm'|] eqn:Ha'.
  2:{ apply (Hdom ltac:(lia)) in Ha'. congruence. }
  destruct (Hold a tm' Ha') as (tz & Hz & (_ & HB & _) & _ & Heq).
  assert (tz = tm) as -> by congruence. destruct (Heq eq_refl) as [Ei Es].
  destruct (wf_pool w (proj1 Hwf) a tm Ha) as (Hok & _).
  destruct (wf_pool w' (proj1 Hwf') a tm' Ha') as (Hok' & _).
  pose proof (tm_ok_block _ _ Hok) as HBpos.
  exists w'. eexists. exists w'. split; [done|]. split; [done|].
  split; [by apply token_manager_s_for_each_instance_run|].
  split; [rewrite length_fmap, length_seqZ, Ei; lia|].
  apply list_elem_of_fmap. exists 0. split; [|apply elem_of_seqZ; lia].
  rewrite Es, list_lookup_insert_ne by lia. change (Z.to_nat 0) with 0%nat.
  rewrite H0, HB. cbn [default]. f_equal.
  destruct Hl as (_ & t & -> & Hrange & _).
  replace (a + t * tm_block_size tm - a) with (t * tm_block_size tm) by lia.
  rewrite Z.div_mul by lia. unfold id.
  destruct (tm_token_in_pool a tm t Hok Hrange) as (-> & _). done.
Qed.

(** X16 on the example with two live blocks, 4352 and 4608: after the free
    of 4352 the walk over the pool reports 4352, the freed block. *)
Lemma X16_for_each_instance_reports_freed_block_witness :
  ∃ w' l w'',
    token_manager_s_free 4096 4352 ex_two = Ok (tt, w')
    ∧ ¬ valid_ptr w' 4352
    ∧ token_manager_s_for_each_instance 4096 w' = Ok (l, w'')
    ∧ Z.of_nat (length l) = tm_stack_index ex_two_tm - 1
    ∧ (4352, tm_block_size ex_two_tm) ∈ l.
Proof.
  apply (X16_for_each_instance_reports_freed_block ex_two 4096 ex_two_tm 4352).
  - apply ex_two_reachable.
  - apply ex_two_pool_tm.
  - apply ex_two_live_first.
  - vm_compute. discriminate.
  - vm_compute. reflexivity.
Defined.

(** ** The size hint of [nalloc] *)

(** X17: the fast path of [tbman_s_mem_free] trusts the size hint.  When
    the manager is aligned, an external block whose registered size does
    not exceed [max_block_size] (a request between the largest block size
    of the ladder and [max_block_size] is served externally) cannot be
    released through [tbman_s_nalloc] with its own size as [current_size]:
    the pointer is masked with [~(pool_size - 1)] and the result, which is
    no pool, is dereferenced as a token manager. *)
Theorem X17_nalloc_free_of_small_external_block (w : tbman_s) (sys p sz : Z) :
  reachable w → aligned w = true →
  (p, sz) ∈ external_btree w → sz ≤ max_block_size w →
  pools w !! mask_pool w p = None
  ∧ tbman_s_nalloc sys p sz 0 w = Err Undefined.
Proof.
  intros Hr Hal Hq Hsz. destruct (reachable_wf w Hr) as [Hwf Hmu].
  pose proof (mask_pool_external w p sz (proj1 Hwf) Hq) as Hnone.
  split; [done|].
  destruct (wf_ext w (proj1 Hwf) p sz Hq) as (_ & Hpos & _).
  unfold tbman_s_nalloc. apply lock_guard_Err; [done|].
  cbn [Z.eqb]. replace (sz =? 0) with false by (symmetry; apply Z.eqb_neq; lia).
  cbn [negb when]. apply bind_Err. unfold tbman_s_mem_free.
  eapply bind_intro; [reflexivity|]. cbv beta.
  unfold use_fast_path. proj_simpl.
  replace (sz <=? max_block_size w) with true by (symmetry; by apply Z.leb_le).
  rewrite Hal. cbn [andb].
  unfold token_manager_s_free. apply bind_Err. unfold deref. proj_simpl.
  change (mask_pool _ p) with (mask_pool w p). by rewrite Hnone.
Qed.

(** X17 on the example with the short ladder: the block of 100 =
    [max_block_size] bytes at 8192 is external. *)
Lemma X17_nalloc_free_of_small_external_block_witness :
  pools ex_external !! mask_pool ex_external 8192 = None
  ∧ tbman_s_nalloc 0 8192 100 0 ex_external = Err Undefined.
Proof.
  apply (X17_nalloc_free_of_small_external_block ex_external 0 8192 100).
  - apply ex_external_reachable.
  - vm_compute. reflexivity.
  - vm_compute. by left.
  - vm_compute. discriminate.
Defined.

(** ** The totals *)

(** X18: [tbman_s_total_granted_space] returns, in every reachable state,
    the sum of the registered sizes of the external blocks and, over all
    pools of all block managers, of the block size times the number of
    allocated blocks, reduced modulo 2^64 as [size_t] sums are; it takes
    and releases the mutex and changes nothing else but the log. *)
Theorem X18_total_granted_space (w : tbman_s) :
  reachable w →
  ∃ w', tbman_s_total_granted_space w
        = Ok (size_t (external_bytes w + allocated_bytes w), w')
    ∧ same_core w w' ∧ mutex w' = false.
Proof.
  intros Hr. destruct (reachable_wf w Hr) as [Hwf Hmu].
  eexists. split; [|split].
  - unfold tbman_s_total_granted_space. apply lock_guard_intro; [done|].
    exact (tbman_s_total_alloc_run _ (proj1 (wf_locked w Hwf))).
  - by repeat split.
  - done.
Qed.

(** X18 on the example with two live blocks of 256 bytes. *)
Lemma X18_total_granted_space_witness :
  ∃ w', tbman_s_total_granted_space ex_two
        = Ok (size_t (external_bytes ex_two + allocated_bytes ex_two), w')
    ∧ same_core ex_two w' ∧ mutex w' = false.
Proof. apply (X18_total_granted_space ex_two), ex_two_reachable. Defined.

(** X19: [tbman_s_total_instances] counts the pointers the caller owns.
    In every reachable state the keys of the external tree and the
    allocated blocks of all pools make a duplicate-free list of exactly the
    pointers the caller owns; [tbman_s_total_instances] returns the length
    of that list, without wrap-around (there are fewer than 2^64 such
    pointers); it takes and releases the mutex and changes nothing else but
    the log. *)
Theorem X19_total_instances_counts_owned_pointers (w : tbman_s) :
  reachable w →
  NoDup (owned_pointers w)
  ∧ (∀ p, p ∈ owned_pointers w ↔ valid_ptr w p)
  ∧ Z.of_nat (length (owned_pointers w)) < 2 ^ 64
  ∧ ∃ w', tbman_s_total_instances w = Ok (Z.of_nat (length (owned_pointers w)), w')
      ∧ same_core w w' ∧ mutex w' = false.
Proof.
  intros Hr. destruct (reachable_wf w Hr) as [Hwf Hmu].
  pose proof (reachable_keys w Hr) as Hk.
  split; [by apply owned_pointers_NoDup; [apply Hwf|]|].
  split; [intros p; apply owned_pointers_elem, Hwf|].
  split; [by apply owned_pointers_bound; [apply Hwf|]|].
  eexists. split; [by apply tbman_s_total_instances_exact|]. by repeat split.
Qed.

(** X19 on the example with two live blocks. *)
Lemma X19_total_instances_counts_owned_pointers_witness :
  NoDup (owned_pointers ex_two)
  ∧ (∀ p, p ∈ owned_pointers ex_two ↔ valid_ptr ex_two p)
  ∧ Z.of_nat (length (owned_pointers ex_two)) < 2 ^ 64
  ∧ ∃ w', tbman_s_total_instances ex_two
          = Ok (Z.of_nat (length (owned_pointers ex_two)), w')
      ∧ same_core ex_two w' ∧ mutex w' = false.
Proof. apply (X19_total_instances_counts_owned_pointers ex_two), ex_two_reachable. Defined.

(** ** Reallocation *)

(** X20: reallocating a block of a pool.  When [tbman_s_alloc (p, n)] with
    [p] an allocated block of a pool and n >= 1 returns in a reachable
    state, the granted size is what a fresh allocation of [n] bytes is
    granted: the block size of the first class of the ladder that holds
    [n] bytes, or [n] itself when no class does, in which case the new
    block is registered in the external tree; and the block stays where it
    is exactly when the granted size is the block size of its pool.  *)
Theorem X20_realloc_of_pool_block (w : tbman_s) (sys a : Z) (tm : token_manager_s)
    (p n r g : Z) (w' : tbman_s) :
  reachable w → pools w !! a = Some tm → tm_live a tm p → 1 ≤ n < 2 ^ 64 →
  tbman_s_alloc sys p n w = Ok ((r, g), w') →
  (r = p ↔ g = tm_block_size tm)
  ∧ match find_block_manager w n with
    | Some c => block_size_array w !! c = Some g
    | None => g = n ∧ (r, n) ∈ external_btree w'
    end.
Proof.
  intros Hr Ha Hl Hn H. destruct (reachable_wf w Hr) as [Hwf Hmu].
  destruct (wf_pool w (proj1 Hwf) a tm Ha) as (Hok & _).
  destruct (pool_range w a tm p (proj1 Hwf) Ha Hl) as [Hrange _].
  pose proof (tm_ok_addr _ _ Hok) as Hpos.
  unfold tbman_s_alloc in H. apply lock_guard_Ok in H as (_ & wb & Hb & ->).
  replace (n =? 0) with false in Hb by (symmetry; apply Z.eqb_neq; lia).
  replace (p =? 0) with false in Hb by (symmetry; apply Z.eqb_neq; lia).
  cbn [negb] in Hb.
  exact (tbman_s_mem_realloc_internal sys p None n _ a tm r g wb (wf_locked w Hwf)
           Ha Hl ltac:(lia) Hb).
Qed.

(** X20 on the example: the block 4352 of the class of 256 bytes is
    reallocated to 100 bytes, which the class of 128 bytes holds. *)
Lemma X20_realloc_of_pool_block_witness :
  (8320 = 4352 ↔ 128 = tm_block_size ex_one_tm)
  ∧ match find_block_manager ex_one 100 with
    | Some c => block_size_array ex_one !! c = Some 128
    | None => 128 = 100 ∧ (8320, 100) ∈ external_btree ex_moved
    end.
Proof.
  apply (X20_realloc_of_pool_block ex_one 8192 4096 ex_one_tm 4352 100 8320 128 ex_moved).
  - apply ex_one_reachable.
  - apply ex_one_pool.
  - apply ex_one_live.
  - lia.
  - apply ex_moved_run.
Defined.

(** X21: reallocating an external block.  When [tbman_s_alloc (p, n)] with
    [p] registered in the external tree with [cur] bytes and n >= 1 returns
    in a reachable state: for n <= [max_block_size] the block moves, [p]
    leaves the external tree, and the granted size is that of a fresh
    allocation of [n] bytes; for a larger [n] with cur / 2 <= n < cur the
    block is kept, with its registered size as the granted size, and no
    tree changes; otherwise the platform is asked for a new block of [n]
    bytes, which replaces [p] in the external tree. *)
Theorem X21_realloc_of_external_block (w : tbman_s) (sys p cur n r g : Z) (w' : tbman_s) :
  reachable w → ps_val (external_btree w) p = Some cur → 1 ≤ n < 2 ^ 64 →
  tbman_s_alloc sys p n w = Ok ((r, g), w') →
  if n <=? max_block_size w then
    r ≠ p ∧ (∀ sz, (p, sz) ∉ external_btree w')
    ∧ match find_block_manager w n with
      | Some c => block_size_array w !! c = Some g
      | None => g = n ∧ (r, n) ∈ external_btree w'
      end
  else if (n <? cur) && (cur / 2 <=? n) then
    r = p ∧ g = cur ∧ external_btree w' = external_btree w ∧ pools w' = pools w
  else
    r ≠ p ∧ g = n
    ∧ external_btree w' = (r, n) :: filter (λ kv, fst kv ≠ p) (external_btree w)
    ∧ pools w' = pools w.
Proof.
  intros Hr Hcur Hn H. destruct (reachable_wf w Hr) as [Hwf Hmu].
  destruct (wf_ext w (proj1 Hwf) p cur (ps_val_Some _ _ _ Hcur)) as (Hpos & _).
  unfold tbman_s_alloc in H. apply lock_guard_Ok in H as (_ & wb & Hb & ->).
  replace (n =? 0) with false in Hb by (symmetry; apply Z.eqb_neq; lia).
  replace (p =? 0) with false in Hb by (symmetry; apply Z.eqb_neq; lia).
  cbn [negb] in Hb.
  exact (tbman_s_mem_realloc_external sys p None n _ cur r g wb (wf_locked w Hwf)
           Hcur ltac:(lia) Hb).
Qed.

(** X21 on the example with the short ladder: the external block of 100
    bytes at 8192 is reallocated to 60 bytes and moves into a pool. *)
Lemma X21_realloc_of_external_block_witness :
  if 60 <=? max_block_size ex_external then
    16512 ≠ 8192 ∧ (∀ sz, (8192, sz) ∉ external_btree ex_external_moved)
    ∧ match find_block_manager ex_external 60 with
      | Some c => block_size_array ex_external !! c = Some 64
      | None => 64 = 60 ∧ (16512, 60) ∈ external_btree ex_external_moved
      end
  else if (60 <? 100) && (100 / 2 <=? 60) then
    16512 = 8192 ∧ 64 = 100
    ∧ external_btree ex_external_moved = external_btree ex_external
    ∧ pools ex_external_moved = pools ex_external
  else
    16512 ≠ 8192 ∧ 64 = 60
    ∧ external_btree ex_external_moved
      = (16512, 60) :: filter (λ kv, fst kv ≠ 8192) (external_btree ex_external)
    ∧ pools ex_external_moved = pools ex_external.
Proof.
  apply (X21_realloc_of_external_block ex_external 16384 8192 100 60 16512 64
           ex_external_moved).
  - apply ex_external_reachable.
  - apply ex_external_val.
  - lia.
  - apply ex_external_moved_run.
Defined.

(** ** The walk over all instances *)



(** ** Allocation and the platform *)

(** X23: while a pool of the class has room, allocation does not go to
    the platform.  In a reachable state, for a request of n >= 1 bytes
    served by a class whose block manager has [free_index < size], the
    block is taken from the pool at [free_index]: [tbman_s_alloc (null, n)]
    returns, whatever the platform would answer, the block named by the
    token at [stack_index] of that pool, with the pool's block size as the
    granted size; no pool is created or destroyed and the pool-address
    tree is left alone. *)
Theorem X23_alloc_from_pool_with_room (w : tbman_s) (c : nat) (bm : block_manager_s)
    (n : Z) :
  reachable w → 1 ≤ n < 2 ^ 64 →
  find_block_manager w n = Some c → data w !! c = Some bm →
  (bm_free_index bm < bm_size bm)%nat →
  ∃ a tm t,
    bm_data bm !! bm_free_index bm = Some a ∧ pools w !! a = Some tm
    ∧ tm_token_stack tm !! Z.to_nat (tm_stack_index tm) = Some t
    ∧ ∀ sys, ∃ w',
        tbman_s_alloc sys 0 n w = Ok ((a + t * tm_block_size tm, tm_block_size tm), w')
        ∧ internal_btree w' = internal_btree w
        ∧ ∀ x, is_Some (pools w' !! x) ↔ is_Some (pools w !! x).
Proof.
  intros Hr Hn Hfind Hc Hlt. destruct (reachable_wf w Hr) as [Hwf Hmu].
  set (wl := set_mutex true (set_trace (λ l, l ++ [EvLock]) w)).
  assert (Hwfl : wf wl) by (by apply wf_locked).
  destruct (block_manager_s_alloc_reuse 0 c wl bm Hwfl Hc Hlt)
    as (a & tm & t & _ & _ & Hk & Ha & Ht & _).
  exists a, tm, t. split; [done|]. split; [done|]. split; [done|]. intros sys.
  destruct (block_manager_s_alloc_reuse sys c wl bm Hwfl Hc Hlt)
    as (a' & tm' & t' & w' & bm' & Hk' & Ha' & Ht' & Hrun & Hpools & Htree & _ & Hc' & HB
        & _).
  assert (a' = a) as -> by congruence. assert (tm' = tm) as -> by congruence.
  assert (t' = t) as -> by congruence.
  change (pools wl) with (pools w) in Ha.
  destruct (wf_pool w (proj1 Hwf) a tm Ha) as (_ & _ & bm0 & Hc0 & _ & HB0).
  destruct (wf_slot w (proj1 Hwf) c bm _ a Hc Hk) as (tm0 & Ha0 & Hpar & _).
  assert (tm0 = tm) as -> by congruence. rewrite Hpar in Hc0.
  assert (bm0 = bm) as -> by congruence.
  eexists. split; [|split].
  - unfold tbman_s_alloc. apply lock_guard_intro; [done|].
    replace (n =? 0) with false by (symmetry; apply Z.eqb_neq; lia).
    cbn [Z.eqb negb]. unfold tbman_s_mem_alloc. mstep.
    change (find_block_manager _ n) with (find_block_manager w n). rewrite Hfind.
    eapply bind_intro; [exact Hrun|]. cbv beta. mget_bm Hc'.
    rewrite HB, <- HB0. reflexivity.
  - exact Htree.
  - intros x. cbn. rewrite Hpools. destruct (decide (x = a)) as [->|Hne].
    + rewrite lookup_insert_eq. split; [intros _|]; eauto.
    + by rewrite lookup_insert_ne.
Qed.

(** X23 on the example with one live block: the pool at 4096 has room. *)
Lemma X23_alloc_from_pool_with_room_witness :
  ∃ a tm t,
    bm_data ex_bm !! bm_free_index ex_bm = Some a ∧ pools ex_one !! a = Some tm
    ∧ tm_token_stack tm !! Z.to_nat (tm_stack_index tm) = Some t
    ∧ ∀ sys, ∃ w',
        tbman_s_alloc sys 0 200 ex_one
        = Ok ((a + t * tm_block_size tm, tm_block_size tm), w')
        ∧ internal_btree w' = internal_btree ex_one
        ∧ ∀ x, is_Some (pools w' !! x) ↔ is_Some (pools ex_one !! x).
Proof.
  apply (X23_alloc_from_pool_with_room ex_one 2 ex_bm 200).
  - apply ex_one_reachable.
  - lia.
  - vm_compute. reflexivity.
  - vm_compute. reflexivity.
  - vm_compute. lia.
Defined.

(** X24: when the platform has no memory.  In a reachable state, with a
    platform that answers null, [tbman_s_alloc (null, n)] for n >= 1 does
    not return: a request that no class of the ladder holds stops with the
    fatal error of the failed allocation, and so does, with some error, a
    request to a class whose pools are all full ([free_index == size]). *)
Theorem X24_platform_out_of_memory (w : tbman_s) (n : Z) :
  reachable w → 1 ≤ n < 2 ^ 64 →
  match find_block_manager w n with
  | None => tbman_s_alloc 0 0 n w = Err Fatal
  | Some c => ∀ bm, data w !! c = Some bm → bm_free_index bm = bm_size bm →
                    ∃ e, tbman_s_alloc 0 0 n w = Err e
  end.
Proof.
  intros Hr Hn. destruct (reachable_wf w Hr) as [Hwf Hmu].
  set (wl := set_mutex true (set_trace (λ l, l ++ [EvLock]) w)).
  destruct (find_block_manager w n) as [c|] eqn:Hfind.
  - intros bm Hc Hfull.
    destruct (token_manager_s_create_null
                (bm_pool_size bm) (bm_block_size bm) (bm_align bm) wl) as [e He].
    exists e. unfold tbman_s_alloc. apply lock_guard_Err; [done|].
    replace (n =? 0) with false by (symmetry; apply Z.eqb_neq; lia).
    cbn [Z.eqb negb]. unfold tbman_s_mem_alloc. mstep.
    change (find_block_manager _ n) with (find_block_manager w n). rewrite Hfind.
    apply bind_Err. unfold block_manager_s_alloc. mget_bm Hc.
    rewrite Hfull, Nat.eqb_refl. cbn [when]. apply bind_Err, bind_Err.
    destruct (bm_size bm =? bm_space bm)%nat; exact He.
  - unfold tbman_s_alloc. apply lock_guard_Err; [done|].
    replace (n =? 0) with false by (symmetry; apply Z.eqb_neq; lia).
    cbn [Z.eqb negb]. unfold tbman_s_mem_alloc. mstep.
    change (find_block_manager _ n) with (find_block_manager w n). rewrite Hfind.
    reflexivity.
Qed.

(** X24 on the example whose only pool of the class of 256 bytes is full. *)
Lemma X24_platform_out_of_memory_witness :
  match find_block_manager ex_three 200 with
  | None => tbman_s_alloc 0 0 200 ex_three = Err Fatal
  | Some c => ∀ bm, data ex_three !! c = Some bm → bm_free_index bm = bm_size bm →
                    ∃ e, tbman_s_alloc 0 0 200 ex_three = Err e
  end.
Proof.
  apply (X24_platform_out_of_memory ex_three 200); [apply ex_three_reachable|lia].
Defined.

(** ** The sweep of empty pools *)

(** X25: in every reachable state no block manager is due for a sweep.
    Its [sweep_hysteresis] is still the 0.125 it was created with, the
    condition [empty_tail > (size - empty_tail) * sweep_hysteresis] of
    [block_manager_s_free_to_empty] is false for the number of its empty
    pools, and so nine times the number of its empty pools is at most the
    number of its pools: the manager never holds on to more empty pools
    than an eighth of the pools in use. *)
Theorem X25_empty_pools_bounded (w : tbman_s) (c : nat) (bm : block_manager_s) :
  reachable w → data w !! c = Some bm →
  bm_sweep_hysteresis bm = (1 # 8)%Q
  ∧ sweep_fires (length (empty_pools (pools w) bm)) (bm_size bm)
                (bm_sweep_hysteresis bm) = false
  ∧ (9 * length (empty_pools (pools w) bm) ≤ bm_size bm)%nat.
Proof.
  intros Hr Hc. destruct (reachable_calm w Hr c bm Hc) as [Hh Hf].
  split; [done|]. rewrite Hh. split; [done|].
  apply sweep_fires_eighth in Hf. lia.
Qed.

(** X25 on the example with one pool in use. *)
Lemma X25_empty_pools_bounded_witness :
  bm_sweep_hysteresis ex_bm = (1 # 8)%Q
  ∧ sweep_fires (length (empty_pools (pools ex_one) ex_bm)) (bm_size ex_bm)
                (bm_sweep_hysteresis ex_bm) = false
  ∧ (9 * length (empty_pools (pools ex_one) ex_bm) ≤ bm_size ex_bm)%nat.
Proof.
  apply (X25_empty_pools_bounded ex_one 2 ex_bm);
    [apply ex_one_reachable|vm_compute; reflexivity].
Defined.
